(* ===== verification/_CoqProject ===== *)
-Q . S2P
Prelude.v
Words.v
Memory.v
Struct.v
Text.v
Stdio.v
Util.v
Hexdump.v
Bitarray.v
BitarrayTest.v
Bson.v
BsonEncode.v
BsonDecode.v
BsonRoundtrip.v
BsonFields.v
BsonPrint.v
BsonTest.v
PartTable.v
Mbr.v
Gpt.v
PtPrint.v
NbdEnv.v
Nbd.v
NbdSpec.v
NbdProps.v
NbdInit.v
NbdMain.v
NbdReconnect.v
Scan.v
RedisEnv.v
Redis.v
RedisProps.v
StoreView.v
KeyValue.v
Filter.v
Queuer.v
QueuerProps.v
InspectLoad.v
InspectEmit.v
InspectLoadProps.v
InspectIndex.v
InspectEmitProps.v
Ext4.v
Ext4Blocks.v
Ext4Props.v
Ext4Extents.v
Ext4Groups.v
Ext4Files.v
Ext4Walk.v
Ntfs.v
NtfsFiles.v
NtfsPrint.v
NtfsProps.v
NtfsData.v
CrawlLoad.v
Crawler.v
CrawlerProps.v
Inspect.v
InspectPrint.v
InspectProps.v
LoadInspect.v
Inferencer.v
InferencerProps.v
NbdInfer.v
GuestWrites.v
InspectDiff.v
DiffExtents.v
InspectNtfs.v
InspectNtfsProps.v
GrayFs.v
GrayFsProps.v
