(* ===== verification/Prelude.v ===== *)
(** * GammaRay for Android: a verification development

    GammaRay watches the disk of a running virtual machine. The crawler
    (src/gray-crawler) reads a disk image off line and writes what it finds,
    partition tables, file systems, files and the sectors they are made of, as
    a stream of BSON documents (src/bson), together with a filter of the blocks
    that hold metadata (src/datastructures). An NBD server (src/nbd) serves the
    image to the virtual machine and pushes every write to a Redis store
    (src/gray-inferencer/redis_queue.c); the inferencer (src/gray-inferencer)
    loads the crawler's documents into the store and turns the writes into
    updates of files. This library models these programs in Rocq, definition
    by definition with the names of the sources, and proves what they do.

    ** How C is modelled

    - [Words]: an object of an integer type is a [Z]; conversions wrap
      ([u8], [u32], [u64], [s32], [s64]); [le_enc]/[le_dec], [be_enc]/[be_dec]
      are its bytes. [cdiv] and [cmod] are undefined for a divisor of 0.
    - [Memory]: an object in memory is the list of its bytes; an access outside
      it has no result, and [None] is C's undefined behaviour (or, where there is fuel, running out
      of it).
      The allocator is an interface ([Malloc]): any function that returns a
      block of the requested size with any contents; [MallocTotal] says that no
      allocation fails. [cptr] is a null, live or freed pointer; freeing or
      reading a freed one has no result.
    - [Struct]: a packed struct is its bytes, read by member name.
    - [Stdio]: a stream is its contents, position and error indicator; a write
      can be short.
    - [Text]: what is printed is the list of the texts with their streams
      ([output]); the conversions of [printf], and src/util/color.c with its test.
    - Static variables and the state of a connection are passed explicitly; a
      loop that may not end has a [fuel] argument, and the theorems give an
      amount of fuel that is enough, or say that none is.

    ** Files and what they model

    - [Util]: src/util/util.c, bit tricks and time differences; [Hexdump]: its
      dumps and pretty printers, with src/util/util-test.c.
    - [Bitarray]: src/datastructures/bitarray.c. The invariant [bitarray_wf] says
      that the storage has room for all bits and [bit_at] is the abstract set;
      [BitarrayTest]: its printers and src/datastructures/bitarray-test.c;
      [Filter]: [bitarray_serialize] there and src/gray-inferencer/qemu_common.c.
    - [Bson], [BsonEncode], [BsonDecode], [BsonRoundtrip], [BsonFields]: src/bson.
      [Bson] has the structs and the grammar of documents ([elem], [enc_doc]),
      the specification both sides are compared with; [BsonEncode] is
      bson-encoder.c and [BsonDecode] bson-decoder.c; [BsonFields] has the
      automation by which the writers of the crawler are shown to produce the
      documents they mean to. [BsonPrint]: bson-util.c and bson-printer.c;
      [BsonTest]: bson-test.c.
    - [PartTable], [Mbr], [Gpt]: src/include/gray-crawler.h and the two partition
      table formats, as instances of the record of operations
      [gray_fs_pt_crawler] that the crawler's loop is written against;
      [PtPrint]: what the two formats print.
    - [Ext4]: superblock, block groups, inodes and their caches of
      src/gray-crawler/ext4/ext4.c; [Ext4Blocks]: its lookups of file blocks;
      [Ext4Files]: the sectors of a file and the walk over the directories that
      writes the documents of the files, with [exit] as an outcome of its own.
      [Ext4Props], [Ext4Extents], [Ext4Groups] and [Ext4Walk]: their properties.
    - [NbdEnv]: libevent's buffers, POSIX files and hiredis' asynchronous
      commands as classes of operations with their documented laws, each with
      an instance on lists that the witnesses use. [Nbd]: the connection state
      machine of src/nbd/nbd.c; [NbdInit]: its three initializers, as the calls
      that can fail and the resources held after each. [NbdSpec]: an abstract
      block server and the relation [serving] between it and a connection.
      [NbdProps]: the properties of the server. [NbdMain]: the programs
      src/nbd/nbd-test.c and nbd-queuer-test.c; [NbdReconnect]: what becomes of
      the server's connection to Redis when it is lost.
    - [RedisEnv]: hiredis and the Redis server as classes. [Redis]:
      src/gray-inferencer/redis_queue.c; [RedisProps]: a step relation of the
      store and its flusher threads, with the commands a flusher has taken over
      before it is registered, and its properties. [Scan]: [strtok] and
      [sscanf] on the store's values. [StoreView]: the abstract view the
      inferencer's theorems use, the commands [issued] between two states.
      [KeyValue]: the words of a command and the server's keys, as a class with
      an instance on finite maps.
    - [Ntfs]: records and attributes of src/gray-crawler/ntfs/ntfs.c, with the
      type [run] of how a call ends; [NtfsFiles]: the data of attributes, the
      documents and the walk over directories. [NtfsProps], [NtfsData]: their
      properties; [NtfsPrint]: the printers.
    - [InspectLoad]: the part of src/gray-inferencer/deep_inspection.c that loads
      the crawler's documents into the store; [InspectEmit]: the updates it
      publishes; [Inspect]: what a write to a sector of an ext4 volume sets off;
      [InspectNtfs]: the same for NTFS. [InspectLoadProps], [InspectIndex],
      [CrawlLoad] (crawler and loader together), [InspectEmitProps],
      [InspectProps], [InspectDiff], [DiffExtents] and [InspectNtfsProps]: their
      properties;
      [LoadInspect]: loader and inspector composed through the keys of the
      store; [InspectPrint]: the printers.
    - The programs. [Crawler]: main of src/gray-crawler/gray-crawler.c, over the
      tables of operations of partition tables and file systems; [Queuer]:
      src/gray-inferencer/gray-ndb-queuer.c, with the stream as the runs of
      bytes [read] finds and the flusher threads as steps between two turns and
      during the exit;
      [Inferencer]: src/gray-inferencer/gray-inferencer.c, by its turns;
      [GrayFs]: the handlers of src/gray-fs/gray-fs.c. [CrawlerProps],
      [QueuerProps], [InferencerProps] and [GrayFsProps]: their properties,
      among them that of queuer and inferencer composed. [NbdInfer]: the NBD
      server and the inferencer composed; [GuestWrites]: the same with a store
      that knows the files the guest writes to.

    ** What the theorems show

    - Documents. What the encoder writes is one wire format, which is the
      grammar's for every element type but regular expressions and scoped code;
      without these a document read back from a file is the one written. A
      short write frees twice. A
      buffer grows by doubling up to 1 GiB; past it the loop does not end.
    - Metadata filter. Bits are set, cleared and read independently; the two
      constructors round the number of bits down to a power of two, which
      loses bits or overflows; a reloaded filter, behind documents of other
      types, keeps an eighth of its bits.
    - Partition tables. Both iterations end, with the entries in order and
      their offsets (32-bit offsets in the MBR); a full GPT is read past its
      end; the documents of a partition are read back as written.
    - ext4. A superblock is accepted for its magic and feature bits. The cache
      of descriptors stands for the table on the disk. Block map and extent
      lookups give the block the map or the tree gives, except for triply
      indirect blocks past a bound, sectors of indirect blocks, everything
      below the last child of an index node, and blocks below the first key of
      one, whose lookup reads another block or does not end. The document of a regular file
      lists the sectors its extents map; the functions that start a walk write
      outside the block of the mount point.
    - NBD. In transmission the server refines the abstract block server,
      however the requests are cut into segments; the handshake reaches
      transmission. Unsupported options, reads at the end of the image, short
      writes, writes without a store and data behind a disconnect request are
      the cases that go wrong. The initializers' resources are accounted for. A
      lost connection to Redis comes back as it was, or commands database 0, or
      no write reaches it.
    - Printing. [hexdump] prints the lines it means to, [bson_print] the elements
      of a document, the pretty printers texts of fewer than 32 bytes; the unit
      tests of the repository pass.
    - Redis store. The number of outstanding commands is right in every reachable
      state; operations that flush the pipeline get their own reply, those that
      do not get an older one; the asynchronous write queue is a FIFO queue.
    - NTFS. Fixups undo the protection of sectors; runs are decoded as encoded,
      except negative distances of some sizes; the search for an attribute ends
      with the first of its type, unless an attribute has no length; data in
      runs is read as it lies on the disk when clusters are whole blocks, and
      data in the record itself is written over a pointer; the document of a
      file has its fields and the sectors of its runs.
    - Inferencer. A stream of documents is loaded as the commands its elements
      call for, in order; an ext4 file the crawler found gets a pointer for
      every mapped block, whose offset is wrong behind a hole. A write is taken
      apart into blocks: unknown ones are queued (on NTFS only the first),
      those of files published; a block of a file the crawler found and the
      loader stored is published on the file's channel as the bytes the loader
      assigned to it. Changed superblocks, block group descriptors, extents and
      NTFS records change exactly what the theorems list: extents overwrite and
      extend the file's list of sectors, a record gives its file the sectors of
      the runs as they are written, which are the crawler's as long as no run
      lies across the end of a sector of the record. A loop whose bound is
      overwritten, writes attributed to another block, holes counted twice, and
      a step of 0 are the cases that go wrong.
    - The programs. The crawl of a disk succeeds exactly when no partition has
      an offset. Every write the queuer reads, however its stream is cut and
      its threads are scheduled, is put into the queue, unless a lock is taken
      and the filter lacks its sector. When the process exits, what is still in
      the pipeline is executed, unless the periodic flusher has taken it over
      and is not yet registered. Each write that is executed is inspected once
      by the inferencer, and so is every write of whole sectors the NBD server gets; if
      the store knows the blocks it writes, exactly their bytes are published.
      The FUSE file system answers with the attributes and names the store has,
      repeats an attribute after a missing one, and cannot read a file that has
      blocks.

    ** Fuel and bounds

    A search for the highest bit takes at most 64 rounds and [new_size] at most
    [new_size_fuel]; a stream of [n] requests or documents takes one round for
    each, a partition table one round per entry and one more, the cache of
    descriptors one per group and one more. The search of an extent tree is
    given the fuel its path needs; on the trees of [path_loops], and others that
    name themselves, the source does not end. In the NTFS crawler one number [k] bounds
    the rounds of every loop: more than the attributes of a record, the runs
    of a file and the blocks of a run is enough. The loader is given a round
    for each document and each element and one more, the inspection one for
    each block of a write and one more, and fuel for the depth to which
    queued writes lead to further writes. The queuer is given a turn for each
    write of its stream and one more, and every read of [n] bytes that many
    calls and one more; the inferencer, which does not end, a number of turns.

    ** What is not modelled

    libevent, hiredis, the Redis server, libfuse and POSIX beyond the interfaces
    above, and iconv. The messages of the programs about errors and progress, and
    their timing; closing files, which nothing depends on. *)
From stdpp Require Export base list list_numbers gmap strings option.
From Stdlib Require Export ZArith Lia.

#[export] Set Default Goal Selector "!".
#[global] Open Scope Z_scope.

(** ** Return codes of the C sources *)

Definition EXIT_SUCCESS : Z := 0.
Definition EXIT_FAILURE : Z := 1.

(** ** Hint databases

    [len]: rewrite rules that compute the length of a list expression, as [Z];
    [wf]: the well-formedness lemmas of the components. *)
Create Rewrite HintDb len.
Create HintDb wf.

(** Length of a list as a [Z]: the C sources count bytes in integers. *)
Abbreviation zlen l := (Z.of_nat (length l)).

(** ** Tactics shared by the proofs *)

(** Case analysis on the boolean and decidable tests of the goal, the way the
    branches of the C code are taken; arithmetic contradictions are closed. *)
Ltac case_test :=
  match goal with
  | |- context [Z.ltb ?a ?b] => destruct (Z.ltb_spec a b)
  | |- context [Z.leb ?a ?b] => destruct (Z.leb_spec a b)
  | |- context [Z.eqb ?a ?b] => destruct (Z.eqb_spec a b)
  | |- context [bool_decide ?P] => destruct (bool_decide_reflect P)
  | |- context [decide ?P] => destruct (decide P)
  end; try (exfalso; lia).

(** Inversion of a successful [option] computation: [H : (x ← e; k) = Some y]
    is split into the equation of [e] and that of its continuation. *)
Ltac bind_inv H :=
  let x := fresh "x" in let E := fresh "E" in
  apply bind_Some in H as (x & E & H).

(** Lengths of list expressions, then linear arithmetic. *)
Ltac len := autorewrite with len in *; try lia.

#[export] Hint Rewrite @length_app @length_map @length_replicate @length_take
  @length_drop @length_insert @length_reverse @length_nil @length_cons
  : len.

(** ** Lists *)

Section lists.
Context {A : Type}.
Implicit Types l : list A.

Lemma take_app_exact l k n : n = length l → take n (l ++ k) = l.
Proof. intros ->. by rewrite take_app_length. Qed.

Lemma drop_app_exact l k n : n = length l → drop n (l ++ k) = k.
Proof. intros ->. by rewrite drop_app_length. Qed.

Lemma list_split_at l n : l = take n l ++ drop n l.
Proof. by rewrite take_drop. Qed.

Lemma Forall_take_drop (P : A → Prop) l n m :
  Forall P l → Forall P (take n (drop m l)).
Proof. intros H. by apply Forall_take, Forall_drop. Qed.
End lists.

(** ** Options *)

Lemma bind_Some_eq {A B} (m : option A) (f : A → option B) (a : A) :
  m = Some a → m ≫= f = f a.
Proof. by intros ->. Qed.

Lemma is_Some_bind {A B} (m : option A) (f : A → option B) (a : A) :
  m = Some a → is_Some (f a) → is_Some (m ≫= f).
Proof. by intros ->. Qed.
