(* ===== verification/Words.v ===== *)
(** * Machine integers and their bytes

    A C object of an integer type of width [w] is a [Z]; the conversions of C
    are [uwrap] (to an unsigned type) and [swrap] (to a signed type, two's
    complement). [le_enc]/[le_dec] are the bytes of such an object in memory
    on the little-endian machines the sources are written for, [be_enc]/
    [be_dec] the network order of the NBD protocol. *)
From S2P Require Import Prelude.

(** ** Wrap-around *)

Definition uwrap (w z : Z) : Z := z `mod` 2 ^ w.
Definition swrap (w z : Z) : Z :=
  let u := z `mod` 2 ^ w in if u <? 2 ^ (w - 1) then u else u - 2 ^ w.

Abbreviation u8 := (uwrap 8).
Abbreviation u16 := (uwrap 16).
Abbreviation u32 := (uwrap 32).
Abbreviation u64 := (uwrap 64).
Abbreviation s32 := (swrap 32).
Abbreviation s64 := (swrap 64).

Lemma uwrap_small w z : 0 ≤ z < 2 ^ w → uwrap w z = z.
Proof. intros. by apply Z.mod_small. Qed.

Lemma uwrap_range w z : 0 ≤ w → 0 ≤ uwrap w z < 2 ^ w.
Proof. intros. apply Z.mod_pos_bound. by apply Z.pow_pos_nonneg. Qed.

Lemma swrap_small w z : 0 < w → - 2 ^ (w - 1) ≤ z < 2 ^ (w - 1) → swrap w z = z.
Proof.
  intros Hw Hz. unfold swrap.
  assert (2 ^ w = 2 * 2 ^ (w - 1)) as E.
  { rewrite <-Z.pow_succ_r by lia. f_equal. lia. }
  destruct (decide (0 ≤ z)).
  - rewrite Z.mod_small by lia. by case_test.
  - replace (z `mod` 2 ^ w) with (z + 2 ^ w).
    + case_test. lia.
    + apply Z.mod_unique_pos with (-1); lia.
Qed.

Lemma swrap_range w z : 0 < w → - 2 ^ (w - 1) ≤ swrap w z < 2 ^ (w - 1).
Proof.
  intros Hw. unfold swrap.
  assert (2 ^ w = 2 * 2 ^ (w - 1)) as E.
  { rewrite <-Z.pow_succ_r by lia. f_equal. lia. }
  pose proof (Z.mod_pos_bound z (2 ^ w)).
  assert (0 < 2 ^ (w - 1)) by (apply Z.pow_pos_nonneg; lia).
  case_test; lia.
Qed.

Lemma swrap_of_uwrap w z : 0 < w → swrap w (uwrap w z) = swrap w z.
Proof. intros. unfold swrap, uwrap. rewrite Z.mod_mod; [done|]. apply Z.pow_nonzero; lia. Qed.

Lemma swrap_uwrap w z : 0 < w → - 2 ^ (w - 1) ≤ z < 2 ^ (w - 1) →
  swrap w (uwrap w z) = z.
Proof.
  intros. rewrite <-(swrap_small w z) at 2 by done.
  unfold swrap, uwrap. rewrite Z.mod_mod; [done|].
  apply Z.pow_nonzero; lia.
Qed.

(** Unsigned division and remainder: undefined when the divisor is 0. *)
Definition cdiv (a b : Z) : option Z := if b =? 0 then None else Some (a `div` b).
Definition cmod (a b : Z) : option Z := if b =? 0 then None else Some (a `mod` b).

Lemma cdiv_pos a b : 0 < b → cdiv a b = Some (a `div` b).
Proof. intros. unfold cdiv. by rewrite (proj2 (Z.eqb_neq b 0)) by lia. Qed.

Lemma cmod_pos a b : 0 < b → cmod a b = Some (a `mod` b).
Proof. intros. unfold cmod. by rewrite (proj2 (Z.eqb_neq b 0)) by lia. Qed.

(** ** Bytes *)

Definition is_byte (b : Z) : Prop := 0 ≤ b < 256.
Abbreviation bytes_ok := (Forall is_byte).

#[export] Instance is_byte_dec b : Decision (is_byte b).
Proof. unfold is_byte. apply _. Defined.

Fixpoint le_enc (n : nat) (z : Z) : list Z :=
  match n with
  | O => []
  | S n => z `mod` 256 :: le_enc n (z `div` 256)
  end.

Fixpoint le_dec (l : list Z) : Z :=
  match l with
  | [] => 0
  | b :: l => b + 256 * le_dec l
  end.

Definition be_enc (n : nat) (z : Z) : list Z := reverse (le_enc n z).
Definition be_dec (l : list Z) : Z := le_dec (reverse l).

Lemma length_le_enc n z : length (le_enc n z) = n.
Proof. revert z. induction n; intros; simpl; auto. Qed.

Lemma length_be_enc n z : length (be_enc n z) = n.
Proof. unfold be_enc. by rewrite length_reverse, length_le_enc. Qed.

#[export] Hint Rewrite length_le_enc length_be_enc : len.

Lemma le_enc_bytes n z : bytes_ok (le_enc n z).
Proof.
  revert z. induction n; intros; simpl; constructor; [|done].
  apply Z.mod_pos_bound. lia.
Qed.

#[export] Hint Resolve le_enc_bytes : wf.

Lemma pow256_S (n : nat) : 2 ^ (8 * Z.of_nat (S n)) = 256 * 2 ^ (8 * Z.of_nat n).
Proof.
  rewrite Nat2Z.inj_succ, <-Z.add_1_r, Z.mul_add_distr_l, Z.pow_add_r by lia.
  lia.
Qed.

Lemma le_dec_enc n z : le_dec (le_enc n z) = z `mod` 2 ^ (8 * Z.of_nat n).
Proof.
  revert z. induction n as [|n IH]; intros z; simpl.
  { by rewrite Z.mod_1_r. }
  change (Z.pos (Pos.of_succ_nat n)) with (Z.of_nat (S n)).
  rewrite IH, pow256_S. rewrite Z.rem_mul_r; [lia|lia|].
  by apply Z.pow_pos_nonneg; lia.
Qed.

Lemma le_enc_app n k z :
  le_enc (n + k) z = le_enc n z ++ le_enc k (z `div` 2 ^ (8 * Z.of_nat n)).
Proof.
  revert z. induction n as [|n IH]; intros z.
  { change (2 ^ (8 * Z.of_nat 0)) with 1. by rewrite Z.div_1_r. }
  rewrite pow256_S. simpl. rewrite IH. do 3 f_equal.
  apply Z.div_div; [lia|]. apply Z.pow_pos_nonneg; lia.
Qed.

Lemma le_dec_range l : bytes_ok l → 0 ≤ le_dec l < 2 ^ (8 * zlen l).
Proof.
  induction 1 as [|b l Hb Hl IH]; simpl; [lia|].
  change (Z.pos (Pos.of_succ_nat (length l))) with (Z.of_nat (S (length l))).
  rewrite pow256_S. unfold is_byte in Hb. lia.
Qed.

Lemma le_enc_dec n l : bytes_ok l → length l = n → le_enc n (le_dec l) = l.
Proof.
  intros Hl <-. induction Hl as [|b l Hb Hl IH]; simpl; [done|].
  unfold is_byte in Hb. f_equal.
  - rewrite (Z.mul_comm 256), Z.mod_add, Z.mod_small; lia.
  - by rewrite (Z.mul_comm 256), Z.div_add, (Z.div_small b), Z.add_0_l by lia.
Qed.

Lemma le_dec_enc_u (n : nat) w z :
  w = 8 * Z.of_nat n → le_dec (le_enc n z) = uwrap w z.
Proof. intros ->. apply le_dec_enc. Qed.

Lemma le_dec_enc_small n z :
  0 ≤ z < 2 ^ (8 * Z.of_nat n) → le_dec (le_enc n z) = z.
Proof. intros. rewrite le_dec_enc. by apply Z.mod_small. Qed.

(** A number of one byte. *)
Lemma le_enc4_byte z : 0 ≤ z < 256 → le_enc 4 z = [z; 0; 0; 0].
Proof.
  intros. rewrite <-(le_enc_dec 4 [z; 0; 0; 0]).
  - f_equal. simpl. lia.
  - repeat constructor; lia.
  - done.
Qed.

Lemma le_enc_mod (n : nat) z : le_enc n (z `mod` 2 ^ (8 * Z.of_nat n)) = le_enc n z.
Proof.
  rewrite <-le_dec_enc. apply le_enc_dec; [apply le_enc_bytes|apply length_le_enc].
Qed.

Lemma be_dec_enc n z : be_dec (be_enc n z) = z `mod` 2 ^ (8 * Z.of_nat n).
Proof. unfold be_dec, be_enc. by rewrite reverse_involutive, le_dec_enc. Qed.

Lemma le_dec_zeros n : le_dec (replicate n 0) = 0.
Proof. induction n; simpl; lia. Qed.

#[global] Opaque le_enc.
#[global] Arguments uwrap : simpl never.
#[global] Arguments swrap : simpl never.

(** ** Strings as bytes; [cstr] is a C string literal with its terminator. *)

Definition str_bytes (s : string) : list Z :=
  map (λ c, Z.of_N (Ascii.N_of_ascii c)) (String.list_ascii_of_string s).
Definition cstr (s : string) : list Z := str_bytes s ++ [0].

Lemma str_bytes_ok s : bytes_ok (str_bytes s).
Proof.
  unfold str_bytes. induction (String.list_ascii_of_string s) as [|c l IH];
    simpl; constructor; [|done].
  pose proof (Ascii.N_ascii_bounded c). unfold is_byte. lia.
Qed.

#[export] Hint Resolve str_bytes_ok : wf.

(** [snprintf("%" PRIu64)]: the decimal digits of an unsigned number. *)
Fixpoint decimal_digits (fuel : nat) (z : Z) : list Z :=
  match fuel with
  | O => []
  | S fuel => (if z <? 10 then [] else decimal_digits fuel (z `div` 10)) ++ [48 + z `mod` 10]
  end.
Definition decimal (z : Z) : list Z := decimal_digits 20 z.

Lemma decimal_digits_range fuel z : Forall (λ d, 48 ≤ d < 58) (decimal_digits fuel z).
Proof.
  revert z. induction fuel as [|fuel IH]; intros z; cbn [decimal_digits]; [done|].
  apply Forall_app. split; [by destruct (z <? 10)|].
  constructor; [|done]. pose proof (Z.mod_pos_bound z 10). lia.
Qed.

Lemma decimal_digits_length fuel z : (length (decimal_digits fuel z) ≤ fuel)%nat.
Proof.
  revert z. induction fuel as [|fuel IH]; intros z; cbn [decimal_digits]; [done|].
  rewrite length_app. specialize (IH (z `div` 10)). destruct (z <? 10); simpl; lia.
Qed.

(** ** Bits *)

Lemma testbit_high v n m : 0 ≤ v < 2 ^ n → n ≤ m → Z.testbit v m = false.
Proof.
  intros Hv Hm. destruct (decide (0 ≤ n)).
  - rewrite <-(Z.mod_small v (2 ^ n)) by done. apply Z.mod_pow2_bits_high. lia.
  - rewrite Z.pow_neg_r in Hv; lia.
Qed.

Lemma land_pow2_disjoint v n : 0 ≤ v < 2 ^ n → Z.land v (2 ^ n) = 0.
Proof.
  intros Hv. destruct (decide (0 ≤ n)); [|rewrite Z.pow_neg_r in Hv; lia].
  apply Z.bits_inj_iff'. intros m Hm. rewrite Z.land_spec, Z.bits_0,
    Z.pow2_bits_eqb by lia. destruct (Z.eqb_spec n m); [|by rewrite andb_false_r].
  by rewrite (testbit_high v n) by lia.
Qed.

Lemma lor_disjoint_add a b : Z.land a b = 0 → Z.lor a b = a + b.
Proof. intros. symmetry. by apply Z.add_nocarry_lor. Qed.

Lemma land_ones_pred v n : 0 ≤ n → Z.land v (2 ^ n - 1) = v `mod` 2 ^ n.
Proof. intros. rewrite <-Z.land_ones by done. f_equal. rewrite Z.ones_equiv. lia. Qed.

(** Flipping the sign bit and subtracting its weight extends the sign. *)
Lemma flip_sign_bit w v : 0 < w → 0 ≤ v < 2 ^ w →
  Z.lxor v (2 ^ (w - 1)) - 2 ^ (w - 1) = swrap w v.
Proof.
  intros Hw Hv. unfold swrap. rewrite Z.mod_small by done.
  assert (2 ^ w = 2 * 2 ^ (w - 1)) as E.
  { rewrite <-Z.pow_succ_r by lia. f_equal. lia. }
  assert (0 < 2 ^ (w - 1)) by (apply Z.pow_pos_nonneg; lia).
  case_test.
  - rewrite <-Z.add_nocarry_lxor by (apply land_pow2_disjoint; lia). lia.
  - replace v with ((v - 2 ^ (w - 1)) + 2 ^ (w - 1)) at 1 by lia.
    rewrite Z.add_nocarry_lxor by (apply land_pow2_disjoint; lia).
    rewrite Z.lxor_assoc, Z.lxor_nilpotent, Z.lxor_0_r. lia.
Qed.

Lemma pow2_bracket a b n :
  0 ≤ a → 0 ≤ b → 2 ^ a ≤ n < 2 ^ (a + 1) → 2 ^ b ≤ n < 2 ^ (b + 1) → a = b.
Proof.
  intros Ha Hb Hn Hm.
  rewrite <-(Z.log2_unique n a), <-(Z.log2_unique n b); [done|..]; auto with lia;
    by rewrite <-Z.add_1_r.
Qed.
