(* ===== verification/Memory.v ===== *)
(** * C memory: byte blocks, C strings, allocation

    A memory object is the list of its bytes; an access outside the object is
    undefined behaviour and has no result ([None]). The contents of freshly
    allocated memory are indeterminate: [Malloc] is the allocator, any function
    that returns blocks of the requested size, and every theorem about code
    that allocates holds for all of them. *)
From S2P Require Import Prelude Words.

(** ** Access to a block *)

Definition mem_read (m : list Z) (off n : Z) : option (list Z) :=
  if bool_decide (0 ≤ off ∧ 0 ≤ n ∧ off + n ≤ zlen m)
  then Some (take (Z.to_nat n) (drop (Z.to_nat off) m)) else None.

Definition mem_write (m : list Z) (off : Z) (d : list Z) : option (list Z) :=
  if bool_decide (0 ≤ off ∧ off + zlen d ≤ zlen m)
  then Some (take (Z.to_nat off) m ++ d ++ drop (Z.to_nat off + length d) m)
  else None.

Definition mem_byte (m : list Z) (off : Z) : option Z :=
  if bool_decide (0 ≤ off) then m !! Z.to_nat off else None.

(** Little-endian integer of [n] bytes at [off]. *)
Definition mem_le (n : nat) (m : list Z) (off : Z) : option Z :=
  d ← mem_read m off (Z.of_nat n); Some (le_dec d).

Lemma mem_read_app pre d post off n :
  off = zlen pre → n = zlen d → mem_read (pre ++ d ++ post) off n = Some d.
Proof.
  intros -> ->. unfold mem_read. case_test; len.
  rewrite !Nat2Z.id, drop_app_length. by rewrite take_app_length.
Qed.

Lemma mem_read_prefix m n :
  0 ≤ n ≤ zlen m → mem_read m 0 n = Some (take (Z.to_nat n) m).
Proof. intros. unfold mem_read. by case_test. Qed.

Lemma mem_read_length m off n d : mem_read m off n = Some d → zlen d = n.
Proof.
  unfold mem_read. case_test; intros; simplify_eq. rewrite length_take, length_drop.
  lia.
Qed.

Lemma mem_read_bytes m off n d : bytes_ok m → mem_read m off n = Some d → bytes_ok d.
Proof.
  intros Hm. unfold mem_read. case_test; intros E; [|done]. simplify_eq.
  by apply Forall_take_drop.
Qed.

Lemma mem_read_range m off n d :
  mem_read m off n = Some d → 0 ≤ off ∧ 0 ≤ n ∧ off + n ≤ zlen m.
Proof. unfold mem_read. by case_bool_decide. Qed.

Lemma mem_read_oob m off n : zlen m < off + n → mem_read m off n = None.
Proof. intros. unfold mem_read. by case_test. Qed.

Lemma mem_write_length m off d m' :
  mem_write m off d = Some m' → length m' = length m.
Proof. unfold mem_write. case_test; intros; simplify_eq. len. Qed.

Lemma mem_write_take m off d m' :
  mem_write m off d = Some m' →
  take (Z.to_nat (off + zlen d)) m' = take (Z.to_nat off) m ++ d.
Proof.
  unfold mem_write. case_test; intros; simplify_eq.
  rewrite app_assoc. apply take_app_exact. len.
Qed.

Lemma mem_write_is_Some m off d :
  0 ≤ off → off + zlen d ≤ zlen m → is_Some (mem_write m off d).
Proof. intros. unfold mem_write. by case_test. Qed.

Lemma mem_write_app pre old d post off :
  off = zlen pre → length old = length d →
  mem_write (pre ++ old ++ post) off d = Some (pre ++ d ++ post).
Proof.
  intros -> Hl. unfold mem_write. case_test; len.
  rewrite Nat2Z.id, take_app_length. do 3 f_equal.
  rewrite app_assoc, drop_app_exact; [done|]. len.
Qed.

Lemma mem_byte_app pre b post off :
  off = zlen pre → mem_byte (pre ++ b :: post) off = Some b.
Proof.
  intros ->. unfold mem_byte. case_test.
  by rewrite Nat2Z.id, list_lookup_middle.
Qed.

Lemma mem_le_app n pre z post off :
  off = zlen pre → mem_le n (pre ++ le_enc n z ++ post) off
                   = Some (z `mod` 2 ^ (8 * Z.of_nat n)).
Proof.
  intros ->. unfold mem_le. rewrite (mem_read_app _ (le_enc n z)); len.
  simpl. by rewrite le_dec_enc.
Qed.

(** ** C strings *)

(** [strlen]: [None] when the block has no terminator. *)
Fixpoint cstrlen (l : list Z) : option Z :=
  match l with
  | [] => None
  | b :: l => if b =? 0 then Some 0 else n ← cstrlen l; Some (n + 1)
  end.

(** The characters of the C string at offset [off], without terminator. *)
Definition cstr_at (m : list Z) (off : Z) : option (list Z) :=
  if bool_decide (0 ≤ off) then
    n ← cstrlen (drop (Z.to_nat off) m); mem_read m off n
  else None.

Lemma cstrlen_app s r :
  Forall (λ b, b ≠ 0) s → cstrlen (s ++ 0 :: r) = Some (zlen s).
Proof.
  induction 1 as [|b s Hb Hs IH]; simpl; [done|].
  case_test. rewrite IH. simpl. f_equal. lia.
Qed.

Lemma cstrlen_bounds l n : cstrlen l = Some n → 0 ≤ n < zlen l.
Proof.
  revert n. induction l as [|b l IH]; intros n; simpl; [done|].
  destruct (b =? 0); [intros; simplify_eq; lia|].
  destruct (cstrlen l) as [x|]; simpl; intros E; [|done].
  specialize (IH x eq_refl). simplify_eq. lia.
Qed.

Lemma cstr_at_app pre s post off :
  off = zlen pre → Forall (λ b, b ≠ 0) s →
  cstr_at (pre ++ s ++ 0 :: post) off = Some s.
Proof.
  intros -> Hs. unfold cstr_at. case_test.
  rewrite Nat2Z.id, drop_app_length, cstrlen_app by done. simpl.
  by apply mem_read_app.
Qed.

(** Lexicographic tests of [strcmp]/[strncmp] against 0. *)
Definition streq (a b : list Z) : bool := bool_decide (a = b).

(** ** Allocation *)

Class Malloc := {
  malloc : Z → option (list Z);
  indeterminate : Z;  (** the value of an uninitialised integer object *)
  malloc_length n m : malloc n = Some m → zlen m = n;
}.

(** No allocation fails. *)
Class MallocTotal `{Malloc} := malloc_total n : 0 ≤ n < 2 ^ 63 → is_Some (malloc n).

(** A concrete allocator, used by the witnesses. *)
Definition zero_malloc (n : Z) : option (list Z) :=
  if 0 <=? n then Some (replicate (Z.to_nat n) 0) else None.

Lemma zero_malloc_length n m : zero_malloc n = Some m → zlen m = n.
Proof. unfold zero_malloc. case_test; intros; simplify_eq. len. Qed.

#[export] Instance malloc_zero : Malloc | 100 :=
  {| malloc := zero_malloc; indeterminate := 0;
     malloc_length := zero_malloc_length |}.

#[export] Instance malloc_zero_total : @MallocTotal malloc_zero.
Proof. intros n Hn. simpl. unfold zero_malloc. case_test. by eexists. Qed.

(** ** Pointers to heap blocks: null, live, or dangling after [free]. *)
Inductive cptr :=
  | PNull
  | PLive (m : list Z)
  | PDangling.

Definition deref (p : cptr) : option (list Z) :=
  match p with PLive m => Some m | _ => None end.

Definition is_null (p : cptr) : bool :=
  match p with PNull => true | _ => false end.

(** [free(p)]: undefined on a pointer that has been freed. *)
Definition cfree (p : cptr) : option cptr :=
  match p with
  | PNull => Some PNull
  | PLive _ => Some PDangling
  | PDangling => None
  end.

(** [p = malloc(n)] *)
Definition cmalloc `{Malloc} (n : Z) : cptr :=
  match malloc n with Some m => PLive m | None => PNull end.

Lemma cmalloc_live `{MallocTotal} n : 0 ≤ n < 2 ^ 63 → ∃ m, cmalloc n = PLive m ∧ zlen m = n.
Proof.
  intros Hn. unfold cmalloc. destruct (malloc_total n Hn) as [m E]. rewrite E.
  exists m. split; [done|]. by eapply malloc_length.
Qed.

(** [realloc(p, n)]: the common prefix is kept, the rest is indeterminate. *)
Definition crealloc `{Malloc} (p : cptr) (n : Z) : option cptr :=
  match p with
  | PNull => Some (cmalloc n)
  | PLive m =>
      Some (match malloc n with
            | Some b => PLive (take (Z.to_nat n) m ++ drop (length m) b)
            | None => PNull
            end)
  | PDangling => None
  end.

Lemma crealloc_live `{MallocTotal} p n :
  0 ≤ n < 2 ^ 63 → p ≠ PDangling → ∃ m, crealloc p n = Some (PLive m) ∧ zlen m = n.
Proof.
  intros Hn Hp. destruct p as [|b|]; simpl; [|destruct (malloc_total n Hn) as [m E]|done].
  - destruct (cmalloc_live n Hn) as (m & -> & Hm). by eauto.
  - rewrite E. eexists. split; [done|]. apply malloc_length in E.
    autorewrite with len. lia.
Qed.
