(* ===== verification/Struct.v ===== *)
(** * Packed C structs

    A struct declared [__attribute__((packed))] is the list of its members
    with their sizes; a struct object is its bytes, as [fread] fills it or
    a pointer cast reads it. *)
From S2P Require Import Prelude Words Memory.

Definition layout := list (string * nat).

Fixpoint sizeof (L : layout) : nat :=
  match L with [] => 0%nat | (_, n) :: L => (n + sizeof L)%nat end.

(** Offset and size of a member. *)
Fixpoint offset_of (L : layout) (f : string) : option (nat * nat) :=
  match L with
  | [] => None
  | (g, n) :: L =>
      if String.eqb f g then Some (0%nat, n)
      else '(o, k) ← offset_of L f; Some ((n + o)%nat, k)
  end.

(** The bytes of a member; [fget] is the member of an integer type. *)
Definition fbytes (L : layout) (f : string) (m : list Z) : list Z :=
  match offset_of L f with
  | Some (o, n) => take n (drop o m)
  | None => []
  end.

Definition fget (L : layout) (f : string) (m : list Z) : Z := le_dec (fbytes L f m).

(** [s.f = z] *)
Definition fset (L : layout) (f : string) (z : Z) (m : list Z) : list Z :=
  match offset_of L f with
  | Some (o, n) => take o m ++ le_enc n z ++ drop (o + n) m
  | None => m
  end.

(** The bytes of the struct whose members have the values [vs], in order. *)
Fixpoint struct_enc (L : layout) (vs : list Z) : list Z :=
  match L, vs with
  | (_, n) :: L, v :: vs => le_enc n v ++ struct_enc L vs
  | _, _ => []
  end.

Lemma offset_of_bound L f o n :
  offset_of L f = Some (o, n) → (o + n ≤ sizeof L)%nat.
Proof.
  revert o. induction L as [|[g k] L IH]; intros o; simpl; [done|].
  destruct (String.eqb f g); intros E; simplify_eq; [lia|].
  destruct (offset_of L f) as [[o' n']|]; simplify_eq/=.
  specialize (IH _ eq_refl). lia.
Qed.

Lemma fget_range L f m o n :
  bytes_ok m → offset_of L f = Some (o, n) → 0 ≤ fget L f m < 2 ^ (8 * Z.of_nat n).
Proof.
  intros Hm E. unfold fget, fbytes. rewrite E.
  pose proof (le_dec_range (take n (drop o m))) as H.
  destruct H as [H1 H2]; [by apply Forall_take_drop|].
  split; [done|]. eapply Z.lt_le_trans; [exact H2|].
  apply Z.pow_le_mono_r; len.
Qed.

Lemma fget_nonneg L f m : bytes_ok m → 0 ≤ fget L f m.
Proof.
  intros Hm. unfold fget, fbytes. destruct (offset_of L f) as [[o k]|]; [|done].
  apply le_dec_range. by apply Forall_take_drop.
Qed.

Lemma fget_fset_eq L f z m o n :
  offset_of L f = Some (o, n) → (sizeof L ≤ length m)%nat →
  fget L f (fset L f z m) = z `mod` 2 ^ (8 * Z.of_nat n).
Proof.
  intros E Hl. pose proof (offset_of_bound _ _ _ _ E).
  unfold fget, fset, fbytes. rewrite E.
  rewrite drop_app_exact by (len). rewrite take_app_exact by len.
  apply le_dec_enc.
Qed.

(** Reading inside an array member is reading inside the struct. *)
Lemma fbytes_read L f m o k a n :
  offset_of L f = Some (o, k) → (o + k ≤ length m)%nat → 0 ≤ a → 0 ≤ n →
  a + n ≤ Z.of_nat k →
  mem_read (fbytes L f m) a n =
  Some (take (Z.to_nat n) (drop (o + Z.to_nat a) m)).
Proof.
  intros E Hl Ha Hn Hk. unfold fbytes, mem_read. rewrite E.
  rewrite bool_decide_true by (rewrite length_take, length_drop; lia).
  rewrite skipn_firstn_comm, drop_drop, take_take. do 2 f_equal. lia.
Qed.
