(* ===== verification/Text.v ===== *)
(** * Formatted text

    The conversions of the C library's [printf] the printing functions of the
    program use, as functions to lists of character codes: [%x], [%d], [%u],
    and the decimal expansions [%f], with their rounding to the nearest decimal,
    ties to even. A [long double] has a 64-bit, a 113-bit or a 53-bit mantissa,
    depending on the machine; [LongDouble] is its width. *)
From S2P Require Import Prelude Words.

(** ** Padding *)

Definition SP : Z := 32.
Definition NL : Z := 10.

Definition pad_left (c : Z) (w : nat) (s : list Z) : list Z :=
  replicate (w - length s) c ++ s.

Definition pad_right (c : Z) (w : nat) (s : list Z) : list Z :=
  s ++ replicate (w - length s) c.

(** ** Integers *)

Definition hex_digit (d : Z) : Z := if d <? 10 then 48 + d else 87 + d.

Fixpoint hex_digits (fuel : nat) (z : Z) : list Z :=
  match fuel with
  | O => []
  | S fuel => (if z <? 16 then [] else hex_digits fuel (z `div` 16)) ++ [hex_digit (z `mod` 16)]
  end.

(** [%.<w>x] of an unsigned number of at most 64 bits: 16 digits are enough. *)
Definition fmt_x (w : nat) (z : Z) : list Z := pad_left 48 w (hex_digits 16 z).

(** [%d] *)
Definition fmt_d (z : Z) : list Z :=
  if z <? 0 then 45 :: decimal (- z) else decimal z.

(** [%.<w>d] of a natural number, [%<w>d] of an integer *)
Definition fmt_0d (w : nat) (z : Z) : list Z := pad_left 48 w (decimal z).
Definition fmt_wd (w : nat) (z : Z) : list Z := pad_left SP w (fmt_d z).

(** ** Decimal expansions *)

(** The integer nearest to [n / d], ties to even. *)
Definition round_even (n d : Z) : Z :=
  let q := n `div` d in
  let r := 2 * (n `mod` d) in
  if r <? d then q else if d <? r then q + 1 else if Z.even q then q else q + 1.

(** [%.<p>f] of the number [n / d], both natural. The integer part may have up
    to 309 digits. *)
Definition fmt_fixed (p : nat) (n d : Z) : list Z :=
  let v := round_even (n * 10 ^ Z.of_nat p) d in
  decimal_digits 309 (v `div` 10 ^ Z.of_nat p) ++
  46 :: pad_left 48 p (decimal_digits p (v `mod` 10 ^ Z.of_nat p)).

(** [m * 2^e] as a fraction. *)
Definition dyadic (m e : Z) : Z * Z := if 0 <=? e then (m * 2 ^ e, 1) else (m, 2 ^ (- e)).

(** [%f] of a [double], from its eight bytes. *)
Definition fmt_f (d : list Z) : list Z :=
  let bits := le_dec d in
  let sign := Z.testbit bits 63 in
  let e := Z.land (Z.shiftr bits 52) 0x7ff in
  let frac := bits `mod` 2 ^ 52 in
  (if sign then [45] else []) ++
  if e =? 0x7ff then str_bytes (if frac =? 0 then "inf" else "nan")
  else
    let '(n, q) := if e =? 0 then dyadic frac (-1074)
                   else dyadic (2 ^ 52 + frac) (e - 1075) in
    fmt_fixed 6 n q.

(** ** Quotients of [long double] *)

Class LongDouble := { ld_mant : Z; ld_mant_ok : 53 ≤ ld_mant }.

#[export] Instance x87 : LongDouble | 100 := {| ld_mant := 64; ld_mant_ok := ltac:(lia) |}.

(** [((long double) a) / b] for a [uint64_t] [a] and a positive [b] that a
    [long double] represents: the quotient rounded to [ld_mant] bits, as a
    fraction. With fewer than 64 bits the conversion of [a] rounds too. *)
Definition ld_round `{LongDouble} (n d : Z) : Z * Z :=
  if n =? 0 then (0, 1) else
  let k := Z.log2 n - Z.log2 d - ld_mant in
  let '(u, v) := if 0 <=? k then (n, d * 2 ^ k) else (n * 2 ^ (- k), d) in
  dyadic (round_even u v) k.

Definition ld_div `{LongDouble} (a b : Z) : Z * Z :=
  let '(n, d) := ld_round a 1 in ld_round n (d * b).

(** ** Lengths *)

Lemma length_pad_left c w s : (length s ≤ w)%nat → length (pad_left c w s) = w.
Proof. intros. unfold pad_left. len. Qed.

Lemma length_pad_right c w s : (length s ≤ w)%nat → length (pad_right c w s) = w.
Proof. intros. unfold pad_right. len. Qed.

Lemma length_hex_digits k : ∀ fuel z,
  0 ≤ z < 16 ^ (Z.of_nat k + 1) → (length (hex_digits fuel z) ≤ k + 1)%nat.
Proof.
  induction k as [|k IH]; intros [|fuel] z Hz; cbn [hex_digits]; try (simpl; lia).
  - case_test. simpl. lia.
  - rewrite length_app. specialize (IH fuel (z `div` 16)). case_test; simpl; [lia|].
    rewrite Nat2Z.inj_succ in Hz. unfold Z.succ in Hz.
    rewrite Z.pow_add_r in Hz by lia.
    assert (0 ≤ z `div` 16 < 16 ^ (Z.of_nat k + 1)); [|lia].
    split; [apply Z.div_pos; lia|]. apply Z.div_lt_upper_bound; lia.
Qed.

Lemma length_fmt_x w z : 0 ≤ z < 16 ^ (Z.of_nat w + 1) → length (fmt_x (S w) z) = S w.
Proof.
  intros Hz. unfold fmt_x. apply length_pad_left.
  pose proof (length_hex_digits w 16 z Hz). lia.
Qed.

Lemma decimal_digits_bound k : ∀ fuel z,
  0 ≤ z < 10 ^ (Z.of_nat k + 1) → (length (decimal_digits fuel z) ≤ k + 1)%nat.
Proof.
  induction k as [|k IH]; intros [|fuel] z Hz; cbn [decimal_digits]; try (simpl; lia).
  - case_test. simpl. lia.
  - rewrite length_app. specialize (IH fuel (z `div` 10)). case_test; simpl; [lia|].
    rewrite Nat2Z.inj_succ in Hz. unfold Z.succ in Hz.
    rewrite Z.pow_add_r in Hz by lia.
    assert (0 ≤ z `div` 10 < 10 ^ (Z.of_nat k + 1)); [|lia].
    split; [apply Z.div_pos; lia|]. apply Z.div_lt_upper_bound; lia.
Qed.

(** ** Rounding *)

(** [round_even n d] is within one half of [n / d]. *)
Lemma round_even_near n d : 0 < d → - d ≤ 2 * (round_even n d * d - n) ≤ d.
Proof.
  intros Hd. unfold round_even.
  pose proof (Z.div_mod n d ltac:(lia)). pose proof (Z.mod_pos_bound n d Hd).
  repeat case_test; try (destruct (Z.even _)); lia.
Qed.

Lemma round_even_le n d b : 0 < d → n ≤ b * d → round_even n d ≤ b.
Proof.
  intros Hd Hn. pose proof (round_even_near n d Hd).
  assert (round_even n d * d < (b + 1) * d) as E by lia.
  apply Z.mul_lt_mono_pos_r in E; lia.
Qed.

Lemma round_even_nonneg n d : 0 < d → 0 ≤ n → 0 ≤ round_even n d.
Proof.
  intros Hd Hn. pose proof (round_even_near n d Hd).
  assert ((-1) * d < round_even n d * d) as E by lia.
  apply Z.mul_lt_mono_pos_r in E; lia.
Qed.

(** The length of a decimal expansion whose integer part has [k + 1] digits. *)
Lemma length_fmt_fixed p k n d :
  0 < d → 0 ≤ n → n ≤ (10 ^ (Z.of_nat k + 1) - 1) * d → (0 < p)%nat →
  (length (fmt_fixed p n d) ≤ k + 2 + p)%nat.
Proof.
  intros Hd Hn Hb Hp. unfold fmt_fixed. set (B := 10 ^ (Z.of_nat k + 1)) in *.
  set (P := 10 ^ Z.of_nat p). assert (0 < P) by (apply Z.pow_pos_nonneg; lia).
  assert (round_even (n * P) d ≤ (B - 1) * P) as Hle by (apply round_even_le; nia).
  assert (0 ≤ round_even (n * P) d) as Hnn by (apply round_even_nonneg; nia).
  set (v := round_even (n * P) d) in *.
  pose proof (Z.mod_pos_bound v P ltac:(lia)) as Hm.
  assert (0 ≤ v `div` P < B) as Hdiv.
  { split; [apply Z.div_pos; lia|apply Z.div_lt_upper_bound; nia]. }
  rewrite length_app, length_cons, length_pad_left.
  - pose proof (decimal_digits_bound k 309 (v `div` P) Hdiv). lia.
  - destruct p as [|p]; [lia|].
    pose proof (decimal_digits_bound p (S p) (v `mod` P)) as Hl.
    replace (Z.of_nat p + 1) with (Z.of_nat (S p)) in Hl by lia. fold P in Hl.
    specialize (Hl Hm). lia.
Qed.

(** ** Quotients

    Rounding to [ld_mant] bits at most doubles a fraction; this is enough to
    bound the number of its digits. *)
Lemma ld_round_bound `{LongDouble} n d : 0 ≤ n → 0 < d →
  0 ≤ (ld_round n d).1 ∧ 0 < (ld_round n d).2 ∧
  (ld_round n d).1 * d ≤ 2 * n * (ld_round n d).2.
Proof.
  intros Hn Hd. unfold ld_round. destruct (Z.eqb_spec n 0); [subst; simpl; lia|].
  pose proof (Z.log2_spec n ltac:(lia)) as [Hn1 _].
  pose proof (Z.log2_spec d Hd) as [_ Hd2].
  pose proof (Z.log2_nonneg n). pose proof (Z.log2_nonneg d). pose proof ld_mant_ok.
  set (k := Z.log2 n - Z.log2 d - ld_mant) in *. unfold dyadic. case_test; cbn [fst snd].
  - assert (0 < 2 ^ k) by (apply Z.pow_pos_nonneg; lia).
    assert (d * 2 ^ k ≤ n).
    { apply Z.le_trans with (2 ^ (Z.log2 d + 1 + k)).
      - rewrite (Z.pow_add_r 2 (_ + 1)) by lia. apply Z.mul_le_mono_nonneg_r; lia.
      - etransitivity; [|exact Hn1]. apply Z.pow_le_mono_r; lia. }
    pose proof (round_even_near n (d * 2 ^ k) ltac:(nia)).
    pose proof (round_even_nonneg n (d * 2 ^ k) ltac:(nia) Hn). nia.
  - assert (0 < 2 ^ (- k)) by (apply Z.pow_pos_nonneg; lia).
    assert (d ≤ n * 2 ^ (- k)).
    { apply Z.le_trans with (2 ^ (Z.log2 d + 1)); [lia|].
      apply Z.le_trans with (2 ^ Z.log2 n * 2 ^ (- k)); [|nia].
      rewrite <-Z.pow_add_r by lia. apply Z.pow_le_mono_r; lia. }
    pose proof (round_even_near (n * 2 ^ (- k)) d Hd).
    pose proof (round_even_nonneg (n * 2 ^ (- k)) d Hd ltac:(nia)). nia.
Qed.

Lemma ld_div_bound `{LongDouble} a b : 0 ≤ a → 0 < b →
  0 ≤ (ld_div a b).1 ∧ 0 < (ld_div a b).2 ∧
  (ld_div a b).1 * b ≤ 4 * a * (ld_div a b).2.
Proof.
  intros Ha Hb. unfold ld_div.
  pose proof (ld_round_bound a 1 Ha ltac:(lia)) as (H1 & H2 & H3).
  destruct (ld_round a 1) as [n d]. cbn [fst snd] in *.
  pose proof (ld_round_bound n (d * b) H1 ltac:(nia)) as (H4 & H5 & H6).
  destruct (ld_round n (d * b)) as [n' d']. cbn [fst snd] in *.
  split; [done|]. split; [done|].
  assert (n * d' ≤ 2 * a * d * d') by nia.
  assert (n' * b * d ≤ 4 * a * d' * d) by lia.
  apply (Zmult_le_reg_r _ _ d); lia.
Qed.

(** ** Output streams and colours: src/util/color.c

    What a function prints is the sequence of its texts, each with the stream
    it goes to. *)
Inductive std_stream := Stdout | Stderr.

Definition output : Type := list (std_stream * list Z).

(** [fprintf(stream, ...)] *)
Definition fprintf (f : std_stream) (text : list Z) : output := [(f, text)].

(** [CONTROL] and a mode *)
Definition control (mode : string) : list Z := 0x1b :: str_bytes mode.

Definition BOLD : string := "[1m".
Definition RESET : string := "[0m".
Definition BLACK : string := "[30m".
Definition RED : string := "[31m".
Definition GREEN : string := "[32m".
Definition YELLOW : string := "[33m".
Definition BLUE : string := "[34m".
Definition MAGENTA : string := "[35m".
Definition CYAN : string := "[36m".
Definition WHITE : string := "[37m".

(** Without [NOCOLOR]. *)
Definition fprintf_light_mode (mode : string) (f : std_stream) (text : list Z) : output :=
  fprintf f (control BOLD) ++ fprintf f (control mode) ++ fprintf f text ++
  fprintf f (control RESET).

Definition fprintf_mode (mode : string) (f : std_stream) (text : list Z) : output :=
  fprintf f (control mode) ++ fprintf f text ++ fprintf f (control RESET).

Definition fprintf_black : std_stream → list Z → output := fprintf_mode BLACK.
Definition fprintf_red : std_stream → list Z → output := fprintf_mode RED.
Definition fprintf_green : std_stream → list Z → output := fprintf_mode GREEN.
Definition fprintf_yellow : std_stream → list Z → output := fprintf_mode YELLOW.
Definition fprintf_blue : std_stream → list Z → output := fprintf_mode BLUE.
Definition fprintf_magenta : std_stream → list Z → output := fprintf_mode MAGENTA.
Definition fprintf_cyan : std_stream → list Z → output := fprintf_mode CYAN.
Definition fprintf_white : std_stream → list Z → output := fprintf_mode WHITE.
Definition fprintf_light_black : std_stream → list Z → output := fprintf_light_mode BLACK.
Definition fprintf_light_red : std_stream → list Z → output := fprintf_light_mode RED.
Definition fprintf_light_green : std_stream → list Z → output := fprintf_light_mode GREEN.
Definition fprintf_light_yellow : std_stream → list Z → output := fprintf_light_mode YELLOW.
Definition fprintf_light_blue : std_stream → list Z → output := fprintf_light_mode BLUE.
Definition fprintf_light_magenta : std_stream → list Z → output := fprintf_light_mode MAGENTA.
Definition fprintf_light_cyan : std_stream → list Z → output := fprintf_light_mode CYAN.
Definition fprintf_light_white : std_stream → list Z → output := fprintf_light_mode WHITE.

(** src/util/color-test.c *)
Definition color_test_main : output * Z :=
  let line name := str_bytes name ++ [NL] in
  (fprintf_black Stdout (line "fprintf_black") ++
   fprintf_red Stdout (line "fprintf_red") ++
   fprintf_blue Stdout (line "fprintf_blue") ++
   fprintf_green Stdout (line "fprintf_green") ++
   fprintf_yellow Stdout (line "fprintf_yellow") ++
   fprintf_magenta Stdout (line "fprintf_magenta") ++
   fprintf_cyan Stdout (line "fprintf_cyan") ++
   fprintf_white Stdout (line "fprintf_white") ++
   fprintf_light_black Stdout (line "fprintf_light_black") ++
   fprintf_light_red Stdout (line "fprintf_light_red") ++
   fprintf_light_blue Stdout (line "fprintf_light_blue") ++
   fprintf_light_green Stdout (line "fprintf_light_green") ++
   fprintf_light_yellow Stdout (line "fprintf_light_yellow") ++
   fprintf_light_magenta Stdout (line "fprintf_light_magenta") ++
   fprintf_light_cyan Stdout (line "fprintf_light_cyan") ++
   fprintf_light_white Stdout (line "fprintf_light_white"), EXIT_SUCCESS).
