(* ===== verification/Stdio.v ===== *)
(** * The C standard library's streams

    A [FILE] is the contents of the file, the position of the stream and its
    error indicator. [f_space] is what the device still accepts: a write past
    it is short and sets the error indicator, as ISO C 7.21.8.2 specifies. *)
From S2P Require Import Prelude Words Memory.

Record FILE := {
  f_data : list Z;
  f_pos : Z;
  f_space : option Z;
  f_error : bool;
}.

Definition file_of (d : list Z) : FILE :=
  {| f_data := d; f_pos := 0; f_space := None; f_error := false |}.

(** [fseeko(f, off, SEEK_SET)]: the offset is an [off_t]. *)
Definition fseeko (f : FILE) (off : Z) : FILE * Z :=
  let o := s64 off in
  if o <? 0 then (f, -1)
  else ({| f_data := f_data f; f_pos := o; f_space := f_space f;
           f_error := f_error f |}, 0).

Definition ftell (f : FILE) : Z := f_pos f.

(** [fread(_, 1, n, f)]: the bytes read, fewer than [n] at end of file. *)
Definition fread (f : FILE) (n : Z) : FILE * list Z :=
  let d := take (Z.to_nat n) (drop (Z.to_nat (f_pos f)) (f_data f)) in
  ({| f_data := f_data f; f_pos := f_pos f + zlen d; f_space := f_space f;
      f_error := f_error f |}, d).

(** [fwrite(d, 1, zlen d, f)]: the number of bytes written. *)
Definition fwrite (f : FILE) (d : list Z) : FILE * Z :=
  let n := match f_space f with
           | None => zlen d
           | Some s => Z.min (zlen d) s
           end in
  let w := take (Z.to_nat n) d in
  ({| f_data := take (Z.to_nat (f_pos f)) (f_data f) ++ w ++
                drop (Z.to_nat (f_pos f) + length w) (f_data f);
      f_pos := f_pos f + zlen w;
      f_space := (λ s, s - n) <$> f_space f;
      f_error := f_error f || (n <? zlen d) |}, n).

(** A stream opened for writing that holds [d] and is positioned at its end. *)
Definition at_end (f : FILE) : Prop :=
  f_pos f = zlen (f_data f) ∧ f_space f = None.

(** The stream after appending [d]. *)
Definition append (f : FILE) (d : list Z) : FILE :=
  {| f_data := f_data f ++ d; f_pos := f_pos f + zlen d; f_space := f_space f;
     f_error := f_error f |}.

Lemma fwrite_append f d :
  at_end f → fwrite f d = (append f d, zlen d).
Proof.
  intros [Hp Hs]. unfold fwrite, append. rewrite Hs, Hp. simpl.
  rewrite !Nat2Z.id, !firstn_all, drop_ge, app_nil_r by lia.
  rewrite Z.ltb_irrefl, orb_false_r. done.
Qed.

Lemma append_at_end f d : at_end f → at_end (append f d).
Proof. intros [Hp Hs]. split; simpl; [|done]. len. Qed.

Lemma append_app f d1 d2 : append (append f d1) d2 = append f (d1 ++ d2).
Proof. unfold append. simpl. rewrite app_assoc. f_equal. len. Qed.

Lemma append_nil f : append f [] = f.
Proof. destruct f. unfold append. simpl. rewrite app_nil_r. f_equal. lia. Qed.

Lemma fread_length f n : 0 ≤ n → zlen (fread f n).2 ≤ n.
Proof. intros. simpl. len. Qed.

Lemma fread_app pre d post f n :
  f_data f = pre ++ d ++ post → f_pos f = zlen pre → n = zlen d →
  fread f n = ({| f_data := f_data f; f_pos := f_pos f + n;
                  f_space := f_space f; f_error := f_error f |}, d).
Proof.
  intros E Hp ->. unfold fread. rewrite E, Hp, !Nat2Z.id, drop_app_length,
    take_app_length. done.
Qed.

#[export] Hint Resolve append_at_end : wf.
