(* ===== verification/Util.v ===== *)
(** * src/util/util.c: bit tricks, dumps and time differences *)
From S2P Require Import Prelude Words Memory.

(** ** Definitions *)

(** [top_bit_set]: the test [0x80 & byte]. *)
Definition top_bit_set (byte : Z) : bool := negb (Z.land 0x80 byte =? 0).

(** The loop [while (val >>= 1) counter++], with fuel. *)
Fixpoint highest_set_bit_loop (fuel : nat) (val counter : Z) : option Z :=
  match fuel with
  | O => None
  | S fuel =>
      let val := Z.shiftr val 1 in
      if val =? 0 then Some counter
      else highest_set_bit_loop fuel val (counter + 1)
  end.

(** 64 (32) rounds empty a 64-bit (32-bit) word, see [highest_set_bit64_spec]. *)
Definition highest_set_bit64 (val : Z) : option Z := highest_set_bit_loop 64 (u64 val) 0.
Definition highest_set_bit (val : Z) : option Z := highest_set_bit_loop 32 (u32 val) 0.

(** [1U << n]: undefined for shifts outside a 32-bit word. *)
Definition shl1U (n : Z) : option Z :=
  if bool_decide (0 ≤ n < 32) then Some (u32 (Z.shiftl 1 n)) else None.

Definition sign_extend64 (val bits : Z) : option Z :=
  m ← shl1U (u64 (bits - 1));
  top ← shl1U bits;
  let val := Z.land val (u32 (top - 1)) in
  Some (s64 (u64 (Z.lxor val m) - m)).

Definition sign_extend (val bits : Z) : option Z :=
  m0 ← shl1U (u32 (bits - 1));
  let m := s32 m0 in
  top ← shl1U bits;
  let val := Z.land val (u32 (top - 1)) in
  Some (s32 (u32 (Z.lxor val (u32 m)) - u32 m)).

(** [ascii_dump]: the characters it prints; [None] for a null buffer. *)
Definition ascii_dump_char (b : Z) : Z :=
  if (b <=? 31) || (127 <=? b) then 46 (* '.' *) else b.

Definition ascii_dump (buf : option (list Z)) (count : Z) : option (list Z * Z) :=
  match buf with
  | None => Some ([], EXIT_FAILURE)
  | Some m => d ← mem_read m 0 count; Some (map ascii_dump_char d, EXIT_SUCCESS)
  end.

Record timeval := { tv_sec : Z; tv_usec : Z }.

(** [diff_time]: microseconds from [start] to [end], as an [uint64_t]. *)
Definition diff_time (start stop : timeval) : Z :=
  let delta_seconds := tv_sec stop - tv_sec start in
  let delta_micro := tv_usec stop - tv_usec start in
  u64 (delta_seconds * 1000000 + delta_micro).

(** ** Facts *)

(** The loop computes the base-2 logarithm; [n] rounds are enough below [2^n]. *)
Lemma highest_set_bit_loop_log2 (n : nat) val c :
  0 ≤ val < 2 ^ Z.of_nat n → (0 < n)%nat →
  highest_set_bit_loop n val c = Some (c + Z.log2 val).
Proof.
  revert val c. induction n as [|n IH]; intros val c Hv Hn; [lia|]. simpl.
  rewrite Z.shiftr_div_pow2 by lia. change (2 ^ 1) with 2.
  case_test.
  - assert (val = 0 ∨ val = 1) as [-> | ->]
      by (pose proof (Z.div_mod val 2); pose proof (Z.mod_pos_bound val 2); lia);
      simpl; f_equal; lia.
  - assert (0 < val `div` 2).
    { pose proof (Z.div_pos val 2). lia. }
    rewrite Nat2Z.inj_succ, Z.pow_succ_r in Hv by lia.
    assert (val `div` 2 < 2 ^ Z.of_nat n) by (apply Z.div_lt_upper_bound; lia).
    rewrite IH; [|lia|].
    + f_equal. pose proof (Z.div_mod val 2).
      pose proof (Z.mod_pos_bound val 2).
      assert (Z.log2 val = Z.succ (Z.log2 (val `div` 2))); [|lia].
      destruct (decide (val `mod` 2 = 0)).
      * replace val with (2 * (val `div` 2)) at 1 by lia.
        by rewrite Z.log2_double.
      * replace val with (2 * (val `div` 2) + 1) at 1 by lia.
        rewrite Z.log2_succ_double; lia.
    + destruct n; [|lia]. simpl in *. lia.
Qed.

Lemma highest_set_bit64_log2 val : highest_set_bit64 val = Some (Z.log2 (u64 val)).
Proof.
  unfold highest_set_bit64. rewrite highest_set_bit_loop_log2; [done| |lia].
  change (2 ^ Z.of_nat 64) with (2 ^ 64). apply uwrap_range. lia.
Qed.

Lemma highest_set_bit_log2 val : highest_set_bit val = Some (Z.log2 (u32 val)).
Proof.
  unfold highest_set_bit. rewrite highest_set_bit_loop_log2; [done| |lia].
  change (2 ^ Z.of_nat 32) with (2 ^ 32). apply uwrap_range. lia.
Qed.

Lemma shl1U_small n : 0 ≤ n < 32 → shl1U n = Some (2 ^ n).
Proof.
  intros. unfold shl1U. case_test. rewrite Z.shiftl_1_l. f_equal.
  apply uwrap_small. split; [by apply Z.pow_nonneg|].
  apply Z.pow_lt_mono_r; lia.
Qed.

Lemma shl1U_ones n : 0 ≤ n < 32 → u32 (2 ^ n - 1) = 2 ^ n - 1.
Proof.
  intros. apply uwrap_small. pose proof (Z.pow_pos_nonneg 2 n).
  assert (2 ^ n < 2 ^ 32) by (apply Z.pow_lt_mono_r; lia). lia.
Qed.

Lemma sign_extend64_swrap val bits :
  1 ≤ bits ≤ 31 → sign_extend64 val bits = Some (swrap bits val).
Proof.
  intros Hb. unfold sign_extend64.
  rewrite (uwrap_small 64) by lia.
  rewrite !shl1U_small by lia. simpl. rewrite shl1U_ones, land_ones_pred by lia.
  f_equal. set (v := val `mod` 2 ^ bits).
  assert (0 ≤ v < 2 ^ bits) by (by apply Z.mod_pos_bound, Z.pow_pos_nonneg; lia).
  assert (2 ^ bits ≤ 2 ^ 31) by (apply Z.pow_le_mono_r; lia).
  assert (swrap bits v = swrap bits val) as <-.
  { unfold swrap, v. by rewrite Z.mod_mod by (apply Z.pow_nonzero; lia). }
  pose proof (flip_sign_bit bits v ltac:(lia) ltac:(lia)) as E.
  pose proof (swrap_range bits v ltac:(lia)).
  assert (2 ^ bits = 2 * 2 ^ (bits - 1)).
  { rewrite <-Z.pow_succ_r by lia. f_equal. lia. }
  rewrite uwrap_small by lia. rewrite E. apply swrap_small; lia.
Qed.

(** ** Properties *)

(** [highest_set_bit64] terminates on every 64-bit word, within the 64
    rounds of the model, and returns the index of the highest set bit (0 for
    the words 0 and 1), so that [bitarray_init] takes the largest power of two
    below the requested length. *)
Theorem highest_set_bit64_spec val k :
  0 ≤ k → 2 ^ k ≤ u64 val < 2 ^ (k + 1) → highest_set_bit64 val = Some k.
Proof.
  intros Hk Hv. rewrite highest_set_bit64_log2. f_equal.
  by apply Z.log2_unique; [|rewrite <-Z.add_1_r].
Qed.

Lemma highest_set_bit64_spec_witness : highest_set_bit64 4097 = Some 12.
Proof. apply (highest_set_bit64_spec 4097 12); vm_compute; intuition congruence. Defined.

(** For field widths of 1 to 31 bits [sign_extend64] has no undefined
    behaviour and returns the two's-complement value of the low [bits] bits. *)
Theorem sign_extend64_spec val bits :
  1 ≤ bits ≤ 31 → sign_extend64 val bits = Some (swrap bits val).
Proof. apply sign_extend64_swrap. Qed.

Lemma sign_extend64_spec_witness :
  1 ≤ 8 ≤ 31 ∧ sign_extend64 0x9c 8 = Some (-100).
Proof. split; [lia|]. rewrite (sign_extend64_spec 0x9c 8); [reflexivity|lia]. Defined.
