(* ===== verification/Hexdump.v ===== *)
(** * src/util/util.c: [hexdump] and the [pretty_print_*] functions

    What [hexdump] prints, against the layout it means to have: one line for
    every 16 bytes, with the offset, the bytes in hexadecimal and their
    characters. The [pretty_print_*] functions fill a buffer of the caller. *)
From S2P Require Import Prelude Words Memory Text Util.

(** ** Definitions *)

(** The characters of a row, between bars, and the end of its line. *)
Definition ascii_column (s : list Z) : list Z := str_bytes " |" ++ s ++ str_bytes "|" ++ [NL].

(** [&buf[i]] *)
Definition buf_at (m : list Z) (i : Z) : option (list Z) := Some (drop (Z.to_nat i) m).

(** [" %.2x "] or ["%.2x "] *)
Definition hex_cell (i b : Z) : list Z :=
  if i mod 8 =? 0 then SP :: fmt_x 2 b ++ [SP] else fmt_x 2 b ++ [SP].

(** The end of the previous row and the offset of the next one. *)
Definition hex_row_start (m : list Z) (i : Z) : option (list Z) :=
  if 0 <? i then
    '(s, _) ← ascii_dump (buf_at m (i - 16)) 16;
    Some (ascii_column s ++ fmt_x 8 i)
  else Some (fmt_x 8 i).

(** The loop [for (i = 0; i < len; i++)], with [n] rounds left; [j] keeps the
    column of the last byte. *)
Fixpoint hexdump_loop (n : nat) (m : list Z) (i j : Z) : option (list Z * Z) :=
  match n with
  | O => Some ([], j)
  | S n =>
      let j := i mod 16 in
      start ← (if j =? 0 then hex_row_start m i else Some []);
      b ← mem_byte m i;
      '(out, j) ← hexdump_loop n m (i + 1) j;
      Some (start ++ hex_cell i b ++ out, j)
  end.

(** The white space after the last byte. *)
Definition hex_filler (j : Z) : list Z :=
  let j := 15 - j in
  (if 8 <=? j then [SP] else []) ++ replicate (3 * Z.to_nat j) SP.

(** The number of bytes in the last row. *)
Definition last_cols (len : Z) : Z := if len mod 16 =? 0 then 16 else len mod 16.

(** The text printed, and the result. *)
Definition hexdump (buf : option (list Z)) (len : Z) : option (list Z * Z) :=
  match buf with
  | None => Some ([], EXIT_FAILURE)
  | Some m =>
      '(out, j) ← hexdump_loop (Z.to_nat len) m 0 0;
      tail ← (if 0 <? len then
                '(s, _) ← ascii_dump (buf_at m (len - last_cols len)) (last_cols len);
                Some (ascii_column s)
              else Some []);
      Some (out ++ hex_filler j ++ tail, EXIT_SUCCESS)
  end.

(** src/util/util-test.c: the eight bytes of a [uint64_t] *)
Definition util_test_main : option (list Z * Z) :=
  '(out, _) ← hexdump (Some (le_enc 8 4)) 8; Some (out, EXIT_SUCCESS).

Definition KB : Z := 1024.
Definition MB : Z := KB * 1024.
Definition GB : Z := MB * 1024.
Definition TB : Z := GB * 1024.

Definition MILLIS : Z := 1000.
Definition SECONDS : Z := MILLIS * MILLIS.
Definition MINUTES : Z := SECONDS * 60.
Definition HOURS : Z := MINUTES * 60.
Definition DAYS : Z := HOURS * 24.

(** [snprintf(buf, bufsize, ...)]: as much of the text as fits, terminated. *)
Definition snprintf (buf : list Z) (bufsize : Z) (text : list Z) : option (list Z) :=
  if bufsize =? 0 then Some buf
  else mem_write buf 0 (take (Z.to_nat (bufsize - 1)) text ++ [0]).

Section pretty.
Context `{LongDouble}.

(** [%0.3Lf] of a quotient, and the unit. *)
Definition scaled (v scale : Z) (unit : string) : list Z :=
  let '(n, d) := ld_div v scale in fmt_fixed 3 n d ++ SP :: str_bytes unit.

Definition bytes_text (bytes : Z) : list Z :=
  if TB <? bytes then scaled bytes TB "TiB"
  else if GB <? bytes then scaled bytes GB "GiB"
  else if MB <? bytes then scaled bytes MB "MiB"
  else if KB <? bytes then scaled bytes KB "KiB"
  else decimal bytes ++ SP :: str_bytes "B".

Definition pretty_print_bytes (bytes : Z) (buf : list Z) (bufsize : Z) : option (list Z * Z) :=
  m ← snprintf buf bufsize (bytes_text bytes); Some (m, EXIT_SUCCESS).

Definition microseconds_text (micros : Z) : list Z :=
  if DAYS <? micros then scaled micros DAYS "days"
  else if HOURS <? micros then scaled micros HOURS "hours"
  else if MINUTES <? micros then scaled micros MINUTES "minutes"
  else if SECONDS <? micros then scaled micros SECONDS "seconds"
  else if MILLIS <? micros then scaled micros MILLIS "milliseconds"
  else decimal micros ++ SP :: str_bytes "microseconds".

Definition pretty_print_microseconds (micros : Z) (buf : list Z) (bufsize : Z) :
    option (list Z * Z) :=
  m ← snprintf buf bufsize (microseconds_text micros); Some (m, EXIT_SUCCESS).
End pretty.

(** ** The layout [hexdump] means to print *)

(** The bytes [d] of the row at offset [i]: two groups of eight. *)
Definition hex_cells (d : list Z) : list Z :=
  let group d := SP :: concat (map (λ b, fmt_x 2 b ++ [SP]) d) in
  group (take 8 d) ++ match drop 8 d with [] => [] | d => group d end.

Definition hex_line (i : Z) (d : list Z) : list Z :=
  fmt_x 8 i ++ pad_right SP 50 (hex_cells d) ++ ascii_column (map ascii_dump_char d).

(** A line for every 16 bytes. *)
Fixpoint hex_lines (rows : nat) (i : Z) (d : list Z) : list Z :=
  match rows with
  | O => []
  | S rows => hex_line i (take 16 d) ++ hex_lines rows (i + 16) (drop 16 d)
  end.

(** The number of rows of [len] bytes. *)
Definition hex_rows (len : Z) : nat := Z.to_nat ((len + 15) `div` 16).

(** ** Rows *)

Fixpoint row_cells (i : Z) (d : list Z) : list Z :=
  match d with [] => [] | b :: d => hex_cell i b ++ row_cells (i + 1) d end.

Lemma row_cells_app i d1 d2 :
  row_cells i (d1 ++ d2) = row_cells i d1 ++ row_cells (i + zlen d1) d2.
Proof.
  revert i. induction d1 as [|b d1 IH]; intros i; cbn [row_cells app].
  - by rewrite Z.add_0_r.
  - rewrite IH, <-app_assoc, length_cons. do 3 f_equal. lia.
Qed.

Lemma row_cells_plain d : ∀ i, 0 < i mod 8 → i mod 8 + zlen d ≤ 8 →
  row_cells i d = concat (map (λ b, fmt_x 2 b ++ [SP]) d).
Proof.
  induction d as [|b d IH]; intros i Hi Hd; cbn [row_cells map concat]; [done|].
  rewrite length_cons in Hd. unfold hex_cell. case_test. f_equal.
  destruct d as [|b' d]; [done|]. rewrite length_cons in *.
  assert ((i + 1) mod 8 = i mod 8 + 1) as E.
  { symmetry. apply (Z.mod_unique _ _ (i `div` 8)); [lia|].
    pose proof (Z.div_mod i 8). lia. }
  apply IH; rewrite E; lia.
Qed.

(** Eight bytes or fewer make one group. *)
Lemma row_cells_group b d i : i mod 8 = 0 → zlen (b :: d) ≤ 8 →
  row_cells i (b :: d) = SP :: concat (map (λ b, fmt_x 2 b ++ [SP]) (b :: d)).
Proof.
  intros Hi Hd. rewrite length_cons in Hd. cbn [row_cells map concat]. unfold hex_cell.
  case_test. cbn [app]. do 2 f_equal. rewrite row_cells_plain; [done|..];
    rewrite <-Zplus_mod_idemp_l, Hi; simpl; rewrite Z.mod_small; lia.
Qed.

Lemma row_cells_hex_cells i d : i mod 16 = 0 → 0 < zlen d ≤ 16 → row_cells i d = hex_cells d.
Proof.
  intros Hi Hd. assert (i mod 8 = 0) as Hi8.
  { rewrite <-(Z.mod_mod_divide i 16 8) by (by exists 2). by rewrite Hi. }
  destruct d as [|b d]; [simpl in Hd; lia|]. unfold hex_cells.
  rewrite <-(take_drop 8 (b :: d)) at 1. rewrite row_cells_app. f_equal.
  - rewrite firstn_cons, row_cells_group; [done|done|len].
  - destruct (drop 8 (b :: d)) as [|b' d'] eqn:E; [done|].
    apply (f_equal length) in E as El. rewrite length_drop in El.
    rewrite row_cells_group; [done| |simpl length in *; lia].
    rewrite length_take, Nat.min_l, <-Zplus_mod_idemp_l, Hi8; [done|].
    simpl length in *. lia.
Qed.

Lemma length_plain_cells d : bytes_ok d →
  length (concat (map (λ b, fmt_x 2 b ++ [SP]) d)) = (3 * length d)%nat.
Proof.
  induction 1 as [|b d Hb Hd IH]; cbn [map concat]; [done|].
  rewrite !length_app, IH, length_fmt_x; [simpl; lia|].
  unfold is_byte in Hb. lia.
Qed.

Lemma length_hex_cells d : bytes_ok d → zlen d ≤ 16 →
  length (hex_cells d) = (3 * length d + if (length d <=? 8)%nat then 1 else 2)%nat.
Proof.
  intros Hd Hl. unfold hex_cells. rewrite length_app, length_cons.
  rewrite length_plain_cells by (by apply Forall_take). rewrite length_take.
  pose proof (Forall_drop _ 8 _ Hd) as Hdr.
  destruct (drop 8 d) as [|b' d'] eqn:E; apply (f_equal length) in E as El;
    rewrite length_drop in El.
  - cbn [length] in *. destruct (Nat.leb_spec (length d) 8); lia.
  - rewrite length_cons, length_plain_cells by done. cbn [length] in *.
    destruct (Nat.leb_spec (length d) 8); lia.
Qed.

(** The filler completes the last row to the width of the others. *)
Lemma hex_filler_pad d : bytes_ok d → 0 < zlen d ≤ 16 →
  hex_cells d ++ hex_filler (zlen d - 1) = pad_right SP 50 (hex_cells d).
Proof.
  intros Hd Hl. unfold pad_right, hex_filler. f_equal.
  rewrite length_hex_cells by (done || lia).
  destruct (Nat.leb_spec (length d) 8); case_test; simpl app.
  - change (SP :: ?l) with (replicate 1 SP ++ l). rewrite <-replicate_add. f_equal. lia.
  - f_equal. lia.
Qed.

(** ** The loop *)

(** Case analysis on what the rest of the loop returns. *)
Ltac split_loop n m :=
  match goal with
  | |- context [hexdump_loop n m ?i ?j] =>
      let o := fresh "o" in let j' := fresh "j'" in
      destruct (hexdump_loop n m i j) as [[o j']|]; [|done]
  end.

Lemma hexdump_loop_within d : ∀ n m pre post i j,
  m = pre ++ d ++ post → i = zlen pre → i mod 16 = j + 1 → j + zlen d < 16 → 0 ≤ j →
  hexdump_loop (length d + n) m i j
  = ('(o, j') ← hexdump_loop n m (i + zlen d) (j + zlen d);
     Some (row_cells i d ++ o, j')).
Proof.
  induction d as [|b d IH]; intros n m pre post i j Hm Hi Hj Hd Hj0.
  - cbn [length Nat.add row_cells app]. rewrite !Z.add_0_r.
    by destruct (hexdump_loop n m i j) as [[o j']|].
  - rewrite length_cons in *. cbn [length Nat.add hexdump_loop row_cells]. rewrite Hj.
    case_test. cbn [mbind option_bind app].
    rewrite Hm at 1. cbn [app]. rewrite mem_byte_app by done. cbn [mbind option_bind].
    destruct d as [|b' d'].
    + cbn [length Nat.add row_cells]. replace (Z.of_nat 1) with 1 by lia.
      split_loop n m.
      cbn [mbind option_bind]. by rewrite app_nil_r.
    + rewrite length_cons in *.
      assert ((i + 1) mod 16 = j + 1 + 1) as E.
      { symmetry. apply (Z.mod_unique _ _ (i `div` 16)); [lia|].
        pose proof (Z.div_mod i 16). lia. }
      pose proof (IH n m (pre ++ [b]) post (i + 1) (j + 1)) as IH'.
      rewrite IH'; [|by rewrite <-app_assoc|len|done|lia|lia].
      replace (i + 1 + Z.of_nat (S (length d'))) with (i + Z.of_nat (S (S (length d')))) by lia.
      replace (j + 1 + Z.of_nat (S (length d'))) with (j + Z.of_nat (S (S (length d')))) by lia.
      split_loop n m.
      cbn [mbind option_bind]. by rewrite app_assoc.
Qed.

(** What a row starts with: the end of the previous one. *)
Definition row_end (pre : list Z) : list Z :=
  if 0 <? zlen pre
  then ascii_column (map ascii_dump_char (drop (length pre - 16) pre)) else [].

Lemma hex_row_start_ok m pre post :
  m = pre ++ post → zlen pre mod 16 = 0 →
  hex_row_start m (zlen pre) = Some (row_end pre ++ fmt_x 8 (zlen pre)).
Proof.
  intros Hm Hp. unfold hex_row_start, row_end. case_test; [|done].
  assert (16 ≤ zlen pre).
  { pose proof (Z.div_mod (zlen pre) 16). pose proof (Z.mod_pos_bound (zlen pre) 16). lia. }
  unfold ascii_dump, buf_at. replace (Z.to_nat (zlen pre - 16)) with (length pre - 16)%nat by lia.
  rewrite Hm, drop_app_le by lia.
  pose proof (mem_read_app [] (drop (length pre - 16) pre) post 0 16 eq_refl) as E.
  simpl in E. rewrite E by (rewrite length_drop; lia). cbn [mbind option_bind]. done.
Qed.

Lemma hexdump_loop_row d n m pre post j :
  m = pre ++ d ++ post → zlen pre mod 16 = 0 → 0 < zlen d ≤ 16 →
  hexdump_loop (length d + n) m (zlen pre) j
  = ('(o, j') ← hexdump_loop n m (zlen (pre ++ d)) (zlen d - 1);
     Some (row_end pre ++ fmt_x 8 (zlen pre) ++ hex_cells d ++ o, j')).
Proof.
  intros Hm Hp Hd. rewrite <-(row_cells_hex_cells (zlen pre) d Hp Hd).
  destruct d as [|b d]; [simpl in Hd; lia|]. rewrite length_cons in *.
  cbn [length Nat.add hexdump_loop row_cells]. rewrite Hp. simpl (0 =? 0). cbv iota.
  rewrite (hex_row_start_ok m pre (b :: d ++ post)) by done. cbn [mbind option_bind].
  rewrite Hm at 1. cbn [app]. rewrite mem_byte_app by done. cbn [mbind option_bind].
  replace (Z.of_nat (S (length d)) - 1) with (0 + zlen d) by lia.
  destruct d as [|b' d'].
  - cbn [length Nat.add row_cells]. rewrite length_app, Nat2Z.inj_add. 
    change (zlen [b]) with 1. change (0 + Z.of_nat 0) with 0. split_loop n m.
    cbn [mbind option_bind]. by rewrite <-!app_assoc, app_nil_l.
  - rewrite (hexdump_loop_within (b' :: d') n m (pre ++ [b]) post).
    + replace (zlen pre + 1 + zlen (b' :: d')) with (zlen (pre ++ b :: b' :: d')) by len.
      split_loop n m.
      cbn [mbind option_bind]. by rewrite <-!app_assoc.
    + by rewrite <-app_assoc.
    + len.
    + rewrite <-Zplus_mod_idemp_l, Hp. done.
    + lia.
    + lia.
Qed.

(** ** Whole dumps *)

Lemma last_cols_end n c : n mod 16 = 0 → 0 < c ≤ 16 → last_cols (n + c) = c.
Proof.
  intros Hn Hc. unfold last_cols. rewrite <-Zplus_mod_idemp_l, Hn, Z.add_0_l.
  destruct (decide (c = 16)) as [->|]; [done|]. rewrite Z.mod_small by lia. by case_test.
Qed.

Lemma ascii_dump_at pre s post :
  ascii_dump (buf_at (pre ++ s ++ post) (zlen pre)) (zlen s)
  = Some (map ascii_dump_char s, EXIT_SUCCESS).
Proof.
  unfold ascii_dump, buf_at. rewrite Nat2Z.id, drop_app_length.
  pose proof (mem_read_app [] s post 0 (zlen s) eq_refl eq_refl) as E. simpl in E.
  by rewrite E.
Qed.

Lemma row_end_app pre d : zlen d = 16 →
  row_end (pre ++ d) = ascii_column (map ascii_dump_char d).
Proof.
  intros Hd. unfold row_end. autorewrite with len. case_test.
  do 2 f_equal. replace (length pre + length d - 16)%nat with (length pre) by lia.
  apply drop_app_length.
Qed.

(** The loop from the offset [zlen pre] to the end of the data, with what is
    printed behind it: the rest of the previous line and the remaining ones. *)
Lemma hexdump_loop_lines rows : ∀ m pre d post j,
  m = pre ++ d ++ post → zlen pre mod 16 = 0 → bytes_ok d →
  16 * Z.of_nat rows < zlen d + 16 → 0 < zlen d ≤ 16 * Z.of_nat rows →
  let e := zlen (pre ++ d) in
  ∃ out jl s, hexdump_loop (length d) m (zlen pre) j = Some (out, jl) ∧
    ascii_dump (buf_at m (e - last_cols e)) (last_cols e) = Some (s, EXIT_SUCCESS) ∧
    out ++ hex_filler jl ++ ascii_column s = row_end pre ++ hex_lines rows (zlen pre) d.
Proof.
  induction rows as [|rows IH]; intros m pre d post j Hm Hp Hd Hlo Hhi e; [lia|].
  cbn [hex_lines]. unfold hex_line. destruct (decide (zlen d ≤ 16)) as [Hs|Hs].
  - assert (rows = 0%nat) as -> by lia. cbn [hex_lines]. rewrite firstn_all2 by lia.
    pose proof (hexdump_loop_row d 0 m pre post j Hm Hp ltac:(lia)) as E.
    rewrite Nat.add_0_r in E. cbn [hexdump_loop mbind option_bind] in E.
    assert (last_cols e = zlen d ∧ e - zlen d = zlen pre) as [-> ->].
    { subst e. rewrite length_app, Nat2Z.inj_add, last_cols_end by lia. lia. }
    do 3 eexists. split; [exact E|]. split; [rewrite Hm; apply ascii_dump_at|].
    rewrite <-hex_filler_pad by (done || lia). by rewrite !app_nil_r, <-!app_assoc.
  - assert (zlen (take 16 d) = 16) as Ht by (rewrite length_take; lia).
    destruct (IH m (pre ++ take 16 d) (drop 16 d) post 15) as (out & jl & s & E & Ea & Eo).
    { by rewrite <-app_assoc, (app_assoc (take 16 d)), take_drop. }
    { rewrite length_app, Nat2Z.inj_add, Ht, <-Zplus_mod_idemp_l, Hp. done. }
    { by apply Forall_drop. }
    { rewrite length_drop. lia. }
    { rewrite length_drop. lia. }
    pose proof (hexdump_loop_row (take 16 d) (length (drop 16 d)) m pre (drop 16 d ++ post) j)
      as Er. rewrite <-length_app, take_drop, Ht in Er.
    change (16 - 1) with 15 in Er. rewrite E in Er. cbn [mbind option_bind] in Er.
    rewrite <-app_assoc, take_drop in Ea.
    do 3 eexists. split; [apply Er; [|done|lia]|split; [exact Ea|]].
    { by rewrite (app_assoc (take 16 d)), take_drop. }
    rewrite <-!app_assoc, Eo, row_end_app by done.
    replace (zlen (pre ++ take 16 d)) with (zlen pre + 16) by (rewrite length_app; lia).
    rewrite <-(hex_filler_pad (take 16 d)), Ht by (by apply Forall_take || lia).
    change (hex_filler (16 - 1)) with (@nil Z). by rewrite app_nil_r.
Qed.

Lemma hex_rows_bounds n : 0 < n →
  16 * Z.of_nat (hex_rows n) < n + 16 ∧ n ≤ 16 * Z.of_nat (hex_rows n).
Proof.
  intros Hn. unfold hex_rows. pose proof (Z.div_mod (n + 15) 16).
  pose proof (Z.mod_pos_bound (n + 15) 16).
  rewrite Z2Nat.id by (apply Z.div_pos; lia). lia.
Qed.

Lemma hexdump_lines d post : bytes_ok d → 0 < zlen d →
  hexdump (Some (d ++ post)) (zlen d)
  = Some (hex_lines (hex_rows (zlen d)) 0 d, EXIT_SUCCESS).
Proof.
  intros Hd Hn. destruct (hex_rows_bounds (zlen d) Hn) as [Hlo Hhi].
  destruct (hexdump_loop_lines (hex_rows (zlen d)) (d ++ post) [] d post 0)
    as (out & jl & s & E & Ea & Eo); [done|done|done|done|done|].
  unfold hexdump. rewrite Nat2Z.id. change (zlen []) with 0 in E. rewrite E. cbn [mbind option_bind].
  case_test. change (zlen ([] ++ d)) with (zlen d) in Ea. rewrite Ea. cbn [mbind option_bind]. by rewrite Eo.
Qed.

(** ** Properties *)

(** The byte-by-byte loop of [hexdump], which ends a row when it sees the
    first byte of the next one and fills up the last row afterwards, prints the
    lines one would cut the data into: one for every 16 bytes, each with the
    offset, the bytes in two groups padded to the same width, and the
    characters. Bytes behind [len] are not touched. *)
Theorem hexdump_spec d post : bytes_ok d → 0 < zlen d →
  hexdump (Some (d ++ post)) (zlen d)
  = Some (hex_lines (hex_rows (zlen d)) 0 d, EXIT_SUCCESS).
Proof. apply hexdump_lines. Qed.

Lemma hexdump_spec_witness :
  hexdump (Some (str_bytes "a text of 21 bytes..." ++ [0])) 21
  = Some (hex_lines 2 0 (str_bytes "a text of 21 bytes..."), EXIT_SUCCESS).
Proof. apply (hexdump_spec (str_bytes "a text of 21 bytes...") [0]); [auto with wf|done]. Defined.

(** Of an empty buffer nothing but the filler of a row is printed, and no end
    of line. *)
Lemma hexdump_empty m : hexdump (Some m) 0 = Some (replicate 46 SP, EXIT_SUCCESS).
Proof. done. Qed.

(** ** The [pretty_print_*] functions *)

Lemma snprintf_fits m size text :
  zlen text < size ≤ zlen m → Forall (λ z, z ≠ 0) text →
  ∃ m', snprintf m size text = Some m' ∧ cstr_at m' 0 = Some text.
Proof.
  intros Hs Ht. unfold snprintf. case_test. rewrite firstn_all2 by lia.
  unfold mem_write. case_test; [|autorewrite with len in *; lia].
  eexists. split; [done|]. simpl. rewrite <-app_assoc. simpl.
  by apply (cstr_at_app [] text).
Qed.

Lemma decimal_digits_nonzero fuel z : Forall (λ b, b ≠ 0) (decimal_digits fuel z).
Proof.
  eapply list.Forall_impl; [apply (decimal_digits_range fuel z)|]. intros d Hd. simpl in Hd. lia.
Qed.

Lemma str_nonzero s : bool_decide (Forall (λ z, z ≠ 0) (str_bytes s)) = true →
  Forall (λ z, z ≠ 0) (str_bytes s).
Proof. apply bool_decide_eq_true. Qed.

Section pretty.
Context `{LongDouble}.

Lemma scaled_nonzero v scale unit : Forall (λ z, z ≠ 0) (str_bytes unit) →
  Forall (λ z, z ≠ 0) (scaled v scale unit).
Proof.
  intros Hu. unfold scaled. destruct (ld_div v scale) as [n d]. unfold fmt_fixed, pad_left.
  apply Forall_app. split; [|by constructor].
  apply Forall_app. split; [apply decimal_digits_nonzero|]. constructor; [done|].
  apply Forall_app. split; [by apply Forall_replicate|apply decimal_digits_nonzero].
Qed.

(** A quotient below [10^(k+1) / 4] has [k + 1] digits before the point. *)
Lemma length_scaled k v scale unit : 0 < scale → 0 ≤ v →
  4 * v ≤ (10 ^ (Z.of_nat k + 1) - 1) * scale →
  (length (scaled v scale unit) ≤ k + 6 + length (str_bytes unit))%nat.
Proof.
  intros Hs Hv Hb. unfold scaled. pose proof (ld_div_bound v scale Hv Hs) as (H1 & H2 & H3).
  destruct (ld_div v scale) as [n d]. cbn [fst snd] in *. rewrite length_app, length_cons.
  assert (length (fmt_fixed 3 n d) ≤ k + 2 + 3)%nat; [|lia].
  apply length_fmt_fixed; [done|done| |lia].
  set (B := 10 ^ (Z.of_nat k + 1) - 1) in *. nia.
Qed.

(** One case of the two functions below. *)
Ltac scaled_case k :=
  split; [eapply Nat.le_trans; [apply (length_scaled k); [done|lia|]|simpl; lia]
         |by apply scaled_nonzero, str_nonzero].

Lemma microseconds_text_ok micros : 0 ≤ micros < 2 ^ 64 →
  (length (microseconds_text micros) ≤ 21)%nat ∧
  Forall (λ z, z ≠ 0) (microseconds_text micros).
Proof.
  intros Hm. unfold microseconds_text, DAYS, HOURS, MINUTES, SECONDS, MILLIS in *.
  case_test; [scaled_case 8%nat; simpl; lia|].
  case_test; [scaled_case 2%nat; simpl; lia|].
  case_test; [scaled_case 2%nat; simpl; lia|].
  case_test; [scaled_case 2%nat; simpl; lia|].
  case_test; [scaled_case 3%nat; simpl; lia|].
  split.
  - rewrite length_app. pose proof (decimal_digits_bound 3 20 micros ltac:(simpl; lia)).
    unfold decimal. simpl (length (SP :: _)). lia.
  - apply Forall_app. split; [apply decimal_digits_nonzero|].
    constructor; [done|]. by apply str_nonzero.
Qed.

Lemma bytes_text_ok bytes : 0 ≤ bytes < 2 ^ 64 →
  (length (bytes_text bytes) ≤ 17)%nat ∧ Forall (λ z, z ≠ 0) (bytes_text bytes).
Proof.
  intros Hm. unfold bytes_text, TB, GB, MB, KB in *.
  case_test; [scaled_case 7%nat; simpl; lia|].
  case_test; [scaled_case 3%nat; simpl; lia|].
  case_test; [scaled_case 3%nat; simpl; lia|].
  case_test; [scaled_case 3%nat; simpl; lia|].
  split.
  - rewrite length_app. pose proof (decimal_digits_bound 3 20 bytes ltac:(simpl; lia)).
    unfold decimal. simpl (length (SP :: _)). lia.
  - apply Forall_app. split; [apply decimal_digits_nonzero|].
    constructor; [done|]. by apply str_nonzero.
Qed.

(** For every 64-bit number the text of [pretty_print_microseconds] fits
    into a buffer of 32 bytes, as its callers have: the buffer holds it whole,
    as a C string. *)
Theorem pretty_print_microseconds_fits micros buf size :
  0 ≤ micros < 2 ^ 64 → 32 ≤ size ≤ zlen buf →
  ∃ m, pretty_print_microseconds micros buf size = Some (m, EXIT_SUCCESS) ∧
       cstr_at m 0 = Some (microseconds_text micros).
Proof.
  intros Hm Hb. destruct (microseconds_text_ok micros Hm) as [Hl Hz].
  destruct (snprintf_fits buf size (microseconds_text micros)) as (m & E & Ec); [lia|done|].
  exists m. unfold pretty_print_microseconds. by rewrite E.
Qed.

Theorem pretty_print_bytes_fits bytes buf size :
  0 ≤ bytes < 2 ^ 64 → 32 ≤ size ≤ zlen buf →
  ∃ m, pretty_print_bytes bytes buf size = Some (m, EXIT_SUCCESS) ∧
       cstr_at m 0 = Some (bytes_text bytes).
Proof.
  intros Hm Hb. destruct (bytes_text_ok bytes Hm) as [Hl Hz].
  destruct (snprintf_fits buf size (bytes_text bytes)) as (m & E & Ec); [lia|done|].
  exists m. unfold pretty_print_bytes. by rewrite E.
Qed.
End pretty.

Lemma pretty_print_microseconds_fits_witness :
  ∃ m, pretty_print_microseconds 5000000 (replicate 32 0) 32 = Some (m, EXIT_SUCCESS) ∧
       cstr_at m 0 = Some (str_bytes "5.000 seconds").
Proof.
  assert (microseconds_text 5000000 = str_bytes "5.000 seconds") as <- by (vm_compute; reflexivity).
  apply (pretty_print_microseconds_fits 5000000 (replicate 32 0)); [lia|simpl; lia].
Defined.

Lemma pretty_print_bytes_fits_witness :
  ∃ m, pretty_print_bytes 1536 (replicate 32 0) 32 = Some (m, EXIT_SUCCESS) ∧
       cstr_at m 0 = Some (str_bytes "1.500 KiB").
Proof.
  assert (bytes_text 1536 = str_bytes "1.500 KiB") as <- by (vm_compute; reflexivity).
  apply (pretty_print_bytes_fits 1536 (replicate 32 0)); [lia|simpl; lia].
Defined.

(** The 13 bytes the comments ask for cut most of the texts short. *)
Lemma pretty_print_microseconds_cut :
  pretty_print_microseconds 1000 (replicate 13 0) 13
  = Some (str_bytes "1000 microse" ++ [0], EXIT_SUCCESS).
Proof. reflexivity. Qed.
