(* ===== verification/Bitarray.v ===== *)
(** * src/datastructures/bitarray.c: the metadata filter's bit array

    [bitarray] is the C struct: the bytes of [array] and the length [len] in
    bits. Serialization to BSON is in [Filter]. *)
From S2P Require Import Prelude Words Memory Util.

(** ** Definitions *)

Record bitarray := { ba_array : list Z; ba_len : Z }.

(** [bits->array[bit/8] & (1 << (bit & 0x07))] *)
Definition bit_mask (bit : Z) : Z := Z.shiftl 1 (Z.land bit 0x07).

Definition bitarray_get_bit (bits : bitarray) (bit : Z) : option bool :=
  if bit <? ba_len bits then
    b ← mem_byte (ba_array bits) (bit `div` 8);
    Some (negb (Z.land b (bit_mask bit) =? 0))
  else Some false.

(** [bits->array[bit/8] = f(bits->array[bit/8])] under the guard. *)
Definition bitarray_update (f : Z → Z) (bits : bitarray) (bit : Z) : option bitarray :=
  if bit <? ba_len bits then
    b ← mem_byte (ba_array bits) (bit `div` 8);
    a ← mem_write (ba_array bits) (bit `div` 8) [f b];
    Some {| ba_array := a; ba_len := ba_len bits |}
  else Some bits.

Definition bitarray_set_bit (bits : bitarray) (bit : Z) : option bitarray :=
  bitarray_update (λ b, u8 (Z.lor b (bit_mask bit))) bits bit.

Definition bitarray_unset_bit (bits : bitarray) (bit : Z) : option bitarray :=
  bitarray_update (λ b, u8 (Z.land b (Z.lxor 0xff (bit_mask bit)))) bits bit.

(** [memset(bits->array, c, bits->len / 8)] *)
Definition bitarray_fill (c : Z) (bits : bitarray) : option bitarray :=
  a ← mem_write (ba_array bits) 0 (replicate (Z.to_nat (ba_len bits `div` 8)) c);
  Some {| ba_array := a; ba_len := ba_len bits |}.

Definition bitarray_set_all (bits : bitarray) : option bitarray := bitarray_fill 0xff bits.
Definition bitarray_unset_all (bits : bitarray) : option bitarray := bitarray_fill 0x00 bits.

(** [((uint64_t) 1) << highest_set_bit64(len)] *)
Definition bitarray_capacity (len : Z) : option Z :=
  h ← highest_set_bit64 len; Some (u64 (Z.shiftl 1 h)).

Section alloc.
Context `{Malloc}.

Definition bitarray_init (len : Z) : option bitarray :=
  cap ← bitarray_capacity len;
  a ← malloc (u64 (cap + 7) `div` 8);
  bitarray_unset_all {| ba_array := a; ba_len := cap |}.

Definition bitarray_init_data (data : list Z) (len : Z) : option bitarray :=
  cap ← bitarray_capacity len;
  a ← malloc (u64 (cap + 7) `div` 8);
  d ← mem_read data 0 (len `div` 8);
  a ← mem_write a 0 d;
  Some {| ba_array := a; ba_len := cap |}.
End alloc.

(** [bitarray_get_array]: the storage and its size in bytes. *)
Definition bitarray_get_array (bits : bitarray) : list Z * Z :=
  (ba_array bits, ba_len bits `div` 8).

(** ** Invariant *)

(** The storage has room for every bit below [len], which is a power of two,
    as the constructors establish. *)
Record bitarray_wf (bits : bitarray) : Prop := {
  wf_len : ∃ k, 0 ≤ k < 64 ∧ ba_len bits = 2 ^ k;
  wf_size : zlen (ba_array bits) = (ba_len bits + 7) `div` 8;
  wf_bytes : bytes_ok (ba_array bits);
}.

Lemma bit_index_in_range n bit : 0 ≤ bit < n → 0 ≤ bit `div` 8 < (n + 7) `div` 8.
Proof.
  intros. split; [apply Z.div_pos; lia|].
  apply Z.div_lt_upper_bound; [lia|].
  pose proof (Z.div_mod (n + 7) 8). pose proof (Z.mod_pos_bound (n + 7) 8). lia.
Qed.

Lemma mem_byte_Some m off :
  0 ≤ off < zlen m → ∃ b, mem_byte m off = Some b ∧ m !! Z.to_nat off = Some b.
Proof.
  intros. unfold mem_byte. case_test.
  destruct (lookup_lt_is_Some_2 m (Z.to_nat off)) as [b Hb]; [lia|]. by exists b.
Qed.

Lemma mem_write_byte m off b :
  0 ≤ off < zlen m → mem_write m off [b] = Some (<[Z.to_nat off := b]> m).
Proof.
  intros. unfold mem_write. case_test; len. f_equal.
  rewrite insert_take_drop by lia. simpl. by rewrite Nat.add_1_r.
Qed.

(** [bitarray_update] under the invariant: a pointwise update of the storage. *)
Lemma bitarray_update_spec f bits bit :
  bitarray_wf bits → 0 ≤ bit →
  if bit <? ba_len bits then
    ∃ b, ba_array bits !! Z.to_nat (bit `div` 8) = Some b ∧
         bitarray_update f bits bit
         = Some {| ba_array := <[Z.to_nat (bit `div` 8) := f b]> (ba_array bits);
                   ba_len := ba_len bits |}
  else bitarray_update f bits bit = Some bits.
Proof.
  intros [_ Hs _] Hbit. unfold bitarray_update. case_test; [|done].
  pose proof (bit_index_in_range (ba_len bits) bit ltac:(lia)).
  destruct (mem_byte_Some (ba_array bits) (bit `div` 8)) as (b & E & Hb); [lia|].
  exists b. split; [done|]. rewrite E. simpl. by rewrite mem_write_byte by lia.
Qed.

Lemma bitarray_update_wf f bits bit bits' :
  (∀ b, is_byte b → is_byte (f b)) → bitarray_wf bits → 0 ≤ bit →
  bitarray_update f bits bit = Some bits' → bitarray_wf bits' ∧ ba_len bits' = ba_len bits.
Proof.
  intros Hf Hwf Hbit E. pose proof (bitarray_update_spec f bits bit Hwf Hbit) as H.
  destruct Hwf as [Hl Hs Hb].
  destruct (bit <? ba_len bits).
  - destruct H as (b & Hlk & E'). simplify_eq. split; [|done]. split; simpl; [done|by len|].
    apply Forall_insert; [done|]. apply Hf. eapply Forall_lookup_1; done.
  - by simplify_eq.
Qed.

(** ** Bits of a byte *)

Lemma land_7 bit : Z.land bit 0x07 = bit `mod` 8.
Proof. change 0x07 with (2 ^ 3 - 1). by rewrite land_ones_pred. Qed.

Lemma bit_mask_pow bit : bit_mask bit = 2 ^ (bit `mod` 8).
Proof. unfold bit_mask. by rewrite land_7, Z.shiftl_1_l. Qed.

Lemma bit_mask_range bit : 1 ≤ bit_mask bit ≤ 128.
Proof.
  rewrite bit_mask_pow. pose proof (Z.mod_pos_bound bit 8).
  split.
  - pose proof (Z.pow_pos_nonneg 2 (bit `mod` 8)). lia.
  - change 128 with (2 ^ 7). apply Z.pow_le_mono_r; lia.
Qed.

(** The test [b & mask] reads bit [bit mod 8] of the byte. *)
Lemma test_mask b bit :
  negb (Z.land b (bit_mask bit) =? 0) = Z.testbit b (bit `mod` 8).
Proof.
  rewrite bit_mask_pow. pose proof (Z.mod_pos_bound bit 8).
  destruct (Z.testbit b (bit `mod` 8)) eqn:E; apply eq_true_iff_eq || idtac.
  - case_test; [|done]. exfalso.
    assert (Z.testbit (Z.land b (2 ^ (bit `mod` 8))) (bit `mod` 8) = true) as Ht.
    { rewrite Z.land_spec, E, Z.pow2_bits_true by lia. done. }
    rewrite e, Z.bits_0 in Ht. done.
  - replace (Z.land b (2 ^ (bit `mod` 8))) with 0; [done|].
    symmetry. apply Z.bits_inj_iff'. intros n Hn.
    rewrite Z.land_spec, Z.bits_0, Z.pow2_bits_eqb by lia.
    case_test; [subst n; by rewrite E|by rewrite andb_false_r].
Qed.

Lemma u8_testbit z n : 0 ≤ n < 8 → Z.testbit (u8 z) n = Z.testbit z n.
Proof. intros. unfold uwrap. rewrite Z.mod_pow2_bits_low; [done|lia]. Qed.

Lemma set_mask_testbit b bit n : 0 ≤ n < 8 →
  Z.testbit (u8 (Z.lor b (bit_mask bit))) n = Z.testbit b n || (n =? bit `mod` 8).
Proof.
  intros. rewrite u8_testbit, Z.lor_spec, bit_mask_pow by done.
  pose proof (Z.mod_pos_bound bit 8).
  rewrite Z.pow2_bits_eqb by lia. by rewrite (Z.eqb_sym n).
Qed.

Lemma unset_mask_testbit b bit n : 0 ≤ n < 8 →
  Z.testbit (u8 (Z.land b (Z.lxor 0xff (bit_mask bit)))) n
  = Z.testbit b n && negb (n =? bit `mod` 8).
Proof.
  intros. rewrite u8_testbit, Z.land_spec, Z.lxor_spec, bit_mask_pow by done.
  pose proof (Z.mod_pos_bound bit 8).
  rewrite Z.pow2_bits_eqb by lia. rewrite (Z.eqb_sym n).
  change 0xff with (Z.ones 8). rewrite Z.ones_spec_low by lia. done.
Qed.

Lemma u8_is_byte z : is_byte (u8 z).
Proof. apply uwrap_range. lia. Qed.

(** ** The abstract view: the set of bit indices that are set *)

Definition bit_at (bits : bitarray) (i : Z) : bool :=
  (i <? ba_len bits) &&
  match ba_array bits !! Z.to_nat (i `div` 8) with
  | Some b => Z.testbit b (i `mod` 8)
  | None => false
  end.

Lemma bitarray_get_bit_at bits i :
  bitarray_wf bits → 0 ≤ i → bitarray_get_bit bits i = Some (bit_at bits i).
Proof.
  intros [_ Hs _] Hi. unfold bitarray_get_bit, bit_at. case_test; [|done].
  pose proof (bit_index_in_range (ba_len bits) i ltac:(lia)).
  destruct (mem_byte_Some (ba_array bits) (i `div` 8)) as (b & E & Hb); [lia|].
  rewrite E, Hb. simpl. by rewrite test_mask.
Qed.

(** Reading bit [j] after updating the byte of bit [i]. *)
Lemma bit_at_update f g bits i bits' :
  bitarray_wf bits → 0 ≤ i →
  (∀ b n, 0 ≤ n < 8 → Z.testbit (f b) n = g (Z.testbit b n) (n =? i `mod` 8)) →
  (∀ x, g x false = x) →
  bitarray_update f bits i = Some bits' →
  ∀ j, 0 ≤ j → bit_at bits' j
    = if bool_decide (i = j ∧ i < ba_len bits) then g (bit_at bits j) true
      else bit_at bits j.
Proof.
  intros Hwf Hi Hf Hg E j Hj.
  pose proof (bitarray_update_spec f bits i Hwf Hi) as H.
  pose proof (Z.mod_pos_bound j 8). pose proof (Z.mod_pos_bound i 8).
  destruct (Z.ltb_spec i (ba_len bits)) as [Hlt|Hge].
  - destruct H as (b & Hlk & E'). simplify_eq. unfold bit_at. simpl.
    destruct (decide (i `div` 8 = j `div` 8)) as [Hd|Hd].
    + rewrite <-Hd, list_lookup_insert_eq, Hlk by (by eapply lookup_lt_Some).
      rewrite Hf by lia.
      assert (j `mod` 8 = i `mod` 8 ↔ i = j).
      { pose proof (Z.div_mod i 8). pose proof (Z.div_mod j 8). lia. }
      case_bool_decide as Hc.
      * destruct Hc as [-> _]. rewrite Z.eqb_refl.
        destruct (Z.ltb_spec j (ba_len bits)); [done|lia].
      * destruct (Z.eqb_spec (j `mod` 8) (i `mod` 8)); [|by rewrite Hg].
        exfalso. apply Hc. tauto.
    + rewrite list_lookup_insert_ne by (intros Hn;
        apply Hd; apply Z2Nat.inj in Hn; try done; apply Z.div_pos; lia).
      rewrite bool_decide_false; [done|]. intros [-> _]. done.
  - simplify_eq. rewrite bool_decide_false; [done|]. lia.
Qed.

(** ** Constructors *)

Lemma bitarray_capacity_log2 len :
  bitarray_capacity len = Some (2 ^ Z.log2 (u64 len)).
Proof.
  unfold bitarray_capacity. rewrite highest_set_bit64_log2. simpl.
  rewrite Z.shiftl_1_l. f_equal. pose proof (Z.log2_nonneg (u64 len)).
  pose proof (uwrap_range 64 len ltac:(lia)).
  apply uwrap_small. split; [by apply Z.pow_nonneg|].
  apply Z.pow_lt_mono_r; [lia..|].
  destruct (decide (u64 len = 0)) as [->|]; [simpl; lia|].
  apply Z.log2_lt_pow2; lia.
Qed.

Lemma capacity_bounds len :
  0 < len < 2 ^ 63 → ∃ k, bitarray_capacity len = Some (2 ^ k) ∧ 0 ≤ k < 63 ∧
                          2 ^ k ≤ len < 2 ^ (k + 1).
Proof.
  intros Hl. exists (Z.log2 len). rewrite bitarray_capacity_log2.
  rewrite uwrap_small by lia. pose proof (Z.log2_spec len ltac:(lia)).
  split; [done|]. split; [|by rewrite Z.add_1_r].
  split; [apply Z.log2_nonneg|]. apply Z.log2_lt_pow2; lia.
Qed.

Lemma pow2_div8 k : 3 ≤ k → (2 ^ k + 7) `div` 8 = 2 ^ k `div` 8 ∧ 2 ^ k = 8 * (2 ^ k `div` 8).
Proof.
  intros. replace k with (3 + (k - 3)) by lia. rewrite Z.pow_add_r by lia.
  change (2 ^ 3) with 8. set (p := 2 ^ (k - 3)).
  rewrite (Z.mul_comm 8 p), Z.div_mul, Z.div_add_l by lia.
  change (7 `div` 8) with 0. lia.
Qed.

(** [memset] over the whole storage, from a capacity of 8 bits on. *)
Lemma bitarray_fill_full c a k :
  3 ≤ k → zlen a = 2 ^ k `div` 8 →
  bitarray_fill c {| ba_array := a; ba_len := 2 ^ k |}
  = Some {| ba_array := replicate (Z.to_nat (2 ^ k `div` 8)) c; ba_len := 2 ^ k |}.
Proof.
  intros Hk Ha. unfold bitarray_fill. simpl.
  pose proof (pow2_div8 k Hk).
  pose proof (mem_write_app [] a (replicate (Z.to_nat (2 ^ k `div` 8)) c) [] 0) as E.
  rewrite !app_nil_r in E. simpl in E. rewrite E; [done|done|]. len.
Qed.

Lemma bit_at_replicate c n k i :
  0 ≤ i < 2 ^ k → 3 ≤ k → n = Z.to_nat (2 ^ k `div` 8) →
  bit_at {| ba_array := replicate n c; ba_len := 2 ^ k |} i = Z.testbit c (i `mod` 8).
Proof.
  intros Hi Hk ->. unfold bit_at. simpl. pose proof (pow2_div8 k Hk).
  destruct (Z.ltb_spec i (2 ^ k)); [|lia]. simpl.
  rewrite lookup_replicate_2; [done|].
  pose proof (Z.div_lt_upper_bound i 8 (2 ^ k `div` 8)). 
  pose proof (Z.div_pos i 8). lia.
Qed.

Lemma replicate_wf c k : is_byte c → 3 ≤ k < 64 →
  bitarray_wf {| ba_array := replicate (Z.to_nat (2 ^ k `div` 8)) c; ba_len := 2 ^ k |}.
Proof.
  intros Hc Hk. pose proof (pow2_div8 k ltac:(lia)) as [E1 E2].
  assert (0 ≤ 2 ^ k `div` 8) by (apply Z.div_pos; [apply Z.pow_nonneg|]; lia).
  split; simpl; [exists k; split; [lia|done]|len|by apply Forall_replicate].
Qed.

Section constructors.
Context `{Malloc} `{!MallocTotal}.

Lemma malloc_live n : 0 ≤ n < 2 ^ 63 → ∃ m, malloc n = Some m ∧ zlen m = n.
Proof.
  intros Hn. destruct (malloc_total n Hn) as [m Hm].
  exists m. split; [done|]. by apply malloc_length.
Qed.

(** The storage [bitarray_init] and [bitarray_init_data] allocate. *)
Lemma capacity_storage len :
  8 ≤ len < 2 ^ 63 → ∃ k a, bitarray_capacity len = Some (2 ^ k) ∧ 3 ≤ k < 63 ∧
    2 ^ k ≤ len < 2 ^ (k + 1) ∧
    malloc (u64 (2 ^ k + 7) `div` 8) = Some a ∧ zlen a = 2 ^ k `div` 8.
Proof.
  intros Hl. destruct (capacity_bounds len) as (k & Ek & Hk & Hb); [lia|].
  assert (3 ≤ k).
  { destruct (decide (k < 3)); [|lia]. exfalso.
    assert (2 ^ (k + 1) ≤ 2 ^ 3) by (apply Z.pow_le_mono_r; lia). lia. }
  pose proof (pow2_div8 k ltac:(lia)) as [E1 E2].
  assert (u64 (2 ^ k + 7) = 2 ^ k + 7) as Eu by (apply uwrap_small; lia).
  destruct (malloc_live (2 ^ k `div` 8)) as (a & Ea & Hla).
  { split; [apply Z.div_pos; lia|]. lia. }
  exists k, a. rewrite Eu, E1. auto with lia.
Qed.

Lemma bitarray_init_replicate len :
  8 ≤ len < 2 ^ 63 → ∃ k, 3 ≤ k < 63 ∧ 2 ^ k ≤ len < 2 ^ (k + 1) ∧
    bitarray_init len
    = Some {| ba_array := replicate (Z.to_nat (2 ^ k `div` 8)) 0; ba_len := 2 ^ k |}.
Proof.
  intros Hl. destruct (capacity_storage len Hl) as (k & a & Ek & Hk & Hb & Ea & Hla).
  exists k. split; [done|]. split; [done|].
  unfold bitarray_init. rewrite Ek. simpl. rewrite Ea. simpl.
  unfold bitarray_unset_all. apply bitarray_fill_full; lia.
Qed.

(** [bitarray_init_data(data, n)]: only the first [2^k] bits exist, [k] the
    logarithm of [n], whatever [data] holds beyond them. *)
Lemma bitarray_init_data_spec (data : list Z) n :
  8 ≤ n < 2 ^ 63 → n `div` 8 ≤ zlen data →
  ∃ k, 3 ≤ k < 63 ∧ 2 ^ k ≤ n < 2 ^ (k + 1) ∧
    bitarray_init_data data n
    = if bool_decide (n `div` 8 = 2 ^ k `div` 8) then
        Some {| ba_array := take (Z.to_nat (n `div` 8)) data; ba_len := 2 ^ k |}
      else None.
Proof.
  intros Hn Hd. destruct (capacity_storage n Hn) as (k & a & Ek & Hk & Hb & Ea & Hla).
  exists k. split; [done|]. split; [done|].
  unfold bitarray_init_data. rewrite Ek. simpl. rewrite Ea. simpl.
  assert (0 ≤ n `div` 8) by (apply Z.div_pos; lia).
  rewrite mem_read_prefix by lia. simpl.
  pose proof (pow2_div8 k ltac:(lia)) as [E1 E2].
  assert (2 ^ k `div` 8 ≤ n `div` 8) by (apply Z.div_le_mono; lia).
  case_bool_decide as Hc.
  - pose proof (mem_write_app [] a (take (Z.to_nat (n `div` 8)) data) [] 0) as E.
    rewrite !app_nil_r in E. simpl in E. rewrite E; [done|done|].
    rewrite length_take. lia.
  - assert (mem_write a 0 (take (Z.to_nat (n `div` 8)) data) = None) as ->; [|done].
    unfold mem_write. rewrite bool_decide_false; [done|].
    rewrite length_take. lia.
Qed.
End constructors.

(** ** Properties *)

(** Setting a bit always succeeds. *)
Lemma bitarray_set_ok bits i :
  bitarray_wf bits → 0 ≤ i →
  ∃ bits', bitarray_set_bit bits i = Some bits' ∧ bitarray_wf bits'.
Proof.
  intros Hb Hi.
  assert (is_Some (bitarray_set_bit bits i)) as [bits' E].
  { pose proof (bitarray_update_spec (λ b, u8 (Z.lor b (bit_mask i))) bits i Hb Hi) as H.
    unfold bitarray_set_bit. destruct (i <? ba_len bits).
    - destruct H as (b & _ & ->). by eexists.
    - rewrite H. by eexists. }
  exists bits'. split; [done|].
  eapply (bitarray_update_wf (λ b, u8 (Z.lor b (bit_mask i)))); [|done..].
  intros b _. apply u8_is_byte.
Qed.

(** C23: [bitarray_set_bit] and [bitarray_unset_bit] never touch memory outside
    the storage, keep the invariant and the length, and change exactly the bit
    they name; an index at or past the length changes nothing. *)
Theorem bitarray_set_unset_spec bits i :
  bitarray_wf bits → 0 ≤ i →
  ∃ bits1 bits0,
    bitarray_set_bit bits i = Some bits1 ∧ bitarray_unset_bit bits i = Some bits0 ∧
    bitarray_wf bits1 ∧ bitarray_wf bits0 ∧
    ba_len bits1 = ba_len bits ∧ ba_len bits0 = ba_len bits ∧
    ∀ j, 0 ≤ j →
      bitarray_get_bit bits1 j
      = (if bool_decide (i = j ∧ i < ba_len bits) then Some true
         else bitarray_get_bit bits j) ∧
      bitarray_get_bit bits0 j
      = (if bool_decide (i = j ∧ i < ba_len bits) then Some false
         else bitarray_get_bit bits j).
Proof.
  intros Hwf Hi.
  assert (∀ f, is_Some (bitarray_update f bits i)) as Hsome.
  { intros f. pose proof (bitarray_update_spec f bits i Hwf Hi) as H.
    destruct (i <? ba_len bits); [destruct H as (?&?&H)|]; by rewrite H. }
  destruct (Hsome (λ b, u8 (Z.lor b (bit_mask i)))) as [bits1 E1].
  destruct (Hsome (λ b, u8 (Z.land b (Z.lxor 0xff (bit_mask i))))) as [bits0 E0].
  destruct (bitarray_update_wf _ _ _ _ (λ b _, u8_is_byte _) Hwf Hi E1) as [W1 L1].
  destruct (bitarray_update_wf _ _ _ _ (λ b _, u8_is_byte _) Hwf Hi E0) as [W0 L0].
  exists bits1, bits0. do 6 (split; [done|]). intros j Hj.
  rewrite !bitarray_get_bit_at by done.
  rewrite (bit_at_update _ orb _ _ _ Hwf Hi (λ b n, set_mask_testbit b i n) orb_false_r E1 j Hj).
  rewrite (bit_at_update _ (λ x y, x && negb y) _ _ _ Hwf Hi
             (λ b n, unset_mask_testbit b i n) andb_true_r E0 j Hj).
  case_bool_decide; by rewrite ?orb_true_r, ?andb_false_r.
Qed.

Lemma bitarray_set_unset_spec_witness :
  ∃ bits1, bitarray_set_bit {| ba_array := [0; 0]; ba_len := 16 |} 9 = Some bits1 ∧
           bitarray_get_bit bits1 9 = Some true.
Proof.
  destruct (bitarray_set_unset_spec {| ba_array := [0; 0]; ba_len := 16 |} 9)
    as (b1 & b0 & E1 & _ & _ & _ & _ & _ & Hget).
  - split; [by exists 4|done|repeat constructor; discriminate].
  - lia.
  - exists b1. split; [done|]. by destruct (Hget 9 ltac:(lia)) as [-> _].
Defined.

(** [bitarray_init(len)] for [len >= 8] returns an empty bit array of the
    largest power of two not above [len]: every bit reads as unset, and the
    indices from that power of two up to [len] do not exist, setting them is
    silently ignored. *)
Theorem bitarray_init_spec `{MallocTotal} len :
  8 ≤ len < 2 ^ 63 →
  ∃ k bits, 2 ^ k ≤ len < 2 ^ (k + 1) ∧ bitarray_init len = Some bits ∧
    ba_len bits = 2 ^ k ∧ bitarray_wf bits ∧
    (∀ i, 0 ≤ i → bitarray_get_bit bits i = Some false) ∧
    (∀ i, 2 ^ k ≤ i → bitarray_set_bit bits i = Some bits).
Proof.
  intros Hl. destruct (bitarray_init_replicate len Hl) as (k & Hk & Hb & E).
  exists k. eexists. split; [done|]. split; [exact E|]. split; [done|].
  assert (bitarray_wf {| ba_array := replicate (Z.to_nat (2 ^ k `div` 8)) 0;
                         ba_len := 2 ^ k |}) as Hwf.
  { apply replicate_wf; [done|lia]. }
  split; [done|]. split.
  - intros i Hi. rewrite bitarray_get_bit_at by done.
    destruct (decide (i < 2 ^ k)).
    + rewrite bit_at_replicate by lia. by rewrite Z.bits_0.
    + unfold bit_at. simpl. by destruct (Z.ltb_spec i (2 ^ k)).
  - intros i Hi. unfold bitarray_set_bit, bitarray_update. simpl.
    destruct (Z.ltb_spec i (2 ^ k)); [lia|done].
Qed.

Lemma bitarray_init_spec_witness :
  ∃ bits, bitarray_init 100 = Some bits ∧ bitarray_get_bit bits 99 = Some false.
Proof.
  destruct (bitarray_init_spec 100) as (k & bits & _ & E & _ & _ & Hget & _); [lia|].
  exists bits. split; [done|]. apply Hget. lia.
Defined.

(** [bitarray_init_data(data, n)] copies [n / 8] bytes into a block sized
    for the power of two below [n]: it is defined exactly when the two agree,
    and then the bits are those of [data]; for every other [n] the copy runs
    past the end of the allocated block. *)
Theorem bitarray_init_data_bounds `{MallocTotal} (data : list Z) n :
  8 ≤ n < 2 ^ 63 → n `div` 8 ≤ zlen data →
  ∃ k, 0 ≤ k ∧ 2 ^ k ≤ n < 2 ^ (k + 1) ∧
    (n `div` 8 = 2 ^ k `div` 8 →
       ∃ bits, bitarray_init_data data n = Some bits ∧ ba_len bits = 2 ^ k ∧
               ba_array bits = take (Z.to_nat (n `div` 8)) data) ∧
    (n `div` 8 ≠ 2 ^ k `div` 8 → bitarray_init_data data n = None).
Proof.
  intros Hn Hd. destruct (bitarray_init_data_spec data n Hn Hd) as (k & Hk & Hb & E).
  exists k. split; [lia|]. split; [done|]. rewrite E. split; intros Hc; case_bool_decide; try done.
  by eexists.
Qed.

Lemma bitarray_init_data_bounds_witness :
  bitarray_init_data [1; 2; 3] 24 = None.
Proof.
  destruct (bitarray_init_data_bounds [1; 2; 3] 24) as (k & Hk & Hb & _ & H);
    [lia|by vm_compute|].
  apply H. rewrite (pow2_bracket k 4 24); [by vm_compute|lia..].
Defined.
