(* ===== verification/BitarrayTest.v ===== *)
(** * src/datastructures/bitarray-test.c: the unit test of the bit arrays

    With the functions of src/datastructures/bitarray.c that only the test
    uses: printing and freeing an array. An [assert] that fails has no result. *)
From S2P Require Import Prelude Words Memory Text Util Hexdump Bitarray.

(** ** Printing and freeing *)

(** The text of [bitarray_c_array_dump]; every element has a comma in front. *)
Definition bitarray_c_array_dump (bits : bitarray) : option output :=
  d ← mem_read (ba_array bits) 0 (ba_len bits `div` 8);
  Some (fprintf Stdout (str_bytes "uint8 bits[] = { ") ++
        concat (map (λ b, fprintf Stdout (str_bytes ", 0x" ++ hex_digits 16 b)) d) ++
        fprintf Stdout (str_bytes "} " ++ [NL])).

(** [ptr] is what [%p] prints for the storage. *)
Definition bitarray_print (ptr : list Z) (bits : bitarray) : option output :=
  '(lines, _) ← hexdump (Some (ba_array bits)) (ba_len bits `div` 8);
  dump ← bitarray_c_array_dump bits;
  Some (fprintf_yellow Stdout (str_bytes "bits->array [pointer]: " ++ ptr ++ [NL]) ++
        fprintf_yellow Stdout (str_bytes "bits->len [bits]: " ++ decimal (ba_len bits) ++ [NL]) ++
        fprintf_light_yellow Stdout (str_bytes " -- hexdump(bits->array) -- " ++ [NL]) ++
        fprintf Stdout lines ++
        fprintf_light_yellow Stdout (str_bytes " -- end hexdump(bits->array) -- " ++ [NL]) ++
        dump).

(** [bits] is null, or a live struct with this pointer in [array]; a pointer that
    was freed before has no result. *)
Definition bitarray_destroy (bits : option cptr) : option unit :=
  match bits with
  | None => Some tt
  | Some array => _ ← (if is_null array then Some PNull else cfree array); Some tt
  end.

(** ** The test *)

Definition test_nums : list Z :=
  [0; 1; 2; 3; 4; 5; 6; 7; 8; 9; 10; 321; 478; 511; 767; 777; 980; 1023; 2047; 3181; 4085;
   4086; 4087; 4088; 4089; 4090; 4091; 4092; 4093; 4094; 4095].

(** [for (i...) f(bits, nums[i])] *)
Fixpoint for_bits (f : bitarray → Z → option bitarray) (nums : list Z) (bits : bitarray) :
    option bitarray :=
  match nums with [] => Some bits | i :: nums => bits ← f bits i; for_bits f nums bits end.

(** [for (i...) assert(bitarray_get_bit(bits, nums[i]) == v)] *)
Fixpoint assert_bits (v : bool) (nums : list Z) (bits : bitarray) : option unit :=
  match nums with
  | [] => Some tt
  | i :: nums =>
      b ← bitarray_get_bit bits i;
      if bool_decide (b = v) then assert_bits v nums bits else None
  end.

(** [nums[4]] and [nums[9]] are skipped. *)
Definition not_4_9 (nums : list Z) : list Z :=
  take 4 nums ++ take 4 (drop 5 nums) ++ drop 10 nums.

Section test.
Context `{Malloc}.

(** [test_throughput], for [n] bits. *)
Definition test_throughput (n : Z) : option unit :=
  bits ← bitarray_init n;
  bits ← for_bits bitarray_set_bit (seqZ 0 n) bits;
  assert_bits true (seqZ 0 n) bits.

(** [main]; [ptr] is the text of a pointer. *)
Definition bitarray_test_main (ptr : list Z) : option Z :=
  bits ← bitarray_init (8 * 512);
  _ ← bitarray_print ptr bits;
  bits ← bitarray_set_all bits;
  _ ← bitarray_print ptr bits;
  bits ← bitarray_unset_all bits;
  _ ← bitarray_print ptr bits;
  bits ← for_bits bitarray_set_bit test_nums bits;
  _ ← assert_bits true test_nums bits;
  four ← test_nums !! 4%nat;
  bits ← bitarray_unset_bit bits four;
  nine ← test_nums !! 9%nat;
  bits ← bitarray_unset_bit bits nine;
  _ ← assert_bits true (not_4_9 test_nums) bits;
  bits ← for_bits bitarray_unset_bit test_nums bits;
  _ ← assert_bits false test_nums bits;
  _ ← bitarray_print ptr bits;
  _ ← test_throughput 4294967296;
  Some EXIT_SUCCESS.
End test.

(** ** Many bits at once *)

(** [bits'] is well formed, of the length of [bits], and its bits are
    [g (bit of bits) (index in nums)]. *)
Definition bits_after (g : bool → bool → bool) (nums : list Z) (bits bits' : bitarray) : Prop :=
  bitarray_wf bits' ∧ ba_len bits' = ba_len bits ∧
  ∀ j, 0 ≤ j < ba_len bits → bit_at bits' j = g (bit_at bits j) (bool_decide (j ∈ nums)).

(** An operation on one bit that acts like [g]. *)
Definition acts (f : bitarray → Z → option bitarray) (g : bool → bool → bool) : Prop :=
  ∀ bits i, bitarray_wf bits → 0 ≤ i < ba_len bits →
    ∃ bits', f bits i = Some bits' ∧ bits_after g [i] bits bits'.

Lemma update_acts (f : Z → Z → Z) g :
  (∀ i b n, 0 ≤ n < 8 → Z.testbit (u8 (f i b)) n = g (Z.testbit b n) (n =? i `mod` 8)) →
  (∀ x, g x false = x) → acts (λ bits i, bitarray_update (λ b, u8 (f i b)) bits i) g.
Proof.
  intros Hf Hg bits i Hwf Hi. assert (0 ≤ i) as Hi0 by lia.
  pose proof (bitarray_update_spec (λ b, u8 (f i b)) bits i Hwf ltac:(lia)) as H.
  destruct (Z.ltb_spec i (ba_len bits)); [|lia]. destruct H as (b & _ & E).
  destruct (bitarray_update_wf _ _ _ _ (λ b _, u8_is_byte (f i b)) Hwf Hi0 E) as [W L].
  eexists. split; [exact E|]. split; [exact W|]. split; [exact L|]. intros j Hj.
  rewrite (bit_at_update _ g _ _ _ Hwf Hi0 (Hf i) Hg E j (proj1 Hj)).
  destruct (decide (i = j)) as [->|Hne].
  - rewrite !bool_decide_true; [done|by left|done].
  - rewrite bool_decide_false by tauto. rewrite bool_decide_false, Hg; [done|].
    by rewrite list_elem_of_singleton.
Qed.

Lemma set_acts : acts bitarray_set_bit orb.
Proof.
  apply (update_acts (λ i b, Z.lor b (bit_mask i))); [|apply orb_false_r].
  intros i b n. apply set_mask_testbit.
Qed.

Definition clears (x y : bool) : bool := x && negb y.

Lemma unset_acts : acts bitarray_unset_bit clears.
Proof.
  apply (update_acts (λ i b, Z.land b (Z.lxor 0xff (bit_mask i)))); [|apply andb_true_r].
  intros i b n. apply unset_mask_testbit.
Qed.

(** [g] may be applied index by index. *)
Definition pointwise (g : bool → bool → bool) : Prop :=
  (∀ x, g x false = x) ∧ ∀ x y z, g (g x y) z = g x (y || z).

Lemma for_bits_ok f g : acts f g → pointwise g → ∀ nums bits,
  bitarray_wf bits → Forall (λ i, 0 ≤ i < ba_len bits) nums →
  ∃ bits', for_bits f nums bits = Some bits' ∧ bits_after g nums bits bits'.
Proof.
  intros Hf [Hg0 Hg]. induction nums as [|i nums IH]; intros bits Hwf Hn; cbn [for_bits].
  - exists bits. split; [done|]. split; [done|]. split; [done|]. intros j _. by rewrite Hg0.
  - apply Forall_cons_1 in Hn as [Hi Hn].
    destruct (Hf bits i Hwf Hi) as (b1 & -> & W1 & L1 & H1). cbn [mbind option_bind].
    destruct (IH b1 W1) as (b2 & -> & W2 & L2 & H2); [by rewrite L1|].
    exists b2. split; [done|]. split; [done|]. split; [by rewrite L2|].
    intros j Hj. rewrite H2, H1, Hg by (rewrite ?L1; done). f_equal.
    destruct (decide (j = i)) as [->|Hne].
    + by rewrite !(bool_decide_true (i ∈ i :: _)) by (by left).
    + rewrite (bool_decide_false (j ∈ [i])) by (by rewrite list_elem_of_singleton).
      apply bool_decide_ext. rewrite elem_of_cons. tauto.
Qed.

Lemma assert_bits_ok v nums bits : bitarray_wf bits →
  Forall (λ i, 0 ≤ i ∧ bit_at bits i = v) nums → assert_bits v nums bits = Some tt.
Proof.
  intros Hwf. induction 1 as [|i nums [Hi Hv] _ IH]; cbn [assert_bits]; [done|].
  rewrite bitarray_get_bit_at by done. cbn [mbind option_bind]. by rewrite bool_decide_true.
Qed.

Lemma pointwise_set : pointwise orb.
Proof. split; [apply orb_false_r|]. intros x y z. by rewrite orb_assoc. Qed.

Lemma pointwise_unset : pointwise clears.
Proof. split; [by intros []|]. by intros [] [] []. Qed.

(** ** The test passes *)

Section pass.
Context `{MallocTotal}.

Definition full (c k : Z) : bitarray :=
  {| ba_array := replicate (Z.to_nat (2 ^ k `div` 8)) c; ba_len := 2 ^ k |}.

Lemma bitarray_init_pow2 k : 3 ≤ k < 63 → bitarray_init (2 ^ k) = Some (full 0 k).
Proof.
  intros Hk. assert (2 ^ 3 ≤ 2 ^ k) by (apply Z.pow_le_mono_r; lia).
  assert (2 ^ k < 2 ^ 63) by (apply Z.pow_lt_mono_r; lia).
  destruct (bitarray_init_replicate (2 ^ k)) as (k' & Hk' & Hb & ->); [lia|].
  assert (k' = k) as ->; [|done].
  apply (pow2_bracket k' k (2 ^ k)); [lia..|done|].
  split; [lia|]. apply Z.pow_lt_mono_r; lia.
Qed.

Lemma bit_at_full c k i : 3 ≤ k → 0 ≤ i < 2 ^ k → bit_at (full c k) i = Z.testbit c (i `mod` 8).
Proof. intros Hk Hi. by apply bit_at_replicate. Qed.

(** Printing an array has no effect but the text. *)
Lemma bitarray_print_ok ptr bits k : bitarray_wf bits → 3 ≤ k < 64 → ba_len bits = 2 ^ k →
  is_Some (bitarray_print ptr bits).
Proof.
  intros [_ Hs Hb] Hk Hl. destruct (pow2_div8 k ltac:(lia)) as [E1 E2]. rewrite Hl in Hs.
  assert (0 < 2 ^ k) by (apply Z.pow_pos_nonneg; lia).
  unfold bitarray_print, bitarray_c_array_dump. rewrite Hl, <-E1, <-Hs.
  pose proof (hexdump_lines (ba_array bits) [] Hb ltac:(lia)) as E. rewrite app_nil_r in E.
  rewrite E. cbn [mbind option_bind]. rewrite mem_read_prefix by lia. by eexists.
Qed.

(** [test_throughput] for every size a bit array can have. *)
Lemma test_throughput_ok k : 3 ≤ k < 63 → test_throughput (2 ^ k) = Some tt.
Proof.
  intros Hk. unfold test_throughput. rewrite bitarray_init_pow2 by done. cbn [mbind option_bind].
  assert (Forall (λ i, 0 ≤ i < 2 ^ k) (seqZ 0 (2 ^ k))) as Hseq.
  { apply list.Forall_forall. intros i Hi. apply elem_of_seqZ in Hi. lia. }
  destruct (for_bits_ok _ _ set_acts pointwise_set (seqZ 0 (2 ^ k)) (full 0 k))
    as (b & -> & W & L & Hbits); [apply replicate_wf; [done|lia]|done|].
  cbn [mbind option_bind]. apply assert_bits_ok; [done|].
  apply list.Forall_forall. intros i Hi. apply elem_of_seqZ in Hi as Hr.
  split; [lia|]. rewrite Hbits by (cbn; lia). rewrite bool_decide_true by done. apply orb_true_r.
Qed.

Lemma nums_in_range : Forall (λ i, 0 ≤ i < 2 ^ 12) test_nums.
Proof. apply (bool_decide_unpack _). vm_compute. exact I. Qed.

(** A list of indices of which each has the value [v]. *)
Lemma assert_nums v nums bits : bitarray_wf bits → ba_len bits = 2 ^ 12 →
  Forall (λ i, i ∈ test_nums) nums →
  (∀ i, i ∈ nums → 0 ≤ i < 2 ^ 12 → bit_at bits i = v) → assert_bits v nums bits = Some tt.
Proof.
  intros W L Hn Hv. apply assert_bits_ok; [done|]. apply list.Forall_forall. intros i Hi.
  pose proof nums_in_range as Hr. rewrite list.Forall_forall in Hn, Hr.
  specialize (Hr i (Hn i Hi)). split; [lia|]. by apply Hv.
Qed.

Lemma nums_all : Forall (λ i, i ∈ test_nums) test_nums.
Proof. by apply list.Forall_forall. Qed.

(** From the assertion that the bits are set to the one that they are not. *)
Lemma unset_phase b1 : bitarray_wf b1 → ba_len b1 = 2 ^ 12 →
  (∀ i, i ∈ test_nums → 0 ≤ i < 2 ^ 12 → bit_at b1 i = true) →
  ∃ b2 b3 b4, bitarray_unset_bit b1 4 = Some b2 ∧ bitarray_unset_bit b2 9 = Some b3 ∧
    assert_bits true (not_4_9 test_nums) b3 = Some tt ∧
    for_bits bitarray_unset_bit test_nums b3 = Some b4 ∧
    assert_bits false test_nums b4 = Some tt ∧ bitarray_wf b4 ∧ ba_len b4 = 2 ^ 12.
Proof.
  intros W1 L1 H1.
  destruct (unset_acts b1 4 W1 ltac:(lia)) as (b2 & E2 & W2 & L2 & H2). rewrite L1 in L2, H2.
  destruct (unset_acts b2 9 W2 ltac:(lia)) as (b3 & E3 & W3 & L3 & H3). rewrite L2 in L3, H3.
  destruct (for_bits_ok _ _ unset_acts pointwise_unset test_nums b3 W3)
    as (b4 & E4 & W4 & L4 & H4); [rewrite L3; exact nums_in_range|]. rewrite L3 in L4, H4.
  exists b2, b3, b4. split; [done|]. split; [done|]. split; [|split; [done|]].
  - assert (Forall (λ i, (i ∈ test_nums ∧ i ∉ [4]) ∧ i ∉ [9]) (not_4_9 test_nums)) as Hall
      by (apply (bool_decide_unpack _); vm_compute; exact I).
    apply assert_nums; [done|done| |].
    { eapply list.Forall_impl; [exact Hall|]. cbn. tauto. }
    intros i Hi Hr. rewrite list.Forall_forall in Hall. destruct (Hall i Hi) as ((Hin & H4n) & H9n).
    rewrite H3, H2, !bool_decide_false, H1 by done. done.
  - split; [|done]. apply assert_nums; [done|done|exact nums_all|].
    intros i Hi Hr. rewrite H4, bool_decide_true by done. apply andb_false_r.
Qed.

(** The test program of the bit arrays passes, its two to the thirty-two
    rounds of setting and testing included, whatever the allocator returns. *)
Theorem bitarray_test_passes ptr : bitarray_test_main ptr = Some EXIT_SUCCESS.
Proof.
  unfold bitarray_test_main. change (8 * 512) with (2 ^ 12).
  assert (∀ c, is_byte c → bitarray_wf (full c 12)) as Wf by (intros c Hc; apply replicate_wf; [done|lia]).
  assert (is_byte 0 ∧ is_byte 0xff) as [B0 B1] by (unfold is_byte; lia).
  assert (∀ b, bitarray_wf b → ba_len b = 2 ^ 12 → ∃ o, bitarray_print ptr b = Some o) as Hprint
    by (intros b Wb Lb; exact (bitarray_print_ok ptr b 12 Wb ltac:(lia) Lb)).
  rewrite bitarray_init_pow2 by lia. cbn [mbind option_bind].
  destruct (Hprint (full 0 12)) as [? ->]; [auto|done|]. cbn [mbind option_bind].
  assert (∀ c c', bitarray_fill c' (full c 12) = Some (full c' 12)) as Hfill
    by (intros c c'; by apply bitarray_fill_full).
  unfold bitarray_set_all, bitarray_unset_all. rewrite Hfill. cbn [mbind option_bind].
  destruct (Hprint (full 0xff 12)) as [? ->]; [auto|done|]. cbn [mbind option_bind].
  rewrite Hfill. cbn [mbind option_bind].
  destruct (Hprint (full 0 12)) as [? ->]; [auto|done|]. cbn [mbind option_bind].
  destruct (for_bits_ok _ _ set_acts pointwise_set test_nums (full 0 12) (Wf 0 B0) nums_in_range)
    as (b1 & -> & W1 & L1 & H1). cbn [mbind option_bind]. cbn [ba_len full] in L1, H1.
  rewrite (assert_nums true test_nums b1 W1 L1 nums_all)
    by (intros i Hi Hr; rewrite H1, bool_decide_true by done; apply orb_true_r).
  cbn [mbind option_bind]. change (test_nums !! 4%nat) with (Some 4).
  change (test_nums !! 9%nat) with (Some 9). cbn [mbind option_bind].
  destruct (unset_phase b1 W1 L1) as (b2 & b3 & b4 & -> & E3 & E4 & E5 & E6 & W4 & L4).
  { intros i Hi Hr. rewrite H1, bool_decide_true by done. apply orb_true_r. }
  cbn [mbind option_bind]. rewrite E3. cbn [mbind option_bind]. rewrite E4.
  cbn [mbind option_bind]. rewrite E5. cbn [mbind option_bind]. rewrite E6.
  destruct (Hprint b4 W4 L4) as [? ->]. cbn [mbind option_bind].
  change 4294967296 with (2 ^ 32). by rewrite test_throughput_ok by lia.
Qed.
End pass.

Lemma bitarray_test_passes_witness :
  @bitarray_test_main malloc_zero (str_bytes "0x1000") = Some EXIT_SUCCESS.
Proof. apply bitarray_test_passes. Defined.
