(* ===== verification/Bson.v ===== *)
(** * BSON: the data of src/include/bson.h and src/include/__bson.h, and the
      abstract documents the encoder and the decoder are specified by *)
From S2P Require Import Prelude Words Memory.

(** ** [enum BSON_TYPE] and [enum BSON_SUBTYPE] *)

Definition BSON_DOUBLE : Z := 0x01.
Definition BSON_STRING : Z := 0x02.
Definition BSON_EMBEDDED_DOCUMENT : Z := 0x03.
Definition BSON_ARRAY : Z := 0x04.
Definition BSON_BINARY : Z := 0x05.
Definition BSON_UNDEFINED : Z := 0x06.
Definition BSON_OBJECTID : Z := 0x07.
Definition BSON_BOOLEAN : Z := 0x08.
Definition BSON_UTC_DATETIME : Z := 0x09.
Definition BSON_NULL : Z := 0x0a.
Definition BSON_REGEX : Z := 0x0b.
Definition BSON_DBPOINTER : Z := 0x0c.
Definition BSON_JS : Z := 0x0d.
Definition BSON_SYMBOL : Z := 0x0e.
Definition BSON_JS_CODE : Z := 0x0f.
Definition BSON_INT32 : Z := 0x10.
Definition BSON_TIMESTAMP : Z := 0x11.
Definition BSON_INT64 : Z := 0x12.
Definition BSON_MIN : Z := 0xff.
Definition BSON_MAX : Z := 0x7f.

Definition BSON_BINARY_GENERIC : Z := 0x00.

(** ** [struct bson_info] *)

Record bson_info := {
  bi_size : Z;
  bi_f_offset : Z;
  bi_position : Z;
  bi_buffer : cptr;
}.

Definition set_size (n : Z) (b : bson_info) : bson_info :=
  {| bi_size := n; bi_f_offset := bi_f_offset b; bi_position := bi_position b;
     bi_buffer := bi_buffer b |}.
Definition set_f_offset (n : Z) (b : bson_info) : bson_info :=
  {| bi_size := bi_size b; bi_f_offset := n; bi_position := bi_position b;
     bi_buffer := bi_buffer b |}.
Definition set_position (n : Z) (b : bson_info) : bson_info :=
  {| bi_size := bi_size b; bi_f_offset := bi_f_offset b; bi_position := n;
     bi_buffer := bi_buffer b |}.
Definition set_buffer (p : cptr) (b : bson_info) : bson_info :=
  {| bi_size := bi_size b; bi_f_offset := bi_f_offset b;
     bi_position := bi_position b; bi_buffer := p |}.

(** ** [struct bson_kv]

    [key] and [data] are untyped pointers. [DMem m] points at the block [m],
    [DDoc d] at a [struct bson_info], [DMemDoc m d] at the bytes [m] with a
    [struct bson_info] right behind them, and [DOff o] into the buffer of the
    document being read, as the decoder sets them. *)
Inductive cdata :=
  | DNull
  | DMem (m : list Z)
  | DDoc (d : bson_info)
  | DMemDoc (m : list Z) (d : bson_info)
  | DOff (o : Z).

Record bson_kv := {
  kv_type : Z;
  kv_subtype : Z;
  kv_size : Z;
  kv_key : cdata;
  kv_data : cdata;
}.

Definition set_kv_type (z : Z) (v : bson_kv) : bson_kv :=
  {| kv_type := z; kv_subtype := kv_subtype v; kv_size := kv_size v;
     kv_key := kv_key v; kv_data := kv_data v |}.
Definition set_kv_subtype (z : Z) (v : bson_kv) : bson_kv :=
  {| kv_type := kv_type v; kv_subtype := z; kv_size := kv_size v;
     kv_key := kv_key v; kv_data := kv_data v |}.
Definition set_kv_size (z : Z) (v : bson_kv) : bson_kv :=
  {| kv_type := kv_type v; kv_subtype := kv_subtype v; kv_size := z;
     kv_key := kv_key v; kv_data := kv_data v |}.
Definition set_kv_key (p : cdata) (v : bson_kv) : bson_kv :=
  {| kv_type := kv_type v; kv_subtype := kv_subtype v; kv_size := kv_size v;
     kv_key := p; kv_data := kv_data v |}.
Definition set_kv_data (p : cdata) (v : bson_kv) : bson_kv :=
  {| kv_type := kv_type v; kv_subtype := kv_subtype v; kv_size := kv_size v;
     kv_key := kv_key v; kv_data := p |}.

(** The bytes a pointer leads to; none for a null pointer. *)
Definition cbytes (p : cdata) : option (list Z) :=
  match p with DMem m | DMemDoc m _ => Some m | _ => None end.

Definition cdata_null (p : cdata) : bool :=
  match p with DNull => true | _ => false end.

(** ** Abstract documents *)

Inductive bval :=
  | VDouble (d : list Z)
  | VString (s : list Z)
  | VDocument (d : list Z)
  | VArray (d : list Z)
  | VBinary (st : Z) (s : list Z)
  | VUndefined
  | VObjectId (o : list Z)
  | VBoolean (b : bool)
  | VUtc (t : list Z)
  | VNull
  | VRegex (p o : list Z)
  | VDbPointer (s o : list Z)
  | VJs (s : list Z)
  | VSymbol (s : list Z)
  | VJsCode (s d : list Z)
  | VInt32 (i : list Z)
  | VTimestamp (t : list Z)
  | VInt64 (i : list Z)
  | VMin
  | VMax.

Record elem := { e_key : list Z; e_val : bval }.

#[export] Instance bval_eq_dec : EqDecision bval.
Proof. solve_decision. Defined.
#[export] Instance elem_eq_dec : EqDecision elem.
Proof. solve_decision. Defined.

Definition btype (v : bval) : Z :=
  match v with
  | VDouble _ => BSON_DOUBLE
  | VString _ => BSON_STRING
  | VDocument _ => BSON_EMBEDDED_DOCUMENT
  | VArray _ => BSON_ARRAY
  | VBinary _ _ => BSON_BINARY
  | VUndefined => BSON_UNDEFINED
  | VObjectId _ => BSON_OBJECTID
  | VBoolean _ => BSON_BOOLEAN
  | VUtc _ => BSON_UTC_DATETIME
  | VNull => BSON_NULL
  | VRegex _ _ => BSON_REGEX
  | VDbPointer _ _ => BSON_DBPOINTER
  | VJs _ => BSON_JS
  | VSymbol _ => BSON_SYMBOL
  | VJsCode _ _ => BSON_JS_CODE
  | VInt32 _ => BSON_INT32
  | VTimestamp _ => BSON_TIMESTAMP
  | VInt64 _ => BSON_INT64
  | VMin => BSON_MIN
  | VMax => BSON_MAX
  end.

(** [string ::= int32 (byte* ) "\x00"], with the terminator counted. *)
Definition enc_string (s : list Z) : list Z := le_enc 4 (zlen s + 1) ++ s ++ [0].

(** The grammar in front of [serialize_element] and the rules above the functions
    it calls; [code_w_s], which the decoder reads, is a total length, a string and
    a document. *)
Definition cstring (s : list Z) : list Z := s ++ [0].

Definition grammar_val (v : bval) : list Z :=
  match v with
  | VDouble d => d
  | VString s => enc_string s
  | VDocument d | VArray d => d
  | VBinary st s => le_enc 4 (zlen s) ++ st :: s
  | VUndefined | VNull | VMin | VMax => []
  | VObjectId o => o
  | VBoolean b => [if b then 1 else 0]
  | VUtc t | VTimestamp t => t
  | VRegex p o => cstring p ++ cstring o
  | VDbPointer s o => enc_string s ++ o
  | VJs s | VSymbol s => enc_string s
  | VJsCode s d => le_enc 4 (4 + zlen (enc_string s ++ d)) ++ enc_string s ++ d
  | VInt32 i | VInt64 i => i
  end.

Definition grammar_elem (e : elem) : list Z :=
  btype (e_val e) :: cstring (e_key e) ++ grammar_val (e_val e).

(** The types whose wire format is that of the grammar. *)
Definition conforming (v : bval) : bool :=
  match v with VRegex _ _ | VJsCode _ _ => false | _ => true end.

(** The wire format: the bytes the encoder writes for a value. It has strings
    with their lengths in a regular expression, and no total length in scoped
    code. *)
Definition enc_val (v : bval) : list Z :=
  match v with
  | VDouble d => d
  | VString s => enc_string s
  | VDocument d | VArray d => d
  | VBinary st s => le_enc 4 (zlen s) ++ st :: s
  | VUndefined | VNull | VMin | VMax => []
  | VObjectId o => o
  | VBoolean b => [if b then 1 else 0]
  | VUtc t | VTimestamp t => t
  | VRegex p o => enc_string p ++ enc_string o
  | VDbPointer s o => enc_string s ++ o
  | VJs s | VSymbol s => enc_string s
  | VJsCode s d => enc_string s ++ d
  | VInt32 i | VInt64 i => i
  end.

Definition enc_elem (e : elem) : list Z :=
  btype (e_val e) :: e_key e ++ 0 :: enc_val (e_val e).

Definition enc_elems (es : list elem) : list Z := concat (map enc_elem es).

(** A document: its length, its elements, a terminator. *)
Definition enc_doc (es : list elem) : list Z :=
  le_enc 4 (zlen (enc_elems es) + 5) ++ enc_elems es ++ [0].

Lemma length_enc_string s : length (enc_string s) = (length s + 5)%nat.
Proof. unfold enc_string. len. Qed.

Lemma length_enc_elem e :
  length (enc_elem e) = (2 + length (e_key e) + length (enc_val (e_val e)))%nat.
Proof. unfold enc_elem. len. Qed.

Lemma length_enc_doc es : zlen (enc_doc es) = zlen (enc_elems es) + 5.
Proof. unfold enc_doc. len. Qed.

#[export] Hint Rewrite length_enc_string length_enc_elem : len.

(** The two agree on the other types, and only there. *)
Lemma enc_elem_grammar e : enc_elem e = grammar_elem e ↔ conforming (e_val e) = true.
Proof.
  unfold enc_elem, grammar_elem, cstring. rewrite <-app_assoc. cbn [app]. split.
  - intros E. destruct (e_val e) as [| | | | | | | | | |p o| | | |s d| | | | |]; try done.
    all: apply (f_equal length) in E; cbn [enc_val grammar_val] in E; unfold cstring in E;
      exfalso; autorewrite with len in E; simpl in E; lia.
  - intros Hc. by destruct (e_val e).
Qed.

Lemma enc_elems_cons e es : enc_elems (e :: es) = enc_elem e ++ enc_elems es.
Proof. done. Qed.

Lemma enc_elems_app es1 es2 : enc_elems (es1 ++ es2) = enc_elems es1 ++ enc_elems es2.
Proof. unfold enc_elems. by rewrite map_app, concat_app. Qed.

(** ** Filling a [struct bson_kv]

    The callers reuse one local [value] and assign some of its members before
    each [bson_serialize]; the members they do not assign keep the value of the
    previous use, or are indeterminate. *)

(** [value.type = BSON_STRING; value.size = n; value.key = key; value.data = s] *)
Definition fill_str (key : string) (n : Z) (s : list Z) (v : bson_kv) : bson_kv :=
  {| kv_type := BSON_STRING; kv_subtype := kv_subtype v; kv_size := s32 n;
     kv_key := DMem (cstr key); kv_data := DMem s |}.

(** [value.type = ty; value.key = key; value.data = m] *)
Definition fill_mem (ty : Z) (key : string) (m : list Z) (v : bson_kv) : bson_kv :=
  {| kv_type := ty; kv_subtype := kv_subtype v; kv_size := kv_size v;
     kv_key := DMem (cstr key); kv_data := DMem m |}.

(** [value.type = ty; value.key = key; value.data = doc] *)
Definition fill_doc (ty : Z) (key : string) (d : bson_info) (v : bson_kv) : bson_kv :=
  {| kv_type := ty; kv_subtype := kv_subtype v; kv_size := kv_size v;
     kv_key := DMem (cstr key); kv_data := DDoc d |}.

(** A [struct bson_kv] local before its first assignment. *)
Definition kv_indet `{Malloc} : bson_kv :=
  {| kv_type := indeterminate; kv_subtype := indeterminate;
     kv_size := indeterminate; kv_key := DNull; kv_data := DNull |}.
