(* ===== verification/BsonEncode.v ===== *)
(** * src/bson/bson-encoder.c: the BSON serializer

    A pointer to a [struct bson_info] is non-null by its type, so the guards
    [bson_info == NULL] are not represented; null keys and data are. *)
From S2P Require Import Prelude Words Memory Stdio Bson.

Definition START_SIZE : Z := 4096.

(** ** Definitions *)

Section encoder.
Context `{Malloc}.

(** [None] is the null pointer. *)
Definition bson_init : option bson_info :=
  m ← malloc START_SIZE;
  Some {| bi_size := START_SIZE; bi_f_offset := indeterminate;
          bi_position := 0; bi_buffer := PLive m |}.

(** The loop [while (old_size < needed_size) old_size = old_size << 1]. *)
Fixpoint new_size (fuel : nat) (old_size needed_size : Z) : option Z :=
  match fuel with
  | O => None
  | S fuel =>
      if old_size <? needed_size
      then new_size fuel (s32 (Z.shiftl old_size 1)) needed_size
      else Some old_size
  end.

(** 32 doublings of an [int32_t] reach 0 or the needed size. *)
Definition new_size_fuel : nat := 33.

Definition resize (b : bson_info) (needed_size : Z) : option (bson_info * Z) :=
  match bi_buffer b with
  | PNull => Some (b, EXIT_FAILURE)
  | PDangling => None
  | PLive old =>
      let old_size := s32 (bi_size b) in
      n ← new_size new_size_fuel (s32 (bi_size b)) needed_size;
      let size := u64 n in
      m ← malloc size;
      d ← mem_read old 0 (u64 old_size);
      m ← mem_write m 0 d;
      Some (set_buffer (PLive m) (set_size size b), EXIT_SUCCESS)
  end.

Definition check_size (b : bson_info) (added_size : Z) : option (bson_info * Z) :=
  if bi_size b <? u64 (bi_position b + added_size)
  then resize b (s32 (u64 (bi_position b + added_size)))
  else Some (b, EXIT_SUCCESS).

(** [memcpy(&buffer[position], d, n); position += n] *)
Definition put (b : bson_info) (d : list Z) : option bson_info :=
  m ← deref (bi_buffer b);
  m ← mem_write m (bi_position b) d;
  Some (set_position (u64 (bi_position b + zlen d)) (set_buffer (PLive m) b)).

(** [check_size] followed by [puts] when it succeeds. *)
Definition checked (b : bson_info) (added : Z)
    (puts : bson_info → option bson_info) : option (bson_info * Z) :=
  '(b, rc) ← check_size b added;
  if rc =? 0 then b ← puts b; Some (b, EXIT_SUCCESS) else Some (b, EXIT_FAILURE).

Definition serialize_cstring (b : bson_info) (p : cdata) : option (bson_info * Z) :=
  if cdata_null p then Some (b, EXIT_FAILURE) else
  m ← cbytes p;
  n ← cstrlen m;
  let cstr_size := s32 (n + 1) in
  checked b cstr_size (λ b, d ← mem_read m 0 (u64 cstr_size); put b d).

(** [len] and [str] point at an [int32_t] and at the characters. *)
Definition serialize_string (b : bson_info) (len : option Z)
    (str : option (list Z)) : option (bson_info * Z) :=
  match len, str with
  | Some len, Some str =>
      let str_size := s32 (len + 1) in
      checked b (s32 (str_size + 4)) (λ b,
        b ← put b (le_enc 4 str_size);
        d ← mem_read str 0 (u64 len);
        b ← put b d;
        put b [0x00])
  | _, _ => Some (b, EXIT_FAILURE)
  end.

(** [serialize_double], [serialize_int32], [serialize_int64] and
    [serialize_objectid]: [n] bytes copied from the object pointed at. *)
Definition serialize_raw (n : Z) (b : bson_info) (p : option (list Z)) :
    option (bson_info * Z) :=
  match p with
  | None => Some (b, EXIT_FAILURE)
  | Some m => checked b n (λ b, d ← mem_read m 0 n; put b d)
  end.

Definition serialize_double := serialize_raw 8.
Definition serialize_int32 := serialize_raw 4.
Definition serialize_int64 := serialize_raw 8.
Definition serialize_objectid := serialize_raw 12.

Definition serialize_boolean (b : bson_info) (p : option (list Z)) :
    option (bson_info * Z) :=
  checked b 1 (λ b,
    m ← p; v ← mem_byte m 0; put b [if v =? 0 then 0x00 else 0x01]).

Definition serialize_document (b : bson_info) (document : option bson_info) :
    option (bson_info * Z) :=
  match document with
  | None => Some (b, EXIT_FAILURE)
  | Some doc =>
      checked b (s32 (bi_position doc)) (λ b,
        m ← deref (bi_buffer doc);
        d ← mem_read m 0 (bi_position doc);
        put b d)
  end.

Definition serialize_binary (b : bson_info) (len : option Z) (subtype : Z)
    (p : option (list Z)) : option (bson_info * Z) :=
  match len, p with
  | Some len, Some m =>
      checked b (s32 (4 + 1 + len)) (λ b,
        b ← put b (le_enc 4 len);
        b ← put b [u8 subtype];
        d ← mem_read m 0 (u64 len);
        put b d)
  | _, _ => Some (b, EXIT_FAILURE)
  end.

(** [(uint8_t* ) data + off], [None] outside the object. *)
Definition data_at (p : cdata) (off : Z) : option (list Z) :=
  m ← cbytes p;
  if bool_decide (0 ≤ off ≤ zlen m) then Some (drop (Z.to_nat off) m) else None.

Definition data_int32 (p : cdata) (off : Z) : option Z :=
  m ← data_at p off; z ← mem_le 4 m 0; Some (s32 z).

(** [value->data] converted to a pointer to bytes or to a document. *)
Definition data_bytes (p : cdata) : option (option (list Z)) :=
  if cdata_null p then Some None else m ← cbytes p; Some (Some m).

Definition data_doc (p : cdata) : option (option bson_info) :=
  match p with DNull => Some None | DDoc d => Some (Some d) | _ => None end.

(** The document behind a length-prefixed string (JavaScript with scope). *)
Definition data_doc_at (p : cdata) (off : Z) : option bson_info :=
  match p with
  | DMemDoc m d => if bool_decide (off = zlen m) then Some d else None
  | _ => None
  end.

(** The body of a case of the [switch]: type byte, key, then the value; the
    return codes of the helpers are ignored. *)
Definition put_element (b : bson_info) (ty : Z) (key : cdata)
    (value : bson_info → option (bson_info * Z)) : option (bson_info * Z) :=
  b ← put b [ty];
  '(b, _) ← serialize_cstring b key;
  '(b, _) ← value b;
  Some (b, EXIT_SUCCESS).

(** An [int32_t] length at [data + off] and the characters behind it. *)
Definition serialize_prefixed (data : cdata) (off : Z) (b : bson_info) :
    option (bson_info * Z) :=
  n ← data_int32 data off; s ← data_at data (off + 4);
  serialize_string b (Some n) (Some s).

Definition serialize_value (v : bson_kv) (b : bson_info) : option (bson_info * Z) :=
  let ty := kv_type v in
  let data := kv_data v in
  let nothing := Some (b, EXIT_SUCCESS) in
  if ty =? BSON_DOUBLE then d ← data_bytes data; serialize_double b d
  else if ty =? BSON_STRING then
    d ← data_bytes data; serialize_string b (Some (kv_size v)) d
  else if (ty =? BSON_EMBEDDED_DOCUMENT) || (ty =? BSON_ARRAY) then
    d ← data_doc data; serialize_document b d
  else if ty =? BSON_BINARY then
    d ← data_bytes data; serialize_binary b (Some (kv_size v)) (kv_subtype v) d
  else if ty =? BSON_UNDEFINED then nothing
  else if ty =? BSON_OBJECTID then d ← data_bytes data; serialize_objectid b d
  else if ty =? BSON_BOOLEAN then d ← data_bytes data; serialize_boolean b d
  else if ty =? BSON_UTC_DATETIME then d ← data_bytes data; serialize_int64 b d
  else if ty =? BSON_NULL then nothing
  else if ty =? BSON_REGEX then
    n ← data_int32 data 0;
    '(b, _) ← serialize_prefixed data 0 b;
    serialize_prefixed data (4 + n) b
  else if ty =? BSON_DBPOINTER then
    n ← data_int32 data 0;
    '(b, _) ← serialize_prefixed data 0 b;
    o ← data_at data (4 + n);
    serialize_objectid b (Some o)
  else if (ty =? BSON_JS) || (ty =? BSON_SYMBOL) then serialize_prefixed data 0 b
  else if ty =? BSON_JS_CODE then
    n ← data_int32 data 0;
    '(b, _) ← serialize_prefixed data 0 b;
    d ← data_doc_at data (4 + n);
    serialize_document b (Some d)
  else if ty =? BSON_INT32 then d ← data_bytes data; serialize_int32 b d
  else if (ty =? BSON_TIMESTAMP) || (ty =? BSON_INT64) then
    d ← data_bytes data; serialize_int64 b d
  else nothing (* BSON_MIN, BSON_MAX *).

(** The cases of the [switch]; any other type writes nothing. *)
Definition known_type (ty : Z) : bool :=
  ((1 <=? ty) && (ty <=? 0x12)) || (ty =? BSON_MIN) || (ty =? BSON_MAX).

Definition serialize_element (b : bson_info) (v : bson_kv) : option (bson_info * Z) :=
  '(b, _) ← check_size b 1;
  if known_type (kv_type v)
  then put_element b (kv_type v) (kv_key v) (serialize_value v)
  else Some (b, EXIT_SUCCESS).

Definition bson_serialize (b : bson_info) (v : bson_kv) : option (bson_info * Z) :=
  serialize_element b v.

Definition bson_finalize (b : bson_info) : option (bson_info * Z) :=
  checked b 5 (λ b,
    let total_bytes := s32 (bi_position b + 5) in
    m ← deref (bi_buffer b);
    d ← mem_read m 0 (bi_position b);
    m ← mem_write m 4 d;
    m ← mem_write m 0 (le_enc 4 total_bytes);
    put (set_position (u64 (bi_position b + 4)) (set_buffer (PLive m) b)) [0x00]).

(** The loop of [bson_writef]; a short write is an error of the stream. *)
Fixpoint writef_loop (fuel : nat) (m : list Z) (to_write written : Z) (f : FILE) :
    option (FILE * Z) :=
  match fuel with
  | O => None
  | S fuel =>
      if to_write =? 0 then Some (f, EXIT_SUCCESS) else
      d ← mem_read m written to_write;
      let '(f, written) := fwrite f d in
      if negb (written =? to_write) && f_error f then Some (f, EXIT_FAILURE)
      else writef_loop fuel m (to_write - written) written f
  end.

Definition bson_writef (b : bson_info) (f : FILE) : option (bson_info * FILE * Z) :=
  match bi_buffer b with
  | PNull => Some (b, f, EXIT_SUCCESS)
  | PDangling => None
  | PLive m =>
      '(f, rc) ← writef_loop 2 m (bi_position b) 0 f;
      if rc =? 0 then Some (b, f, EXIT_SUCCESS)
      else p ← cfree (bi_buffer b); Some (set_buffer p b, f, EXIT_FAILURE)
  end.

Definition bson_reset (b : bson_info) : bson_info := set_position 0 b.

(** The struct itself is freed too: no state is left. *)
Definition bson_cleanup (b : bson_info) : option unit :=
  _ ← cfree (bi_buffer b); Some tt.

(** Consecutive [bson_serialize] calls, each after some assignments to the
    caller's [value]. *)
Fixpoint serialize_fields (b : bson_info) (value : bson_kv)
    (fills : list (bson_kv → bson_kv)) : option (bson_info * bson_kv) :=
  match fills with
  | [] => Some (b, value)
  | fill :: fills =>
      let value := fill value in
      '(b, _) ← bson_serialize b value;
      serialize_fields b value fills
  end.

(** The common tail of the document writers: finalize, write, clean up. *)
Definition finish_document (b : bson_info) (f : FILE) : option (FILE * Z) :=
  '(b, _) ← bson_finalize b;
  '(b, f, ret) ← bson_writef b f;
  _ ← bson_cleanup b;
  Some (f, ret).

(** [bson_init], the fields, and the tail. *)
Definition write_document (fills : list (bson_kv → bson_kv)) (f : FILE) :
    option (FILE * Z) :=
  b ← bson_init;
  '(b, _) ← serialize_fields b kv_indet fills;
  finish_document b f.
End encoder.

(** ** The loop of [new_size] *)

Definition doubled (n : Z) : Prop := ∃ j, 12 ≤ j ≤ 30 ∧ n = 2 ^ j.

Lemma shiftl_1 z : Z.shiftl z 1 = 2 * z.
Proof. rewrite Z.shiftl_mul_pow2 by lia. change (2 ^ 1) with 2. lia. Qed.

(** From a positive size the loop reaches the first doubling that suffices. *)
Lemma new_size_doubles (k : nat) old needed :
  0 < old → needed ≤ old * 2 ^ Z.of_nat k → old * 2 ^ Z.of_nat k ≤ 2 ^ 30 →
  ∃ j, 0 ≤ j ≤ Z.of_nat k ∧ new_size (S k) old needed = Some (old * 2 ^ j) ∧
       needed ≤ old * 2 ^ j ∧ (j = 0 ∨ old * 2 ^ (j - 1) < needed).
Proof.
  revert old. induction k as [|k IH]; intros old Hold Hn Hb.
  - change (2 ^ Z.of_nat 0) with 1 in *. exists 0. change (2 ^ 0) with 1.
    rewrite Z.mul_1_r in *. simpl. case_test. auto with lia.
  - simpl. case_test.
    + rewrite Nat2Z.inj_succ, Z.pow_succ_r in Hn, Hb by lia.
      assert (1 ≤ 2 ^ Z.of_nat k) by (pose proof (Z.pow_pos_nonneg 2 (Z.of_nat k)); lia).
      rewrite shiftl_1, swrap_small by nia.
      destruct (IH (2 * old)) as (j & Hj & E & Hge & Hmin); [nia..|].
      exists (j + 1). rewrite Z.add_simpl_r, Z.pow_add_r by lia. change (2 ^ 1) with 2.
      split; [lia|]. simpl in E. rewrite E. split; [f_equal; lia|]. split; [lia|]. right.
      destruct (decide (j = 0)) as [->|]; [change (2 ^ 0) with 1; lia|].
      destruct Hmin as [->|Hmin]; [done|].
      replace j with ((j - 1) + 1) at 1 by lia.
      rewrite Z.pow_add_r by lia. change (2 ^ 1) with 2. lia.
    + exists 0. change (2 ^ 0) with 1. rewrite Z.mul_1_r. auto with lia.
Qed.

(** More rounds do not change the result. *)
Lemma new_size_mono (k k' : nat) old needed n :
  (k ≤ k')%nat → new_size k old needed = Some n → new_size k' old needed = Some n.
Proof.
  revert k' old. induction k as [|k IH]; intros k' old Hk; [done|].
  destruct k' as [|k']; [lia|]. simpl. case_test; [|done].
  apply IH. lia.
Qed.

Lemma new_size_ok old needed :
  doubled old → needed ≤ 2 ^ 30 →
  ∃ n, new_size new_size_fuel old needed = Some n ∧ doubled n ∧ needed ≤ n ∧ old ≤ n ∧
       (n = old ∨ n < 2 * needed).
Proof.
  intros (i & Hi & ->) Hn.
  assert (0 < 2 ^ i) by (apply Z.pow_pos_nonneg; lia).
  assert (2 ^ i * 2 ^ Z.of_nat (Z.to_nat (30 - i)) = 2 ^ 30) as E.
  { rewrite Z2Nat.id, <-Z.pow_add_r by lia. f_equal. lia. }
  destruct (new_size_doubles (Z.to_nat (30 - i)) (2 ^ i) needed)
    as (j & Hj & Ej & Hge & Hmin); [lia..|].
  exists (2 ^ i * 2 ^ j). rewrite <-Z.pow_add_r by lia.
  assert (2 ^ i ≤ 2 ^ (i + j)) by (apply Z.pow_le_mono_r; lia).
  rewrite <-Z.pow_add_r in Hge, Ej by lia.
  split; [|split; [exists (i + j); lia|split; [done|split; [done|]]]].
  - eapply new_size_mono; [|exact Ej]. unfold new_size_fuel. lia.
  - destruct (decide (j = 0)) as [->|]; [left; by rewrite Z.add_0_r|right].
    destruct Hmin as [->|Hmin]; [done|].
    rewrite <-Z.pow_add_r in Hmin by lia.
    replace (i + j) with (Z.succ (i + (j - 1))) by lia.
    rewrite Z.pow_succ_r by lia. lia.
Qed.

(** The sizes of the encoder's buffers past 1 GiB: the shift overflows to a
    negative number and then to 0, where it stays. *)
Lemma new_size_zero fuel needed : 0 < needed → new_size fuel 0 needed = None.
Proof.
  intros Hn. induction fuel as [|fuel IH]; [done|]. simpl. case_test. exact IH.
Qed.

Lemma new_size_diverges_from fuel j needed :
  0 ≤ j ≤ 31 → 2 ^ 30 < needed → new_size fuel (s32 (2 ^ j)) needed = None.
Proof.
  intros Hj Hn. revert j Hj. induction fuel as [|fuel IH]; intros j Hj; [done|]. simpl.
  assert (s32 (2 ^ j) < needed) as Hlt.
  { destruct (decide (j = 31)) as [->|]; [change (s32 (2 ^ 31)) with (- 2 ^ 31); lia|].
    rewrite swrap_small.
    - assert (2 ^ j ≤ 2 ^ 30) by (apply Z.pow_le_mono_r; lia). lia.
    - lia.
    - assert (2 ^ j ≤ 2 ^ 30) by (apply Z.pow_le_mono_r; lia).
      pose proof (Z.pow_pos_nonneg 2 j). lia. }
  case_test. rewrite shiftl_1.
  destruct (decide (j = 31)) as [->|].
  - change (s32 (2 * s32 (2 ^ 31))) with 0. apply new_size_zero. lia.
  - rewrite (swrap_small 32 (2 ^ j)).
    + rewrite <-Z.pow_succ_r by lia. apply IH. lia.
    + lia.
    + assert (2 ^ j ≤ 2 ^ 30) by (apply Z.pow_le_mono_r; lia).
      pose proof (Z.pow_pos_nonneg 2 j). lia.
Qed.

(** ** Representation: the bytes written so far *)

(** [b] holds [c]: a live buffer of [bi_size] bytes, a power-of-two multiple of
    the starting size, that begins with [c] and is positioned behind it. *)
Definition enc_rep (b : bson_info) (c : list Z) : Prop :=
  ∃ rest, bi_buffer b = PLive (c ++ rest) ∧ zlen (c ++ rest) = bi_size b ∧
          doubled (bi_size b) ∧ bi_position b = zlen c.

Lemma enc_rep_unique b c1 c2 : enc_rep b c1 → enc_rep b c2 → c1 = c2.
Proof.
  intros (r1 & E1 & _ & _ & P1) (r2 & E2 & _ & _ & P2). rewrite E1 in E2. injection E2 as E.
  apply app_inj_1 in E as [E _]; [done|lia].
Qed.

(** The largest document the encoder can hold: sizes are [int32_t] doublings. *)
Definition max_doc : Z := 2 ^ 30.

Lemma doubled_bounds n : doubled n → 4096 ≤ n ≤ 2 ^ 30.
Proof.
  intros (j & Hj & ->). change 4096 with (2 ^ 12).
  split; apply Z.pow_le_mono_r; lia.
Qed.

Section refinement.
Context `{Malloc} `{!MallocTotal}.

Lemma bson_init_rep : ∃ b, bson_init = Some b ∧ enc_rep b [].
Proof.
  unfold bson_init. destruct (malloc_total START_SIZE) as [m Hm]; [done|].
  rewrite Hm. eexists. split; [done|]. exists m. simpl.
  split; [done|]. split; [by apply malloc_length|]. split; [|done]. by exists 12.
Qed.

Lemma resize_ok b c needed :
  enc_rep b c → needed ≤ max_doc →
  ∃ b', resize b needed = Some (b', EXIT_SUCCESS) ∧ enc_rep b' c ∧ needed ≤ bi_size b'.
Proof.
  intros (rest & Hb & Hs & Hd & Hp) Hn. unfold resize. rewrite Hb.
  pose proof (doubled_bounds _ Hd).
  rewrite !(swrap_small 32) by lia.
  destruct (new_size_ok (bi_size b) needed Hd Hn) as (n & En & Hdn & Hge & Hmono & _).
  pose proof (doubled_bounds _ Hdn).
  rewrite En. simpl. rewrite (uwrap_small 64 n) by lia.
  destruct (malloc_total n) as [m Hm]; [lia|]. rewrite Hm. simpl.
  apply malloc_length in Hm.
  rewrite (uwrap_small 64 (bi_size b)), <-Hs by lia.
  rewrite mem_read_prefix, Nat2Z.id, firstn_all by lia. simpl.
  rewrite (list_split_at m (length (c ++ rest))).
  pose proof (mem_write_app [] (take (length (c ++ rest)) m) (c ++ rest)
                (drop (length (c ++ rest)) m) 0) as E.
  simpl in E. rewrite E; [|done|]; [|rewrite length_take; lia].
  eexists. split; [done|]. split; [|done].
  exists (rest ++ drop (length (c ++ rest)) m). simpl.
  rewrite <-app_assoc. split; [done|].
  split; [|by split]. autorewrite with len in *. lia.
Qed.

Lemma check_size_ok b c added :
  enc_rep b c → 0 ≤ added → zlen c + added ≤ max_doc →
  ∃ b', check_size b added = Some (b', EXIT_SUCCESS) ∧ enc_rep b' c ∧
        zlen c + added ≤ bi_size b'.
Proof.
  intros Hr Ha Hm. pose proof Hr as (rest & Hb & Hs & Hd & Hp).
  unfold max_doc in *. unfold check_size. rewrite Hp.
  rewrite (uwrap_small 64) by lia. case_test.
  - rewrite swrap_small by lia. apply resize_ok; [done|unfold max_doc; lia].
  - exists b. split; [done|]. split; [done|lia].
Qed.

Lemma put_ok b c d :
  enc_rep b c → zlen c + zlen d ≤ bi_size b →
  ∃ b', put b d = Some b' ∧ enc_rep b' (c ++ d) ∧ bi_size b' = bi_size b.
Proof.
  intros (rest & Hb & Hs & Hd & Hp) Hsz. pose proof (doubled_bounds _ Hd).
  unfold put. rewrite Hb. simpl. rewrite (list_split_at rest (length d)).
  autorewrite with len in Hs.
  rewrite mem_write_app; [|done|rewrite length_take; lia]. simpl.
  eexists. split; [done|]. split; [|done].
  exists (drop (length d) rest). simpl. rewrite <-app_assoc.
  split; [done|]. split; [autorewrite with len; lia|]. split; [done|].
  rewrite Hp, uwrap_small by lia. autorewrite with len. lia.
Qed.

(** [f] succeeds and appends [d] to every buffer with room for it. *)
Definition appends (f : bson_info → option (bson_info * Z)) (d : list Z) : Prop :=
  ∀ b c, enc_rep b c → zlen c + zlen d ≤ max_doc →
    ∃ b', f b = Some (b', EXIT_SUCCESS) ∧ enc_rep b' (c ++ d).

Lemma appends_nil : appends (λ b, Some (b, EXIT_SUCCESS)) [].
Proof. intros b c Hr _. exists b. by rewrite app_nil_r. Qed.

Lemma appends_bind f g d1 d2 :
  appends f d1 → appends g d2 →
  appends (λ b, '(b, _) ← f b; g b) (d1 ++ d2).
Proof.
  intros Hf Hg b c Hr Hl. autorewrite with len in Hl.
  destruct (Hf b c Hr) as (b1 & E1 & Hr1); [lia|]. rewrite E1. simpl.
  destruct (Hg b1 (c ++ d1) Hr1) as (b2 & E2 & Hr2); [autorewrite with len; lia|].
  exists b2. by rewrite app_assoc.
Qed.

(** A sequence of [put]s behind a [check_size] for their total size. *)
Fixpoint puts (ds : list (list Z)) (b : bson_info) : option bson_info :=
  match ds with [] => Some b | d :: ds => b ← put b d; puts ds b end.

Lemma puts_ok ds b c :
  enc_rep b c → zlen c + zlen (concat ds) ≤ bi_size b →
  ∃ b', puts ds b = Some b' ∧ enc_rep b' (c ++ concat ds).
Proof.
  revert b c. induction ds as [|d ds IH]; intros b c Hr Hl; simpl in *.
  { exists b. by rewrite app_nil_r. }
  autorewrite with len in Hl.
  destruct (put_ok b c d Hr) as (b1 & E1 & Hr1 & Hs1); [lia|]. rewrite E1. simpl.
  destruct (IH b1 (c ++ d) Hr1) as (b2 & E2 & Hr2); [autorewrite with len; lia|].
  exists b2. by rewrite app_assoc.
Qed.

Lemma checked_ok b c added ds f :
  enc_rep b c → zlen c + zlen (concat ds) ≤ max_doc → added = zlen (concat ds) →
  (∀ b, f b = puts ds b) →
  ∃ b', checked b added f = Some (b', EXIT_SUCCESS) ∧ enc_rep b' (c ++ concat ds).
Proof.
  intros Hr Hl -> Hf. unfold checked.
  destruct (check_size_ok b c (zlen (concat ds)) Hr) as (b1 & E1 & Hr1 & Hs1); [lia..|].
  rewrite E1. simpl. rewrite Hf.
  destruct (puts_ok ds b1 c Hr1) as (b2 & E2 & Hr2); [lia|].
  rewrite E2. simpl. by exists b2.
Qed.

Lemma checked_one b c added d f :
  enc_rep b c → zlen c + zlen d ≤ max_doc → added = zlen d →
  (∀ b, f b = put b d) →
  ∃ b', checked b added f = Some (b', EXIT_SUCCESS) ∧ enc_rep b' (c ++ d).
Proof.
  intros Hr Hl Ha Hf. replace d with (concat [d]) by (simpl; by rewrite app_nil_r).
  apply checked_ok; simpl; rewrite ?app_nil_r; [done..|].
  intros b'. rewrite Hf. by destruct (put b' d).
Qed.

Lemma serialize_cstring_appends p m s r :
  cdata_null p = false → cbytes p = Some m → m = s ++ 0 :: r →
  Forall (λ z, z ≠ 0) s → appends (λ b, serialize_cstring b p) (s ++ [0]).
Proof.
  intros Hn Hp -> Hs b c Hr Hl. unfold serialize_cstring.
  rewrite Hn, Hp. simpl. rewrite cstrlen_app by done. simpl.
  unfold max_doc in Hl. autorewrite with len in Hl. simpl in Hl.
  rewrite (swrap_small 32) by lia.
  apply checked_one; [done|unfold max_doc; len|len|].
  intros b'. rewrite uwrap_small by lia.
  replace (s ++ 0 :: r) with ([] ++ (s ++ [0]) ++ r) by (by rewrite <-app_assoc).
  rewrite (mem_read_app [] (s ++ [0]) r) by len. done.
Qed.

Lemma serialize_raw_appends n m d r :
  n = zlen d → m = d ++ r → appends (λ b, serialize_raw n b (Some m)) d.
Proof.
  intros -> -> b c Hr Hl. unfold serialize_raw.
  apply checked_one; [done..|].
  intros b'. rewrite (mem_read_app [] d r) by len. done.
Qed.

Lemma serialize_string_appends len str s r :
  len = zlen s → str = s ++ r →
  appends (λ b, serialize_string b (Some len) (Some str)) (enc_string s).
Proof.
  intros -> -> b c Hr Hl. unfold max_doc in Hl. autorewrite with len in Hl.
  unfold serialize_string.
  rewrite (swrap_small 32 (zlen s + 1)), (swrap_small 32 (zlen s + 1 + 4)) by lia.
  replace (enc_string s) with (concat [le_enc 4 (zlen s + 1); s; [0]])
    by (unfold enc_string; simpl; by rewrite ?app_nil_r).
  apply checked_ok; [done|..]; simpl; rewrite ?app_nil_r; unfold max_doc; [len|len|].
  intros b'. rewrite uwrap_small by lia.
  rewrite (mem_read_app [] s r) by len. simpl.
  destruct (put b' _); simpl; [|done]. destruct (put b0 _); simpl; [|done].
  by destruct (put b1 _).
Qed.

Lemma serialize_boolean_appends m v r :
  m = v :: r →
  appends (λ b, serialize_boolean b (Some m)) [if v =? 0 then 0 else 1].
Proof.
  intros -> b c Hr Hl. unfold serialize_boolean.
  by apply checked_one.
Qed.

Lemma serialize_document_appends doc d :
  enc_rep doc d → appends (λ b, serialize_document b (Some doc)) d.
Proof.
  intros (rest & Hb & Hs & Hd & Hp) b c Hr Hl. unfold max_doc in Hl.
  unfold serialize_document. rewrite Hp, swrap_small by lia.
  apply checked_one; [done..|].
  intros b'. rewrite Hb. simpl.
  rewrite (mem_read_app [] d rest) by len. done.
Qed.

Lemma serialize_binary_appends len st m s r :
  len = zlen s → m = s ++ r →
  appends (λ b, serialize_binary b (Some len) st (Some m))
          (enc_val (VBinary (u8 st) s)).
Proof.
  intros -> -> b c Hr Hl. unfold max_doc in Hl. simpl in Hl. autorewrite with len in Hl.
  unfold serialize_binary. rewrite (swrap_small 32) by lia.
  replace (enc_val (VBinary (u8 st) s)) with (concat [le_enc 4 (zlen s); [u8 st]; s])
    by (simpl; by rewrite ?app_nil_r).
  apply checked_ok; [done|..]; simpl; rewrite ?app_nil_r; unfold max_doc; [len|len|].
  intros b'. rewrite (uwrap_small 64) by lia.
  rewrite (mem_read_app [] s r) by len. simpl.
  destruct (put b' _); simpl; [|done]. destruct (put b0 _); simpl; [|done].
  by destruct (put b1 _).
Qed.
End refinement.

(** ** What a [struct bson_kv] stands for

    [kv_encodes v e]: the members of [v] describe the element [e] by the
    conventions of [serialize_element] for each type. *)
Definition data_encodes (v : bson_kv) (x : bval) : Prop :=
  let raw n d := zlen d = n ∧ ∃ r, kv_data v = DMem (d ++ r) in
  match x with
  | VDouble d | VUtc d | VTimestamp d | VInt64 d => raw 8 d
  | VInt32 d => raw 4 d
  | VObjectId d => raw 12 d
  | VString s => kv_size v = zlen s ∧ ∃ r, kv_data v = DMem (s ++ r)
  | VDocument d | VArray d => ∃ b, kv_data v = DDoc b ∧ enc_rep b d
  | VBinary st s => u8 (kv_subtype v) = st ∧ kv_size v = zlen s ∧
                    ∃ r, kv_data v = DMem (s ++ r)
  | VUndefined | VNull | VMin | VMax => True
  | VBoolean b => ∃ z r, kv_data v = DMem (z :: r) ∧ b = negb (z =? 0)
  | VRegex p o =>
      ∃ r, kv_data v = DMem (le_enc 4 (zlen p) ++ p ++ le_enc 4 (zlen o) ++ o ++ r)
  | VDbPointer s o =>
      zlen o = 12 ∧ ∃ r, kv_data v = DMem (le_enc 4 (zlen s) ++ s ++ o ++ r)
  | VJs s | VSymbol s => ∃ r, kv_data v = DMem (le_enc 4 (zlen s) ++ s ++ r)
  | VJsCode s d =>
      ∃ b, kv_data v = DMemDoc (le_enc 4 (zlen s) ++ s) b ∧ enc_rep b d
  end.

Definition kv_encodes (v : bson_kv) (e : elem) : Prop :=
  kv_type v = btype (e_val e) ∧
  (∃ r, cbytes (kv_key v) = Some (e_key e ++ 0 :: r)) ∧
  Forall (λ z, z ≠ 0) (e_key e) ∧
  data_encodes v (e_val e).

Lemma data_at_app p pre post off :
  cbytes p = Some (pre ++ post) → off = zlen pre → data_at p off = Some post.
Proof.
  intros Hp ->. unfold data_at. rewrite Hp. simpl. case_bool_decide as Hc.
  - by rewrite Nat2Z.id, drop_app_length.
  - exfalso. apply Hc. len.
Qed.

Lemma data_int32_app p pre n post off :
  cbytes p = Some (pre ++ le_enc 4 n ++ post) → off = zlen pre → 0 ≤ n < 2 ^ 31 →
  data_int32 p off = Some n.
Proof.
  intros Hp Ho Hn. unfold data_int32. rewrite (data_at_app _ _ _ _ Hp Ho). simpl.
  rewrite (mem_le_app 4 [] n post) by done. simpl.
  rewrite Z.mod_small, swrap_small by lia. done.
Qed.

Lemma data_bytes_mem m : data_bytes (DMem m) = Some (Some m).
Proof. done. Qed.

Section element.
Context `{Malloc} `{!MallocTotal}.

(** The length-prefixed strings of the composite types. *)
Lemma prefixed_string_appends p pre s post :
  cbytes p = Some (pre ++ le_enc 4 (zlen s) ++ s ++ post) →
  zlen s < 2 ^ 31 →
  appends (serialize_prefixed p (zlen pre)) (enc_string s).
Proof.
  intros Hp Hl b c Hr Hc. unfold serialize_prefixed.
  rewrite (data_int32_app p pre (zlen s) (s ++ post)) by (done || lia). simpl.
  rewrite (data_at_app p (pre ++ le_enc 4 (zlen s)) (s ++ post))
    by (rewrite ?Hp, <-?app_assoc; first [done|len]). simpl.
  by eapply serialize_string_appends.
Qed.

(** The composite types, case by case. *)
Lemma regex_appends data p o r :
  data = DMem (le_enc 4 (zlen p) ++ p ++ le_enc 4 (zlen o) ++ o ++ r) →
  zlen p < 2 ^ 31 → zlen o < 2 ^ 31 →
  appends (λ b, n ← data_int32 data 0; '(b, _) ← serialize_prefixed data 0 b;
                serialize_prefixed data (4 + n) b) (enc_string p ++ enc_string o).
Proof.
  intros E Hp Ho.
  pose proof (prefixed_string_appends data [] p (le_enc 4 (zlen o) ++ o ++ r)) as H1.
  pose proof (prefixed_string_appends data (le_enc 4 (zlen p) ++ p) o r) as H2.
  specialize (H1 ltac:(by rewrite E) Hp).
  specialize (H2 ltac:(by rewrite E, <-!app_assoc) Ho).
  autorewrite with len in H2.
  replace (Z.of_nat (4 + length p)) with (4 + zlen p) in H2 by lia.
  intros b c Hr Hc.
  rewrite (data_int32_app _ [] (zlen p) (p ++ le_enc 4 (zlen o) ++ o ++ r))
    by (rewrite ?E; done || lia).
  by apply (appends_bind _ _ _ _ H1 H2).
Qed.

Lemma dbpointer_appends data s o r :
  data = DMem (le_enc 4 (zlen s) ++ s ++ o ++ r) → zlen s < 2 ^ 31 → zlen o = 12 →
  appends (λ b, n ← data_int32 data 0; '(b, _) ← serialize_prefixed data 0 b;
                o ← data_at data (4 + n); serialize_objectid b (Some o))
          (enc_string s ++ o).
Proof.
  intros E Hs Ho.
  pose proof (prefixed_string_appends data [] s (o ++ r)) as H1.
  specialize (H1 ltac:(by rewrite E) Hs).
  pose proof (serialize_raw_appends 12 (o ++ r) o r (eq_sym Ho) eq_refl) as H2.
  intros b c Hr Hc.
  rewrite (data_int32_app _ [] (zlen s) (s ++ o ++ r)) by (rewrite ?E; done || lia).
  simpl mbind.
  rewrite (data_at_app data (le_enc 4 (zlen s) ++ s) (o ++ r) (4 + zlen s))
    by (rewrite ?E; simpl; rewrite <-?app_assoc; first [done|len]).
  by apply (appends_bind _ _ _ _ H1 H2).
Qed.

Lemma jscode_appends data s d' d :
  data = DMemDoc (le_enc 4 (zlen s) ++ s) d' → zlen s < 2 ^ 31 → enc_rep d' d →
  appends (λ b, n ← data_int32 data 0; '(b, _) ← serialize_prefixed data 0 b;
                d ← data_doc_at data (4 + n); serialize_document b (Some d))
          (enc_string s ++ d).
Proof.
  intros E Hs Hd.
  pose proof (prefixed_string_appends data [] s []) as H1. rewrite app_nil_r in H1.
  specialize (H1 ltac:(by rewrite E) Hs).
  pose proof (serialize_document_appends d' d Hd) as H2.
  intros b c Hr Hc.
  rewrite (data_int32_app _ [] (zlen s) s) by (rewrite ?E; done || lia).
  simpl mbind.
  assert (data_doc_at data (4 + zlen s) = Some d') as ->.
  { rewrite E. unfold data_doc_at. rewrite bool_decide_true by len. done. }
  by apply (appends_bind _ _ _ _ H1 H2).
Qed.

Lemma serialize_value_appends v x :
  kv_type v = btype x → data_encodes v x → zlen (enc_val x) ≤ max_doc →
  appends (serialize_value v) (enc_val x).
Proof.
  intros Ht Hd Hm. unfold max_doc in Hm.
  assert (∀ n d, zlen d = n → (∃ r, kv_data v = DMem (d ++ r)) →
    appends (λ b, d ← data_bytes (kv_data v); serialize_raw n b d) d) as Hraw.
  { intros n d Hn [r E] b c Hr Hc. rewrite E, data_bytes_mem. simpl.
    by eapply serialize_raw_appends. }
  destruct x; simpl in Hd, Hm; autorewrite with len in Hm;
    unfold serialize_value; rewrite Ht; cbv [btype];
    try (destruct Hd; by apply Hraw); try apply appends_nil.
  - (* string *) destruct Hd as [Hs [r E]]. rewrite E, Hs.
    by eapply serialize_string_appends.
  - (* document *) destruct Hd as (d' & E & Hr). rewrite E.
    by apply serialize_document_appends.
  - (* array *) destruct Hd as (d' & E & Hr). rewrite E.
    by apply serialize_document_appends.
  - (* binary *) destruct Hd as (<- & Hs & r & E). rewrite E, Hs.
    by eapply serialize_binary_appends.
  - (* boolean *) destruct Hd as (z & r & E & ->). rewrite E. simpl enc_val.
    replace [if negb (z =? 0) then 1 else 0] with [if z =? 0 then 0 else 1]
      by (by destruct (z =? 0)).
    by eapply serialize_boolean_appends.
  - (* regex *) destruct Hd as (r & E). by apply (regex_appends _ p o r); [|lia..].
  - (* dbpointer *) destruct Hd as (Ho & r & E).
    by apply (dbpointer_appends _ s o r); [|lia|].
  - (* JavaScript *) destruct Hd as (r & E).
    by apply (prefixed_string_appends _ [] s r); [rewrite E|lia].
  - (* symbol *) destruct Hd as (r & E).
    by apply (prefixed_string_appends _ [] s r); [rewrite E|lia].
  - (* JavaScript with scope *) destruct Hd as (d' & E & Hd).
    by apply (jscode_appends _ s d' d); [|lia|].
Qed.
End element.

(** ** Elements and documents *)

Lemma known_btype x : known_type (btype x) = true.
Proof. by destruct x. Qed.

(** The assignments [fills] make [value] describe the elements [es] in turn. *)
Fixpoint fields_encode (value : bson_kv) (fills : list (bson_kv → bson_kv))
    (es : list elem) : Prop :=
  match fills, es with
  | [], [] => True
  | f :: fills, e :: es => kv_encodes (f value) e ∧ fields_encode (f value) fills es
  | _, _ => False
  end.

Section document.
Context `{Malloc} `{!MallocTotal}.

Lemma serialize_element_appends v e :
  kv_encodes v e → appends (λ b, serialize_element b v) (enc_elem e).
Proof.
  intros (Ht & (r & Hk) & Hz & Hd) b c Hr Hl. unfold max_doc in *.
  autorewrite with len in Hl. unfold serialize_element.
  destruct (check_size_ok b c 1 Hr) as (b1 & E1 & Hr1 & Hs1);
    [lia|unfold max_doc; lia|].
  rewrite E1. simpl. rewrite Ht, known_btype. unfold put_element.
  destruct (put_ok b1 c [btype (e_val e)] Hr1) as (b2 & E2 & Hr2 & _); [len|].
  rewrite E2. simpl.
  assert (cdata_null (kv_key v) = false) as Hnn by (by destruct (kv_key v)).
  destruct (serialize_cstring_appends _ _ _ r Hnn Hk eq_refl Hz b2 _ Hr2)
    as (b3 & E3 & Hr3); [unfold max_doc; len|].
  rewrite E3. simpl.
  destruct (serialize_value_appends v (e_val e) Ht Hd ltac:(unfold max_doc; lia) b3 _ Hr3)
    as (b4 & E4 & Hr4); [unfold max_doc; len|].
  rewrite E4. simpl. exists b4. split; [done|].
  unfold enc_elem. by rewrite <-!app_assoc in Hr4.
Qed.

Lemma serialize_fields_ok value fills es b c :
  fields_encode value fills es → enc_rep b c → zlen c + zlen (enc_elems es) ≤ max_doc →
  ∃ b' v', serialize_fields b value fills = Some (b', v') ∧
           enc_rep b' (c ++ enc_elems es).
Proof.
  revert value es b c.
  induction fills as [|f fills IH]; intros value [|e es] b c Hf Hr Hl;
    simpl in Hf; try done.
  - exists b, value. by rewrite app_nil_r.
  - destruct Hf as [He Hf]. rewrite enc_elems_cons in *.
    rewrite length_app in Hl. simpl. unfold bson_serialize.
    destruct (serialize_element_appends _ _ He b c Hr) as (b1 & E1 & Hr1); [lia|].
    rewrite E1. simpl.
    destruct (IH _ es b1 _ Hf Hr1) as (b2 & v2 & E2 & Hr2).
    { rewrite length_app. lia. }
    exists b2, v2. by rewrite <-app_assoc in Hr2.
Qed.

Lemma bson_finalize_ok b es :
  enc_rep b (enc_elems es) → zlen (enc_elems es) + 5 ≤ max_doc →
  ∃ b', bson_finalize b = Some (b', EXIT_SUCCESS) ∧ enc_rep b' (enc_doc es).
Proof.
  intros Hr Hl. unfold bson_finalize, checked.
  destruct (check_size_ok b _ 5 Hr) as (b1 & E1 & Hr1 & Hs1); [lia..|].
  rewrite E1. simpl. destruct Hr1 as (rest & Hb & Hs & Hd & Hp).
  pose proof (doubled_bounds _ Hd). unfold max_doc in *.
  rewrite Hb. simpl. rewrite Hp. set (c := enc_elems es) in *.
  rewrite (mem_read_app [] c rest) by len. simpl.
  autorewrite with len in Hs.
  set (m := c ++ rest) in *. assert (length m = (length c + length rest)%nat) as Hm by (unfold m; len).
  rewrite (list_split_at m 4). rewrite (list_split_at (drop 4 m) (length c)).
  rewrite (mem_write_app (take 4 m) (take (length c) (drop 4 m)) c
             (drop (length c) (drop 4 m)) 4)
    by (rewrite ?length_take, ?length_drop; lia). simpl.
  rewrite swrap_small by lia.
  pose proof (mem_write_app [] (take 4 m) (le_enc 4 (zlen c + 5))
                (c ++ drop (length c) (drop 4 m)) 0) as E. simpl in E.
  rewrite E; [|done|rewrite length_take; len]. simpl.
  rewrite uwrap_small by lia.
  set (rest' := drop (length c) (drop 4 m)).
  destruct (put_ok (set_position (zlen c + 4)
              (set_buffer (PLive (le_enc 4 (zlen c + 5) ++ c ++ rest')) b1))
              (le_enc 4 (zlen c + 5) ++ c) [0]) as (b2 & E2 & Hr2 & _).
  - exists rest'. split; [by rewrite <-app_assoc|].
    split; [|split; [done|simpl; len]].
    unfold rest'. rewrite !length_app, !length_drop, length_le_enc. simpl. lia.
  - rewrite length_app, length_le_enc. simpl. lia.
  - rewrite E2. simpl. exists b2. split; [done|].
    unfold enc_doc. by rewrite <-app_assoc in Hr2.
Qed.

Lemma writef_loop_ok m c rest f :
  m = c ++ rest → at_end f → writef_loop 2 m (zlen c) 0 f = Some (append f c, EXIT_SUCCESS).
Proof.
  intros -> Hf. cbn [writef_loop]. case_test.
  - rewrite (nil_length_inv c) by lia. by rewrite append_nil.
  - rewrite (bind_Some_eq _ _ c) by (by apply (mem_read_app [] c rest)).
    rewrite fwrite_append by done. rewrite Z.eqb_refl. simpl negb.
    by rewrite Z.sub_diag.
Qed.

Lemma bson_writef_ok b c f :
  enc_rep b c → at_end f → bson_writef b f = Some (b, append f c, EXIT_SUCCESS).
Proof.
  intros (rest & Hb & _ & _ & Hp) Hf. unfold bson_writef. rewrite Hb, Hp.
  by rewrite (writef_loop_ok _ c rest) by done.
Qed.

Lemma finish_document_ok b es f :
  enc_rep b (enc_elems es) → zlen (enc_elems es) + 5 ≤ max_doc → at_end f →
  finish_document b f = Some (append f (enc_doc es), EXIT_SUCCESS).
Proof.
  intros Hr Hl Hf. unfold finish_document.
  destruct (bson_finalize_ok b es Hr Hl) as (b1 & E1 & Hr1). rewrite E1. simpl.
  rewrite (bson_writef_ok b1 _ f Hr1 Hf). simpl.
  destruct Hr1 as (rest & Hb & _). unfold bson_cleanup. by rewrite Hb.
Qed.

Lemma write_document_ok fills es f :
  fields_encode kv_indet fills es → zlen (enc_elems es) + 5 ≤ max_doc → at_end f →
  write_document fills f = Some (append f (enc_doc es), EXIT_SUCCESS).
Proof.
  intros He Hl Hf. unfold write_document.
  destruct bson_init_rep as (b & E & Hr). rewrite E. simpl.
  destruct (serialize_fields_ok kv_indet fills es b [] He Hr) as (b1 & v1 & E1 & Hr1).
  { simpl. lia. }
  rewrite E1. simpl. by apply finish_document_ok.
Qed.

(** A short write: the buffer is freed by [bson_writef] and again by
    [bson_cleanup]. *)
Lemma finish_document_short b es f s :
  enc_rep b (enc_elems es) → zlen (enc_elems es) + 5 ≤ max_doc →
  f_space f = Some s → 0 ≤ s < zlen (enc_doc es) →
  finish_document b f = None.
Proof.
  intros Hr Hl Hf Hs. unfold finish_document.
  destruct (bson_finalize_ok b es Hr Hl) as (b1 & E1 & Hr1). rewrite E1. simpl.
  destruct Hr1 as (rest & Hb & _ & _ & Hp). unfold bson_writef. rewrite Hb, Hp.
  assert (∃ f', writef_loop 2 (enc_doc es ++ rest) (zlen (enc_doc es)) 0 f
                = Some (f', EXIT_FAILURE)) as (f' & ->); [|done].
  cbn [writef_loop]. case_test.
  rewrite (bind_Some_eq _ _ (enc_doc es)) by (by apply (mem_read_app [] _ rest)).
  unfold fwrite. rewrite Hf, Z.min_r by lia.
  destruct (Z.eqb_spec s (zlen (enc_doc es))); [lia|].
  destruct (Z.ltb_spec s (zlen (enc_doc es))); [|lia].
  cbn [f_error negb andb]. rewrite orb_true_r. by eexists.
Qed.
End document.

(** ** Properties *)

(** Growing a buffer of the encoder terminates for every request up to
    1 GiB and returns the least power-of-two multiple of the old size that
    suffices. Past 1 GiB the loop never ends: the [int32_t] size overflows to a
    negative number, then to 0, and stays there, for every amount of fuel. *)
Theorem new_size_spec old needed :
  doubled old → needed < 2 ^ 31 →
  (needed ≤ 2 ^ 30 →
     ∃ n, new_size new_size_fuel old needed = Some n ∧ doubled n ∧
          needed ≤ n ∧ (n = old ∨ n < 2 * needed)) ∧
  (2 ^ 30 < needed → ∀ fuel, new_size fuel old needed = None).
Proof.
  intros Ho Hn. split.
  - intros Hle. destruct (new_size_ok old needed Ho Hle) as (n & E & Hd & Hge & _ & Hmin).
    by exists n.
  - intros Hgt fuel. destruct Ho as (j & Hj & ->).
    assert (2 ^ j ≤ 2 ^ 30) by (apply Z.pow_le_mono_r; lia).
    assert (0 < 2 ^ j) by (apply Z.pow_pos_nonneg; lia).
    rewrite <-(swrap_small 32 (2 ^ j)) by lia. apply new_size_diverges_from; lia.
Qed.

Lemma new_size_spec_witness :
  (∃ n, new_size new_size_fuel 4096 5000 = Some n ∧ 5000 ≤ n) ∧
  new_size 1000 4096 (2 ^ 30 + 1) = None.
Proof.
  split.
  - destruct (new_size_spec 4096 5000) as [H _]; [by exists 12|lia|].
    destruct H as (n & E & _ & Hn & _); [lia|]. by exists n.
  - destruct (new_size_spec 4096 (2 ^ 30 + 1)) as [_ H]; [by exists 12|lia|].
    apply H. lia.
Defined.

(** C18: [bson_serialize] on a buffer holding [c] never writes outside its block,
    grows it as needed, returns [EXIT_SUCCESS] and leaves a buffer holding [c]
    followed by the element the [struct bson_kv] describes, for every type of the
    [switch], in the library's wire format; this is the grammar of the comment in
    front of it for every type but regular expressions and scoped code, and for
    these two it never is. *)
Theorem bson_serialize_refines `{MallocTotal} b c v e :
  enc_rep b c → kv_encodes v e → zlen c + zlen (enc_elem e) ≤ 2 ^ 30 →
  ∃ b', bson_serialize b v = Some (b', EXIT_SUCCESS) ∧
    enc_rep b' (c ++ enc_elem e) ∧
    (enc_rep b' (c ++ grammar_elem e) ↔ conforming (e_val e) = true).
Proof.
  intros Hr He Hl. destruct (serialize_element_appends v e He b c Hr Hl) as (b' & E & Hr').
  exists b'. split; [exact E|]. split; [exact Hr'|]. rewrite <-enc_elem_grammar. split.
  - intros Hg. by apply (app_inv_head c), (enc_rep_unique b').
  - by intros <-.
Qed.

Lemma bson_serialize_refines_witness :
  ∃ b b', bson_init = Some b ∧
    bson_serialize b (fill_mem BSON_INT32 "x" (le_enc 4 7) kv_indet)
    = Some (b', EXIT_SUCCESS) ∧ enc_rep b' [0x10; 0x78; 0; 7; 0; 0; 0].
Proof.
  destruct bson_init_rep as (b & E & Hr).
  destruct (bson_serialize_refines b [] (fill_mem BSON_INT32 "x" (le_enc 4 7) kv_indet)
              {| e_key := [0x78]; e_val := VInt32 (le_enc 4 7) |} Hr) as (b' & E' & Hr' & _).
  - split; [done|]. split; [by exists []|]. split; [by repeat constructor|].
    split; [done|]. exists []. by rewrite app_nil_r.
  - vm_compute. discriminate.
  - exists b, b'. split; [done|]. split; [done|]. exact Hr'.
Defined.

(** A document writer ([bson_init], its [bson_serialize] calls, then
    [bson_finalize], [bson_writef], [bson_cleanup]) appends exactly one
    well-formed BSON document to the file, with the elements in call order,
    whatever the allocator returns and whatever the unassigned members of the
    local [value] hold. *)
Theorem write_document_spec `{MallocTotal} fills es f :
  fields_encode kv_indet fills es → zlen (enc_elems es) + 5 ≤ 2 ^ 30 → at_end f →
  write_document fills f = Some (append f (enc_doc es), EXIT_SUCCESS).
Proof. apply write_document_ok. Qed.

Lemma write_document_spec_witness :
  write_document [fill_str "type" 3 (str_bytes "mbr")] (file_of [])
  = Some (append (file_of []) (enc_doc [{| e_key := str_bytes "type";
                                           e_val := VString (str_bytes "mbr") |}]),
          EXIT_SUCCESS).
Proof.
  apply write_document_spec.
  - split; [|done]. split; [done|]. split; [by exists []|].
    split; [by repeat constructor|]. split; [done|]. exists []. by rewrite app_nil_r.
  - vm_compute. discriminate.
  - done.
Defined.

(** When the device accepts only part of a document, [bson_writef] frees
    the buffer and [bson_cleanup] frees it a second time: the writers of
    documents have no defined outcome on a write error. *)
Theorem write_error_double_free `{MallocTotal} b es f s :
  enc_rep b (enc_elems es) → zlen (enc_elems es) + 5 ≤ 2 ^ 30 →
  f_space f = Some s → 0 ≤ s < zlen (enc_doc es) →
  finish_document b f = None.
Proof. apply finish_document_short. Qed.

Lemma write_error_double_free_witness :
  ∃ b, bson_init = Some b ∧
    finish_document b {| f_data := []; f_pos := 0; f_space := Some 2; f_error := false |}
    = None.
Proof.
  destruct bson_init_rep as (b & E & Hr). exists b. split; [done|].
  apply (write_error_double_free b [] _ 2 Hr); [vm_compute; discriminate|done|].
  by vm_compute.
Defined.
