(* ===== verification/BsonDecode.v ===== *)
(** * src/bson/bson-decoder.c: the BSON reader

    The pointers the decoder stores in a [struct bson_kv] lead into the buffer
    of the document; they are offsets [DOff] here. *)
From S2P Require Import Prelude Words Memory Stdio Bson.

(** ** Definitions *)

(** [bson_info->position += n; bson_info->size -= n], both [uint64_t]. *)
Definition consume (n : Z) (b : bson_info) : bson_info :=
  set_position (u64 (bi_position b + n)) (set_size (u64 (bi_size b - n)) b).

(** [*((int32_t* ) &buffer[position])] *)
Definition peek_int32 (b : bson_info) : option Z :=
  m ← deref (bi_buffer b); z ← mem_le 4 m (bi_position b); Some (s32 z).

Definition peek_uint8 (b : bson_info) : option Z :=
  m ← deref (bi_buffer b); mem_byte m (bi_position b).

Definition bson_make_readable (b : bson_info) : option (bson_info * Z) :=
  if is_null (bi_buffer b) || (bi_size b <? 5) then Some (b, EXIT_FAILURE) else
  m ← deref (bi_buffer b);
  z ← mem_le 4 m 0;
  Some (set_position 4 (set_size (u64 (s32 z - 4)) b), EXIT_SUCCESS).

(** [fread(buffer, 1, n, file)] into a heap block *)
Definition fread_into (p : cptr) (n : Z) (f : FILE) : option (cptr * FILE * Z) :=
  let '(f, d) := fread f n in
  m ← deref p; m ← mem_write m 0 d; Some (PLive m, f, zlen d).

Section readers.
Context `{Malloc}.

(** Frees a block that is too small, or allocates the first one. *)
Definition readf_buffer (b : bson_info) (size : Z) : option cptr :=
  if (bi_size b <? u64 size) && negb (is_null (bi_buffer b)) then
    _ ← cfree (bi_buffer b); Some (cmalloc (u64 size))
  else if is_null (bi_buffer b) then Some (cmalloc (u64 size))
  else Some (bi_buffer b).

(** The result is 1 for a document read, 0 at the end, -1 on failure. *)
Definition bson_readf (b : bson_info) (f : FILE) : option (bson_info * FILE * Z) :=
  let b := set_f_offset (u64 (ftell f)) b in
  let '(f, d) := fread f 4 in
  if negb (zlen d =? 4) then Some (b, f, 0) else
  let size := s32 (s32 (le_dec d) - 4) in
  p ← readf_buffer b size;
  let b := set_buffer p b in
  if is_null p then Some (b, f, -1) else
  '(p, f, n) ← fread_into p (u64 size) f;
  let b := set_buffer p b in
  if negb (n =? u64 size) then Some (b, f, -1)
  else Some (set_position 0 (set_size (u64 size) b), f, 1).

(** [contents] is what the file holds; [None] when it cannot be opened. *)
Definition bson_read (b : bson_info) (contents : option (list Z)) :
    option (bson_info * Z) :=
  match contents with
  | None => Some (b, EXIT_FAILURE)
  | Some d =>
      _ ← cfree (bi_buffer b);
      let p := cmalloc (zlen d) in
      let b := set_buffer p b in
      if is_null p then Some (b, EXIT_FAILURE) else
      '(p, _, n) ← fread_into p (zlen d) (file_of d);
      let b := set_buffer p b in
      if negb (n =? zlen d) then Some (b, EXIT_FAILURE) else
      '(b, _) ← bson_make_readable b;
      Some (b, EXIT_SUCCESS)
  end.
End readers.

(** The comparison the [deserialize_*] helpers end with. *)
Definition overrun_code (b : bson_info) : Z :=
  if bi_size b <? bi_position b then EXIT_FAILURE else EXIT_SUCCESS.

Definition deserialize_cstring (b : bson_info) (v : bson_kv) :
    option (bson_info * bson_kv * Z) :=
  if is_null (bi_buffer b) then Some (b, v, EXIT_FAILURE) else
  let v := set_kv_data (DOff (bi_position b)) v in
  m ← deref (bi_buffer b);
  s ← cstr_at m (bi_position b);
  let b := consume (zlen s + 1) b in
  Some (b, v, overrun_code b).

Definition deserialize_string (b : bson_info) (v : bson_kv) :
    option (bson_info * bson_kv * Z) :=
  if is_null (bi_buffer b) then Some (b, v, EXIT_FAILURE) else
  z ← peek_int32 b;
  let v := set_kv_size (s32 (z - 1)) v in
  let b := consume 4 b in
  let v := set_kv_data (DOff (bi_position b)) v in
  let b := consume (kv_size v + 1) b in
  Some (b, v, overrun_code b).

Definition deserialize_document (b : bson_info) (v : bson_kv) :
    option (bson_info * bson_kv * Z) :=
  if is_null (bi_buffer b) then Some (b, v, EXIT_FAILURE) else
  z ← peek_int32 b;
  let v := set_kv_data (DOff (bi_position b)) (set_kv_size z v) in
  Some (consume z b, v, EXIT_SUCCESS).

(** [value->data = &buffer[position]], then [n] bytes consumed. *)
Definition deserialize_fixed (n : Z) (b : bson_info) (v : bson_kv) :
    bson_info * bson_kv :=
  (consume n b, set_kv_data (DOff (bi_position b)) v).

Definition deserialize_binary (b : bson_info) (v : bson_kv) :
    option (bson_info * bson_kv) :=
  z ← peek_int32 b;
  let v := set_kv_size z v in
  let b := consume 4 b in
  st ← peek_uint8 b;
  let v := set_kv_subtype st v in
  let b := consume 1 b in
  let v := set_kv_data (DOff (bi_position b)) v in
  Some (consume (kv_size v) b, v).

(** The [switch] of [bson_deserialize]; the last component is its return. *)
Definition deserialize_value (ty : Z) (b : bson_info) (v v2 : bson_kv) :
    option (bson_info * bson_kv * bson_kv * Z) :=
  if ty =? BSON_DOUBLE then
    let '(b, v) := deserialize_fixed 8 b v in Some (b, set_kv_size 8 v, v2, 1)
  else if ty =? BSON_STRING then
    '(b, v, _) ← deserialize_string b v; Some (b, v, v2, 1)
  else if (ty =? BSON_EMBEDDED_DOCUMENT) || (ty =? BSON_ARRAY) then
    '(b, v2, _) ← deserialize_document b v2; Some (b, v, v2, 1)
  else if ty =? BSON_BINARY then
    '(b, v) ← deserialize_binary b v; Some (b, v, v2, 1)
  else if ty =? BSON_UNDEFINED then Some (b, v, v2, 1)
  else if ty =? BSON_OBJECTID then
    let '(b, v) := deserialize_fixed 12 b v in Some (b, v, v2, 1)
  else if ty =? BSON_BOOLEAN then
    let '(b, v) := deserialize_fixed 1 b v in Some (b, set_kv_size 1 v, v2, 1)
  else if ty =? BSON_UTC_DATETIME then
    let '(b, v) := deserialize_fixed 8 b v in Some (b, v, v2, 1)
  else if ty =? BSON_NULL then Some (b, v, v2, 1)
  else if ty =? BSON_REGEX then
    let v2 := set_kv_key (kv_key v) v2 in
    '(b, v, _) ← deserialize_cstring b v;
    '(b, v2, _) ← deserialize_cstring b v2;
    Some (b, v, v2, 1)
  else if ty =? BSON_DBPOINTER then
    let v2 := set_kv_key (kv_key v) v2 in
    '(b, v, _) ← deserialize_string b v;
    let '(b, v2) := deserialize_fixed 12 b v2 in Some (b, v, v2, 1)
  else if (ty =? BSON_JS) || (ty =? BSON_SYMBOL) then
    '(b, v, _) ← deserialize_string b v; Some (b, v, v2, 1)
  else if ty =? BSON_JS_CODE then
    let b := consume 4 b in (* skip int32_t size *)
    '(b, v, _) ← deserialize_string b v;
    let v2 := set_kv_key (kv_key v) v2 in
    '(b, v2, _) ← deserialize_document b v2;
    Some (b, v, v2, 1)
  else if ty =? BSON_INT32 then
    let '(b, v) := deserialize_fixed 4 b v in Some (b, set_kv_size 4 v, v2, 1)
  else if ty =? BSON_TIMESTAMP then
    let '(b, v) := deserialize_fixed 8 b v in Some (b, v, v2, 1)
  else if ty =? BSON_INT64 then
    let '(b, v) := deserialize_fixed 8 b v in Some (b, set_kv_size 8 v, v2, 1)
  else if ty =? BSON_MIN then Some (b, v, v2, 1)
  else if ty =? BSON_MAX then Some (b, v, v2, 1)
  else Some (b, v, v2, -1).

(** A failing [assert] aborts: no result. *)
Definition bson_deserialize (b : bson_info) (v v2 : bson_kv) :
    option (bson_info * bson_kv * bson_kv * Z) :=
  if bi_size b <? 1 then Some (b, v, v2, 0) else
  if bi_size b =? 1 then
    t ← peek_uint8 b;
    if t =? 0 then Some (consume 1 b, v, v2, 0) else None
  else
    ty ← peek_uint8 b;
    let v := set_kv_type ty v in
    let b := consume 1 b in
    '(b, v, _) ← deserialize_cstring b v;
    let v := set_kv_size 0 (set_kv_key (kv_data v) v) in
    deserialize_value ty b v v2.

(** ** Reading values out of a [struct bson_kv]

    The bytes behind the pointers the decoder left, the way the callers read
    them; [m] is the buffer of the document. *)
Definition off_of (p : cdata) : option Z :=
  match p with DOff o => Some o | _ => None end.

Definition kv_read (m : list Z) (p : cdata) (n : Z) : option (list Z) :=
  o ← off_of p; mem_read m o n.

Definition kv_cstr (m : list Z) (p : cdata) : option (list Z) :=
  o ← off_of p; cstr_at m o.

(** [*((int32_t* ) value.data)] and the like *)
Definition kv_le (n : nat) (m : list Z) (p : cdata) : option Z :=
  d ← kv_read m p (Z.of_nat n); Some (le_dec d).

Definition read_value (m : list Z) (v v2 : bson_kv) : option bval :=
  let ty := kv_type v in
  let raw n := kv_read m (kv_data v) n in
  if ty =? BSON_DOUBLE then VDouble <$> raw 8
  else if ty =? BSON_STRING then VString <$> raw (kv_size v)
  else if ty =? BSON_EMBEDDED_DOCUMENT then
    VDocument <$> kv_read m (kv_data v2) (kv_size v2)
  else if ty =? BSON_ARRAY then VArray <$> kv_read m (kv_data v2) (kv_size v2)
  else if ty =? BSON_BINARY then VBinary (kv_subtype v) <$> raw (kv_size v)
  else if ty =? BSON_UNDEFINED then Some VUndefined
  else if ty =? BSON_OBJECTID then VObjectId <$> raw 12
  else if ty =? BSON_BOOLEAN then (λ d, VBoolean (negb (le_dec d =? 0))) <$> raw 1
  else if ty =? BSON_UTC_DATETIME then VUtc <$> raw 8
  else if ty =? BSON_NULL then Some VNull
  else if ty =? BSON_REGEX then
    p ← kv_cstr m (kv_data v); o ← kv_cstr m (kv_data v2); Some (VRegex p o)
  else if ty =? BSON_DBPOINTER then
    s ← raw (kv_size v); o ← kv_read m (kv_data v2) 12; Some (VDbPointer s o)
  else if ty =? BSON_JS then VJs <$> raw (kv_size v)
  else if ty =? BSON_SYMBOL then VSymbol <$> raw (kv_size v)
  else if ty =? BSON_JS_CODE then
    s ← raw (kv_size v); d ← kv_read m (kv_data v2) (kv_size v2); Some (VJsCode s d)
  else if ty =? BSON_INT32 then VInt32 <$> raw 4
  else if ty =? BSON_TIMESTAMP then VTimestamp <$> raw 8
  else if ty =? BSON_INT64 then VInt64 <$> raw 8
  else if ty =? BSON_MIN then Some VMin
  else if ty =? BSON_MAX then Some VMax
  else None.

Definition read_elem (m : list Z) (v v2 : bson_kv) : option elem :=
  k ← kv_cstr m (kv_key v); x ← read_value m v v2;
  Some {| e_key := k; e_val := x |}.

(** ** The elements the two sides agree on *)

(** An embedded document starts with its own length. *)
Definition self_sized (d : list Z) : Prop :=
  ∃ t, d = le_enc 4 (zlen d) ++ t ∧ zlen d < 2 ^ 31.

Definition val_ok (x : bval) : Prop :=
  match x with
  | VDouble d | VUtc d | VTimestamp d | VInt64 d => zlen d = 8
  | VInt32 d => zlen d = 4
  | VObjectId d => zlen d = 12
  | VString s | VJs s | VSymbol s => zlen s < 2 ^ 31 - 1
  | VBinary st s => zlen s < 2 ^ 31 - 1
  | VDocument d | VArray d => self_sized d
  | VDbPointer s o => zlen s < 2 ^ 31 - 1 ∧ zlen o = 12
  | VUndefined | VNull | VMin | VMax | VBoolean _ => True
  | VRegex _ _ | VJsCode _ _ => False
  end.

Definition elem_ok (e : elem) : Prop :=
  Forall (λ z, z ≠ 0) (e_key e) ∧ val_ok (e_val e).

(** ** The state of a reader: [m] is the buffer, [pre] has been consumed and
    [rest] is what [size] still counts. *)
Record dec_rep (m : list Z) (b : bson_info) (pre rest : list Z) : Prop := {
  dr_buffer : bi_buffer b = PLive m;
  dr_split : ∃ post, m = pre ++ rest ++ post;
  dr_position : bi_position b = zlen pre;
  dr_size : bi_size b = zlen rest;
  dr_bound : zlen m < 2 ^ 63;
}.

Lemma consume_rep m b pre d rest n :
  dec_rep m b pre (d ++ rest) → n = zlen d → dec_rep m (consume n b) (pre ++ d) rest.
Proof.
  intros [Hb [post Hm] Hp Hs Hbd] ->. split; simpl; [done| | | |done].
  - exists post. by rewrite Hm, <-!app_assoc.
  - rewrite Hp, uwrap_small; [len|].
    rewrite Hm in Hbd. autorewrite with len in Hbd. lia.
  - rewrite Hs, uwrap_small; [len|].
    rewrite Hm in Hbd. autorewrite with len in *. lia.
Qed.

Lemma rep_assoc m b pre d1 d2 rest :
  dec_rep m b pre ((d1 ++ d2) ++ rest) ↔ dec_rep m b pre (d1 ++ d2 ++ rest).
Proof. by rewrite <-app_assoc. Qed.

(** The branch of the switch taken for a known type. *)
Ltac dispatch :=
  repeat match goal with
  | |- context [Z.eqb ?a ?b] =>
      let r := eval vm_compute in (Z.eqb a b) in change (Z.eqb a b) with r
  end; cbn [orb]; cbv iota.

Section reader.
Context (m : list Z).

Lemma peek_int32_rep b pre n rest :
  dec_rep m b pre (le_enc 4 n ++ rest) → peek_int32 b = Some (s32 (n `mod` 2 ^ 32)).
Proof.
  intros [Hb [post Hm] Hp _ _]. unfold peek_int32. rewrite Hb. simpl. rewrite Hm, Hp.
  rewrite <-app_assoc, (mem_le_app 4) by done. done.
Qed.

Lemma peek_int32_small b pre n rest :
  dec_rep m b pre (le_enc 4 n ++ rest) → 0 ≤ n < 2 ^ 31 → peek_int32 b = Some n.
Proof.
  intros Hr Hn. rewrite (peek_int32_rep _ _ _ _ Hr). f_equal.
  rewrite Z.mod_small, swrap_small by lia. done.
Qed.

Lemma peek_uint8_rep b pre z rest :
  dec_rep m b pre (z :: rest) → peek_uint8 b = Some z.
Proof.
  intros [Hb [post Hm] Hp _ _]. unfold peek_uint8. rewrite Hb. simpl. rewrite Hm, Hp.
  by apply mem_byte_app.
Qed.

(** A pointer left at the reader's position leads to what came next. *)
Lemma kv_read_rep b pre d rest n :
  dec_rep m b pre (d ++ rest) → n = zlen d →
  kv_read m (DOff (bi_position b)) n = Some d.
Proof.
  intros [Hb [post Hm] Hp _ _] ->. unfold kv_read. simpl. rewrite Hp, Hm, <-app_assoc.
  by apply mem_read_app.
Qed.

Lemma kv_cstr_rep b pre s rest :
  dec_rep m b pre (s ++ 0 :: rest) → Forall (λ z, z ≠ 0) s →
  kv_cstr m (DOff (bi_position b)) = Some s.
Proof.
  intros [Hb [post Hm] Hp _ _] Hs. unfold kv_cstr. simpl. rewrite Hp, Hm, <-app_assoc.
  simpl. by apply cstr_at_app.
Qed.

Lemma deserialize_cstring_rep b v pre s rest :
  dec_rep m b pre (s ++ 0 :: rest) → Forall (λ z, z ≠ 0) s →
  ∃ b' rc, deserialize_cstring b v
           = Some (b', set_kv_data (DOff (bi_position b)) v, rc) ∧
           dec_rep m b' (pre ++ s ++ [0]) rest.
Proof.
  intros Hr Hs. unfold deserialize_cstring.
  pose proof (kv_cstr_rep _ _ _ _ Hr Hs) as Hc. unfold kv_cstr in Hc. simpl in Hc.
  rewrite (dr_buffer _ _ _ _ Hr). simpl. rewrite Hc. simpl.
  do 2 eexists. split; [done|]. apply consume_rep; [|len].
  by rewrite <-app_assoc.
Qed.

Lemma deserialize_string_rep b v pre s rest :
  dec_rep m b pre (enc_string s ++ rest) → zlen s < 2 ^ 31 - 1 →
  ∃ b' o rc, deserialize_string b v
             = Some (b', set_kv_data (DOff o) (set_kv_size (zlen s) v), rc) ∧
             dec_rep m b' (pre ++ enc_string s) rest ∧
             kv_read m (DOff o) (zlen s) = Some s.
Proof.
  intros Hr Hl. unfold enc_string in Hr. rewrite <-!app_assoc in Hr.
  unfold deserialize_string. rewrite (dr_buffer _ _ _ _ Hr). simpl is_null. cbv iota.
  rewrite (bind_Some_eq _ _ _ (peek_int32_small _ _ _ _ Hr ltac:(lia))).
  rewrite Z.add_simpl_r, swrap_small by lia.
  apply (consume_rep _ _ _ _ _ 4) in Hr as Hr1; [|by rewrite length_le_enc].
  pose proof (kv_read_rep _ _ _ _ _ Hr1 eq_refl) as Hk.
  do 3 eexists. split; [done|]. split; [|done]. simpl.
  unfold enc_string. rewrite app_assoc. apply consume_rep; [|len].
  by rewrite <-app_assoc.
Qed.

(** The string of a document is also a C string. *)
Lemma deserialize_string_cstr b v pre s rest :
  dec_rep m b pre (enc_string s ++ rest) → zlen s < 2 ^ 31 - 1 → Forall (λ z, z ≠ 0) s →
  ∃ b' v' rc, deserialize_string b v = Some (b', v', rc) ∧
    dec_rep m b' (pre ++ enc_string s) rest ∧ kv_key v' = kv_key v ∧
    kv_cstr m (kv_data v') = Some s.
Proof.
  intros Hr Hl Hs. unfold enc_string in Hr. rewrite <-!app_assoc in Hr.
  unfold deserialize_string. rewrite (dr_buffer _ _ _ _ Hr). simpl is_null. cbv iota.
  rewrite (bind_Some_eq _ _ _ (peek_int32_small _ _ _ _ Hr ltac:(lia))).
  rewrite Z.add_simpl_r, swrap_small by lia.
  apply (consume_rep _ _ _ _ _ 4) in Hr as Hr1; [|by rewrite length_le_enc].
  simpl app in Hr1. pose proof (kv_cstr_rep _ _ _ _ Hr1 Hs) as Hk.
  do 3 eexists. split; [done|]. split; [|split; [done|exact Hk]]. simpl.
  unfold enc_string. rewrite app_assoc. apply consume_rep; [|len].
  by rewrite <-app_assoc.
Qed.

Lemma deserialize_document_rep b v pre d rest :
  dec_rep m b pre (d ++ rest) → self_sized d →
  ∃ b', deserialize_document b v
        = Some (b', set_kv_data (DOff (bi_position b)) (set_kv_size (zlen d) v),
                EXIT_SUCCESS) ∧
        dec_rep m b' (pre ++ d) rest.
Proof.
  intros Hr (t & Hd & Hl). unfold deserialize_document.
  rewrite (dr_buffer _ _ _ _ Hr). simpl is_null. cbv iota.
  assert (peek_int32 b = Some (zlen d)) as E.
  { apply (peek_int32_small b pre _ (t ++ rest)); [|lia].
    rewrite app_assoc, <-Hd. done. }
  rewrite E. simpl. eexists. split; [done|]. by apply consume_rep.
Qed.

Lemma deserialize_binary_rep b v pre st s rest :
  dec_rep m b pre (enc_val (VBinary st s) ++ rest) → zlen s < 2 ^ 31 - 1 →
  ∃ b' o, deserialize_binary b v
          = Some (b', set_kv_data (DOff o)
                        (set_kv_subtype st (set_kv_size (zlen s) v))) ∧
          dec_rep m b' (pre ++ enc_val (VBinary st s)) rest ∧
          kv_read m (DOff o) (zlen s) = Some s.
Proof.
  intros Hr Hl. simpl in Hr. rewrite <-app_assoc in Hr. unfold deserialize_binary.
  rewrite (bind_Some_eq _ _ _ (peek_int32_small _ _ _ _ Hr ltac:(lia))).
  apply (consume_rep _ _ _ _ _ 4) in Hr as Hr1; [|by rewrite length_le_enc].
  rewrite (bind_Some_eq _ _ _ (peek_uint8_rep _ _ _ _ Hr1)).
  apply (consume_rep _ _ _ [st] _ 1) in Hr1 as Hr2; [|done].
  pose proof (kv_read_rep _ _ _ _ _ Hr2 eq_refl) as Hk.
  do 2 eexists. split; [done|]. split; [|done]. simpl.
  replace (pre ++ le_enc 4 (zlen s) ++ st :: s)
    with (((pre ++ le_enc 4 (zlen s)) ++ [st]) ++ s) by (by rewrite <-!app_assoc).
  by apply consume_rep.
Qed.

(** Fixed-size values: the pointer is left at the [n] bytes of [d]. *)
Lemma deserialize_fixed_rep b v pre d rest n :
  dec_rep m b pre (d ++ rest) → n = zlen d →
  ∃ b' o, deserialize_fixed n b v = (b', set_kv_data (DOff o) v) ∧
          dec_rep m b' (pre ++ d) rest ∧ kv_read m (DOff o) n = Some d.
Proof.
  intros Hr Hn. do 2 eexists. split; [done|].
  split; [by apply consume_rep|by eapply kv_read_rep].
Qed.

Ltac fixed Hr n :=
  match type of Hr with
  | dec_rep _ _ _ (?d ++ _) =>
      match goal with
      | |- context [deserialize_fixed n ?b ?v] =>
          let E := fresh "E" in let Hk := fresh "Hk" in
          destruct (deserialize_fixed_rep _ v _ d _ n Hr) as (? & ? & E & ? & Hk);
          [first [done|lia]|rewrite E]
      end
  end.

(** Closes a case: the members just assigned are read back. *)
Ltac read_back Ht :=
  do 3 eexists; split; [reflexivity|]; split; [eassumption|];
  split; [reflexivity|]; unfold read_value; simpl kv_type; rewrite Ht;
  cbv [btype]; dispatch; simpl;
  repeat match goal with H : kv_read _ _ _ = Some _ |- _ => rewrite H; clear H end;
  try reflexivity.

Lemma deserialize_value_rep b v v2 pre x rest :
  dec_rep m b pre (enc_val x ++ rest) → val_ok x → kv_type v = btype x →
  ∃ b' v' v2', deserialize_value (btype x) b v v2 = Some (b', v', v2', 1) ∧
    dec_rep m b' (pre ++ enc_val x) rest ∧ kv_key v' = kv_key v ∧
    read_value m v' v2' = Some x.
Proof.
  intros Hr Hx Ht. unfold deserialize_value.
  destruct x; simpl in Hx, Hr; cbv [btype]; dispatch; simpl enc_val.
  - fixed Hr 8. read_back Ht.
  - destruct (deserialize_string_rep _ v _ _ _ Hr Hx) as (b' & o & rc & E & ? & ?).
    rewrite (bind_Some_eq _ _ _ E). read_back Ht.
  - destruct (deserialize_document_rep _ v2 _ _ _ Hr Hx) as (b' & E & ?).
    pose proof (kv_read_rep _ _ _ _ _ Hr eq_refl).
    rewrite (bind_Some_eq _ _ _ E). read_back Ht.
  - destruct (deserialize_document_rep _ v2 _ _ _ Hr Hx) as (b' & E & ?).
    pose proof (kv_read_rep _ _ _ _ _ Hr eq_refl).
    rewrite (bind_Some_eq _ _ _ E). read_back Ht.
  - destruct (deserialize_binary_rep _ v _ _ _ _ Hr Hx) as (b' & o & E & ? & ?).
    rewrite (bind_Some_eq _ _ _ E). read_back Ht.
  - rewrite <-(app_nil_r pre) in Hr. read_back Ht.
  - fixed Hr 12. read_back Ht.
  - change ((if b0 then 1 else 0) :: rest) with ([if b0 then 1 else 0] ++ rest) in Hr.
    fixed Hr 1. read_back Ht. by destruct b0.
  - fixed Hr 8. read_back Ht.
  - rewrite <-(app_nil_r pre) in Hr. read_back Ht.
  - done.
  - destruct Hx as [Hs Ho]. rewrite <-app_assoc in Hr.
    destruct (deserialize_string_rep _ v _ _ _ Hr Hs) as (b' & w & rc & E & Hr1 & ?).
    cbv zeta. rewrite (bind_Some_eq _ _ _ E). cbv beta iota. fixed Hr1 12.
    rewrite app_assoc. read_back Ht.
  - destruct (deserialize_string_rep _ v _ _ _ Hr Hx) as (b' & o & rc & E & ? & ?).
    simpl. rewrite (bind_Some_eq _ _ _ E). read_back Ht.
  - destruct (deserialize_string_rep _ v _ _ _ Hr Hx) as (b' & o & rc & E & ? & ?).
    simpl. rewrite (bind_Some_eq _ _ _ E). read_back Ht.
  - done.
  - fixed Hr 4. read_back Ht.
  - fixed Hr 8. read_back Ht.
  - fixed Hr 8. read_back Ht.
  - rewrite <-(app_nil_r pre) in Hr. read_back Ht.
  - rewrite <-(app_nil_r pre) in Hr. read_back Ht.
Qed.

(** The type and the key of an element, before its value. *)
Lemma bson_deserialize_head b v v2 pre ty k body :
  dec_rep m b pre (ty :: k ++ 0 :: body) → Forall (λ z, z ≠ 0) k →
  ∃ b1 v1, bson_deserialize b v v2 = deserialize_value ty b1 v1 v2 ∧
    dec_rep m b1 (pre ++ ty :: k ++ [0]) body ∧ kv_type v1 = ty ∧ kv_size v1 = 0 ∧
    kv_cstr m (kv_key v1) = Some k.
Proof.
  intros Hr Hk. unfold bson_deserialize.
  assert (2 ≤ bi_size b) as Hsz.
  { rewrite (dr_size _ _ _ _ Hr). autorewrite with len. lia. }
  case_test. case_test.
  rewrite (bind_Some_eq _ _ _ (peek_uint8_rep _ _ _ _ Hr)).
  apply (consume_rep _ _ _ [ty] _ 1) in Hr as Hr1; [|done].
  destruct (deserialize_cstring_rep _ (set_kv_type ty v) _ _ _ Hr1 Hk)
    as (b1 & rc & E & Hr2).
  rewrite (bind_Some_eq _ _ _ E).
  pose proof (kv_cstr_rep _ _ _ _ Hr1 Hk) as Hkey.
  do 2 eexists. split; [reflexivity|]. by rewrite <-app_assoc in Hr2.
Qed.

Lemma bson_deserialize_rep b v v2 pre e rest :
  dec_rep m b pre (enc_elem e ++ rest) → elem_ok e →
  ∃ b' v' v2', bson_deserialize b v v2 = Some (b', v', v2', 1) ∧
    dec_rep m b' (pre ++ enc_elem e) rest ∧ read_elem m v' v2' = Some e.
Proof.
  intros Hr [Hk Hx]. unfold enc_elem in Hr. simpl in Hr.
  rewrite <-app_assoc in Hr. simpl in Hr.
  destruct (bson_deserialize_head b v v2 _ _ _ _ Hr Hk) as (b1 & v1 & E & Hr1 & Ht & _ & Hkey).
  destruct (deserialize_value_rep b1 v1 v2 _ _ _ Hr1 Hx Ht)
    as (b2 & v' & v2' & E2 & Hr3 & Ek & Ex).
  exists b2, v', v2'. split; [by rewrite E|]. split.
  - unfold enc_elem. rewrite <-app_assoc in Hr3. simpl in Hr3.
    by rewrite <-app_assoc in Hr3.
  - unfold read_elem. rewrite Ek, (bind_Some_eq _ _ _ Hkey), Ex. simpl. by destruct e.
Qed.

Lemma bson_deserialize_cstr b v v2 pre k s rest :
  dec_rep m b pre (enc_elem {| e_key := k; e_val := VString s |} ++ rest) →
  Forall (λ z, z ≠ 0) k → zlen s < 2 ^ 31 - 1 → Forall (λ z, z ≠ 0) s →
  ∃ b' v', bson_deserialize b v v2 = Some (b', v', v2, 1) ∧
    dec_rep m b' (pre ++ enc_elem {| e_key := k; e_val := VString s |}) rest ∧
    kv_cstr m (kv_key v') = Some k ∧ kv_cstr m (kv_data v') = Some s.
Proof.
  intros Hr Hk Hl Hs. unfold enc_elem in Hr. simpl in Hr.
  rewrite <-app_assoc in Hr. simpl in Hr.
  destruct (bson_deserialize_head b v v2 _ _ _ _ Hr Hk) as (b1 & v1 & E & Hr1 & _ & _ & Hkey).
  destruct (deserialize_string_cstr b1 v1 _ _ _ Hr1 Hl Hs) as (b2 & v' & rc & E2 & Hr2 & Ek & Ed).
  exists b2, v'. rewrite E. unfold deserialize_value. dispatch.
  rewrite (bind_Some_eq _ _ _ E2). split; [done|]. split; [|by rewrite Ek].
  unfold enc_elem. simpl. rewrite <-app_assoc in Hr2. simpl in Hr2.
  by rewrite <-app_assoc in Hr2.
Qed.

(** A binary value is a pointer into the buffer, with its size. *)
Lemma bson_deserialize_bin b v v2 pre k st s rest :
  dec_rep m b pre (enc_elem {| e_key := k; e_val := VBinary st s |} ++ rest) →
  Forall (λ z, z ≠ 0) k → zlen s < 2 ^ 31 - 1 →
  ∃ b' v' o, bson_deserialize b v v2 = Some (b', v', v2, 1) ∧
    kv_cstr m (kv_key v') = Some k ∧ kv_data v' = DOff o ∧ kv_size v' = zlen s ∧
    mem_read m o (zlen s) = Some s.
Proof.
  intros Hr Hk Hl. unfold enc_elem in Hr. simpl in Hr.
  rewrite <-app_assoc in Hr. simpl in Hr.
  destruct (bson_deserialize_head b v v2 _ _ _ _ Hr Hk) as (b1 & v1 & E & Hr1 & _ & _ & Hkey).
  rewrite <-app_assoc in Hr1. simpl in Hr1.
  assert (le_enc 4 (zlen s) ++ st :: s ++ rest = enc_val (VBinary st s) ++ rest) as Eb
    by (simpl; by rewrite <-app_assoc).
  rewrite Eb in Hr1.
  destruct (deserialize_binary_rep b1 v1 _ _ _ _ Hr1 Hl) as (b2 & o & E2 & _ & Hread).
  do 3 eexists. rewrite E. unfold deserialize_value. dispatch.
  rewrite (bind_Some_eq _ _ _ E2). split; [done|]. split; [done|]. by split.
Qed.

Lemma bson_deserialize_end b v v2 pre :
  dec_rep m b pre [0] →
  ∃ b', bson_deserialize b v v2 = Some (b', v, v2, 0) ∧ dec_rep m b' (pre ++ [0]) [].
Proof.
  intros Hr. unfold bson_deserialize. rewrite (dr_size _ _ _ _ Hr). simpl.
  rewrite (bind_Some_eq _ _ _ (peek_uint8_rep _ _ _ _ Hr)). simpl.
  eexists. split; [done|]. apply (consume_rep _ _ _ [0] []); [|done]. by rewrite app_nil_r.
Qed.
End reader.

(** ** Whole documents

    The loop every consumer runs over an open document,
    [while (bson_deserialize(bson, &v1, &v2) == 1)], collecting the elements;
    [fuel] bounds the number of elements. *)
Fixpoint read_all (fuel : nat) (m : list Z) (b : bson_info) (v v2 : bson_kv) :
    option (list elem * bson_info * Z) :=
  match fuel with
  | O => None
  | S fuel =>
      '(b, v, v2, rc) ← bson_deserialize b v v2;
      if rc =? 1 then
        e ← read_elem m v v2;
        '(es, b, rc) ← read_all fuel m b v v2;
        Some (e :: es, b, rc)
      else Some ([], b, rc)
  end.

Lemma read_all_ok m es : ∀ b v v2 pre,
  dec_rep m b pre (enc_elems es ++ [0]) → Forall elem_ok es →
  ∃ b', read_all (S (length es)) m b v v2 = Some (es, b', 0) ∧
        dec_rep m b' (pre ++ enc_elems es ++ [0]) [].
Proof.
  induction es as [|e es IH]; intros b v v2 pre Hr Hok.
  - destruct (bson_deserialize_end m b v v2 pre Hr) as (b' & E & Hr').
    cbn [read_all length]. rewrite (bind_Some_eq _ _ _ E). simpl. by eexists.
  - apply Forall_cons_1 in Hok as [He Hok]. rewrite enc_elems_cons, <-app_assoc in Hr.
    destruct (bson_deserialize_rep m b v v2 pre e _ Hr He)
      as (b1 & v1 & v21 & E & Hr1 & Ee).
    destruct (IH b1 v1 v21 _ Hr1 Hok) as (b' & E' & Hr').
    cbn [length]. cbn [read_all]. rewrite (bind_Some_eq _ _ _ E). cbv beta iota.
    simpl (1 =? 1). cbv iota. rewrite (bind_Some_eq _ _ _ Ee).
    change (read_all (S (length es))) with (read_all (length (e :: es))) in E'.
    change (S (length es)) with (length (e :: es)).
    rewrite (bind_Some_eq _ _ _ E'). eexists. split; [done|].
    by rewrite enc_elems_cons, <-!app_assoc in *.
Qed.

(** ** Properties of the reader *)

(** C19: [bson_deserialize] on a document positioned at an element returns 1,
    consumes exactly that element, and leaves pointers behind which the callers
    read the element's key, type and value; this for every type of the grammar
    except regular expressions and scoped code. *)
Theorem bson_deserialize_roundtrip m b v v2 pre e rest :
  dec_rep m b pre (enc_elem e ++ rest) → elem_ok e →
  ∃ b' v' v2', bson_deserialize b v v2 = Some (b', v', v2', 1) ∧
    dec_rep m b' (pre ++ enc_elem e) rest ∧ read_elem m v' v2' = Some e.
Proof. apply bson_deserialize_rep. Qed.

Definition witness_elem : elem :=
  {| e_key := str_bytes "x"; e_val := VString (str_bytes "gpt") |}.

Definition witness_info (m : list Z) (n : Z) : bson_info :=
  {| bi_size := n; bi_f_offset := 0; bi_position := 0; bi_buffer := PLive m |}.

Lemma bson_deserialize_roundtrip_witness :
  let m := enc_elem witness_elem ++ [0] in
  ∃ b' v' v2',
    bson_deserialize (witness_info m 12) kv_indet kv_indet = Some (b', v', v2', 1) ∧
    dec_rep m b' (enc_elem witness_elem) [0] ∧ read_elem m v' v2' = Some witness_elem.
Proof.
  apply (bson_deserialize_roundtrip _ _ _ _ [] witness_elem [0]).
  - split; [done|by exists []|done|done|done].
  - split; [by repeat constructor|done].
Defined.

(** ** Documents in files *)

Lemma fread_at f pre d post n :
  f_data f = pre ++ d ++ post → f_pos f = zlen pre → n = zlen d →
  ∃ f', fread f n = (f', d) ∧ f_data f' = (pre ++ d) ++ post ∧
        f_pos f' = zlen (pre ++ d).
Proof.
  intros E Hp Hn. rewrite (fread_app pre d post) by done. eexists. split; [done|].
  simpl. rewrite <-app_assoc. split; [done|]. autorewrite with len. lia.
Qed.

(** The reader of documents that starts without a buffer, as every caller's
    [struct bson_info] does. *)
Definition fresh_reader : bson_info :=
  {| bi_size := 0; bi_f_offset := 0; bi_position := 0; bi_buffer := PNull |}.

(** A reader that may be used for the next document: it has no buffer, or one
    of at least [bi_size] bytes. *)
Definition reusable (b : bson_info) : Prop :=
  match bi_buffer b with
  | PNull => True
  | PLive m => bi_size b ≤ zlen m < 2 ^ 63
  | PDangling => False
  end.

Lemma dec_rep_reusable m b pre rest : dec_rep m b pre rest → reusable b.
Proof.
  intros [Hb [post Hm] _ Hs Hl]. unfold reusable. rewrite Hb, Hs. split; [|done].
  rewrite Hm. len.
Qed.

Lemma readf_buffer_ok `{MallocTotal} b n :
  reusable b → 0 ≤ n < 2 ^ 63 →
  ∃ m, readf_buffer b n = Some (PLive m) ∧ n ≤ zlen m < 2 ^ 63.
Proof.
  intros Hb Hn. unfold readf_buffer, reusable in *. rewrite (uwrap_small 64 n) by lia.
  destruct (cmalloc_live n) as (m' & Em & Hm); [done|].
  destruct (bi_buffer b) as [|m|]; [| |done]; cbn [is_null negb].
  - rewrite andb_false_r. rewrite Em. exists m'. split; [done|lia].
  - rewrite andb_true_r. case_test; cbn [cfree mbind option_bind].
    + rewrite Em. exists m'. split; [done|lia].
    + exists m. split; [done|lia].
Qed.

Lemma bson_readf_ok `{MallocTotal} r es f pre post :
  reusable r → f_data f = pre ++ enc_doc es ++ post → f_pos f = zlen pre →
  zlen (enc_elems es) + 5 < 2 ^ 31 →
  ∃ b f' m, bson_readf r f = Some (b, f', 1) ∧
    dec_rep m b [] (enc_elems es ++ [0]) ∧
    f_data f' = f_data f ∧ f_pos f' = f_pos f + zlen (enc_doc es).
Proof.
  intros Hres E Hp Hl. unfold bson_readf, enc_doc in *. rewrite <-!app_assoc in E.
  destruct (fread_at f pre _ _ 4 E Hp) as (f1 & E1 & Ed1 & Ep1); [len|].
  rewrite E1. autorewrite with len. rewrite Z.eqb_refl. cbn [negb].
  rewrite le_dec_enc, (Z.mod_small (_ + 5)) by lia.
  rewrite (swrap_small 32 (zlen (enc_elems es) + 5)), swrap_small by lia.
  set (n := zlen (enc_elems es) + 5 - 4) in *.
  destruct (readf_buffer_ok (set_f_offset (u64 (ftell f)) r) n) as (m & Em & Hm);
    [done|lia|]. rewrite Em. cbn [mbind option_bind is_null].
  rewrite (uwrap_small 64 n) by lia. rewrite app_assoc in Ed1.
  destruct (fread_at f1 (pre ++ le_enc 4 (zlen (enc_elems es) + 5))
              (enc_elems es ++ [0]) post n) as (f2 & E2 & Ed2 & Ep2).
  { rewrite <-!app_assoc in *. done. }
  { done. }
  { subst n. len. }
  unfold fread_into. rewrite E2. cbn [deref mbind option_bind].
  set (d := enc_elems es ++ [0]) in *.
  assert (zlen d = n) as Hd by (subst n d; len).
  pose proof (mem_write_app [] (take (length d) m) d (drop (length d) m) 0 eq_refl) as W.
  simpl in W. rewrite take_drop in W. rewrite W by (rewrite length_take; lia).
  cbn [mbind option_bind]. rewrite Hd, Z.eqb_refl. cbn [negb].
  do 3 eexists. split; [done|]. split; [|split].
  - split; simpl; [done|by eexists|done|done|].
    rewrite length_app, length_drop. lia.
  - rewrite Ed2; unfold d; rewrite E, <-!app_assoc. done.
  - rewrite Ep2, Hp. autorewrite with len. lia.
Qed.
