(* ===== verification/BsonRoundtrip.v ===== *)
(** * What src/bson/bson-encoder.c writes, src/bson/bson-decoder.c reads

    The encoder and the decoder together: documents written to a file and read
    back by the loop the inspection programs run, and the two element types
    whose wire formats differ between the two sides. *)
From S2P Require Import Prelude Words Memory Stdio Bson BsonEncode BsonDecode.

(** C1: what [write_document] appends to a stream, [bson_readf] followed by the
    loop over [bson_deserialize] returns: the elements written, in order, and
    then 0; the stream is left behind the document. *)
Theorem document_roundtrip `{MallocTotal} fills es f v v2 :
  fields_encode kv_indet fills es → Forall elem_ok es →
  zlen (enc_elems es) + 5 ≤ 2 ^ 30 → at_end f → f_pos f < 2 ^ 63 →
  ∃ f' b f'' b' m, write_document fills f = Some (f', EXIT_SUCCESS) ∧
    bson_readf fresh_reader (fseeko f' (f_pos f)).1 = Some (b, f'', 1) ∧
    bi_buffer b = PLive m ∧
    read_all (S (length es)) m b v v2 = Some (es, b', 0) ∧ f_pos f'' = f_pos f'.
Proof.
  intros He Hok Hl Hf Hb. pose proof Hf as [Hp Hs].
  rewrite (write_document_ok fills es f He Hl) by done.
  destruct (bson_readf_ok fresh_reader es (fseeko (append f (enc_doc es)) (f_pos f)).1 (f_data f) [])
    as (b & f'' & m & E & Hr & Hd & Hp'); [done| | | |].
  { unfold fseeko. case_test; simpl; by rewrite app_nil_r. }
  { unfold fseeko. rewrite swrap_small by lia. case_test. simpl. done. }
  { lia. }
  destruct (read_all_ok m es b v v2 [] Hr Hok) as (b' & E' & _).
  exists (append f (enc_doc es)), b, f'', b', m. split; [done|]. split; [done|].
  split; [by destruct Hr|]. split; [done|].
  rewrite Hp'. unfold fseeko. rewrite swrap_small by lia. by case_test.
Qed.

Lemma document_roundtrip_witness :
  let es := [witness_elem; {| e_key := str_bytes "n"; e_val := VInt32 (le_enc 4 7) |}] in
  ∃ f' b f'' b' m,
    write_document [fill_str "x" 3 (str_bytes "gpt");
                    fill_mem BSON_INT32 "n" (le_enc 4 7)] (file_of [])
      = Some (f', EXIT_SUCCESS) ∧
    bson_readf fresh_reader (fseeko f' 0).1 = Some (b, f'', 1) ∧
    bi_buffer b = PLive m ∧
    read_all 3 m b kv_indet kv_indet = Some (es, b', 0) ∧ f_pos f'' = f_pos f'.
Proof.
  intros es.
  apply (document_roundtrip
           [fill_str "x" 3 (str_bytes "gpt"); fill_mem BSON_INT32 "n" (le_enc 4 7)]
           es (file_of []) kv_indet kv_indet).
  - split; [|split; [|done]].
    + split; [done|]. split; [by exists []|]. split; [by repeat constructor|].
      split; [done|]. exists []. by rewrite app_nil_r.
    + split; [done|]. split; [by exists []|]. split; [by repeat constructor|].
      split; [done|]. exists []. by rewrite app_nil_r.
  - repeat constructor; done.
  - vm_compute. discriminate.
  - done.
  - done.
Defined.

(** Regular expressions do not survive the round trip: the encoder writes
    pattern and options as length-prefixed strings, the decoder reads two C
    strings, and so takes the low byte of the length for the pattern, the next
    byte for empty options, and goes on inside the first length field. *)
Theorem regex_wire_mismatch m b v v2 pre k p o rest :
  dec_rep m b pre (enc_elem {| e_key := k; e_val := VRegex p o |} ++ rest) →
  Forall (λ z, z ≠ 0) k → 0 < zlen p < 255 →
  ∃ b' v' v2', bson_deserialize b v v2 = Some (b', v', v2', 1) ∧
    read_elem m v' v2' = Some {| e_key := k; e_val := VRegex [zlen p + 1] [] |} ∧
    dec_rep m b' (pre ++ BSON_REGEX :: k ++ [0; zlen p + 1; 0; 0])
      (0 :: p ++ 0 :: enc_string o ++ rest).
Proof.
  intros Hr Hk Hp. unfold enc_elem in Hr. simpl in Hr. rewrite <-app_assoc in Hr.
  simpl in Hr.
  destruct (bson_deserialize_head m b v v2 _ _ _ _ Hr Hk) as (b1 & v1 & E & Hr1 & Ht & _ & Hkey).
  unfold enc_string at 1 in Hr1. rewrite le_enc4_byte in Hr1 by lia.
  simpl in Hr1. rewrite E. clear E.
  change (zlen p + 1 :: 0 :: 0 :: 0 :: ?x) with ([zlen p + 1] ++ 0 :: 0 :: 0 :: x) in Hr1.
  destruct (deserialize_cstring_rep m b1 v1 _ [zlen p + 1] _ Hr1) as (b2 & rc & E1 & Hr2).
  { repeat constructor. lia. }
  assert (kv_cstr m (DOff (bi_position b1)) = Some [zlen p + 1]) as Hpat.
  { eapply kv_cstr_rep; [exact Hr1|]. repeat constructor. lia. }
  destruct (deserialize_cstring_rep m b2 (set_kv_key (kv_key v1) v2) _ [] _ Hr2)
    as (b3 & rc' & E2 & Hr3); [done|].
  assert (kv_cstr m (DOff (bi_position b2)) = Some []) as Hopt.
  { eapply (kv_cstr_rep m b2 _ []); [exact Hr2|done]. }
  change (deserialize_value BSON_REGEX b1 v1 v2) with
    ('(b, v, _) ← deserialize_cstring b1 v1;
     '(b, v2, _) ← deserialize_cstring b (set_kv_key (kv_key v1) v2);
     Some (b, v, v2, 1)).
  rewrite (bind_Some_eq _ _ _ E1), (bind_Some_eq _ _ _ E2).
  do 3 eexists. split; [done|]. split.
  - unfold read_elem. cbn [set_kv_data kv_key]. rewrite (bind_Some_eq _ _ _ Hkey).
    unfold read_value. cbn [set_kv_data kv_type kv_data]. rewrite Ht. simpl.
    by rewrite Hpat, Hopt.
  - rewrite <-!app_assoc in *. simpl in *. rewrite <-!app_assoc in *. done.
Qed.

Lemma regex_wire_mismatch_witness :
  let e := {| e_key := str_bytes "r"; e_val := VRegex (str_bytes "ab") (str_bytes "i") |} in
  let m := enc_elem e ++ [0] in
  ∃ b' v' v2',
    bson_deserialize (witness_info m (zlen m)) kv_indet kv_indet = Some (b', v', v2', 1) ∧
    read_elem m v' v2' = Some {| e_key := str_bytes "r"; e_val := VRegex [3] [] |} ∧
    dec_rep m b' [0x0b; 0x72; 0; 3; 0; 0]
      (0 :: str_bytes "ab" ++ 0 :: enc_string (str_bytes "i") ++ [0]).
Proof.
  intros e m.
  apply (regex_wire_mismatch m _ kv_indet kv_indet [] (str_bytes "r") (str_bytes "ab")
           (str_bytes "i") [0]).
  - split; [done|by exists []|done|done|done].
  - repeat constructor; done.
  - done.
Defined.
