(* ===== verification/BsonFields.v ===== *)
(** * The fields the crawler's writers put into their documents

    Elements by key and C type of the object their [value.data] points at, and
    the lemmas by which a sequence of assignments to [value] is seen to encode
    them; a document of such fields is written and read back as they are. *)
From S2P Require Import Prelude Words Memory Stdio Bson BsonEncode BsonDecode.

Definition e_str (key : string) (s : list Z) : elem :=
  {| e_key := str_bytes key; e_val := VString s |}.
Definition e_int32 (key : string) (z : Z) : elem :=
  {| e_key := str_bytes key; e_val := VInt32 (le_enc 4 z) |}.
Definition e_int64 (key : string) (z : Z) : elem :=
  {| e_key := str_bytes key; e_val := VInt64 (le_enc 8 z) |}.
Definition e_bool (key : string) (b : bool) : elem :=
  {| e_key := str_bytes key; e_val := VBoolean b |}.
Definition e_bin (key : string) (st : Z) (s : list Z) : elem :=
  {| e_key := str_bytes key; e_val := VBinary st s |}.
Definition e_arr (key : string) (d : list Z) : elem :=
  {| e_key := str_bytes key; e_val := VArray d |}.

(** No NUL inside a key. *)
Definition key_ok (key : string) : bool :=
  forallb (λ z, negb (z =? 0)) (str_bytes key).

Create HintDb encode.

Lemma key_ok_Forall key : key_ok key = true → Forall (λ z, z ≠ 0) (str_bytes key).
Proof.
  unfold key_ok. rewrite forallb_forall. intros H. apply Forall_forall.
  intros z Hz. apply H in Hz. by destruct (Z.eqb_spec z 0).
Qed.

(** ** What the assignments encode *)

Section encodes.
Context (key : string) (Hk : key_ok key = true).

Lemma kv_encodes_intro v x :
  kv_type v = btype x → kv_key v = DMem (cstr key) → data_encodes v x →
  kv_encodes v {| e_key := str_bytes key; e_val := x |}.
Proof.
  intros Ht Ek Hd. split; [done|]. split; [|by split; [apply key_ok_Forall|]].
  exists []. by rewrite Ek.
Qed.

Lemma encodes_str v n s r :
  n = zlen s → zlen s < 2 ^ 31 → kv_encodes (fill_str key n (s ++ r) v) (e_str key s).
Proof.
  intros -> Hs. apply kv_encodes_intro; [done..|]. simpl.
  rewrite swrap_small by lia. by eauto.
Qed.

Lemma encodes_int32 v z : kv_encodes (fill_mem BSON_INT32 key (le_enc 4 z) v) (e_int32 key z).
Proof.
  apply kv_encodes_intro; [done..|]. split; [by rewrite length_le_enc|].
  exists []. by rewrite app_nil_r.
Qed.

(** A 64-bit member written as an [int32]: its low half. *)
Lemma encodes_int32_low v z :
  kv_encodes (fill_mem BSON_INT32 key (le_enc 8 z) v) (e_int32 key z).
Proof.
  apply kv_encodes_intro; [done..|]. split; [by rewrite length_le_enc|].
  eexists. by rewrite (le_enc_app 4 4).
Qed.

Lemma encodes_int64 v z : kv_encodes (fill_mem BSON_INT64 key (le_enc 8 z) v) (e_int64 key z).
Proof.
  apply kv_encodes_intro; [done..|]. split; [by rewrite length_le_enc|].
  exists []. by rewrite app_nil_r.
Qed.

Lemma encodes_bool v (b : bool) r :
  kv_encodes (fill_mem BSON_BOOLEAN key ((if b then 1 else 0) :: r) v) (e_bool key b).
Proof. apply kv_encodes_intro; [done..|]. do 2 eexists. split; [reflexivity|by destruct b]. Qed.

(** [value.size] and [value.subtype] are those of an earlier use of [value]. *)
Lemma encodes_bin_stale v s r :
  kv_size v = zlen s →
  kv_encodes (fill_mem BSON_BINARY key (s ++ r) v) (e_bin key (u8 (kv_subtype v)) s).
Proof. intros Hs. apply kv_encodes_intro; [done..|]. simpl. by eauto. Qed.

Lemma encodes_arr v d c :
  enc_rep d c → kv_encodes (fill_doc BSON_ARRAY key d v) (e_arr key c).
Proof. intros Hd. apply kv_encodes_intro; [done..|]. by eexists. Qed.

(** ** The fields can be read back *)

Lemma e_str_ok s : zlen s < 2 ^ 31 - 1 → elem_ok (e_str key s).
Proof. split; [by apply key_ok_Forall|done]. Qed.

Lemma e_int32_ok z : elem_ok (e_int32 key z).
Proof. split; [by apply key_ok_Forall|]. simpl. by rewrite length_le_enc. Qed.

Lemma e_int64_ok z : elem_ok (e_int64 key z).
Proof. split; [by apply key_ok_Forall|]. simpl. by rewrite length_le_enc. Qed.

Lemma e_bool_ok b : elem_ok (e_bool key b).
Proof. split; [by apply key_ok_Forall|done]. Qed.

Lemma e_bin_ok st s : zlen s < 2 ^ 31 - 1 → elem_ok (e_bin key st s).
Proof. split; [by apply key_ok_Forall|done]. Qed.

Lemma e_arr_ok d : self_sized d → elem_ok (e_arr key d).
Proof. split; [by apply key_ok_Forall|done]. Qed.
End encodes.

#[export] Hint Resolve encodes_int32 encodes_int32_low encodes_int64 encodes_bool
  encodes_arr e_int32_ok e_int64_ok e_bool_ok : encode.

Lemma fields_nil value : fields_encode value [] [].
Proof. done. Qed.

Lemma fields_cons value f fills e es :
  kv_encodes (f value) e → fields_encode (f value) fills es →
  fields_encode value (f :: fills) (e :: es).
Proof. by split. Qed.

(** One field after the other; what is left are side conditions on lengths. *)
Ltac encode_field :=
  first [ apply encodes_int32 | apply encodes_int32_low | apply encodes_int64
        | apply encodes_bool | eapply encodes_bin_stale | apply encodes_arr
        | rewrite <-(app_nil_r (str_bytes _)); apply encodes_str
        | apply encodes_str ]; try reflexivity.
Ltac encode_fields :=
  repeat first [apply fields_nil | apply fields_cons; [encode_field|]].

(** A document's elements are read back one by one; lengths are left. *)
Ltac elems_ok :=
  repeat first [ apply Forall_nil_2 | apply Forall_cons_2
               | apply e_int32_ok | apply e_int64_ok | apply e_bool_ok | apply e_str_ok
               | apply e_bin_ok | apply e_arr_ok ]; try reflexivity; try done.

(** ** Sizes of documents *)

Lemma length_enc_elems_cons e es :
  length (enc_elems (e :: es)) = (length (enc_elem e) + length (enc_elems es))%nat.
Proof. by rewrite enc_elems_cons, length_app. Qed.

Lemma length_enc_elems_nil : length (enc_elems []) = 0%nat.
Proof. done. Qed.

Lemma length_str_bytes s : length (str_bytes s) = String.length s.
Proof. induction s; simpl; [done|]. f_equal. done. Qed.

Lemma length_e_str k s :
  length (enc_elem (e_str k s)) = (7 + String.length k + length s)%nat.
Proof. unfold e_str. rewrite length_enc_elem. simpl. rewrite length_str_bytes. len. Qed.

Lemma length_e_int32 k z : length (enc_elem (e_int32 k z)) = (6 + String.length k)%nat.
Proof. unfold e_int32. rewrite length_enc_elem. simpl. rewrite length_str_bytes. len. Qed.

Lemma length_e_int64 k z : length (enc_elem (e_int64 k z)) = (10 + String.length k)%nat.
Proof. unfold e_int64. rewrite length_enc_elem. simpl. rewrite length_str_bytes. len. Qed.

Lemma length_e_bool k b : length (enc_elem (e_bool k b)) = (3 + String.length k)%nat.
Proof. unfold e_bool. rewrite length_enc_elem. simpl. rewrite length_str_bytes. len. Qed.

Lemma length_e_bin k st s :
  length (enc_elem (e_bin k st s)) = (7 + String.length k + length s)%nat.
Proof. unfold e_bin. rewrite length_enc_elem. simpl. rewrite length_str_bytes. len. Qed.

Lemma length_e_arr k d :
  length (enc_elem (e_arr k d)) = (2 + String.length k + length d)%nat.
Proof. unfold e_arr. rewrite length_enc_elem. simpl. rewrite length_str_bytes. len. Qed.

Create Rewrite HintDb dsize.
#[export] Hint Rewrite length_enc_elems_cons length_enc_elems_nil length_str_bytes
  length_e_str length_e_int32 length_e_int64 length_e_bool length_e_bin length_e_arr : dsize.

(** The size of a document whose elements are listed in the goal. *)
Ltac doc_size := unfold max_doc; autorewrite with dsize; cbn [String.length]; len.

(** Rewrites a call of [write_document] to its result. *)
Ltac wrote es :=
  unfold cstr; rewrite (write_document_ok _ es);
  [ | encode_fields | | try done].

(** ** Counted elements and arrays

    The writers of arrays print a number into [count], the key of the element. *)

(** [value.key = count], where [count] has just been printed from [n]. *)
Definition fill_count (ty n : Z) (m : list Z) (v : bson_kv) : bson_kv :=
  {| kv_type := ty; kv_subtype := kv_subtype v; kv_size := kv_size v;
     kv_key := DMem (decimal n ++ [0]); kv_data := DMem m |}.

(** The same with [value.size = size] and [value.type = BSON_BINARY]. *)
Definition fill_count_bin (n size : Z) (m : list Z) (v : bson_kv) : bson_kv :=
  {| kv_type := BSON_BINARY; kv_subtype := kv_subtype v; kv_size := s32 size;
     kv_key := DMem (decimal n ++ [0]); kv_data := DMem m |}.

(** A document under construction is closed and put into another. *)
Section arrays.
Context `{Malloc}.

(** [bson_finalize(doc); value.data = doc; bson_serialize(serialized, &value);
    bson_cleanup(doc)] with [value] an array called [key]. *)
Definition close_array (key : string) (b doc : bson_info) : option bson_info :=
  '(doc, _) ← bson_finalize doc;
  '(b, _) ← bson_serialize b (fill_doc BSON_ARRAY key doc kv_indet);
  _ ← bson_cleanup doc;
  Some b.
End arrays.

Lemma decimal_nonzero n : Forall (λ z, z ≠ 0) (decimal n).
Proof.
  unfold decimal. apply (Forall_impl (P := λ d, 48 ≤ d < 58)); [intros d Hd; lia|apply decimal_digits_range].
Qed.

Lemma encodes_count n z v :
  kv_encodes (fill_count BSON_INT32 n (le_enc 8 z) v)
    {| e_key := decimal n; e_val := VInt32 (le_enc 4 z) |}.
Proof.
  split; [done|]. split; [by exists []|]. split; [apply decimal_nonzero|].
  split; [by rewrite length_le_enc|]. eexists. cbn [kv_data fill_count].
  by rewrite (le_enc_app 4 4).
Qed.

(** An array is closed and put into its document. *)
Lemma close_array_ok `{MallocTotal} key b c doc es :
  key_ok key = true → enc_rep b c → enc_rep doc (enc_elems es) →
  zlen c + zlen (enc_elem (e_arr key (enc_doc es))) ≤ max_doc →
  ∃ b', close_array key b doc = Some b' ∧ enc_rep b' (c ++ enc_elem (e_arr key (enc_doc es))).
Proof.
  intros Hk Hr Hdoc Hl. unfold close_array.
  assert (length (enc_doc es) = (5 + length (enc_elems es))%nat) as Hld.
  { unfold enc_doc. len. }
  rewrite length_e_arr in Hl.
  destruct (bson_finalize_ok doc es Hdoc) as (d & -> & Hd'); [lia|]. cbn [mbind option_bind].
  destruct (serialize_element_appends _ _ (encodes_arr key Hk kv_indet d _ Hd') b c Hr)
    as (b' & E & Hb'); [rewrite length_e_arr; lia|].
  unfold bson_serialize. rewrite E. cbn [mbind option_bind].
  destruct Hd' as (rest & Hbuf & _). unfold bson_cleanup. rewrite Hbuf. cbn [cfree mbind option_bind].
  by exists b'.
Qed.

(** A document reader may start from [bson_init]. *)
Lemma bson_init_reusable `{MallocTotal} : ∃ b, bson_init = Some b ∧ reusable b.
Proof.
  unfold bson_init. destruct (malloc_total START_SIZE) as [m E]; [done|].
  rewrite E. eexists. split; [done|]. unfold reusable. simpl.
  apply malloc_length in E. rewrite E. done.
Qed.
