(* ===== verification/BsonPrint.v ===== *)
(** * src/bson/bson-util.c and src/bson/bson-printer.c: printing documents

    [bson_print] runs the reader over a document and prints a line for every
    element; an array is copied into a reader of its own and printed by a
    recursive call. The program src/bson/bson-printer.c prints every document
    of a file. *)
From S2P Require Import Prelude Words Memory Text Stdio Util Hexdump Bson BsonEncode BsonDecode BsonFields.

(** ** [asctime(gmtime(&t))] of the C library *)

(** Days since 1970-01-01 to year, month and day of the month. *)
Definition civil_from_days (days : Z) : Z * Z * Z :=
  let z := days + 719468 in
  let era := z `div` 146097 in
  let doe := z `mod` 146097 in
  let yoe := (doe - doe `div` 1460 + doe `div` 36524 - doe `div` 146096) `div` 365 in
  let doy := doe - (365 * yoe + yoe `div` 4 - yoe `div` 100) in
  let mp := (5 * doy + 2) `div` 153 in
  let d := doy - (153 * mp + 2) `div` 5 + 1 in
  let m := if mp <? 10 then mp + 3 else mp - 9 in
  (yoe + era * 400 + (if m <=? 2 then 1 else 0), m, d).

Definition day_names : list string := ["Sun"; "Mon"; "Tue"; "Wed"; "Thu"; "Fri"; "Sat"].
Definition month_names : list string :=
  ["Jan"; "Feb"; "Mar"; "Apr"; "May"; "Jun"; "Jul"; "Aug"; "Sep"; "Oct"; "Nov"; "Dec"].

Definition name_of (names : list string) (i : Z) : list Z :=
  str_bytes (nth (Z.to_nat i) names EmptyString).

(** Undefined for years that do not have four digits. *)
Definition asctime_gmtime (t : Z) : option (list Z) :=
  let days := t `div` 86400 in
  let secs := t `mod` 86400 in
  let '(y, m, d) := civil_from_days days in
  if bool_decide (1000 ≤ y ≤ 9999) then
    Some (name_of day_names ((days + 4) `mod` 7) ++ SP :: name_of month_names (m - 1) ++
          fmt_wd 3 d ++ SP :: fmt_0d 2 (secs `div` 3600) ++
          58 :: fmt_0d 2 ((secs `div` 60) `mod` 60) ++ 58 :: fmt_0d 2 (secs `mod` 60) ++
          SP :: fmt_d y ++ [NL])
  else None.

(** ** [bson_print] *)

Definition text (s : string) : list Z := str_bytes s.

(** A line that prints nothing but the type. *)
Definition type_name (ty : Z) : option string :=
  if ty =? BSON_EMBEDDED_DOCUMENT then Some "[BSON_EMBEDDED_DOCUMENT] "
  else if ty =? BSON_UNDEFINED then Some "[BSON_UNDEFINED] "
  else if ty =? BSON_OBJECTID then Some "[BSON_OBJECTID] "
  else if ty =? BSON_NULL then Some "[BSON_NULL] "
  else if ty =? BSON_REGEX then Some "[BSON_REGEX] "
  else if ty =? BSON_DBPOINTER then Some "[BSON_DBPOINTER] "
  else if ty =? BSON_JS then Some "[BSON_JS] "
  else if ty =? BSON_SYMBOL then Some "[BSON_SYMBOL] "
  else if ty =? BSON_JS_CODE then Some "[BSON_JS_CODE] "
  else if ty =? BSON_TIMESTAMP then Some "[BSON_TIMESTAMP] "
  else if ty =? BSON_MIN then Some "[BSON_MIN] "
  else if ty =? BSON_MAX then Some "[BSON_MAX] "
  else None.

(** Milliseconds since 1970; [asctime] ends its text with a line feed. *)
Definition utc_output (f : std_stream) (millis : Z) : option output :=
  t ← asctime_gmtime (Z.quot millis 1000);
  Some (fprintf f (text "[BSON_UTC_DATETIME] ") ++ fprintf f (t ++ [NL])).

(** The [switch] of [bson_print]; [m] is the buffer [v1] and [v2] point into,
    [array v2] prints an array. [hexdump] always writes to [stdout]. *)
Definition print_value (array : bson_kv → option output) (f : std_stream) (m : list Z)
    (v1 v2 : bson_kv) : option output :=
  let ty := kv_type v1 in
  if ty =? BSON_DOUBLE then
    d ← kv_read m (kv_data v1) 8;
    Some (fprintf f (text "[BSON_DOUBLE] " ++ fmt_f d ++ [NL]))
  else if ty =? BSON_STRING then
    let start := fprintf f (text "[BSON_STRING, " ++ decimal (u32 (kv_size v1)) ++ text "] '") in
    s ← kv_read m (kv_data v1) (kv_size v1);
    Some (start ++ fprintf f s ++ fprintf f (text "'" ++ [NL]))
  else if ty =? BSON_ARRAY then
    o ← array v2; Some (fprintf f (text "[BSON_ARRAY] ") ++ o)
  else if ty =? BSON_BINARY then
    o ← off_of (kv_data v1);
    '(dump, _) ← hexdump (buf_at m o) (u64 (kv_size v1));
    Some (fprintf f (text "[BSON_BINARY, " ++ decimal (u32 (kv_size v1)) ++ text "] ") ++
          fprintf Stdout dump)
  else if ty =? BSON_BOOLEAN then
    z ← kv_le 1 m (kv_data v1);
    Some (fprintf f (text "[BSON_BOOLEAN] ") ++
          fprintf f (text (if negb (z =? 0) then "true" else "false") ++ [NL]))
  else if ty =? BSON_UTC_DATETIME then
    z ← kv_le 8 m (kv_data v1); utc_output f (s64 z)
  else if ty =? BSON_INT32 then
    z ← kv_le 4 m (kv_data v1);
    Some (fprintf f (text "[BSON_INT32] " ++ fmt_d (s32 z) ++ [NL]))
  else if ty =? BSON_INT64 then
    z ← kv_le 8 m (kv_data v1);
    Some (fprintf f (text "[BSON_INT64] " ++ fmt_d (s64 z) ++ [NL]))
  else match type_name ty with
  | Some t => Some (fprintf f (text t ++ [NL]))
  | None =>
      k ← kv_cstr m (kv_key v1);
      Some (fprintf f (9 :: text "'" ++ k ++ text "' : print not implemented" ++ [NL]))
  end.

Section printer.
Context `{Malloc}.

(** A reader over a copy of the array, of [v2.size] bytes; the buffer
    [bson_init] allocated is lost. *)
Definition array_reader (m : list Z) (v2 : bson_kv) : option bson_info :=
  embedded ← bson_init;
  d ← kv_read m (kv_data v2) (kv_size v2);
  b ← malloc (u64 (kv_size v2));
  b ← mem_write b 0 d;
  '(embedded, _) ← bson_make_readable (set_buffer (PLive b) embedded);
  Some embedded.

(** [while (bson_deserialize(bson, &v1, &v2) == 1)], with fuel for the elements
    of the document and of the arrays in it. *)
Fixpoint print_loop (fuel : nat) (f : std_stream) (b : bson_info) (v1 v2 : bson_kv) :
    option (output * bson_info) :=
  match fuel with
  | O => None
  | S fuel =>
      '(b, v1, v2, rc) ← bson_deserialize b v1 v2;
      if rc =? 1 then
        m ← deref (bi_buffer b);
        k ← kv_cstr m (kv_key v1);
        let array v2 :=
          embedded ← array_reader m v2;
          '(o, embedded) ← print_loop fuel f embedded kv_indet kv_indet;
          _ ← bson_cleanup embedded;
          Some (fprintf f (text "{" ++ [NL]) ++ o ++ fprintf f (text "}" ++ [NL])) in
        val ← print_value array f m v1 v2;
        '(o, b) ← print_loop fuel f b v1 v2;
        Some (fprintf f (9 :: text "'" ++ k ++ text "' : ") ++ val ++ o, b)
      else Some ([], b)
  end.

Definition bson_print (fuel : nat) (f : std_stream) (b : bson_info) :
    option (output * bson_info * Z) :=
  '(o, b) ← print_loop fuel f b kv_indet kv_indet;
  Some (fprintf f (text "{" ++ [NL]) ++ o ++ fprintf f (text "}" ++ [NL]), b, EXIT_SUCCESS).

(** ** src/bson/bson-printer.c *)

(** [while (bson_readf(bson, f) == 1) bson_print(stdout, bson)] *)
Fixpoint printer_loop (fuel : nat) (b : bson_info) (f : FILE) :
    option (output * bson_info) :=
  match fuel with
  | O => None
  | S fuel' =>
      '(b, f, rc) ← bson_readf b f;
      if rc =? 1 then
        '(o, b, _) ← bson_print fuel Stdout b;
        '(os, b) ← printer_loop fuel' b f;
        Some (o ++ os, b)
      else Some ([], b)
  end.

(** [main(argc, argv)]; [fs] is what [fopen] finds: the contents of a file. *)
Definition printer_main (fuel : nat) (argv : list (list Z)) (fs : list Z → option (list Z)) :
    option (output * Z) :=
  let banner := fprintf_blue Stdout
    (text "BSON Printer -- By: Wolfgang Richter <wolf@cs.cmu.edu>" ++ [NL]) in
  match argv with
  | arg0 :: arg1 :: _ =>
      let analyzing := fprintf_cyan Stdout (text "Analyzing BSON File: " ++ arg1 ++ [NL]) in
      match fs arg1 with
      | None =>
          Some (banner ++ analyzing ++
                fprintf_light_red Stderr (text "Error opening BSON file." ++ [NL]), EXIT_FAILURE)
      | Some d =>
          bson ← bson_init;
          '(o, bson) ← printer_loop fuel bson (file_of d);
          _ ← bson_cleanup bson;
          Some (banner ++ analyzing ++ o, EXIT_SUCCESS)
      end
  | [arg0] =>
      Some (banner ++ fprintf_light_red Stderr
              (text "Usage: " ++ arg0 ++ text " <BSON file>" ++ [NL]),
            EXIT_FAILURE)
  | [] => None
  end.
End printer.

(** ** What is printed for the elements of a document *)

(** The lines of a value that is not an array. *)
Definition value_output (f : std_stream) (x : bval) : option output :=
  match x with
  | VDouble d => Some (fprintf f (text "[BSON_DOUBLE] " ++ fmt_f d ++ [NL]))
  | VString s =>
      Some (fprintf f (text "[BSON_STRING, " ++ decimal (zlen s) ++ text "] '") ++
            fprintf f s ++ fprintf f (text "'" ++ [NL]))
  | VArray _ => None
  | VBinary _ s =>
      Some (fprintf f (text "[BSON_BINARY, " ++ decimal (zlen s) ++ text "] ") ++
            fprintf Stdout (if zlen s =? 0 then replicate 46 SP
                            else hex_lines (hex_rows (zlen s)) 0 s))
  | VBoolean b =>
      Some (fprintf f (text "[BSON_BOOLEAN] ") ++
            fprintf f (text (if b then "true" else "false") ++ [NL]))
  | VUtc t => utc_output f (s64 (le_dec t))
  | VInt32 i => Some (fprintf f (text "[BSON_INT32] " ++ fmt_d (s32 (le_dec i)) ++ [NL]))
  | VInt64 i => Some (fprintf f (text "[BSON_INT64] " ++ fmt_d (s64 (le_dec i)) ++ [NL]))
  | VDocument _ | VUndefined | VObjectId _ | VNull | VRegex _ _ | VDbPointer _ _
  | VJs _ | VSymbol _ | VJsCode _ _ | VTimestamp _ | VMin | VMax =>
      t ← type_name (btype x); Some (fprintf f (text t ++ [NL]))
  end.

Definition key_output (f : std_stream) (k : list Z) : output :=
  fprintf f (9 :: text "'" ++ k ++ text "' : ").

Definition braced (f : std_stream) (o : output) : output :=
  fprintf f (text "{" ++ [NL]) ++ o ++ fprintf f (text "}" ++ [NL]).

Definition val_bytes_ok (x : bval) : Prop :=
  match x with VBinary _ s => bytes_ok s | _ => True end.

(** [printed f es o]: the elements [es] are printed as [o]. *)
Inductive printed (f : std_stream) : list elem → output → Prop :=
  | printed_nil : printed f [] []
  | printed_value e es o os :
      elem_ok e → val_bytes_ok (e_val e) → value_output f (e_val e) = Some o →
      printed f es os →
      printed f (e :: es) (key_output f (e_key e) ++ o ++ os)
  | printed_array k sub es o os :
      Forall (λ z, z ≠ 0) k → zlen (enc_doc sub) < 2 ^ 31 →
      printed f sub o → printed f es os →
      printed f ({| e_key := k; e_val := VArray (enc_doc sub) |} :: es)
        (key_output f k ++ (fprintf f (text "[BSON_ARRAY] ") ++ braced f o) ++ os).

(** ** Values *)

Lemma read_value_type m v v2 x : read_value m v v2 = Some x → kv_type v = btype x.
Proof.
  unfold read_value.
  repeat match goal with
  | |- context [Z.eqb ?a ?b] => destruct (Z.eqb_spec a b) as [->|]
  end; try done; intros E;
  repeat (apply bind_Some in E as (? & _ & E)); try apply fmap_Some in E as (? & _ & ->);
  simplify_eq; done.
Qed.

(** The bytes a pointer leads to split the buffer. *)
Lemma kv_read_split m p n s : kv_read m p n = Some s →
  ∃ pre post, p = DOff (zlen pre) ∧ m = pre ++ s ++ post ∧ n = zlen s.
Proof.
  unfold kv_read. intros E. destruct p as [| | | |o]; try done. cbn [off_of mbind option_bind] in E.
  revert E. unfold mem_read. case_test; intros E; simplify_eq.
  exists (take (Z.to_nat o) m), (drop (Z.to_nat n) (drop (Z.to_nat o) m)).
  rewrite take_drop, take_drop, !length_take, length_drop.
  split; [f_equal; lia|]. split; [done|lia].
Qed.

Lemma hexdump_read m p s : kv_read m p (zlen s) = Some s → bytes_ok s →
  ∃ o, off_of p = Some o ∧
    hexdump (buf_at m o) (zlen s)
    = Some (if zlen s =? 0 then replicate 46 SP else hex_lines (hex_rows (zlen s)) 0 s,
            EXIT_SUCCESS).
Proof.
  intros Hr Hs. destruct (kv_read_split _ _ _ _ Hr) as (pre & post & -> & -> & _).
  exists (zlen pre). split; [done|]. unfold buf_at. rewrite Nat2Z.id, drop_app_length.
  case_test.
  - assert (s = []) as -> by (destruct s; [done|simpl in *; lia]). done.
  - apply hexdump_lines; [done|lia].
Qed.

Ltac print_branch Ht E :=
  unfold print_value, read_value in *; rewrite Ht in *; cbv [btype] in *;
  revert E; dispatch; intros E.

(** The name of a type that is printed without its value. *)
Ltac name_line Ho :=
  lazymatch type of Ho with
  | context [type_name ?t] =>
      let r := eval vm_compute in (type_name t) in
      rewrite (eq_refl : type_name t = r) in Ho; rewrite (eq_refl : type_name t = r);
      cbn [mbind option_bind] in Ho
  end.

(** The date is not computed to compare two texts. *)
#[local] Strategy 100 [utc_output].

Lemma print_value_ok array f m v v2 x o :
  read_value m v v2 = Some x → val_ok x → val_bytes_ok x → value_output f x = Some o →
  print_value array f m v v2 = Some o.
Proof.
  intros E Hx Hb Ho. pose proof (read_value_type _ _ _ _ E) as Ht.
  destruct x; cbn [value_output val_ok val_bytes_ok] in Hx, Hb, Ho; try done; print_branch Ht E;
    try (name_line Ho; exact Ho);
    apply fmap_Some in E as (s' & E & Ex); rewrite <-Ho; injection Ex as ->.
  - rewrite E. cbn [mbind option_bind]. reflexivity.
  - destruct (kv_read_split _ _ _ _ E) as (_ & _ & _ & _ & Hn).
    rewrite E, Hn, uwrap_small by lia. cbn [mbind option_bind]. reflexivity.
  - destruct (kv_read_split _ _ _ _ E) as (_ & _ & _ & _ & Hn). subst s'.
    rewrite Hn in *. destruct (hexdump_read m _ _ E Hb) as (o' & -> & Eh). cbn [mbind option_bind].
    rewrite !uwrap_small by lia. rewrite Eh. cbn [mbind option_bind]. reflexivity.
  - unfold kv_le. change (Z.of_nat 1) with 1. rewrite E. cbn [mbind option_bind]. reflexivity.
  - unfold kv_le. change (Z.of_nat 8) with 8. rewrite E. cbn [mbind option_bind]. reflexivity.
  - unfold kv_le. change (Z.of_nat 4) with 4. rewrite E. cbn [mbind option_bind]. reflexivity.
  - unfold kv_le. change (Z.of_nat 8) with 8. rewrite E. cbn [mbind option_bind]. reflexivity.
Qed.

(** ** Arrays *)

Section loop.
Context `{MallocTotal}.

Lemma array_reader_ok m v2 sub :
  kv_read m (kv_data v2) (kv_size v2) = Some (enc_doc sub) → zlen (enc_doc sub) < 2 ^ 31 →
  ∃ b, array_reader m v2 = Some b ∧
    dec_rep (enc_doc sub) b (le_enc 4 (zlen (enc_doc sub))) (enc_elems sub ++ [0]).
Proof.
  intros E Hl. destruct (kv_read_split _ _ _ _ E) as (_ & _ & _ & _ & Hn).
  pose proof (length_enc_doc sub) as Hd. unfold array_reader.
  rewrite Hn in *. clear Hn.
  unfold bson_init. destruct (malloc_total START_SIZE) as [m0 ->]; [done|].
  cbn [mbind option_bind]. rewrite E. cbn [mbind option_bind].
  rewrite uwrap_small by lia.
  destruct (malloc_total (zlen (enc_doc sub))) as [b Eb]; [lia|].
  rewrite Eb. cbn [mbind option_bind]. apply malloc_length in Eb.
  pose proof (mem_write_app [] b (enc_doc sub) [] 0 eq_refl ltac:(lia)) as W.
  rewrite app_nil_r in W. simpl app in W. rewrite W, app_nil_r. cbn [mbind option_bind].
  unfold bson_make_readable. cbn [set_buffer bi_buffer bi_size is_null orb].
  change (START_SIZE <? 5) with false. cbv iota. cbn [deref mbind option_bind].
  pose proof (mem_le_app 4 [] (zlen (enc_elems sub) + 5) (enc_elems sub ++ [0]) 0 eq_refl) as R.
  unfold enc_doc at 2. rewrite app_nil_l in R. rewrite R. cbn [mbind option_bind].
  rewrite Z.mod_small, swrap_small, uwrap_small by lia.
  eexists. split; [reflexivity|]. rewrite Hd. split; cbn; [done| | |len|lia].
  - exists []. by rewrite app_nil_r.
  - by rewrite length_le_enc.
Qed.

(** ** The loop *)

Lemma read_elem_split m v v2 e : read_elem m v v2 = Some e →
  kv_cstr m (kv_key v) = Some (e_key e) ∧ read_value m v v2 = Some (e_val e).
Proof.
  unfold read_elem. intros E. bind_inv E. bind_inv E. by simplify_eq.
Qed.

Lemma elem_ok_array k sub : Forall (λ z, z ≠ 0) k → zlen (enc_doc sub) < 2 ^ 31 →
  elem_ok {| e_key := k; e_val := VArray (enc_doc sub) |}.
Proof.
  intros Hk Hl. split; [done|]. exists (enc_elems sub ++ [0]). split; [|done].
  by rewrite length_enc_doc.
Qed.

Lemma print_loop_ok f es o : printed f es o → ∀ fuel m b v1 v2 pre,
  (length (enc_elems es) < fuel)%nat → dec_rep m b pre (enc_elems es ++ [0]) →
  ∃ b', print_loop fuel f b v1 v2 = Some (o, b') ∧
        dec_rep m b' (pre ++ enc_elems es ++ [0]) [].
Proof.
  induction 1 as [|e es o os He Hb Ho _ IH|k sub es o os Hk Hl _ IHsub _ IH];
    intros [|fuel] m b v1 v2 pre Hf Hr; try (exfalso; lia); cbn [print_loop].
  - destruct (bson_deserialize_end m b v1 v2 pre Hr) as (b' & E & Hr').
    rewrite E. cbn [mbind option_bind]. simpl (0 =? 1). cbv iota. by exists b'.
  - rewrite enc_elems_cons, <-app_assoc in Hr.
    destruct (bson_deserialize_rep m b v1 v2 pre e _ Hr He) as (b1 & w1 & w2 & E & Hr1 & Ee).
    apply read_elem_split in Ee as [Ek Ev].
    rewrite E. cbn [mbind option_bind]. simpl (1 =? 1). cbv iota.
    rewrite (dr_buffer _ _ _ _ Hr1). cbn [deref mbind option_bind]. rewrite Ek.
    cbn [mbind option_bind].
    rewrite (print_value_ok _ f m w1 w2 _ o Ev) by (done || apply He). cbn [mbind option_bind].
    rewrite enc_elems_cons in Hf. autorewrite with len in Hf.
    destruct (IH fuel m b1 w1 w2 _ ltac:(lia) Hr1) as (b' & -> & Hr').
    cbn [mbind option_bind]. exists b'. split; [done|].
    by rewrite enc_elems_cons, <-!app_assoc in *.
  - set (e := {| e_key := k; e_val := VArray (enc_doc sub) |}) in *.
    rewrite enc_elems_cons, <-app_assoc in Hr.
    pose proof (elem_ok_array k sub Hk Hl) as He. fold e in He.
    destruct (bson_deserialize_rep m b v1 v2 pre e _ Hr He) as (b1 & w1 & w2 & E & Hr1 & Ee).
    apply read_elem_split in Ee as [Ek Ev].
    rewrite E. cbn [mbind option_bind]. simpl (1 =? 1). cbv iota.
    rewrite (dr_buffer _ _ _ _ Hr1). cbn [deref mbind option_bind]. rewrite Ek.
    cbn [mbind option_bind].
    pose proof (read_value_type _ _ _ _ Ev) as Ht.
    unfold print_value. unfold read_value in Ev. rewrite Ht in *. cbn [e e_val btype] in *.
    revert Ev. dispatch. intros Ev. apply fmap_Some in Ev as (d & Ed & Ex). simplify_eq.
    destruct (array_reader_ok m w2 sub Ed Hl) as (b2 & -> & Hr2). cbn [mbind option_bind].
    rewrite enc_elems_cons in Hf. autorewrite with len in Hf.
    assert (length (enc_doc sub) = length (enc_elems sub) + 5)%nat as Hls
      by (pose proof (length_enc_doc sub); lia).
    destruct (IHsub fuel _ b2 kv_indet kv_indet _ ltac:(cbn in Hf; lia) Hr2) as (b3 & -> & Hr3).
    cbn [mbind option_bind]. unfold bson_cleanup. rewrite (dr_buffer _ _ _ _ Hr3).
    cbn [cfree mbind option_bind].
    destruct (IH fuel m b1 w1 w2 _ ltac:(lia) Hr1) as (b' & -> & Hr').
    cbn [mbind option_bind]. exists b'. split; [done|].
    by rewrite enc_elems_cons, <-!app_assoc in *.
Qed.

Lemma bson_print_ok f es o fuel m b pre :
  printed f es o → (length (enc_elems es) < fuel)%nat →
  dec_rep m b pre (enc_elems es ++ [0]) →
  ∃ b', bson_print fuel f b = Some (braced f o, b', EXIT_SUCCESS) ∧
        dec_rep m b' (pre ++ enc_elems es ++ [0]) [].
Proof.
  intros Hp Hf Hr. unfold bson_print.
  destruct (print_loop_ok f es o Hp fuel m b kv_indet kv_indet pre Hf Hr) as (b' & -> & Hr').
  by exists b'.
Qed.

(** ** The printer *)

Lemma reusable_cleanup b : reusable b → bson_cleanup b = Some tt.
Proof. unfold reusable, bson_cleanup. by destruct (bi_buffer b). Qed.

Lemma printer_loop_ok docs os : Forall2 (printed Stdout) docs os →
  Forall (λ es, zlen (enc_doc es) < 2 ^ 31) docs → ∀ fuel b f pre,
  reusable b → f_data f = pre ++ concat (map enc_doc docs) → f_pos f = zlen pre →
  (length (concat (map enc_doc docs)) < fuel)%nat →
  ∃ b', printer_loop fuel b f = Some (concat (map (braced Stdout) os), b') ∧ reusable b'.
Proof.
  induction 1 as [|es o docs os Hp _ IH]; intros Hl [|fuel] b f pre Hb Hd Hpos Hf;
    try (exfalso; lia); cbn [printer_loop].
  - unfold bson_readf, fread. rewrite Hd, Hpos. simpl map. simpl concat.
    rewrite app_nil_r, Nat2Z.id, drop_all, take_nil. cbn. by eexists.
  - apply Forall_cons_1 in Hl as [Hes Hl]. cbn [map concat] in *.
    pose proof (length_enc_doc es) as Hle.
    destruct (bson_readf_ok b es f pre (concat (map enc_doc docs)) Hb Hd Hpos ltac:(lia))
      as (b1 & f1 & m & -> & Hr & Hd1 & Hp1).
    cbn [mbind option_bind]. simpl (1 =? 1). cbv iota. rewrite length_app in Hf.
    destruct (bson_print_ok Stdout es o (S fuel) m b1 [] Hp ltac:(lia) Hr) as (b2 & -> & Hr2).
    cbn [mbind option_bind].
    destruct (IH Hl fuel b2 f1 (pre ++ enc_doc es)) as (b3 & -> & Hb3).
    + by eapply dec_rep_reusable.
    + by rewrite Hd1, Hd, <-app_assoc.
    + rewrite Hp1, Hpos. len.
    + lia.
    + cbn [mbind option_bind]. by exists b3.
Qed.

(** ** Properties *)

(** C39: [bson_print] on a document of the grammar terminates and prints one
    entry for every element, in order: the key, the type, and the value for
    doubles, strings, booleans, dates and integers; binary data as a hex dump
    (on the standard output, whatever the stream); arrays, to any depth, as a
    document of their own. The reader is left behind the document. *)
Theorem bson_print_spec f es o fuel m b pre :
  printed f es o → (length (enc_elems es) < fuel)%nat →
  dec_rep m b pre (enc_elems es ++ [0]) →
  ∃ b', bson_print fuel f b = Some (braced f o, b', EXIT_SUCCESS) ∧
        dec_rep m b' (pre ++ enc_elems es ++ [0]) [].
Proof. apply bson_print_ok. Qed.

(** The printer on a file of documents: every document is read and printed,
    in order, and the result is 0. *)
Theorem printer_main_spec docs os fuel arg0 arg1 args fs :
  Forall2 (printed Stdout) docs os → Forall (λ es, zlen (enc_doc es) < 2 ^ 31) docs →
  fs arg1 = Some (concat (map enc_doc docs)) →
  (length (concat (map enc_doc docs)) < fuel)%nat →
  printer_main fuel (arg0 :: arg1 :: args) fs
  = Some (fprintf_blue Stdout
            (text "BSON Printer -- By: Wolfgang Richter <wolf@cs.cmu.edu>" ++ [NL]) ++
          fprintf_cyan Stdout (text "Analyzing BSON File: " ++ arg1 ++ [NL]) ++
          concat (map (braced Stdout) os), EXIT_SUCCESS).
Proof.
  intros Hp Hl Hfs Hf. unfold printer_main. rewrite Hfs.
  destruct bson_init_reusable as (b & -> & Hb). cbn [mbind option_bind].
  destruct (printer_loop_ok docs os Hp Hl fuel b (file_of (concat (map enc_doc docs))) [] Hb
              eq_refl eq_refl Hf) as (b' & -> & Hb').
  cbn [mbind option_bind]. by rewrite (reusable_cleanup b' Hb').
Qed.
End loop.

(** *** A document with an array *)

Definition witness_doc : list elem :=
  [{| e_key := str_bytes "n"; e_val := VInt32 (le_enc 4 7) |};
   {| e_key := str_bytes "a"; e_val := VArray (enc_doc
        [{| e_key := str_bytes "0"; e_val := VBoolean true |}]) |}].

Definition witness_output : output :=
  key_output Stdout (str_bytes "n") ++ fprintf Stdout (text "[BSON_INT32] 7" ++ [NL]) ++
  key_output Stdout (str_bytes "a") ++
  (fprintf Stdout (text "[BSON_ARRAY] ") ++
   braced Stdout (key_output Stdout (str_bytes "0") ++
     (fprintf Stdout (text "[BSON_BOOLEAN] ") ++ fprintf Stdout (text "true" ++ [NL])) ++ [])) ++ [].

Lemma witness_printed : printed Stdout witness_doc witness_output.
Proof.
  apply printed_value; [|done|reflexivity|].
  { split; [by repeat constructor|done]. }
  apply printed_array; [by repeat constructor|done| |constructor].
  apply printed_value; [|done|reflexivity|constructor].
  split; [by repeat constructor|done].
Qed.

Lemma bson_print_spec_witness :
  ∃ b', bson_print 100 Stdout (witness_info (enc_elems witness_doc ++ [0])
                                 (zlen (enc_elems witness_doc) + 1))
        = Some (braced Stdout witness_output, b', EXIT_SUCCESS) ∧
        dec_rep (enc_elems witness_doc ++ [0]) b' (enc_elems witness_doc ++ [0]) [].
Proof.
  apply (bson_print_spec Stdout witness_doc witness_output 100 _ _ []).
  - exact witness_printed.
  - apply Nat.ltb_lt. reflexivity.
  - split; [done|by exists []|done|done|done].
Defined.

Lemma printer_main_spec_witness :
  printer_main 200 [str_bytes "printer"; str_bytes "f"]
    (λ _, Some (concat (map enc_doc [witness_doc; witness_doc])))
  = Some (fprintf_blue Stdout
            (text "BSON Printer -- By: Wolfgang Richter <wolf@cs.cmu.edu>" ++ [NL]) ++
          fprintf_cyan Stdout (text "Analyzing BSON File: " ++ str_bytes "f" ++ [NL]) ++
          concat (map (braced Stdout) [witness_output; witness_output]), EXIT_SUCCESS).
Proof.
  apply (printer_main_spec [witness_doc; witness_doc]).
  - by do 2 (apply Forall2_cons; [exact witness_printed|]).
  - repeat constructor.
  - reflexivity.
  - apply Nat.ltb_lt. reflexivity.
Defined.
