(* ===== verification/BsonTest.v ===== *)
(** * src/bson/bson-test.c: the unit tests of the BSON library

    The two tests of the repository, as programs over the encoder and the
    decoder; an [assert] that fails has no result. [test_encoding] and
    [test_decoding] pass for every allocator that does not fail. *)
From S2P Require Import Prelude Words Memory Text Util Hexdump Bson BsonEncode BsonDecode BsonPrint.

(** ** Definitions *)

(** [assert(c)] *)
Definition assert_ (c : bool) : option unit := if c then Some tt else None.

Section tests.
Context `{Malloc}.

Definition test_bson_init : option bson_info :=
  b ← bson_init;
  _ ← assert_ (0 <? bi_size b);
  _ ← assert_ (bi_position b =? 0);
  _ ← assert_ (negb (is_null (bi_buffer b)));
  Some b.

Definition test_bson_cleanup (b : bson_info) : option unit := bson_cleanup b.

(** What the tests check after a call that writes: the sizes are kept in
    [int32_t] variables. *)
Definition test_written (old b : bson_info) : option unit :=
  let old_position := s32 (bi_position old) in
  let old_size := s32 (bi_size old) in
  _ ← assert_ (u64 old_size <=? bi_size b);
  _ ← assert_ (u64 old_position <? bi_position b);
  assert_ (negb (is_null (bi_buffer b))).

(** [serialize] is the call of [bson_serialize]. *)
Definition test_bson_serialize (b : bson_info) (v : bson_kv)
    (serialize : bson_info → option (bson_info * Z)) : option bson_info :=
  _ ← assert_ (negb (is_null (bi_buffer b)));
  _ ← assert_ (negb (cdata_null (kv_key v)));
  _ ← assert_ (negb (cdata_null (kv_data v)));
  '(b', _) ← serialize b;
  _ ← test_written b b';
  Some b'.

Definition test_bson_finalize (b : bson_info) : option bson_info :=
  _ ← assert_ (negb (is_null (bi_buffer b)));
  '(b', _) ← bson_finalize b;
  _ ← test_written b b';
  m ← deref (bi_buffer b');
  last ← mem_byte m (u64 (bi_position b' - 1));
  _ ← assert_ (last =? 0);
  total ← mem_le 4 m 0;
  _ ← assert_ (0 <=? s32 total);
  Some b'.

Definition test_bson_make_readable (b : bson_info) : option bson_info :=
  _ ← assert_ (negb (is_null (bi_buffer b)));
  let old_position := s32 (bi_position b) in
  '(b, _) ← bson_make_readable b;
  _ ← assert_ (bi_position b =? 4);
  _ ← assert_ (bi_size b =? u64 (old_position - 4));
  Some b.

Definition test_bson_deserialize (b : bson_info) (v1 v2 : bson_kv) :
    option (bson_info * bson_kv * bson_kv) :=
  _ ← assert_ (negb (is_null (bi_buffer b)));
  let old_position := s32 (bi_position b) in
  let old_size := s32 (bi_size b) in
  '(b, v1, v2, rc) ← bson_deserialize b v1 v2;
  _ ← assert_ (rc =? 1);
  _ ← assert_ (u64 old_position <? bi_position b);
  _ ← assert_ (bi_size b <? u64 old_size);
  Some (b, v1, v2).

(** [hexdump(bson->buffer, bson->position)]: the buffer is not changed. *)
Definition dump (b : bson_info) : option unit :=
  m ← deref (bi_buffer b); _ ← hexdump (Some m) (bi_position b); Some tt.

(** The values of the tests. 3.1415926 is the nearest [double]. *)
Definition val1d : list Z := le_enc 8 0x400921fb4d12d84a.
Definition val2i32 : Z := 37684.
Definition val3i64 : Z := 3768400.
Definition val4str : list Z := str_bytes "testerrrrrstring".
Definition val5bin : list Z := [0xff; 0xde; 0xad; 0xbe; 0xef; 0xff].

Definition test_kv (ty size : Z) (key : string) (data : cdata) : bson_kv :=
  {| kv_type := ty; kv_subtype := BSON_BINARY_GENERIC; kv_size := size;
     kv_key := DMem (cstr key); kv_data := data |}.

(** The members an initializer leaves out are zero. [val8.data] is the pointer
    [0xffff], not null and not to be used. *)
Definition test_values : list bson_kv :=
  [test_kv BSON_DOUBLE 0 "test1d" (DMem val1d);
   test_kv BSON_INT32 0 "test2i32" (DMem (le_enc 4 val2i32));
   test_kv BSON_INT64 0 "test3i64" (DMem (le_enc 8 val3i64));
   test_kv BSON_STRING (zlen val4str) "test4str" (DMem val4str);
   test_kv BSON_BINARY 6 "test5bin" (DMem val5bin);
   test_kv BSON_BOOLEAN 0 "test6true" (DMem [1]);
   test_kv BSON_BOOLEAN 0 "test7false" (DMem [0]);
   test_kv BSON_NULL 0 "test8NULL" (DOff 0xffff)].

Fixpoint test_serialize_all (b : bson_info) (vs : list bson_kv) : option bson_info :=
  match vs with
  | [] => Some b
  | v :: vs =>
      b ← test_bson_serialize b v (λ b, bson_serialize b v);
      _ ← dump b;
      test_serialize_all b vs
  end.

(** [bson_serialize(bson, &val9)] where [val9.data] is [bson] itself: the
    document copied is the buffer as it is behind the key. *)
Definition serialize_self (v : bson_kv) (b : bson_info) : option (bson_info * Z) :=
  '(b, _) ← check_size b 1;
  put_element b BSON_ARRAY (kv_key v) (λ b,
    checked b (s32 (bi_position b)) (λ b,
      m ← deref (bi_buffer b); d ← mem_read m 0 (bi_position b); put b d)).

Definition test_encoding : option unit :=
  b ← test_bson_init;
  b ← test_serialize_all b test_values;
  let val9 := test_kv BSON_ARRAY 0 "test9arrayself" (DDoc b) in
  b ← test_bson_serialize b val9 (serialize_self val9);
  _ ← dump b;
  b ← test_bson_finalize b;
  _ ← dump b;
  test_bson_cleanup b.

(** One block of [test_decoding]: an element is read, [check] tests its members,
    and [parsed] is the number of bytes it takes. *)
Definition decode_step (parsed : Z) (check : list Z → bson_kv → option bool)
    (s : bson_info * bson_kv * bson_kv) : option (bson_info * bson_kv * bson_kv) :=
  let '(b, v1, v2) := s in
  let old_position := bi_position b in
  let old_size := bi_size b in
  '(b, v1, v2) ← test_bson_deserialize b v1 v2;
  m ← deref (bi_buffer b);
  ok ← check m v1;
  _ ← assert_ ok;
  _ ← assert_ (bi_position b =? u64 (old_position + parsed));
  _ ← assert_ (bi_size b =? u64 (old_size - parsed));
  Some (b, v1, v2).

(** [strcmp(val.key, key) == 0] *)
Definition key_is (m : list Z) (v : bson_kv) (key : string) : option bool :=
  k ← kv_cstr m (kv_key v); Some (streq k (str_bytes key)).

(** [*((T* ) val.data) == x] and [strncmp(val.data, x, zlen x) == 0], on the
    bytes of [x], none of which is zero for the strings. *)
Definition data_is (m : list Z) (v : bson_kv) (x : list Z) : option bool :=
  d ← kv_read m (kv_data v) (zlen x); Some (streq d x).

Definition check_value (ty : Z) (key : string) (size : option Z) (x : option (list Z))
    (m : list Z) (v : bson_kv) : option bool :=
  k ← key_is m v key;
  d ← match x with None => Some true | Some x => data_is m v x end;
  Some ((kv_type v =? ty) && (match size with None => true | Some n => kv_size v =? n end) &&
        k && d).

Definition decode_steps : list (Z * (list Z → bson_kv → option bool)) :=
  [(1 + 6 + 1 + 8, check_value BSON_DOUBLE "test1d" None (Some val1d));
   (1 + 8 + 1 + 4, check_value BSON_INT32 "test2i32" None (Some (le_enc 4 val2i32)));
   (1 + 8 + 1 + 8, check_value BSON_INT64 "test3i64" None (Some (le_enc 8 val3i64)));
   (1 + 8 + 1 + zlen val4str + 1 + 4,
    check_value BSON_STRING "test4str" (Some (zlen val4str)) (Some val4str));
   (1 + 8 + 1 + 1 + 6 + 4, λ m v,
    ok ← check_value BSON_BINARY "test5bin" (Some 6) (Some val5bin) m v;
    Some (ok && (kv_subtype v =? BSON_BINARY_GENERIC)));
   (1 + 9 + 1 + 1, check_value BSON_BOOLEAN "test6true" (Some 1) (Some [1]));
   (1 + 10 + 1 + 1, check_value BSON_BOOLEAN "test7false" (Some 1) (Some [0]));
   (1 + 9 + 1, check_value BSON_NULL "test8NULL" (Some 0) None)].

Fixpoint run_steps (steps : list (Z * (list Z → bson_kv → option bool)))
    (s : bson_info * bson_kv * bson_kv) : option (bson_info * bson_kv * bson_kv) :=
  match steps with
  | [] => Some s
  | (parsed, check) :: steps => s ← decode_step parsed check s; run_steps steps s
  end.

Definition test_decoding : option unit :=
  b ← test_bson_init;
  b ← test_serialize_all b test_values;
  b ← test_bson_finalize b;
  _ ← dump b;
  b ← test_bson_make_readable b;
  '(b, v1, v2) ← run_steps decode_steps (b, kv_indet, kv_indet);
  let old_position := bi_position b in
  let old_size := bi_size b in
  '(b, _, _, rc) ← bson_deserialize b v1 v2;
  _ ← assert_ (rc =? 0);
  _ ← assert_ (bi_position b =? u64 (old_position + 1));
  _ ← assert_ (bi_size b =? u64 (old_size - 1));
  test_bson_cleanup b.

(** [main] *)
Definition bson_test_main : option Z :=
  _ ← test_encoding; _ ← test_decoding; Some EXIT_SUCCESS.
End tests.

(** ** Buffers never shrink *)

Create HintDb grow.

Definition grows (f : bson_info → option (bson_info * Z)) : Prop :=
  ∀ b b' rc, doubled (bi_size b) → f b = Some (b', rc) →
    bi_size b ≤ bi_size b' ∧ doubled (bi_size b').

Definition keeps_size (f : bson_info → option bson_info) : Prop :=
  ∀ b b', f b = Some b' → bi_size b' = bi_size b.

Section grows.
Context `{Malloc}.

Lemma check_size_grows added : grows (λ b, check_size b added).
Proof.
  intros b b' rc Hd E. unfold check_size in E.
  destruct (bi_size b <? u64 (bi_position b + added)); [|by simplify_eq].
  unfold resize in E. destruct (bi_buffer b); [by simplify_eq| |done].
  set (needed := s32 (u64 (bi_position b + added))) in E.
  pose proof (doubled_bounds _ Hd). rewrite !(swrap_small 32 (bi_size b)) in E by lia.
  bind_inv E. destruct (decide (needed ≤ 2 ^ 30)) as [Hn|Hn].
  - destruct (new_size_ok (bi_size b) needed Hd Hn) as (n & En & Hdn & _ & Hge & _).
    pose proof (doubled_bounds _ Hdn). do 3 bind_inv E. simplify_eq. cbn.
    by rewrite uwrap_small by lia.
  - destruct Hd as (j & Hj & Ej).
    assert (2 ^ j ≤ 2 ^ 30) by (apply Z.pow_le_mono_r; lia).
    rewrite Ej, <-(swrap_small 32 (2 ^ j)) in E0 by lia.
    by rewrite new_size_diverges_from in E0 by lia.
Qed.

Lemma put_keeps d : keeps_size (λ b, put b d).
Proof. intros b b' E. unfold put in E. do 2 bind_inv E. by simplify_eq. Qed.

Lemma keeps_bind {A} (o : option A) (f : A → bson_info → option bson_info) :
  (∀ x, keeps_size (f x)) → keeps_size (λ b, x ← o; f x b).
Proof. intros Hf b b' E. bind_inv E. by eapply Hf. Qed.

Lemma keeps_seq f g : keeps_size f → keeps_size g → keeps_size (λ b, b ← f b; g b).
Proof. intros Hf Hg b b' E. bind_inv E. rewrite (Hg _ _ E). by apply Hf. Qed.

Lemma checked_grows b b' rc added f :
  keeps_size f → doubled (bi_size b) → checked b added f = Some (b', rc) →
  bi_size b ≤ bi_size b' ∧ doubled (bi_size b').
Proof.
  intros Hf Hd E. unfold checked in E. bind_inv E. destruct x as [b1 rc1].
  destruct (check_size_grows added b b1 rc1 Hd E0) as [Hle Hd1].
  destruct (rc1 =? 0); [|by simplify_eq]. bind_inv E. simplify_eq.
  by rewrite (Hf _ _ E1).
Qed.

Lemma grows_bind f g : grows f → grows g → grows (λ b, '(b, _) ← f b; g b).
Proof.
  intros Hf Hg b b' rc Hd E. bind_inv E. destruct x as [b1 rc1].
  destruct (Hf _ _ _ Hd E0) as [Hle Hd1]. destruct (Hg _ _ _ Hd1 E). split; [lia|done].
Qed.

Lemma grows_get {A} (o : option A) f : (∀ x, grows (f x)) → grows (λ b, x ← o; f x b).
Proof. intros Hf b b' rc Hd E. bind_inv E. by eapply Hf. Qed.

Lemma grows_same rc : grows (λ b, Some (b, rc)).
Proof. intros b b' rc' Hd E. by simplify_eq. Qed.

Lemma grows_checked added f : keeps_size f → grows (λ b, checked b added f).
Proof. intros Hf b b' rc Hd E. by eapply checked_grows. Qed.

#[local] Hint Resolve put_keeps keeps_bind keeps_seq grows_bind grows_get grows_same grows_checked : grow.

Lemma serialize_cstring_grows p : grows (λ b, serialize_cstring b p).
Proof. unfold serialize_cstring. destruct (cdata_null p); auto 8 with grow. Qed.

Lemma serialize_string_grows len str : grows (λ b, serialize_string b len str).
Proof. unfold serialize_string. destruct len, str; auto 10 with grow. Qed.

Lemma serialize_raw_grows n p : grows (λ b, serialize_raw n b p).
Proof. unfold serialize_raw. destruct p; auto 8 with grow. Qed.

Lemma serialize_boolean_grows p : grows (λ b, serialize_boolean b p).
Proof. unfold serialize_boolean. auto 8 with grow. Qed.

Lemma serialize_document_grows p : grows (λ b, serialize_document b p).
Proof. unfold serialize_document. destruct p; auto 8 with grow. Qed.

Lemma serialize_binary_grows len st p : grows (λ b, serialize_binary b len st p).
Proof. unfold serialize_binary. destruct len, p; auto 10 with grow. Qed.

Lemma serialize_prefixed_grows data off : grows (serialize_prefixed data off).
Proof. unfold serialize_prefixed. auto 8 using serialize_string_grows with grow. Qed.

#[local] Hint Resolve serialize_cstring_grows serialize_string_grows serialize_raw_grows
  serialize_boolean_grows serialize_document_grows serialize_binary_grows
  serialize_prefixed_grows : grow.

Lemma put_grows d f : grows f → grows (λ b, b ← put b d; f b).
Proof.
  intros Hf b b' rc Hd E. bind_inv E. apply put_keeps in E0 as Es.
  rewrite <-Es in *. by eapply Hf.
Qed.

Lemma serialize_value_grows v : grows (serialize_value v).
Proof.
  unfold serialize_value, serialize_double, serialize_int32, serialize_int64, serialize_objectid.
  repeat match goal with |- context [if ?c then _ else _] => destruct c end;
    auto 8 with grow.
Qed.

Lemma put_element_grows ty key f : grows f → grows (λ b, put_element b ty key f).
Proof.
  intros Hf. apply put_grows, grows_bind; [auto with grow|].
  apply (grows_bind f (λ b, Some (b, EXIT_SUCCESS))); auto with grow.
Qed.

(** [bson_serialize] never makes the buffer smaller. *)
Lemma bson_serialize_grows v : grows (λ b, bson_serialize b v).
Proof.
  apply grows_bind; [apply check_size_grows|].
  destruct (known_type (kv_type v)); [|apply grows_same].
  apply put_element_grows, serialize_value_grows.
Qed.

Lemma serialize_self_grows v : grows (serialize_self v).
Proof.
  apply grows_bind; [apply check_size_grows|]. apply put_element_grows.
  intros b b' rc Hd E. eapply checked_grows; [|exact Hd|exact E].
  intros b1 b2 E1. do 2 bind_inv E1. exact (put_keeps _ _ _ E1).
Qed.

Lemma bson_finalize_grows : grows bson_finalize.
Proof.
  intros b b' rc Hd E. eapply checked_grows; [|exact Hd|exact E].
  intros b1 b2 E1. cbv zeta in E1. do 4 bind_inv E1. exact (put_keeps _ _ _ E1).
Qed.
End grows.

(** ** Writing *)

Lemma serialize_self_ok `{MallocTotal} v b c :
  enc_rep b c → kv_key v = DMem (cstr "test9arrayself") → zlen c ≤ 2 ^ 20 →
  let c' := c ++ BSON_ARRAY :: cstr "test9arrayself" in
  ∃ b', serialize_self v b = Some (b', EXIT_SUCCESS) ∧ enc_rep b' (c' ++ c').
Proof.
  intros Hr Hk Hl c'. unfold serialize_self.
  assert (zlen c' = zlen c + 16) as Hc.
  { unfold c'. rewrite length_app, Nat2Z.inj_add. done. }
  destruct (check_size_ok b c 1 Hr) as (b1 & -> & Hr1 & Hs1); [lia|unfold max_doc; lia|].
  cbn [mbind option_bind]. unfold put_element.
  destruct (put_ok b1 c [BSON_ARRAY] Hr1) as (b2 & -> & Hr2 & _); [simpl; lia|].
  cbn [mbind option_bind]. rewrite Hk.
  destruct (serialize_cstring_appends (DMem (cstr "test9arrayself")) (cstr "test9arrayself")
              (str_bytes "test9arrayself") [] eq_refl eq_refl eq_refl ltac:(by repeat constructor)
              b2 _ Hr2) as (b3 & -> & Hr3).
  { change (str_bytes "test9arrayself" ++ [0]) with (cstr "test9arrayself").
    rewrite length_app. change (length (cstr "test9arrayself")) with 15%nat.
    simpl (length [BSON_ARRAY]). unfold max_doc. lia. }
  cbn [mbind option_bind]. rewrite <-app_assoc in Hr3.
  change ([BSON_ARRAY] ++ str_bytes "test9arrayself" ++ [0])
    with (BSON_ARRAY :: cstr "test9arrayself") in Hr3. fold c' in Hr3.
  pose proof Hr3 as (rest & Hb & _ & _ & Hp). rewrite Hp, swrap_small by lia.
  unfold checked.
  destruct (check_size_ok b3 c' (zlen c') Hr3) as (b4 & -> & Hr4 & Hs4);
    [lia|unfold max_doc; lia|]. cbn [mbind option_bind]. simpl (EXIT_SUCCESS =? 0). cbv iota.
  pose proof Hr4 as (rest4 & Hb4 & _ & _ & Hp4). rewrite Hb4, Hp4. cbn [deref mbind option_bind].
  rewrite (mem_read_app [] c' rest4) by done. cbn [mbind option_bind].
  destruct (put_ok b4 c' c' Hr4 Hs4) as (b5 & -> & Hr5 & _).
  cbn [mbind option_bind]. by exists b5.
Qed.

(** The assertions after a write that appends something. *)
Lemma test_written_ok b b' c d : enc_rep b c → enc_rep b' (c ++ d) → d ≠ [] →
  bi_size b ≤ bi_size b' → test_written b b' = Some tt.
Proof.
  intros (r & Hb & Hs & Hd & Hp) (r' & Hb' & Hs' & Hd' & Hp') Hne Hle.
  pose proof (doubled_bounds _ Hd). pose proof (doubled_bounds _ Hd').
  assert (0 < zlen d) by (destruct d; [done|simpl; lia]).
  autorewrite with len in *. unfold test_written.
  rewrite Hp, Hp', Hb', !(swrap_small 32), !(uwrap_small 64) by lia.
  unfold assert_. do 2 case_test. done.
Qed.

Lemma test_bson_serialize_ok `{Malloc} b c d v f b' rc :
  enc_rep b c → enc_rep b' (c ++ d) → d ≠ [] → grows f → f b = Some (b', rc) →
  cdata_null (kv_key v) = false → cdata_null (kv_data v) = false →
  test_bson_serialize b v f = Some b'.
Proof.
  intros Hr Hr' Hd Hg E Hk Hv. unfold test_bson_serialize.
  pose proof Hr as (r & Hb & _ & Hdb & _). rewrite Hb, Hk, Hv, E. cbn.
  destruct (Hg _ _ _ Hdb E) as [Hle _]. by rewrite (test_written_ok _ _ _ _ Hr Hr' Hd Hle).
Qed.

(** Dumping what has been written so far. *)
Lemma dump_ok b c : enc_rep b c → bytes_ok c → dump b = Some tt.
Proof.
  intros (r & Hb & _ & _ & Hp) Hc. unfold dump. rewrite Hb, Hp. cbn [deref mbind option_bind].
  destruct (decide (zlen c = 0)) as [E|E].
  - rewrite E, hexdump_empty. done.
  - rewrite hexdump_lines by (done || lia). done.
Qed.

(** The values describe the elements, and have keys and data. *)
Definition test_encodes (v : bson_kv) (e : elem) : Prop :=
  kv_encodes v e ∧ cdata_null (kv_key v) = false ∧ cdata_null (kv_data v) = false.

Lemma test_serialize_all_ok `{MallocTotal} vs es : Forall2 test_encodes vs es → ∀ b c,
  enc_rep b c → zlen c + zlen (enc_elems es) ≤ max_doc → bytes_ok (c ++ enc_elems es) →
  ∃ b', test_serialize_all b vs = Some b' ∧ enc_rep b' (c ++ enc_elems es).
Proof.
  induction 1 as [|v e vs es (He & Hk & Hv) _ IH]; intros b c Hr Hl Hb.
  - exists b. by rewrite app_nil_r.
  - rewrite enc_elems_cons, app_assoc in *. cbn [test_serialize_all].
    rewrite length_app in Hl.
    destruct (serialize_element_appends v e He b c Hr) as (b1 & E1 & Hr1); [lia|].
    rewrite (test_bson_serialize_ok b c (enc_elem e) v (λ b, bson_serialize b v) b1 EXIT_SUCCESS
               Hr Hr1 ltac:(done) (bson_serialize_grows v) E1 Hk Hv).
    cbn [mbind option_bind]. rewrite (dump_ok b1 _ Hr1) by (by apply Forall_app in Hb as [? _]).
    cbn [mbind option_bind]. apply IH; [done| |done]. rewrite length_app. lia.
Qed.

Lemma test_bson_init_ok `{MallocTotal} : ∃ b, test_bson_init = Some b ∧ enc_rep b [].
Proof.
  destruct bson_init_rep as (b & E & Hr). unfold test_bson_init. rewrite E.
  pose proof Hr as (r & Hb & Hs & Hd & Hp). pose proof (doubled_bounds _ Hd).
  cbn [mbind option_bind]. rewrite Hb, Hp. unfold assert_. case_test. cbn. by exists b.
Qed.

Lemma test_bson_finalize_ok `{MallocTotal} b es :
  enc_rep b (enc_elems es) → zlen (enc_elems es) ≤ 2 ^ 20 →
  ∃ b', test_bson_finalize b = Some b' ∧ enc_rep b' (enc_doc es).
Proof.
  intros Hr Hl. pose proof Hr as (r & Hb & _ & Hd & Hp). unfold test_bson_finalize.
  destruct (bson_finalize_ok b es Hr) as (b' & E & Hr'); [unfold max_doc; lia|].
  rewrite Hb, E. cbn [is_null negb assert_ mbind option_bind].
  destruct (bson_finalize_grows _ _ _ Hd E) as [Hle _].
  pose proof (length_enc_doc es) as Hle'.
  pose proof Hr' as (r' & Hb' & Hs' & Hd' & Hp'). pose proof (doubled_bounds _ Hd').
  assert (test_written b b' = Some tt) as ->.
  { pose proof (doubled_bounds _ Hd). unfold test_written.
    rewrite Hp, Hp', Hb', !(swrap_small 32), !(uwrap_small 64) by lia.
    unfold assert_. do 2 case_test. done. }
  rewrite Hb', Hp', Hle', uwrap_small by lia. cbn [deref mbind option_bind].
  pose proof (mem_byte_app (le_enc 4 (zlen (enc_elems es) + 5) ++ enc_elems es) 0 r'
                (zlen (enc_elems es) + 5 - 1) ltac:(len)) as Hlast.
  rewrite <-app_assoc in Hlast. unfold enc_doc. rewrite <-!app_assoc. cbn [app] in *.
  rewrite Hlast. cbn [mbind option_bind].
  pose proof (mem_le_app 4 [] (zlen (enc_elems es) + 5) (enc_elems es ++ 0 :: r') 0 eq_refl) as R.
  rewrite app_nil_l in R. simpl (0 =? 0). cbn [assert_ mbind option_bind]. rewrite R.
  cbn [mbind option_bind]. rewrite Z.mod_small, swrap_small by lia.
  unfold assert_. case_test. cbn. by exists b'.
Qed.

Lemma test_make_readable_ok b es : enc_rep b (enc_doc es) → zlen (enc_elems es) ≤ 2 ^ 20 →
  ∃ b' m, test_bson_make_readable b = Some b' ∧ zlen m < 2 ^ 31 ∧
    dec_rep m b' (le_enc 4 (zlen (enc_doc es))) (enc_elems es ++ [0]).
Proof.
  intros (r & Hb & Hs & Hd & Hp) Hl. pose proof (length_enc_doc es) as Hle.
  pose proof (doubled_bounds _ Hd). unfold test_bson_make_readable, bson_make_readable.
  rewrite Hb. cbn [is_null negb assert_ mbind option_bind orb deref].
  destruct (Z.ltb_spec (bi_size b) 5); [lia|]. cbn [mbind option_bind].
  pose proof (mem_le_app 4 [] (zlen (enc_elems es) + 5) (enc_elems es ++ [0] ++ r) 0 eq_refl) as R.
  rewrite app_nil_l in R. unfold enc_doc at 1. rewrite <-!app_assoc, R.
  cbn [mbind option_bind set_position set_size bi_position bi_size].
  rewrite Hp, Hle, Z.mod_small, !(swrap_small 32), Z.eqb_refl by lia.
  rewrite Z.eqb_refl. cbn [assert_ mbind option_bind].
  eexists _, (enc_doc es ++ r). split; [reflexivity|]. split; [lia|].
  split; cbn; [done| | | |lia].
  - exists r. unfold enc_doc. by rewrite <-!app_assoc.
  - by rewrite length_le_enc.
  - rewrite uwrap_small by lia. len.
Qed.

(** ** Reading *)

Lemma check_value_ok ty key size x m v :
  kv_type v = ty → kv_cstr m (kv_key v) = Some (str_bytes key) →
  (∀ n, size = Some n → kv_size v = n) →
  (∀ d, x = Some d → kv_read m (kv_data v) (zlen d) = Some d) →
  check_value ty key size x m v = Some true.
Proof.
  intros Ht Hk Hs Hx. unfold check_value, key_is, data_is, streq. rewrite Hk, Ht.
  cbn [mbind option_bind]. rewrite Z.eqb_refl, bool_decide_true by done.
  destruct x as [d|].
  - rewrite (Hx d eq_refl). cbn [mbind option_bind]. rewrite bool_decide_true by done.
    destruct size as [n|]; [rewrite (Hs n eq_refl), Z.eqb_refl|]; done.
  - cbn [mbind option_bind].
    destruct size as [n|]; [rewrite (Hs n eq_refl), Z.eqb_refl|]; done.
Qed.

(** [check] accepts what the decoder makes of the element [e]. *)
Definition accepts (check : list Z → bson_kv → option bool) (e : elem) : Prop :=
  ∀ m b v1 v2 pre rest, dec_rep m b pre (enc_elem e ++ rest) →
    ∃ b' v1' v2', bson_deserialize b v1 v2 = Some (b', v1', v2', 1) ∧
      dec_rep m b' (pre ++ enc_elem e) rest ∧ check m v1' = Some true.

(** Members that [read_elem] determines. *)
Lemma accepts_read check e : elem_ok e →
  (∀ m v v2, kv_type v = btype (e_val e) → kv_cstr m (kv_key v) = Some (e_key e) →
     read_value m v v2 = Some (e_val e) → check m v = Some true) → accepts check e.
Proof.
  intros He Hc m b v1 v2 pre rest Hr.
  destruct (bson_deserialize_rep m b v1 v2 pre e rest Hr He) as (b' & v1' & v2' & E & Hr' & Ee).
  apply read_elem_split in Ee as [Ek Ev]. exists b', v1', v2'. split; [done|]. split; [done|].
  apply (Hc m v1' v2'); [by eapply read_value_type|done|done].
Qed.

(** The raw bytes behind a value. *)
Ltac raw_value :=
  let Ht := fresh "Ht" in let E := fresh "E" in
  intros m v v2 Ht Hk E; unfold read_value in E; rewrite Ht in E; cbv [e_val btype] in *;
  revert E; dispatch; intros E;
  let d := fresh "d" in let Ed := fresh "Ed" in let Ex := fresh "Ex" in
  apply fmap_Some in E as (d & Ed & Ex).

(** A boolean and a null leave the size of their value. *)
Lemma accepts_boolean key z : z = 0 ∨ z = 1 → Forall (λ z, z ≠ 0) (str_bytes key) →
  accepts (check_value BSON_BOOLEAN key (Some 1) (Some [z]))
    {| e_key := str_bytes key; e_val := VBoolean (negb (z =? 0)) |}.
Proof.
  intros Hz Hk m b v1 v2 pre rest Hr.
  assert (enc_elem {| e_key := str_bytes key; e_val := VBoolean (negb (z =? 0)) |}
          = BSON_BOOLEAN :: str_bytes key ++ [0; z]) as Ee by (by destruct Hz as [-> | ->]).
  rewrite Ee in *. cbn [app] in Hr. rewrite <-app_assoc in Hr. cbn [app] in Hr.
  destruct (bson_deserialize_head m b v1 v2 _ _ _ _ Hr Hk) as (b1 & w & E & Hr1 & Ht & _ & Hkey).
  change (z :: rest) with ([z] ++ rest) in Hr1.
  destruct (deserialize_fixed_rep m b1 w _ [z] rest 1 Hr1 eq_refl) as (b2 & o & E2 & Hr2 & Ho).
  unfold deserialize_value in E. revert E. dispatch. rewrite E2. intros E.
  do 3 eexists. split; [exact E|]. split.
  - rewrite <-app_assoc in Hr2. cbn [app] in Hr2. by rewrite <-app_assoc in Hr2.
  - apply check_value_ok; [done|done|by intros n [= <-]|].
    intros d [= <-]. exact Ho.
Qed.

Lemma accepts_null key : Forall (λ z, z ≠ 0) (str_bytes key) →
  accepts (check_value BSON_NULL key (Some 0) None) {| e_key := str_bytes key; e_val := VNull |}.
Proof.
  intros Hk m b v1 v2 pre rest Hr. unfold enc_elem in Hr. cbn [e_val e_key btype enc_val] in Hr.
  cbn [app] in Hr. rewrite <-app_assoc in Hr. cbn [app] in Hr.
  destruct (bson_deserialize_head m b v1 v2 _ _ _ _ Hr Hk) as (b1 & w & E & Hr1 & Ht & Hs & Hkey).
  do 3 eexists. split; [exact E|]. split; [done|].
  apply check_value_ok; [done|done|by intros n [= <-]|done].
Qed.

Lemma decode_step_ok m b v1 v2 pre e rest parsed check :
  dec_rep m b pre (enc_elem e ++ rest) → zlen m < 2 ^ 31 → accepts check e →
  parsed = zlen (enc_elem e) →
  ∃ b' v1' v2', decode_step parsed check (b, v1, v2) = Some (b', v1', v2') ∧
    dec_rep m b' (pre ++ enc_elem e) rest.
Proof.
  intros Hr Hm Hc ->. destruct (Hc m b v1 v2 pre rest Hr) as (b' & v1' & v2' & E & Hr' & Ek).
  exists b', v1', v2'. split; [|done]. pose proof Hr as [Hb [post Es] Hp Hs _].
  pose proof Hr' as [Hb' _ Hp' Hs' _]. rewrite Es in Hm.
  assert (0 < zlen (enc_elem e)) by (unfold enc_elem; simpl; lia).
  unfold decode_step, test_bson_deserialize. rewrite Hb. cbn [is_null negb assert_ mbind option_bind].
  rewrite E. cbn [mbind option_bind]. rewrite Hp, Hs, Hp', Hs'.
  rewrite !length_app, !Nat2Z.inj_add in *.
  rewrite !(swrap_small 32), !(uwrap_small 64) by lia. simpl (1 =? 1).
  destruct (Z.ltb_spec (zlen pre) (zlen pre + zlen (enc_elem e))); [|lia].
  destruct (Z.ltb_spec (zlen rest) (zlen (enc_elem e) + zlen rest)); [|lia].
  cbn [assert_ mbind option_bind]. rewrite Hb'. cbn [deref mbind option_bind].
  rewrite Ek. cbn [assert_ mbind option_bind]. rewrite Hp', Hs'.
  destruct (Z.eqb_spec (zlen pre + zlen (enc_elem e)) (zlen pre + zlen (enc_elem e))); [|lia].
  destruct (Z.eqb_spec (zlen rest) (zlen (enc_elem e) + zlen rest - zlen (enc_elem e))); [|lia].
  done.
Qed.

Definition step_ok (step : Z * (list Z → bson_kv → option bool)) (e : elem) : Prop :=
  step.1 = zlen (enc_elem e) ∧ accepts step.2 e.

Lemma run_steps_ok steps es : Forall2 step_ok steps es → ∀ m b v1 v2 pre rest,
  dec_rep m b pre (enc_elems es ++ rest) → zlen m < 2 ^ 31 →
  ∃ b' v1' v2', run_steps steps (b, v1, v2) = Some (b', v1', v2') ∧
    dec_rep m b' (pre ++ enc_elems es) rest.
Proof.
  induction 1 as [|[parsed check] e steps es [Hp Hc] _ IH]; intros m b v1 v2 pre rest Hr Hm.
  - exists b, v1, v2. split; [done|]. by rewrite app_nil_r.
  - rewrite enc_elems_cons, <-app_assoc in Hr. cbn [run_steps].
    destruct (decode_step_ok m b v1 v2 pre e _ parsed check Hr Hm Hc Hp)
      as (b1 & w1 & w2 & -> & Hr1).
    cbn [mbind option_bind]. rewrite enc_elems_cons, app_assoc. by apply IH.
Qed.

(** ** The tests pass *)

Definition test_elems : list elem :=
  [{| e_key := str_bytes "test1d"; e_val := VDouble val1d |};
   {| e_key := str_bytes "test2i32"; e_val := VInt32 (le_enc 4 val2i32) |};
   {| e_key := str_bytes "test3i64"; e_val := VInt64 (le_enc 8 val3i64) |};
   {| e_key := str_bytes "test4str"; e_val := VString val4str |};
   {| e_key := str_bytes "test5bin"; e_val := VBinary 0 val5bin |};
   {| e_key := str_bytes "test6true"; e_val := VBoolean true |};
   {| e_key := str_bytes "test7false"; e_val := VBoolean false |};
   {| e_key := str_bytes "test8NULL"; e_val := VNull |}].

(** A closed property of bytes. *)
Ltac bytes := apply (bool_decide_unpack _); vm_compute; exact I.

Lemma test_values_encode : Forall2 test_encodes test_values test_elems.
Proof.
  unfold test_values, test_elems.
  repeat (apply Forall2_cons; [split; [split; [done|split; [by exists []|split; [bytes|]]]|done]|]);
    [..|constructor]; cbn [e_val data_encodes test_kv kv_data kv_size kv_subtype].
  - split; [done|by exists []].
  - split; [done|by exists []].
  - split; [done|by exists []].
  - split; [done|]. exists []. by rewrite app_nil_r.
  - split; [done|]. split; [done|]. by exists [].
  - by exists 1, [].
  - by exists 0, [].
  - done.
Qed.

Lemma test_elem_ok k x : bool_decide (Forall (λ z, z ≠ 0) k) = true → val_ok x →
  elem_ok {| e_key := k; e_val := x |}.
Proof. intros Hk Hx. split; [by apply bool_decide_eq_true in Hk|done]. Qed.

(** The first five steps, by what [read_elem] says of the members. *)
Ltac read_step :=
  apply accepts_read; [apply test_elem_ok; [reflexivity|done]|];
  raw_value.

Lemma decode_steps_ok : Forall2 step_ok decode_steps test_elems.
Proof.
  unfold decode_steps, test_elems.
  repeat (apply Forall2_cons; [split; [reflexivity|cbn [snd]]|]); [..|constructor].
  - read_step. injection Ex as <-. apply check_value_ok; [done|done|done|].
    intros x [= <-]. exact Ed.
  - read_step. injection Ex as <-. apply check_value_ok; [done|done|done|].
    intros x [= <-]. exact Ed.
  - read_step. injection Ex as <-. apply check_value_ok; [done|done|done|].
    intros x [= <-]. exact Ed.
  - read_step. injection Ex as <-. destruct (kv_read_split _ _ _ _ Ed) as (_ & _ & _ & _ & Hn).
    rewrite Hn in Ed. apply check_value_ok; [done|done|by intros n [= <-]|].
    intros x [= <-]. exact Ed.
  - read_step. injection Ex as Est <-. destruct (kv_read_split _ _ _ _ Ed) as (_ & _ & _ & _ & Hn).
    rewrite Hn in Ed. rewrite check_value_ok; [|done|done|by intros n [= <-]|].
    + destruct v. cbn in *. by subst.
    + intros x [= <-]. exact Ed.
  - apply (accepts_boolean "test6true" 1); [by right|bytes].
  - apply (accepts_boolean "test7false" 0); [by left|bytes].
  - apply accepts_null. bytes.
Qed.

Section pass.
Context `{MallocTotal}.

Lemma test_elems_size : zlen (enc_elems test_elems) = 136.
Proof. reflexivity. Qed.

Lemma test_elems_bytes : bytes_ok (enc_elems test_elems).
Proof. bytes. Qed.

(** Both tests start by writing the eight values. *)
Lemma test_values_written : ∃ b b',
  test_bson_init = Some b ∧ test_serialize_all b test_values = Some b' ∧
  enc_rep b' (enc_elems test_elems).
Proof.
  destruct test_bson_init_ok as (b & E & Hr).
  destruct (test_serialize_all_ok _ _ test_values_encode b [] Hr) as (b' & E' & Hr').
  - rewrite test_elems_size. done.
  - exact test_elems_bytes.
  - by exists b, b'.
Qed.

(** The array that holds a copy of the buffer as it is behind its key. *)
Definition self_elem : elem :=
  {| e_key := str_bytes "test9arrayself";
     e_val := VArray (enc_elems test_elems ++ BSON_ARRAY :: cstr "test9arrayself") |}.

Lemma test_encoding_ok : test_encoding = Some tt.
Proof.
  destruct test_values_written as (b & b1 & E & E1 & Hr1). unfold test_encoding.
  rewrite E. cbn [mbind option_bind]. rewrite E1. cbn [mbind option_bind].
  set (v := test_kv BSON_ARRAY 0 "test9arrayself" (DDoc b1)).
  destruct (serialize_self_ok v b1 _ Hr1 eq_refl) as (b2 & E2 & Hr2); [by rewrite test_elems_size|].
  assert (enc_rep b2 (enc_elems test_elems ++ enc_elem self_elem)) as Hr2' by exact Hr2.
  rewrite (test_bson_serialize_ok b1 _ (enc_elem self_elem) v _ b2 EXIT_SUCCESS Hr1 Hr2'
             ltac:(done) (serialize_self_grows v) E2 eq_refl eq_refl).
  cbn [mbind option_bind]. rewrite (dump_ok b2 _ Hr2') by bytes. cbn [mbind option_bind].
  assert (enc_rep b2 (enc_elems (test_elems ++ [self_elem]))) as Hr3 by exact Hr2.
  destruct (test_bson_finalize_ok b2 _ Hr3) as (b3 & -> & Hr4); [vm_compute; done|].
  cbn [mbind option_bind]. rewrite (dump_ok b3 _ Hr4) by bytes. cbn [mbind option_bind].
  destruct Hr4 as (r & Hb & _). unfold test_bson_cleanup, bson_cleanup. by rewrite Hb.
Qed.

Lemma test_decoding_ok : test_decoding = Some tt.
Proof.
  destruct test_values_written as (b & b1 & E & E1 & Hr1). unfold test_decoding.
  rewrite E. cbn [mbind option_bind]. rewrite E1. cbn [mbind option_bind].
  destruct (test_bson_finalize_ok b1 _ Hr1) as (b2 & -> & Hr2); [by rewrite test_elems_size|].
  cbn [mbind option_bind]. rewrite (dump_ok b2 _ Hr2) by bytes. cbn [mbind option_bind].
  destruct (test_make_readable_ok b2 _ Hr2) as (b3 & m & -> & Hm & Hr3);
    [by rewrite test_elems_size|]. cbn [mbind option_bind].
  destruct (run_steps_ok _ _ decode_steps_ok m b3 kv_indet kv_indet _ [0] Hr3 Hm)
    as (b4 & w1 & w2 & -> & Hr4). cbn [mbind option_bind].
  destruct (bson_deserialize_end m b4 w1 w2 _ Hr4) as (b5 & -> & Hr5). cbn [mbind option_bind].
  destruct Hr4 as [_ _ Hp4 Hs4 _]. destruct Hr5 as [Hb5 [post Em] Hp5 Hs5 Hm5].
  rewrite Em in Hm. rewrite !length_app in *. simpl (length [0]) in *. simpl (length []) in *.
  rewrite Hp4, Hs4, Hp5, Hs5, uwrap_small by lia.
  change (u64 (Z.of_nat 1 - 1)) with 0. simpl (Z.of_nat 0 =? 0). simpl (0 =? 0).
  rewrite (proj2 (Z.eqb_eq _ _)) by lia. cbn [assert_ mbind option_bind].
  unfold test_bson_cleanup, bson_cleanup. by rewrite Hb5.
Qed.

(** The test program of the repository passes, whatever the allocator
    returns: the encoder's buffer never shrinks and every value written is read
    back with the same type, key, size and bytes, consuming exactly its bytes. *)
Theorem bson_test_passes : bson_test_main = Some EXIT_SUCCESS.
Proof. unfold bson_test_main. by rewrite test_encoding_ok, test_decoding_ok. Qed.
End pass.

Lemma bson_test_passes_witness : @bson_test_main malloc_zero = Some EXIT_SUCCESS.
Proof. apply bson_test_passes. Defined.
