(* ===== verification/PartTable.v ===== *)
(** * src/include/gray-crawler.h: partition tables, partitions, file systems

    The structs the crawler passes around and the tables of operations
    ([struct gray_fs_pt_crawler], [struct gray_fs_crawler]) a partition table
    format and a file system implement; Mbr, Gpt and Ext4 are such
    implementations and Crawler is the client. *)
From S2P Require Import Prelude Words Memory Struct Stdio Bitarray Bson BsonEncode BsonFields.

#[global] Open Scope string_scope.
#[global] Open Scope list_scope.
#[global] Open Scope Z_scope.

Definition SECTOR_SIZE : Z := 512.

Record pt := { pt_info : cptr }.

Record pte := { pt_num : Z; pt_off : Z; pte_info : cptr }.

Record fs := { fs_pte : Z; fs_pt_off : Z; icache : cptr; bcache : cptr;
               fs_info : cptr; fs_bits : bitarray }.

(** A local [struct pte] before its first assignment. *)
Definition pte_indet `{Malloc} : pte :=
  {| pt_num := indeterminate; pt_off := indeterminate; pte_info := PNull |}.

(** [fs->fs_info = p] *)
Definition set_fs_info (p : cptr) (f : fs) : fs :=
  {| fs_pte := fs_pte f; fs_pt_off := fs_pt_off f; icache := icache f;
     bcache := bcache f; fs_info := p; fs_bits := fs_bits f |}.

(** [struct gray_fs_pt_crawler]; the functions keep their own static variables,
    of type [pc_static]. *)
Record gray_fs_pt_crawler := {
  pc_static : Type;
  pc_init : pc_static;
  pc_probe : FILE → option (FILE * pt * Z);
  pc_serialize_pt : pt → bitarray → FILE → option (bitarray * FILE * Z);
  pc_serialize_pte : pte → FILE → option (FILE * Z);
  pc_get_next_partition : pc_static → pt → pte → option (pc_static * pte * bool);
  pc_cleanup_pt : pt → option unit;
  pc_cleanup_pte : pte → option pte;
}.

(** The loop of [main] that asks for the next partition until there is none;
    [fuel] bounds the number of partitions. *)
Fixpoint partitions `{Malloc} (pc : gray_fs_pt_crawler) (fuel : nat)
    (st : pc_static pc) (p : pt) : option (list pte * pc_static pc) :=
  match fuel with
  | O => None
  | S fuel =>
      '(st, e, more) ← pc_get_next_partition pc st p pte_indet;
      if more : bool then '(es, st) ← partitions pc fuel st p; Some (e :: es, st)
      else Some ([], st)
  end.

(** ** Members of packed structs as BSON fields *)

Lemma fbytes_le_enc L f m o n :
  bytes_ok m → offset_of L f = Some (o, n) → (o + n ≤ length m)%nat →
  fbytes L f m = le_enc n (fget L f m).
Proof.
  intros Hm E Hl. unfold fget, fbytes. rewrite E.
  rewrite le_enc_dec; [done|by apply Forall_take_drop|].
  rewrite length_take, length_drop. lia.
Qed.

(** A member of four or more bytes behind a [BSON_INT32] pointer. *)
Lemma encodes_member L f m o n v key :
  key_ok key = true →
  bytes_ok m → offset_of L f = Some (o, 4 + n)%nat → (o + (4 + n) ≤ length m)%nat →
  kv_encodes (fill_mem BSON_INT32 key (fbytes L f m) v)
    (e_int32 key (fget L f m)).
Proof.
  intros Hk Hm E Hl. rewrite (fbytes_le_enc L f m o (4 + n)) by done.
  apply kv_encodes_intro; [done..|]. split; [by rewrite length_le_enc|].
  eexists. by rewrite (le_enc_app 4 n).
Qed.
