(* ===== verification/Mbr.v ===== *)
(** * src/gray-crawler/mbr/mbr.c: the master boot record

    The boot sector is its 512 bytes; the counter of [mbr_get_next_partition]
    is a static variable, passed explicitly. Printing is in [PtPrint]. *)
From S2P Require Import Prelude Words Memory Struct Stdio Bitarray Bson BsonEncode BsonDecode BsonFields PartTable.

(** ** Definitions *)

Definition mbr_partition_table_entry : layout :=
  [("status", 1%nat); ("start_chs", 3%nat); ("partition_type", 1%nat);
   ("end_chs", 3%nat); ("first_sector_lba", 4%nat); ("sector_count", 4%nat)].

Definition disk_mbr : layout :=
  [("code", 440%nat); ("disk_signature", 4%nat); ("reserved", 2%nat);
   ("pt", 64%nat); ("signature", 2%nat)].

(** [&mbr->pt[i]], 16 bytes *)
Definition mbr_entry (mbr : list Z) (i : Z) : option (list Z) :=
  mem_read (fbytes disk_mbr "pt" mbr) (16 * i) 16.

Definition partition_type (e : list Z) : Z := fget mbr_partition_table_entry "partition_type" e.
Definition first_sector_lba (e : list Z) : Z :=
  fget mbr_partition_table_entry "first_sector_lba" e.
Definition sector_count (e : list Z) : Z := fget mbr_partition_table_entry "sector_count" e.

Definition get_sector (byte : Z) : Z := Z.land 0x3f byte.

Definition get_cylinder (b1 b2 : Z) : Z := Z.lor (Z.shiftl (Z.land b1 0xc0) 2) b2.

(** [SECTOR_SIZE*lba]: an [int] times a [uint32_t] *)
Definition lba_bytes (lba : Z) : Z := u32 (SECTOR_SIZE * lba).

Definition mbr_partition_offset (mbr : list Z) (i : Z) : option Z :=
  e ← mbr_entry mbr i;
  let ty := partition_type e in
  if ty =? 0x83 then Some (lba_bytes (first_sector_lba e))
  else if ty =? 0x05 then Some (lba_bytes (first_sector_lba e))
  else if ty =? 0x07 then Some (lba_bytes (first_sector_lba e))
  else if ty =? 0x0b then Some (lba_bytes (first_sector_lba e))
  else if ty =? 0x8e then Some (lba_bytes (first_sector_lba e))
  else Some 0.

Section mbr.
Context `{Malloc}.

(** Writing through the null pointer a failed allocation returns is undefined. *)
Definition mbr_probe (disk : FILE) : option (FILE * pt * Z) :=
  m ← deref (cmalloc (Z.of_nat (sizeof disk_mbr)));
  let '(disk, d) := fread disk (Z.of_nat (sizeof disk_mbr)) in
  m ← mem_write m 0 d;
  let p := {| pt_info := PLive m |} in
  if zlen d <? Z.of_nat (sizeof disk_mbr) then Some (disk, p, -1) else
  if negb (bool_decide (fbytes disk_mbr "signature" m = [0x55; 0xaa]))
  then Some (disk, p, -1) else Some (disk, p, 0).

Definition mbr_cleanup_pt (p : pt) : option unit :=
  _ ← (if is_null (pt_info p) then Some PNull else cfree (pt_info p)); Some tt.

Definition mbr_cleanup_pte (p : pte) : option pte :=
  if is_null (pte_info p) then Some p else
  q ← cfree (pte_info p);
  Some {| pt_num := pt_num p; pt_off := pt_off p; pte_info := q |}.

Definition mbr_serialize_pt (p : pt) (bits : bitarray) (f : FILE) :
    option (bitarray * FILE * Z) :=
  mbr ← deref (pt_info p);
  e0 ← mbr_entry mbr 0;
  let has_gpt := partition_type e0 =? 0xee in
  let sector := 0 in
  bits ← bitarray_set_bit bits sector;
  '(f, ret) ← write_document
    [fill_str "type" 3 (cstr "mbr");
     fill_mem BSON_BOOLEAN "gpt" [if has_gpt then 1 else 0];
     fill_mem BSON_INT32 "sector" (le_enc 4 sector)] f;
  Some (bits, f, ret).

Definition mbr_get_next_partition (pte_num : Z) (p : pt) (out : pte) :
    option (Z * pte * bool) :=
  mbr ← deref (pt_info p);
  let entry := cmalloc (Z.of_nat (sizeof mbr_partition_table_entry)) in
  if pte_num <? 4 then
    e ← deref entry;
    src ← mbr_entry mbr pte_num;
    e ← mem_write e 0 src;
    Some (pte_num + 1,
          {| pt_num := pte_num; pt_off := lba_bytes (first_sector_lba e);
             pte_info := PLive e |}, true)
  else
    _ ← cfree entry;
    Some (pte_num, out, false).

Definition mbr_serialize_pte (p : pte) (f : FILE) : option (FILE * Z) :=
  e ← deref (pte_info p);
  let final_sector := s32 (u32 (first_sector_lba e + sector_count e)) in
  write_document
    [fill_str "type" 9 (cstr "partition");
     fill_mem BSON_INT32 "pte_num" (le_enc 8 (pt_num p));
     fill_mem BSON_INT32 "partition_type" (le_enc 4 (partition_type e));
     fill_mem BSON_INT32 "first_sector_lba"
       (fbytes mbr_partition_table_entry "first_sector_lba" e);
     fill_mem BSON_INT32 "final_sector_lba" (le_enc 4 final_sector)] f.

Definition mbr_crawler : gray_fs_pt_crawler :=
  {| pc_static := Z; pc_init := 0; pc_probe := mbr_probe;
     pc_serialize_pt := mbr_serialize_pt; pc_serialize_pte := mbr_serialize_pte;
     pc_get_next_partition := mbr_get_next_partition;
     pc_cleanup_pt := mbr_cleanup_pt; pc_cleanup_pte := mbr_cleanup_pte |}.
End mbr.

(** ** Lemmas *)

(** The [i]-th entry of a boot sector. *)
Definition pt_entry (m : list Z) (i : nat) : list Z := take 16 (drop (446 + 16 * i) m).

Lemma mbr_entry_pt m i :
  length m = 512%nat → (i < 4)%nat → mbr_entry m (Z.of_nat i) = Some (pt_entry m i).
Proof.
  intros E Hi. unfold mbr_entry. rewrite (fbytes_read _ _ _ 446 64) by (done || lia).
  unfold pt_entry. do 3 f_equal. lia.
Qed.

Lemma length_pt_entry m i : length m = 512%nat → (i < 4)%nat → length (pt_entry m i) = 16%nat.
Proof. intros E Hi. unfold pt_entry. len. Qed.

Lemma pt_entry_ok m i : bytes_ok m → bytes_ok (pt_entry m i).
Proof. intros. by apply Forall_take_drop. Qed.

Lemma lba_bytes_exact lba : 0 ≤ lba < 2 ^ 23 → lba_bytes lba = 512 * lba.
Proof. intros. unfold lba_bytes, SECTOR_SIZE. by rewrite uwrap_small by lia. Qed.

(** The partition the [i]-th entry describes, as the crawler reports it. *)
Definition entry_pte (m : list Z) (i : nat) : pte :=
  {| pt_num := Z.of_nat i; pt_off := lba_bytes (first_sector_lba (pt_entry m i));
     pte_info := PLive (pt_entry m i) |}.

Section lemmas.
Context `{MallocTotal}.

Lemma next_partition_entry m i out :
  length m = 512%nat → (i < 4)%nat →
  mbr_get_next_partition (Z.of_nat i) {| pt_info := PLive m |} out
  = Some (Z.of_nat i + 1, entry_pte m i, true).
Proof.
  intros E Hi. unfold mbr_get_next_partition. cbn [deref pt_info].
  rewrite (bind_Some_eq _ _ _ eq_refl).
  destruct (cmalloc_live 16) as (e & Ee & He); [lia|].
  change (Z.of_nat (sizeof mbr_partition_table_entry)) with 16. rewrite Ee.
  case_test. rewrite mbr_entry_pt by done. simpl.
  pose proof (mem_write_app [] e (pt_entry m i) [] 0 eq_refl) as W.
  simpl in W. rewrite !app_nil_r in W. rewrite W; [done|].
  rewrite length_pt_entry by done. lia.
Qed.

Lemma next_partition_none p m out :
  pt_info p = PLive m → mbr_get_next_partition 4 p out = Some (4, out, false).
Proof.
  intros E. unfold mbr_get_next_partition. rewrite E. simpl.
  destruct (cmalloc_live 16) as (e & Ee & He); [lia|].
  change (Z.of_nat 16) with 16. by rewrite Ee.
Qed.
End lemmas.

(** ** Properties *)

(** [mbr_probe] reads one sector at the stream's position and accepts it
    exactly when all 512 bytes are there and the last two are 0x55 0xaa; the
    table it leaves in [pt_info] is that sector. *)
Theorem mbr_probe_spec `{MallocTotal} disk pre rest :
  f_data disk = pre ++ rest → f_pos disk = zlen pre →
  (zlen rest < 512 → ∃ disk' p, mbr_probe disk = Some (disk', p, -1)) ∧
  (∀ s r, rest = s ++ r → length s = 512%nat →
     ∃ disk', f_pos disk' = f_pos disk + 512 ∧ f_data disk' = f_data disk ∧
       mbr_probe disk = Some (disk', {| pt_info := PLive s |},
                              if bool_decide (drop 510 s = [0x55; 0xaa]) then 0 else -1)).
Proof.
  intros Ed Ep. unfold mbr_probe. change (Z.of_nat (sizeof disk_mbr)) with 512.
  destruct (cmalloc_live 512) as (b & Eb & Hb); [lia|]. rewrite Eb. simpl. split.
  - intros Hr. rewrite Ed, Ep, Nat2Z.id, drop_app_length, take_ge by lia.
    unfold mem_write. rewrite bool_decide_true by lia. simpl. case_test. by eauto.
  - intros s r -> Hs.
    rewrite Ed, Ep, Nat2Z.id, drop_app_length.
    rewrite (take_app_exact s r) by (rewrite Hs; done).
    pose proof (mem_write_app [] b s [] 0 eq_refl) as W.
    simpl in W. rewrite !app_nil_r in W. rewrite W by lia. simpl. rewrite Hs.
    eexists. split; [|split]; cycle 2.
    { unfold fbytes. simpl. rewrite (take_ge (drop 510 s)) by (rewrite length_drop; lia).
      by case_bool_decide. }
    { done. }
    done.
Qed.

Definition witness_mbr : list Z :=
  replicate 446 0 ++ [0x80; 0; 0; 0; 0x83; 0; 0; 0; 0; 8; 0; 0; 0; 0; 1; 0] ++
  replicate 48 0 ++ [0x55; 0xaa].

Lemma mbr_probe_spec_witness :
  ∃ disk', mbr_probe (file_of witness_mbr)
           = Some (disk', {| pt_info := PLive witness_mbr |}, 0).
Proof.
  destruct (mbr_probe_spec (file_of witness_mbr) [] witness_mbr eq_refl eq_refl) as [_ Hp].
  destruct (Hp witness_mbr [] ltac:(by rewrite app_nil_r) eq_refl) as (d & _ & _ & E).
  exists d. exact E.
Defined.

(** C31: the loop over [mbr_get_next_partition] terminates and returns the four
    entries of the table, in order, each with its number, its byte offset at
    32 bits and a copy of its bytes; the static counter then stays at the end,
    so that the table of any further disk yields no partition at all. *)
Theorem mbr_partitions_spec `{MallocTotal} m m' :
  length m = 512%nat →
  partitions mbr_crawler 5 (pc_init mbr_crawler) {| pt_info := PLive m |}
    = Some (entry_pte m <$> [0; 1; 2; 3]%nat, 4) ∧
  partitions mbr_crawler 1 4 {| pt_info := PLive m' |} = Some ([], 4).
Proof.
  intros E. split.
  - assert (∀ i k, (i < 4)%nat →
      partitions mbr_crawler (S k) (Z.of_nat i) {| pt_info := PLive m |} =
      ('(es, st) ← partitions mbr_crawler k (Z.of_nat (S i)) {| pt_info := PLive m |};
       Some (entry_pte m i :: es, st))) as Hstep.
    { intros i k Hi. cbn [partitions pc_get_next_partition mbr_crawler].
      rewrite (bind_Some_eq _ _ _ (next_partition_entry m i _ E Hi)). cbv iota beta.
      by rewrite Z.add_1_r, <-Nat2Z.inj_succ. }
    change (pc_init mbr_crawler) with (Z.of_nat 0).
    do 4 (rewrite Hstep by lia). cbn [partitions pc_get_next_partition mbr_crawler].
    change (Z.of_nat 4) with 4. by erewrite next_partition_none.
  - cbn [partitions pc_get_next_partition mbr_crawler]. by erewrite next_partition_none.
Qed.

Lemma mbr_partitions_spec_witness :
  partitions mbr_crawler 5 0 {| pt_info := PLive witness_mbr |}
    = Some (entry_pte witness_mbr <$> [0; 1; 2; 3]%nat, 4) ∧
  pt_off (entry_pte witness_mbr 0) = 2048 * 512.
Proof.
  destruct (mbr_partitions_spec witness_mbr [] eq_refl) as [E _].
  split; [exact E|done].
Defined.

(** [mbr_partition_offset] gives the byte offset of a Linux, extended,
    NTFS, FAT32 or LVM entry and 0 for every other type; computed at 32 bits,
    it is right exactly for partitions that start below 4 GiB. *)
Theorem mbr_partition_offset_spec m i :
  length m = 512%nat → bytes_ok m → (i < 4)%nat →
  let e := pt_entry m i in
  mbr_partition_offset m (Z.of_nat i) =
    Some (if bool_decide (partition_type e ∈ [0x83; 0x05; 0x07; 0x0b; 0x8e])
          then (512 * first_sector_lba e) `mod` 2 ^ 32 else 0) ∧
  ((512 * first_sector_lba e) `mod` 2 ^ 32 = 512 * first_sector_lba e ↔
   first_sector_lba e < 2 ^ 23).
Proof.
  intros E Hm Hi e. unfold mbr_partition_offset. rewrite mbr_entry_pt by done. simpl. fold e.
  assert (0 ≤ first_sector_lba e < 2 ^ 32) as Hr.
  { apply (fget_range mbr_partition_table_entry "first_sector_lba" e 8 4); [|done].
    by apply pt_entry_ok. }
  split; cycle 1.
  { pose proof (Z.mod_pos_bound (512 * first_sector_lba e) (2 ^ 32)).
    split; intros; [lia|]. apply Z.mod_small. lia. }
  fold (uwrap 32 (512 * first_sector_lba e)) (lba_bytes (first_sector_lba e)).
  rewrite (bool_decide_ext _ (partition_type e = 0x83 ∨ partition_type e = 0x05 ∨
    partition_type e = 0x07 ∨ partition_type e = 0x0b ∨ partition_type e = 0x8e))
    by (rewrite !elem_of_cons, elem_of_nil; tauto).
  case_bool_decide as Hin; repeat case_test; done || lia.
Qed.

Lemma mbr_partition_offset_spec_witness :
  mbr_partition_offset witness_mbr 0 = Some (2048 * 512).
Proof.
  destruct (mbr_partition_offset_spec witness_mbr 0) as [E _].
  - done.
  - by apply (bool_decide_unpack _).
  - lia.
  - change 0 with (Z.of_nat 0). rewrite E. vm_compute. reflexivity.
Defined.

(** The documents of the boot sector and of a partition. *)
Definition mbr_doc (has_gpt : bool) : list elem :=
  [e_str "type" (str_bytes "mbr"); e_bool "gpt" has_gpt; e_int32 "sector" 0].

Definition partition_doc (p : pte) (e : list Z) : list elem :=
  [e_str "type" (str_bytes "partition"); e_int32 "pte_num" (pt_num p);
   e_int32 "partition_type" (partition_type e);
   e_int32 "first_sector_lba" (first_sector_lba e);
   e_int32 "final_sector_lba" (s32 (u32 (first_sector_lba e + sector_count e)))].

(** [mbr_serialize_pt] records sector 0 in the metadata filter and appends
    the document of the boot sector, with [gpt] true exactly when the first
    entry is a protective one; the reader gets these fields back. *)
Theorem mbr_serialize_pt_spec `{MallocTotal} m bits f :
  length m = 512%nat → bitarray_wf bits → at_end f →
  ∃ bits', mbr_serialize_pt {| pt_info := PLive m |} bits f
    = Some (bits', append f (enc_doc (mbr_doc (partition_type (pt_entry m 0) =? 0xee))),
            EXIT_SUCCESS) ∧
    bitarray_set_bit bits 0 = Some bits' ∧ bitarray_wf bits' ∧
    Forall elem_ok (mbr_doc (partition_type (pt_entry m 0) =? 0xee)).
Proof.
  intros E Hb Hf. destruct (bitarray_set_ok bits 0 Hb) as (bits' & Eb & Hb'); [done|].
  exists bits'. split; [|split; [done|split; [done|elems_ok]]].
  unfold mbr_serialize_pt. simpl. pose proof (mbr_entry_pt m 0 E ltac:(lia)) as Ee.
  change (Z.of_nat 0) with 0 in Ee. rewrite Ee. simpl. rewrite Eb. simpl.
  wrote (mbr_doc (partition_type (pt_entry m 0) =? 0xee)); [done|].
  unfold mbr_doc. doc_size.
Qed.

Definition witness_bits : bitarray := {| ba_array := [0; 0]; ba_len := 16 |}.

Lemma witness_bits_wf : bitarray_wf witness_bits.
Proof. split; [by exists 4|done|repeat constructor; discriminate]. Qed.

Lemma mbr_serialize_pt_spec_witness :
  ∃ bits', mbr_serialize_pt {| pt_info := PLive witness_mbr |} witness_bits (file_of [])
    = Some (bits', append (file_of []) (enc_doc (mbr_doc false)), EXIT_SUCCESS).
Proof.
  destruct (mbr_serialize_pt_spec witness_mbr witness_bits (file_of []))
    as (bits' & E & _); [done|apply witness_bits_wf|done|].
  exists bits'. exact E.
Defined.

(** [mbr_serialize_pte] appends the document of a partition, whose fields
    the reader gets back: its number (the low 32 bits), its type, its first
    sector, and first sector plus count, wrapped to an [int32_t]. *)
Theorem mbr_serialize_pte_spec `{MallocTotal} p e f :
  pte_info p = PLive e → length e = 16%nat → bytes_ok e → at_end f →
  mbr_serialize_pte p f = Some (append f (enc_doc (partition_doc p e)), EXIT_SUCCESS) ∧
  Forall elem_ok (partition_doc p e).
Proof.
  intros Ep El Hb Hf. split; [|elems_ok]. unfold mbr_serialize_pte. rewrite Ep. simpl.
  rewrite (fbytes_le_enc mbr_partition_table_entry "first_sector_lba" e 8 4)
    by (done || lia).
  wrote (partition_doc p e); [done|]. unfold partition_doc. doc_size.
Qed.

Lemma mbr_serialize_pte_spec_witness :
  ∃ d, mbr_serialize_pte (entry_pte witness_mbr 0) (file_of [])
       = Some (append (file_of []) (enc_doc d), EXIT_SUCCESS) ∧
  d = [e_str "type" (str_bytes "partition"); e_int32 "pte_num" 0;
       e_int32 "partition_type" 0x83; e_int32 "first_sector_lba" 0x800;
       e_int32 "final_sector_lba" 0x10800].
Proof.
  eexists. split; [apply (mbr_serialize_pte_spec (entry_pte witness_mbr 0)
    (pt_entry witness_mbr 0) (file_of [])); [done|done| |done]|done].
  by apply (bool_decide_unpack _).
Defined.
