(* ===== verification/Gpt.v ===== *)
(** * src/gray-crawler/gpt/gpt.c: the GUID partition table

    [pt_info] holds the protective MBR, the header and the 128 entries read in
    one go. The static pointer of [gpt_get_next_partition] is the block it was
    set to and its offset there. Printing is in [PtPrint]. *)
From S2P Require Import Prelude Words Memory Struct Stdio Bitarray Bson BsonEncode BsonDecode BsonFields PartTable Mbr.

(** ** Definitions *)

Definition gpt_partition_table_entry : layout :=
  [("partition_type_guid", 16%nat); ("unique_partition_guid", 16%nat);
   ("first_lba", 8%nat); ("last_lba", 8%nat); ("attribute_flags", 8%nat);
   ("partition_name", 72%nat)].

Definition disk_gpt : layout :=
  [("signature", 8%nat); ("revision", 4%nat); ("header_size", 4%nat);
   ("crc32_header", 4%nat); ("reserved_1", 4%nat); ("current_lba", 8%nat);
   ("backup_lba", 8%nat); ("first_usable_lba", 8%nat); ("last_usable_lba", 8%nat);
   ("disk_guid", 16%nat); ("starting_lba_partition_entries", 8%nat);
   ("num_partition_entries", 4%nat); ("partition_entry_size", 4%nat);
   ("crc32_partition_array", 4%nat); ("reserved_2", 420%nat);
   ("pt", (128 * 128)%nat)].

(** [sizeof] of the three structs *)
Definition MBR_SIZE : Z := 512.
Definition GPT_SIZE : Z := 16896.
Definition ENTRY_SIZE : Z := 128.

Lemma sizes_of_structs :
  Z.of_nat (sizeof disk_mbr) = MBR_SIZE ∧ Z.of_nat (sizeof disk_gpt) = GPT_SIZE ∧
  Z.of_nat (sizeof gpt_partition_table_entry) = ENTRY_SIZE.
Proof. by vm_compute. Qed.

Definition first_lba (e : list Z) : Z := fget gpt_partition_table_entry "first_lba" e.
Definition last_lba (e : list Z) : Z := fget gpt_partition_table_entry "last_lba" e.

(** The static variables of [gpt_get_next_partition]. *)
Record gpt_static := { cur_block : cptr; cur_off : Z; cur_num : Z }.

Definition gpt_static_init : gpt_static :=
  {| cur_block := PNull; cur_off := 0; cur_num := 1 |}.

Section gpt.
Context `{Malloc}.

Definition gpt_probe (disk : FILE) : option (FILE * pt * Z) :=
  m ← deref (cmalloc (MBR_SIZE + GPT_SIZE));
  let '(disk, d) := fread disk MBR_SIZE in
  m ← mem_write m 0 d;
  if zlen d <? MBR_SIZE then Some (disk, {| pt_info := PLive m |}, -1) else
  if negb (bool_decide (fbytes disk_mbr "signature" m = [0x55; 0xaa]))
  then Some (disk, {| pt_info := PLive m |}, -1) else
  let '(disk, d) := fread disk GPT_SIZE in
  m ← mem_write m MBR_SIZE d;
  let p := {| pt_info := PLive m |} in
  if zlen d <? GPT_SIZE then Some (disk, p, -1) else
  sig ← mem_read m MBR_SIZE 8;
  if negb (bool_decide (sig = str_bytes "EFI PART")) then Some (disk, p, -1)
  else Some (disk, p, 0).

Definition gpt_cleanup_pt (p : pt) : option unit :=
  _ ← (if is_null (pt_info p) then Some PNull else cfree (pt_info p)); Some tt.

Definition gpt_cleanup_pte (p : pte) : option pte :=
  if is_null (pte_info p) then Some p else
  q ← cfree (pte_info p);
  Some {| pt_num := pt_num p; pt_off := pt_off p; pte_info := q |}.

(** [gpt->pt]: behind the MBR and the 512 bytes of the header *)
Definition gpt_first_entry (p : pt) (st : gpt_static) : gpt_static :=
  if is_null (cur_block st)
  then {| cur_block := pt_info p; cur_off := MBR_SIZE + (GPT_SIZE - 128 * ENTRY_SIZE);
          cur_num := cur_num st |}
  else st.

Definition gpt_get_next_partition (st : gpt_static) (p : pt) (out : pte) :
    option (gpt_static * pte * bool) :=
  let st := gpt_first_entry p st in
  m ← deref (cur_block st);
  cur ← mem_read m (cur_off st) ENTRY_SIZE;
  if negb ((first_lba cur =? 0) && (last_lba cur =? 0)) then
    e ← deref (cmalloc ENTRY_SIZE);
    e ← mem_write e 0 cur;
    Some ({| cur_block := cur_block st; cur_off := cur_off st + ENTRY_SIZE;
             cur_num := u32 (cur_num st + 1) |},
          {| pt_num := cur_num st; pt_off := s64 (u64 (first_lba e * SECTOR_SIZE));
             pte_info := PLive e |}, true)
  else Some (st, out, false).

Definition gpt_serialize_pt (p : pt) (bits : bitarray) (f : FILE) :
    option (bitarray * FILE * Z) :=
  '(f, ret) ← write_document [fill_str "type" 3 (cstr "gpt")] f;
  Some (bits, f, ret).

Definition gpt_serialize_pte (p : pte) (f : FILE) : option (FILE * Z) :=
  e ← deref (pte_info p);
  write_document
    [fill_str "type" 9 (cstr "partition");
     fill_mem BSON_INT32 "pte_num" (le_enc 8 (pt_num p));
     fill_mem BSON_BINARY "partition_type_guid" e;
     fill_mem BSON_INT32 "first_sector_lba" (fbytes gpt_partition_table_entry "first_lba" e);
     fill_mem BSON_INT32 "final_sector_lba" (fbytes gpt_partition_table_entry "last_lba" e)] f.

Definition gpt_crawler : gray_fs_pt_crawler :=
  {| pc_static := gpt_static; pc_init := gpt_static_init; pc_probe := gpt_probe;
     pc_serialize_pt := gpt_serialize_pt; pc_serialize_pte := gpt_serialize_pte;
     pc_get_next_partition := gpt_get_next_partition;
     pc_cleanup_pt := gpt_cleanup_pt; pc_cleanup_pte := gpt_cleanup_pte |}.
End gpt.

(** ** Lemmas *)

(** The [i]-th entry of the table behind [pt_info]. *)
Definition gpt_entry (m : list Z) (i : nat) : list Z := take 128 (drop (1024 + 128 * i) m).

Definition unused (e : list Z) : bool := (first_lba e =? 0) && (last_lba e =? 0).

Definition gpt_pte (m : list Z) (i : nat) : pte :=
  {| pt_num := Z.of_nat i + 1;
     pt_off := s64 (u64 (first_lba (gpt_entry m i) * SECTOR_SIZE));
     pte_info := PLive (gpt_entry m i) |}.

Definition gpt_at (m : list Z) (i : nat) : gpt_static :=
  {| cur_block := PLive m; cur_off := 1024 + 128 * Z.of_nat i; cur_num := Z.of_nat i + 1 |}.

Lemma gpt_first_entry_init m :
  gpt_first_entry {| pt_info := PLive m |} gpt_static_init = gpt_at m 0.
Proof. done. Qed.

Section lemmas.
Context `{MallocTotal} (m : list Z) (Hm : zlen m = MBR_SIZE + GPT_SIZE).

Lemma length_gpt_entry i : (i < 128)%nat → length (gpt_entry m i) = 128%nat.
Proof.
  intros Hi. unfold gpt_entry. rewrite length_take, length_drop.
  unfold MBR_SIZE, GPT_SIZE in Hm. lia.
Qed.

Lemma gpt_read_entry i :
  (i < 128)%nat → mem_read m (1024 + 128 * Z.of_nat i) ENTRY_SIZE = Some (gpt_entry m i).
Proof.
  intros Hi. change ENTRY_SIZE with 128. unfold mem_read.
  change (MBR_SIZE + GPT_SIZE) with 17408 in Hm.
  rewrite bool_decide_true by lia. unfold gpt_entry. do 3 f_equal. lia.
Qed.

Lemma gpt_next_used i p out :
  (i < 128)%nat → unused (gpt_entry m i) = false →
  gpt_get_next_partition (gpt_at m i) p out = Some (gpt_at m (S i), gpt_pte m i, true).
Proof.
  intros Hi Hu. unfold gpt_get_next_partition. cbn [gpt_first_entry gpt_at cur_block is_null].
  cbn [deref cur_off]. rewrite (bind_Some_eq _ _ _ eq_refl).
  rewrite (bind_Some_eq _ _ _ (gpt_read_entry i Hi)).
  unfold unused in Hu. rewrite Hu. cbn [negb].
  destruct (cmalloc_live ENTRY_SIZE) as (b & Eb & Hb); [done|].
  rewrite Eb. cbn [deref]. rewrite (bind_Some_eq _ _ _ eq_refl).
  pose proof (mem_write_app [] b (gpt_entry m i) [] 0 eq_refl) as W.
  simpl in W. rewrite !app_nil_r in W.
  rewrite W by (rewrite length_gpt_entry by done; change ENTRY_SIZE with 128 in Hb; lia).
  rewrite (bind_Some_eq _ _ _ eq_refl). unfold gpt_at, gpt_pte.
  rewrite (uwrap_small 32) by (simpl; lia).
  change ENTRY_SIZE with 128. cbn [cur_off cur_num cur_block].
  do 4 f_equal; lia.
Qed.

Lemma gpt_next_unused i p out :
  (i < 128)%nat → unused (gpt_entry m i) = true →
  gpt_get_next_partition (gpt_at m i) p out = Some (gpt_at m i, out, false).
Proof.
  intros Hi Hu. unfold gpt_get_next_partition. cbn [gpt_first_entry gpt_at cur_block is_null].
  cbn [deref cur_off]. rewrite (bind_Some_eq _ _ _ eq_refl).
  rewrite (bind_Some_eq _ _ _ (gpt_read_entry i Hi)).
  unfold unused in Hu. by rewrite Hu.
Qed.

Lemma gpt_next_past p out : gpt_get_next_partition (gpt_at m 128) p out = None.
Proof.
  unfold gpt_get_next_partition. cbn [gpt_first_entry gpt_at cur_block is_null].
  cbn [deref cur_off]. rewrite (bind_Some_eq _ _ _ eq_refl).
  rewrite mem_read_oob; [done|]. change (MBR_SIZE + GPT_SIZE) with 17408 in Hm.
  change ENTRY_SIZE with 128. cbn [gpt_at cur_off]. lia.
Qed.

(** From entry [i] on, with [k] used entries ahead. *)
Lemma gpt_partitions_from p k : ∀ i,
  (i + k ≤ 128)%nat → (∀ j, (i ≤ j < i + k)%nat → unused (gpt_entry m j) = false) →
  ∀ fuel, partitions gpt_crawler (k + fuel) (gpt_at m i) p =
    ('(es, st) ← partitions gpt_crawler fuel (gpt_at m (i + k)) p;
     Some (map (gpt_pte m) (seq i k) ++ es, st)).
Proof.
  induction k as [|k IH]; intros i Hi Hu fuel.
  { rewrite Nat.add_0_r. simpl. by destruct partitions as [[es st]|]. }
  change (S k + fuel)%nat with (S (k + fuel)).
  cbn [partitions pc_get_next_partition gpt_crawler].
  rewrite (bind_Some_eq _ _ _ (gpt_next_used i p _ ltac:(lia) (Hu i ltac:(lia)))).
  cbv iota beta. rewrite IH; [|lia|intros j Hj; apply Hu; lia].
  replace (S i + k)%nat with (i + S k)%nat by lia.
  destruct partitions as [[es st]|]; [done|done].
Qed.
End lemmas.

(** ** Properties *)

(** C32: the loop over [gpt_get_next_partition] returns the used entries up to
    the first unused one, in order, numbered from 1, with the byte offset of
    their first block as a 64-bit number; a table whose 128 entries are all in
    use makes it read past the end of the table. *)
Theorem gpt_partitions_spec `{MallocTotal} m n :
  zlen m = MBR_SIZE + GPT_SIZE → (n ≤ 128)%nat →
  (∀ j, (j < n)%nat → unused (gpt_entry m j) = false) →
  let run fuel := partitions gpt_crawler fuel (pc_init gpt_crawler) {| pt_info := PLive m |} in
  ((n < 128)%nat → unused (gpt_entry m n) = true →
   run (S n) = Some (map (gpt_pte m) (seq 0 n), gpt_at m n)) ∧
  (n = 128%nat → ∀ fuel, run fuel = None).
Proof.
  intros Hm Hn Hu run.
  assert (∀ fuel, run (S fuel) =
    partitions gpt_crawler (S fuel) (gpt_at m 0) {| pt_info := PLive m |}) as Hinit by done.
  split.
  - intros Hlt Hend. rewrite Hinit. rewrite <-Nat.add_1_r.
    rewrite (gpt_partitions_from m Hm _ n 0) by (lia || (intros; apply Hu; lia)).
    cbn [partitions pc_get_next_partition gpt_crawler].
    rewrite (bind_Some_eq _ _ _ (gpt_next_unused m Hm _ _ _ Hlt Hend)). simpl.
    by rewrite app_nil_r.
  - intros -> fuel. destruct (Nat.le_gt_cases fuel 128) as [Hf|Hf].
    + destruct fuel as [|fuel]; [done|]. rewrite Hinit.
      rewrite <-(Nat.add_0_r (S fuel)).
      by rewrite (gpt_partitions_from m Hm _ (S fuel) 0) by (lia || (intros; apply Hu; lia)).
    + destruct fuel as [|fuel]; [lia|]. rewrite Hinit.
      replace (S fuel) with (128 + S (fuel - 128))%nat by lia.
      rewrite (gpt_partitions_from m Hm _ 128 0) by (lia || (intros; apply Hu; lia)).
      cbn [partitions pc_get_next_partition gpt_crawler]. by rewrite gpt_next_past.
Qed.

(** A table with [n] Linux partitions. *)
Definition witness_entry : list Z :=
  replicate 16 0xa1 ++ replicate 16 7 ++ le_enc 8 2048 ++ le_enc 8 4095 ++ replicate 80 0.
Definition witness_gpt (n : nat) : list Z :=
  replicate 1024 0 ++ mjoin (replicate n witness_entry) ++ replicate ((128 - n) * 128) 0.

Lemma gpt_partitions_spec_witness :
  partitions gpt_crawler 2 gpt_static_init {| pt_info := PLive (witness_gpt 1) |}
    = Some ([gpt_pte (witness_gpt 1) 0], gpt_at (witness_gpt 1) 1).
Proof.
  destruct (gpt_partitions_spec (witness_gpt 1) 1) as [E _].
  - vm_compute. reflexivity.
  - lia.
  - intros j Hj. replace j with 0%nat by lia. vm_compute. reflexivity.
  - apply E; [lia|]. vm_compute. reflexivity.
Defined.

(** What the partition document of a GPT entry really holds. *)
Definition gpt_partition_doc (subtype : Z) (p : pte) (e : list Z) : list elem :=
  [e_str "type" (str_bytes "partition"); e_int32 "pte_num" (pt_num p);
   e_bin "partition_type_guid" subtype
     (take 9 (fbytes gpt_partition_table_entry "partition_type_guid" e));
   e_int32 "first_sector_lba" (first_lba e); e_int32 "final_sector_lba" (last_lba e)].

(** [gpt_serialize_pte] writes a readable document, but the GUID in it is
    cut to the 9 bytes of the stale [value.size] of the field before, its
    subtype is whatever the stack held, and the 64-bit block numbers are cut to
    32 bits. *)
Theorem gpt_serialize_pte_spec `{MallocTotal} p e f :
  pte_info p = PLive e → length e = 128%nat → bytes_ok e → at_end f →
  gpt_serialize_pte p f =
    Some (append f (enc_doc (gpt_partition_doc (u8 indeterminate) p e)), EXIT_SUCCESS) ∧
  Forall elem_ok (gpt_partition_doc (u8 indeterminate) p e).
Proof.
  intros Ep El Hb Hf.
  set (guid := take 9 (fbytes gpt_partition_table_entry "partition_type_guid" e)).
  assert (guid = take 9 e) as Eg.
  { unfold guid, fbytes. simpl. by rewrite drop_0, take_take. }
  assert (zlen guid = 9) as Hg by (rewrite Eg, length_take; lia).
  split; [|unfold gpt_partition_doc; fold guid; elems_ok; lia].
  unfold gpt_serialize_pte. rewrite Ep. simpl.
  rewrite (fbytes_le_enc gpt_partition_table_entry "first_lba" e 32 8),
    (fbytes_le_enc gpt_partition_table_entry "last_lba" e 40 8) by (done || lia).
  replace (fill_mem BSON_BINARY "partition_type_guid" e)
    with (fill_mem BSON_BINARY "partition_type_guid" (guid ++ drop 9 e))
    by (by rewrite Eg, take_drop).
  wrote (gpt_partition_doc (u8 indeterminate) p e); [done|done|]. unfold gpt_partition_doc. fold guid.
  doc_size.
Qed.

Lemma gpt_serialize_pte_spec_witness :
  gpt_serialize_pte (gpt_pte (witness_gpt 1) 0) (file_of [])
  = Some (append (file_of []) (enc_doc
      [e_str "type" (str_bytes "partition"); e_int32 "pte_num" 1;
       e_bin "partition_type_guid" 0 (replicate 9 0xa1);
       e_int32 "first_sector_lba" 2048; e_int32 "final_sector_lba" 4095]), EXIT_SUCCESS).
Proof.
  destruct (gpt_serialize_pte_spec (gpt_pte (witness_gpt 1) 0) (gpt_entry (witness_gpt 1) 0)
    (file_of [])) as [E _].
  - done.
  - vm_compute. reflexivity.
  - apply (bool_decide_unpack _). vm_compute. exact I.
  - done.
  - rewrite E. vm_compute. reflexivity.
Defined.
