(* ===== verification/PtPrint.v ===== *)
(** * Printing partition tables: [mbr_print] and [gpt_print]

    The texts src/gray-crawler/mbr/mbr.c and src/gray-crawler/gpt/gpt.c print
    about the tables [Mbr] and [Gpt] read. *)
From S2P Require Import Prelude Words Memory Struct Stdio Text Util Hexdump Bitarray PartTable Mbr Gpt.

(** ** Definitions *)

(** [MBR_PT_LUT]: 256 names, most of them empty. *)
Definition MBR_PT_LUT : list string :=
  let none n := replicate n EmptyString in
  (["Empty"] ++ none 4 ++ ["Extended"; EmptyString; "HPFS/NTFS"] ++ none 3 ++ ["W95 FAT32"] ++
   none 4 ++ none 112 ++
   none 2 ++ ["Linux Swap"; "Linux"; EmptyString; "Linux Extended"] ++ none 8 ++ ["Linux LVM"] ++
   none 1 ++ none 31 ++ ["HFS / HFS+"] ++ none 62 ++ ["GPT"; "EFI"] ++ none 16)%nat.

Definition line (s : list Z) : list Z := s ++ [NL].
Definition hex_line_of (label : string) (w : nat) (z : Z) : list Z :=
  line (str_bytes label ++ fmt_x w z).

Definition print_partition_type (type : Z) : option output :=
  name ← MBR_PT_LUT !! Z.to_nat type;
  Some (fprintf_light_magenta Stdout (line (str_bytes "Partition Type: " ++ str_bytes name))).

Section mbr_print.
Context `{LongDouble}.

(** The byte [i] of the member [f] of an entry. *)
Definition entry_byte (e : list Z) (f : string) (i : Z) : option Z :=
  mem_byte (fbytes mbr_partition_table_entry f e) i.

(** Head, sector and cylinder of [start_chs] or [end_chs]. *)
Definition print_chs (e : list Z) (name f : string) : option output :=
  b0 ← entry_byte e f 0; b1 ← entry_byte e f 1; b2 ← entry_byte e f 2;
  Some (fprintf_blue Stdout (hex_line_of (name ++ " Head: 0x") 2 b0) ++
        fprintf_blue Stdout (hex_line_of (name ++ " Sector: 0x") 2 (get_sector b1)) ++
        fprintf_blue Stdout (hex_line_of (name ++ " Cylinder: 0x") 3 (get_cylinder b1 b2))).

(** The text and the result. *)
Definition mbr_print_partition (e : list Z) : option (output * Z) :=
  let size_buf := replicate 512 0 in
  let status :=
    fprintf_blue Stdout (hex_line_of "Status [0x80 bootable, 0x00 non-bootable]: 0x" 2
                           (fget mbr_partition_table_entry "status" e)) ++
    fprintf_blue Stdout (hex_line_of "Partition Type: 0x" 2 (partition_type e)) in
  type ← print_partition_type (partition_type e);
  if partition_type e =? 0x00 then Some (status ++ type, -1) else
  start ← print_chs e "Start" "start_chs";
  last ← print_chs e "End" "end_chs";
  '(size_buf, _) ← pretty_print_bytes (u64 (SECTOR_SIZE * sector_count e)) size_buf SECTOR_SIZE;
  size ← cstr_at size_buf 0;
  Some (status ++ type ++ start ++ last ++
        fprintf_green Stdout (hex_line_of "First Sector LBA: 0x" 8 (first_sector_lba e)) ++
        fprintf_green Stdout (line (str_bytes "Number of Sectors: 0x" ++ fmt_x 8 (sector_count e) ++
                                    str_bytes " (" ++ size ++ str_bytes ")")), 0).

(** Disk signature, reserved field and the check of the boot signature. *)
Definition print_boot_sector (mbr : list Z) : option output :=
  s0 ← mem_byte (fbytes disk_mbr "signature" mbr) 0;
  s1 ← mem_byte (fbytes disk_mbr "signature" mbr) 1;
  let verify := str_bytes "Verifying MBR Signature [0x55 0xaa]: 0x" ++ fmt_x 2 s0 ++
                str_bytes " 0x" ++ fmt_x 2 s1 ++ [NL; NL] in
  Some (fprintf_yellow Stdout (hex_line_of "Disk Signature [optional]: 0x" 8
                                 (fget disk_mbr "disk_signature" mbr)) ++
        fprintf_yellow Stdout (hex_line_of "Position 444 [0x0000]: 0x" 4
                                 (fget disk_mbr "reserved" mbr)) ++
        (if (s0 =? 0x55) && (s1 =? 0xaa) then fprintf_light_green Stdout verify
         else fprintf_light_red Stdout verify)).

(** [mbr_print_partition(mbr->pt[i])] behind its title *)
Definition print_entry (mbr : list Z) (i : Z) : option output :=
  e ← mbr_entry mbr i;
  '(o, _) ← mbr_print_partition e;
  Some (fprintf_light_yellow Stdout
          (NL :: str_bytes "Checking partition table entry " ++ decimal i ++ str_bytes "." ++ [NL])
        ++ o).

Definition mbr_print (p : pt) : option output :=
  mbr ← deref (pt_info p);
  boot ← print_boot_sector mbr;
  e0 ← print_entry mbr 0; e1 ← print_entry mbr 1; e2 ← print_entry mbr 2; e3 ← print_entry mbr 3;
  Some (fprintf_light_cyan Stdout ([NL; NL] ++ line (str_bytes "Analyzing Boot Sector")) ++
        boot ++ e0 ++ e1 ++ e2 ++ e3).
End mbr_print.

(** The order the bytes of a GUID are printed in, with its dashes. *)
Definition guid_groups : list (list nat) :=
  [[3; 2; 1; 0]; [5; 4]; [7; 6]; [8; 9]; [10; 11; 12; 13; 14; 15]]%nat.

Definition guid_text (a : list Z) : list Z :=
  let group g := concat (map (λ i, fmt_x 2 (nth i a 0)) g) in
  str_bytes "0x" ++ group (nth 0 guid_groups []) ++
  concat (map (λ g, 45 :: group g) (drop 1 guid_groups)).

Definition print_guid (a : list Z) : output := fprintf_yellow Stdout (guid_text a).

(** [%s] of the partition's name: undefined when it has no terminator. *)
Definition gpt_partition_print (e : list Z) : option output :=
  let get f := fget gpt_partition_table_entry f e in
  name ← cstr_at (fbytes gpt_partition_table_entry "partition_name" e) 0;
  Some (fprintf_yellow Stdout (NL :: line (str_bytes "Checking partition table entry.")) ++
        fprintf_green Stdout (str_bytes "Partition type GUID: ") ++
        print_guid (fbytes gpt_partition_table_entry "partition_type_guid" e) ++
        fprintf_green Stdout [NL] ++
        fprintf_green Stdout (str_bytes "Unique partition GUID: ") ++
        print_guid (fbytes gpt_partition_table_entry "unique_partition_guid" e) ++
        fprintf_green Stdout [NL] ++
        fprintf_green Stdout (hex_line_of "First LBA: 0x" 16 (get "first_lba")) ++
        fprintf_green Stdout (hex_line_of "Last LBA: 0x" 16 (get "last_lba")) ++
        fprintf_green Stdout (hex_line_of "Attribute Flags: 0x" 16 (get "attribute_flags")) ++
        fprintf_green Stdout (line (str_bytes "Partition Name: '" ++ name ++ str_bytes "'"))).

(** The members of the header, in the order they are printed. *)
Definition print_gpt_header (gpt : list Z) : output :=
  let field label w f := fprintf_yellow Stdout (hex_line_of label w (fget disk_gpt f gpt)) in
  field "Signature: 0x" 16%nat "signature" ++
  field "Revision: 0x" 8%nat "revision" ++
  field "Header Size: 0x" 8%nat "header_size" ++
  field "Header CRC32: 0x" 8%nat "crc32_header" ++
  field "Current LBA: 0x" 16%nat "current_lba" ++
  field "Backup LBA: 0x" 16%nat "backup_lba" ++
  field "First Usable LBA: 0x" 16%nat "first_usable_lba" ++
  field "Last Usable LBA: 0x" 16%nat "last_usable_lba" ++
  fprintf_yellow Stdout (str_bytes "Disk GUID: ") ++
  print_guid (fbytes disk_gpt "disk_guid" gpt) ++ fprintf_yellow Stdout [NL] ++
  field "Starting LBA partition entries: 0x" 16%nat "starting_lba_partition_entries" ++
  field "Number of partition entries: 0x" 8%nat "num_partition_entries" ++
  field "Size of a single partition entry: 0x" 8%nat "partition_entry_size" ++
  field "CRC32 of partition array: 0x" 8%nat "crc32_partition_array".

(** [while (!(cur_pt->first_lba == 0 && cur_pt->last_lba == 0))]; [off] is the
    offset of [cur_pt] in the block. *)
Fixpoint gpt_print_loop (fuel : nat) (m : list Z) (off : Z) : option output :=
  match fuel with
  | O => None
  | S fuel =>
      e ← mem_read m off ENTRY_SIZE;
      if (first_lba e =? 0) && (last_lba e =? 0) then Some []
      else o ← gpt_partition_print e; os ← gpt_print_loop fuel m (off + ENTRY_SIZE); Some (o ++ os)
  end.

(** The block ends behind 128 entries: 129 rounds are enough. *)
Definition gpt_print (p : pt) : option output :=
  m ← deref (pt_info p);
  mbr ← mem_read m 0 MBR_SIZE;
  boot ← print_boot_sector mbr;
  gpt ← mem_read m MBR_SIZE GPT_SIZE;
  entries ← gpt_print_loop 129 m (MBR_SIZE + (GPT_SIZE - 128 * ENTRY_SIZE));
  Some (fprintf_light_cyan Stdout ([NL; NL] ++ line (str_bytes "Analyzing Protective MBR Header")) ++
        boot ++
        fprintf_light_cyan Stdout ([NL; NL] ++ line (str_bytes "Analyzing Primary GPT Header")) ++
        print_gpt_header gpt ++ entries).

(** ** Facts *)

Lemma MBR_PT_LUT_length : length MBR_PT_LUT = 256%nat.
Proof. reflexivity. Qed.

Lemma MBR_PT_LUT_names :
  MBR_PT_LUT !! 0x83%nat = Some "Linux" ∧ MBR_PT_LUT !! 0x07%nat = Some "HPFS/NTFS" ∧
  MBR_PT_LUT !! 0x8e%nat = Some "Linux LVM" ∧ MBR_PT_LUT !! 0xee%nat = Some "GPT".
Proof. done. Qed.

(** A member of a struct is a list of bytes of its size. *)
Lemma fbytes_byte L f m o n i : length m = sizeof L → bytes_ok m →
  offset_of L f = Some (o, n) → 0 ≤ i < Z.of_nat n →
  ∃ b, mem_byte (fbytes L f m) i = Some b ∧ is_byte b.
Proof.
  intros Hl Hm E Hi. pose proof (offset_of_bound _ _ _ _ E). unfold fbytes. rewrite E.
  destruct (mem_byte_Some (take n (drop o m)) i) as (b & Eb & Hb).
  { rewrite length_take, length_drop. lia. }
  exists b. split; [done|]. eapply Forall_lookup_1; [|exact Hb]. by apply Forall_take_drop.
Qed.

Section prints.
Context `{LongDouble}.

Lemma print_partition_type_ok ty : 0 ≤ ty < 256 → is_Some (print_partition_type ty).
Proof.
  intros Hty. unfold print_partition_type.
  destruct (lookup_lt_is_Some_2 MBR_PT_LUT (Z.to_nat ty)) as [x ->];
    [rewrite MBR_PT_LUT_length; lia|by eexists].
Qed.

Lemma print_chs_ok e name f o : length e = 16%nat → bytes_ok e →
  offset_of mbr_partition_table_entry f = Some (o, 3%nat) → is_Some (print_chs e name f).
Proof.
  intros Hl He E. unfold print_chs, entry_byte.
  destruct (fbytes_byte mbr_partition_table_entry f e o 3 0 Hl He E) as (b0 & -> & _); [lia|].
  destruct (fbytes_byte mbr_partition_table_entry f e o 3 1 Hl He E) as (b1 & -> & _); [lia|].
  destruct (fbytes_byte mbr_partition_table_entry f e o 3 2 Hl He E) as (b2 & -> & _); [lia|].
  by eexists.
Qed.

(** Printing an entry: unused ones are cut short with -1. *)
Lemma mbr_print_partition_ok e : length e = 16%nat → bytes_ok e →
  ∃ o, mbr_print_partition e = Some (o, if partition_type e =? 0 then -1 else 0).
Proof.
  intros Hl He. unfold mbr_print_partition.
  pose proof (fget_range mbr_partition_table_entry "partition_type" e 4 1 He eq_refl) as Ht.
  pose proof (fget_range mbr_partition_table_entry "sector_count" e 12 4 He eq_refl) as Hc.
  fold (partition_type e) in Ht. fold (sector_count e) in Hc.
  destruct (print_partition_type_ok (partition_type e)) as [ty ->]; [simpl in Ht; lia|].
  cbn [mbind option_bind]. destruct (partition_type e =? 0); [by eexists|].
  destruct (print_chs_ok e "Start" "start_chs" 1 Hl He eq_refl) as [start ->].
  destruct (print_chs_ok e "End" "end_chs" 5 Hl He eq_refl) as [last ->].
  cbn [mbind option_bind].
  destruct (pretty_print_bytes_fits (u64 (SECTOR_SIZE * sector_count e)) (replicate 512 0) 512)
    as (m & E & Ec); [by apply uwrap_range|rewrite length_replicate; lia|].
  change SECTOR_SIZE with 512 in *. rewrite E. cbn [mbind option_bind]. rewrite Ec. by eexists.
Qed.

(** [mbr_print] prints every boot sector: no access leaves the sector, a name is
    found for every partition type and the sizes fit into their buffer. *)
Theorem mbr_print_total mbr : zlen mbr = 512 → bytes_ok mbr →
  is_Some (mbr_print {| pt_info := PLive mbr |}).
Proof.
  intros Hl Hm. unfold mbr_print. cbn [pt_info deref mbind option_bind].
  assert (∀ i, 0 ≤ i < 4 → ∃ o, print_entry mbr i = Some o) as He.
  { intros i Hi. unfold print_entry, mbr_entry.
    assert (length (fbytes disk_mbr "pt" mbr) = 64%nat) as Hpt
      by (unfold fbytes; cbn; rewrite length_take, length_drop; lia).
    destruct (mem_read (fbytes disk_mbr "pt" mbr) (16 * i) 16) as [e|] eqn:E.
    - destruct (mbr_print_partition_ok e) as [o Eo].
      + apply mem_read_length in E. lia.
      + eapply mem_read_bytes; [|exact E]. unfold fbytes. by apply Forall_take_drop.
      + cbn [mbind option_bind]. rewrite Eo. by eexists.
    - unfold mem_read in E. revert E. by case_test. }
  assert (∃ o, print_boot_sector mbr = Some o) as [boot ->].
  { unfold print_boot_sector.
    destruct (fbytes_byte disk_mbr "signature" mbr 510 2 0) as (b0 & -> & _);
      [cbn; lia|done|done|lia|].
    destruct (fbytes_byte disk_mbr "signature" mbr 510 2 1) as (b1 & -> & _);
      [cbn; lia|done|done|lia|].
    by eexists. }
  cbn [mbind option_bind].
  destruct (He 0) as [o0 ->]; [lia|]. destruct (He 1) as [o1 ->]; [lia|].
  destruct (He 2) as [o2 ->]; [lia|]. destruct (He 3) as [o3 ->]; [lia|]. by eexists.
Qed.
End prints.

(** *** GUID partition tables *)

Section gpt_prints.
Context (m : list Z) (Hm : zlen m = MBR_SIZE + GPT_SIZE).

(** The texts of the entries from [i] on, [k] of which are used. *)
Lemma gpt_print_loop_ok k : ∀ i (out : nat → output),
  (i + k < 128)%nat →
  (∀ j, (i ≤ j < i + k)%nat → unused (gpt_entry m j) = false ∧
        gpt_partition_print (gpt_entry m j) = Some (out j)) →
  unused (gpt_entry m (i + k)) = true → ∀ fuel, (k < fuel)%nat →
  gpt_print_loop fuel m (1024 + 128 * Z.of_nat i) = Some (concat (map out (seq i k))).
Proof.
  induction k as [|k IH]; intros i out Hi Hu Hend [|fuel] Hf; try (exfalso; lia);
    cbn [gpt_print_loop]; rewrite (gpt_read_entry m Hm i) by lia; cbn [mbind option_bind].
  - rewrite Nat.add_0_r in Hend. unfold unused in Hend. by rewrite Hend.
  - destruct (Hu i) as [Hui Eo]; [lia|]. unfold unused in Hui. rewrite Hui, Eo.
    cbn [mbind option_bind]. change ENTRY_SIZE with 128.
    replace (1024 + 128 * Z.of_nat i + 128) with (1024 + 128 * Z.of_nat (S i)) by lia.
    rewrite (IH (S i) out); [done|lia| | |lia].
    + intros j Hj. apply Hu. lia.
    + by rewrite Nat.add_succ_comm.
Qed.

(** With all 128 entries used the loop leaves the block. *)
Lemma gpt_print_loop_overrun k : ∀ i, (i + k = 128)%nat →
  (∀ j, (i ≤ j < 128)%nat → unused (gpt_entry m j) = false) →
  ∀ fuel, gpt_print_loop fuel m (1024 + 128 * Z.of_nat i) = None.
Proof.
  induction k as [|k IH]; intros i Hi Hu [|fuel]; cbn [gpt_print_loop]; try done.
  - rewrite mem_read_oob; [done|]. unfold MBR_SIZE, GPT_SIZE, ENTRY_SIZE in *. lia.
  - rewrite (gpt_read_entry m Hm i) by lia. cbn [mbind option_bind].
    pose proof (Hu i ltac:(lia)) as Hui. unfold unused in Hui. rewrite Hui.
    destruct (gpt_partition_print _); [|done]. cbn [mbind option_bind].
    change ENTRY_SIZE with 128.
    replace (1024 + 128 * Z.of_nat i + 128) with (1024 + 128 * Z.of_nat (S i)) by lia.
    rewrite (IH (S i)); [done|lia|]. intros j Hj. apply Hu. lia.
Qed.
End gpt_prints.

Lemma gpt_print_header m : zlen m = MBR_SIZE + GPT_SIZE → bytes_ok m →
  ∃ mbr boot gpt, mem_read m 0 MBR_SIZE = Some mbr ∧ print_boot_sector mbr = Some boot ∧
    mem_read m MBR_SIZE GPT_SIZE = Some gpt.
Proof.
  intros Hm Hb. unfold MBR_SIZE, GPT_SIZE in *.
  rewrite mem_read_prefix by lia. set (mbr := take (Z.to_nat 512) m).
  assert (length mbr = 512%nat) as Hl by (unfold mbr; rewrite length_take; lia).
  assert (bytes_ok mbr) as Hmbr by (by apply Forall_take).
  destruct (fbytes_byte disk_mbr "signature" mbr 510 2 0) as (b0 & E0 & _); [done..|lia|].
  destruct (fbytes_byte disk_mbr "signature" mbr 510 2 1) as (b1 & E1 & _); [done..|lia|].
  unfold mem_read. case_test. exists mbr. do 2 eexists. split; [done|].
  unfold print_boot_sector. by rewrite E0, E1.
Qed.

(** [gpt_print] prints the header and one block for every used entry up to the
    first unused one, in order, when the names of the used entries are
    terminated. A full table of 128 entries is not printed: the loop, which has
    no bound, reads behind the block. *)
Theorem gpt_print_spec m n out : zlen m = MBR_SIZE + GPT_SIZE → bytes_ok m → (n ≤ 128)%nat →
  (∀ j, (j < n)%nat → unused (gpt_entry m j) = false ∧
        gpt_partition_print (gpt_entry m j) = Some (out j)) →
  ((n < 128)%nat → unused (gpt_entry m n) = true →
     ∃ header, gpt_print {| pt_info := PLive m |}
               = Some (header ++ concat (map out (seq 0 n)))) ∧
  (n = 128%nat → gpt_print {| pt_info := PLive m |} = None).
Proof.
  intros Hm Hb Hn Hu. destruct (gpt_print_header m Hm Hb) as (mbr & boot & gpt & E1 & E2 & E3).
  unfold gpt_print. cbn [pt_info deref mbind option_bind]. rewrite E1. cbn [mbind option_bind].
  rewrite E2. cbn [mbind option_bind]. rewrite E3. cbn [mbind option_bind].
  change (MBR_SIZE + (GPT_SIZE - 128 * ENTRY_SIZE)) with (1024 + 128 * Z.of_nat 0).
  split.
  - intros Hlt Hend. rewrite (gpt_print_loop_ok m Hm n 0 out); [|lia| |done|lia].
    + cbn [mbind option_bind]. eexists. f_equal.
      assert (∀ a b c d e : output, a ++ b ++ c ++ d ++ e = (a ++ b ++ c ++ d) ++ e) as Happ
        by (intros; by rewrite <-!app_assoc).
      apply Happ.
    + intros j Hj. apply Hu. lia.
  - intros ->. rewrite (gpt_print_loop_overrun m Hm 128 0); [done|lia|].
    intros j Hj. apply Hu. lia.
Qed.

Lemma gpt_print_spec_witness : ∃ header out,
  gpt_partition_print (gpt_entry (witness_gpt 1) 0) = Some out ∧
  gpt_print {| pt_info := PLive (witness_gpt 1) |} = Some (header ++ out ++ []).
Proof.
  destruct (gpt_partition_print (gpt_entry (witness_gpt 1) 0)) as [o|] eqn:E.
  - destruct (gpt_print_spec (witness_gpt 1) 1 (λ _, o)) as [H _].
    + vm_compute. reflexivity.
    + apply (bool_decide_unpack _). vm_compute. exact I.
    + lia.
    + intros j Hj. assert (j = 0%nat) as -> by lia. split; [vm_compute; reflexivity|exact E].
    + destruct H as [header H]; [lia|vm_compute; reflexivity|].
      exists header, o. split; [reflexivity|exact H].
  - vm_compute in E. discriminate E.
Defined.
