(* ===== verification/NbdEnv.v ===== *)
(** * What the NBD server calls: libevent's buffers, the files of the kernel,
      the asynchronous Redis client

    Three interfaces the server is written against. The laws are the documented
    behaviour of the calls; each has an instance, on lists, by which the
    witnesses evaluate. *)
From S2P Require Import Prelude Words Memory.

(** ** [struct evbuffer] *)

Class EvBuffer := {
  evbuffer : Type;
  evbuffer_data : evbuffer → list Z;
  evbuffer_get_length : evbuffer → Z;
  evbuffer_pullup : evbuffer → Z → option (list Z);
  evbuffer_drain : evbuffer → Z → evbuffer;
  evbuffer_copyout : evbuffer → Z → list Z;
  evbuffer_add : evbuffer → list Z → evbuffer;
  evbuffer_get_length_spec b : evbuffer_get_length b = zlen (evbuffer_data b);
  (** contiguous access to the first [n] bytes, null when there are fewer *)
  evbuffer_pullup_spec b n :
    0 < n → evbuffer_pullup b n =
      if n <=? zlen (evbuffer_data b) then Some (take (Z.to_nat n) (evbuffer_data b))
      else None;
  evbuffer_drain_spec b n :
    0 ≤ n → evbuffer_data (evbuffer_drain b n) = drop (Z.to_nat n) (evbuffer_data b);
  evbuffer_copyout_spec b n :
    0 ≤ n → evbuffer_copyout b n = take (Z.to_nat n) (evbuffer_data b);
  evbuffer_add_spec b d : evbuffer_data (evbuffer_add b d) = evbuffer_data b ++ d;
}.

(** ** File descriptors: a failing call has an [errno], [inr]. *)

Class Posix := {
  files : Type;
  lseek64 : files → Z → Z → files * (unit + Z);
  sys_read : files → Z → Z → files * (list Z + Z);
  sys_write : files → Z → list Z → files * (Z + Z);
  fsync : files → Z → files * (unit + Z);
  fallocate_punch : files → Z → Z → Z → files * (unit + Z);
  sys_read_length fs fd n fs' d : 0 ≤ n → sys_read fs fd n = (fs', inl d) → zlen d ≤ n;
}.

(** Descriptor [fd] is an open regular file: [file_bytes] is its contents. A
    transfer inside the file is complete. *)
Class RegularFile `{Posix} (fd : Z) := {
  file_bytes : files → list Z;
  file_pos : files → Z;
  lseek_set fs off :
    0 ≤ off → ∃ fs', lseek64 fs fd off = (fs', inl tt) ∧
      file_bytes fs' = file_bytes fs ∧ file_pos fs' = off;
  read_inside fs n :
    0 ≤ n → file_pos fs + n ≤ zlen (file_bytes fs) → 0 ≤ file_pos fs →
    ∃ fs', sys_read fs fd n =
      (fs', inl (take (Z.to_nat n) (drop (Z.to_nat (file_pos fs)) (file_bytes fs)))) ∧
      file_bytes fs' = file_bytes fs;
  write_inside fs d :
    0 ≤ file_pos fs → file_pos fs + zlen d ≤ zlen (file_bytes fs) →
    ∃ fs', sys_write fs fd d = (fs', inl (zlen d)) ∧
      mem_write (file_bytes fs) (file_pos fs) d = Some (file_bytes fs');
  punch_inside fs off n :
    0 ≤ off → 0 < n → off + n ≤ zlen (file_bytes fs) →
    ∃ fs', fallocate_punch fs fd off n = (fs', inl tt) ∧
      mem_write (file_bytes fs) off (replicate (Z.to_nat n) 0) = Some (file_bytes fs');
  fsync_ok fs : ∃ fs', fsync fs fd = (fs', inl tt) ∧ file_bytes fs' = file_bytes fs;
}.

(** ** [redisAsyncCommand]: queues a command; [None] is [REDIS_ERR]. *)

Class AsyncRedis := {
  redis_async : Type;
  redisAsyncCommand : redis_async → list (list Z) → option redis_async;
  redis_commands : redis_async → list (list (list Z));
  redis_queues r c r' :
    redisAsyncCommand r c = Some r' → redis_commands r' = redis_commands r ++ [c];
}.

(** The connection is up: commands are accepted. *)
Class RedisUp `{AsyncRedis} := redis_up r c : is_Some (redisAsyncCommand r c).

(** ** Instances on lists *)

#[export, refine] Instance list_evbuffer : EvBuffer | 100 := {|
  evbuffer := list Z;
  evbuffer_data b := b;
  evbuffer_get_length b := zlen b;
  evbuffer_pullup b n := if n <=? zlen b then Some (take (Z.to_nat n) b) else None;
  evbuffer_drain b n := drop (Z.to_nat n) b;
  evbuffer_copyout b n := take (Z.to_nat n) b;
  evbuffer_add b d := b ++ d;
|}.
Proof. all: done. Defined.

(** One file: its bytes and the position of the descriptor. *)
Definition disk_read (f : list Z * Z) (n : Z) : (list Z * Z) * (list Z + Z) :=
  let d := take (Z.to_nat n) (drop (Z.to_nat f.2) f.1) in ((f.1, f.2 + zlen d), inl d).

Definition disk_write (f : list Z * Z) (d : list Z) : (list Z * Z) * (Z + Z) :=
  match mem_write f.1 f.2 d with
  | Some m => ((m, f.2 + zlen d), inl (zlen d))
  | None => (f, inr 28)
  end.

#[export, refine] Instance disk_posix : Posix | 100 := {|
  files := (list Z * Z)%type;
  lseek64 f _ off := if off <? 0 then (f, inr 22) else ((f.1, off), inl tt);
  sys_read f _ n := disk_read f n;
  sys_write f _ d := disk_write f d;
  fsync f _ := (f, inl tt);
  fallocate_punch f _ off n :=
    match mem_write f.1 off (replicate (Z.to_nat n) 0) with
    | Some m => ((m, f.2), inl tt)
    | None => (f, inr 22)
    end;
|}.
Proof.
  intros f _ n f' d Hn E. unfold disk_read in E. simplify_eq. len.
Defined.

#[export, refine] Instance disk_regular fd : RegularFile fd | 100 := {|
  file_bytes := fst : files → list Z;
  file_pos := snd : files → Z;
|}.
Proof.
  - intros f off Hoff. simpl. case_test. by eexists.
  - intros f n Hn Hl Hp. simpl. by eexists.
  - intros f d Hp Hl. simpl in *. unfold disk_write.
    destruct (mem_write_is_Some f.1 f.2 d) as [m E]; [done..|]. rewrite E. by eexists.
  - intros f off n Hoff Hn Hl. simpl in *.
    destruct (mem_write_is_Some f.1 off (replicate (Z.to_nat n) 0)) as [m E];
      [done|len|]. rewrite E. by eexists.
  - intros f. simpl. by eexists.
Defined.

#[export, refine] Instance list_redis : AsyncRedis | 100 := {|
  redis_async := list (list (list Z));
  redisAsyncCommand r c := Some (r ++ [c]);
  redis_commands r := r;
|}.
Proof. intros r c r' E. by simplify_eq. Defined.

#[export] Instance list_redis_up : @RedisUp list_redis.
Proof. intros r c. by eexists. Defined.
