(* ===== verification/Nbd.v ===== *)
(** * src/nbd/nbd.c: the NBD server

    One connection: its input and output buffers, the client state, and the
    file and the Redis connection it shares with the other clients. A client
    that has been freed is [None], and reading it has no result; a failing
    [assert] aborts and has no result either. *)
From S2P Require Import Prelude Words Memory Struct NbdEnv.

#[local] Open Scope string_scope.
#[local] Open Scope list_scope.
#[local] Open Scope Z_scope.

(** ** Constants and structs *)

Definition GAMMARAY_NBD_MAGIC : Z := 0x4e42444d41474943.
Definition GAMMARAY_NBD_OLD_PROTOCOL : Z := 0x00420281861253.
Definition GAMMARAY_NBD_NEW_PROTOCOL : Z := 0x49484156454F5054.
Definition GAMMARAY_NBD_REPLY_MAGIC : Z := 0x3e889045565a9.
Definition GAMMARAY_NBD_REQ_MAGIC : Z := 0x25609513.
Definition GAMMARAY_NBD_REP_MAGIC : Z := 0x67446698.

Definition NBD_CMD_READ : Z := 0x00.
Definition NBD_CMD_WRITE : Z := 0x01.
Definition NBD_CMD_DISC : Z := 0x02.
Definition NBD_CMD_FLUSH : Z := 0x03.
Definition NBD_CMD_TRIM : Z := 0x04.

Definition NBD_FLAG_HAS_FLAGS : Z := 0x01.
Definition NBD_FLAG_SEND_FLUSH : Z := 0x04.
Definition NBD_FLAG_SEND_FUA : Z := 0x08.
Definition NBD_FLAG_ROTATIONAL : Z := 0x10.
Definition NBD_FLAG_SEND_TRIM : Z := 0x20.
Definition NBD_FLAG_FIXED_NEWSTYLE : Z := 0x01.

Definition NBD_OPT_EXPORT_NAME : Z := 0x01.
Definition NBD_OPT_ABORT : Z := 0x02.
Definition NBD_REP_ERR_UNSUP : Z := 0x80000001.

Inductive NBD_CLIENT_STATE :=
  | NBD_HANDSHAKE_SENT
  | NBD_ZERO_RECEIVED
  | NBD_OPTION_SETTING
  | NBD_DATA_PUSHING
  | NBD_DISCONNECTED.

#[export] Instance nbd_client_state_dec : EqDecision NBD_CLIENT_STATE.
Proof. solve_decision. Defined.

Definition nbd_opt_header : layout :=
  [("magic", 8%nat); ("option", 4%nat); ("len", 4%nat)].

Definition nbd_req_header : layout :=
  [("magic", 4%nat); ("type", 4%nat); ("handle", 8%nat); ("offset", 8%nat);
   ("length", 4%nat)].

(** [be32toh(hdr.f)] and the like: the member's bytes, most significant first *)
Definition beget (L : layout) (f : string) (m : list Z) : Z := be_dec (fbytes L f m).

Definition OPT_SIZE : Z := 16.
Definition REQ_SIZE : Z := 28.

Record nbd_handle := {
  nh_fd : Z;
  nh_size : Z;
  nh_export_name : list Z;  (** without the terminator *)
  nh_name_len : Z;
  nh_redis : bool;  (** [redis_c != NULL] *)
}.

Record nbd_client := {
  nc_state : NBD_CLIENT_STATE;
  nc_write_count : Z;
  nc_write_bytes : Z;
  nc_buf : cptr;
}.

Definition set_state (s : NBD_CLIENT_STATE) (c : nbd_client) : nbd_client :=
  {| nc_state := s; nc_write_count := nc_write_count c;
     nc_write_bytes := nc_write_bytes c; nc_buf := nc_buf c |}.

Definition set_buf (p : cptr) (c : nbd_client) : nbd_client :=
  {| nc_state := nc_state c; nc_write_count := nc_write_count c;
     nc_write_bytes := nc_write_bytes c; nc_buf := p |}.

(** [write_count += 1; write_bytes += len] *)
Definition count_write (len : Z) (c : nbd_client) : nbd_client :=
  {| nc_state := nc_state c; nc_write_count := u64 (nc_write_count c + 1);
     nc_write_bytes := u64 (nc_write_bytes c + len); nc_buf := nc_buf c |}.

(** [strncmp(a, b, n) == 0] *)
Fixpoint strncmp_eq (n : nat) (a b : list Z) : option bool :=
  match n with
  | O => Some true
  | S n =>
      match a, b with
      | x :: a, y :: b =>
          if x =? y then if x =? 0 then Some true else strncmp_eq n a b else Some false
      | _, _ => None
      end
  end.

Section nbd.
Context `{Malloc} `{EvBuffer} `{Posix} `{AsyncRedis}.

Record conn := {
  c_in : evbuffer;
  c_out : evbuffer;
  c_client : option nbd_client;
  c_files : files;
  c_redis : redis_async;
}.

Definition drain (n : Z) (c : conn) : conn :=
  {| c_in := evbuffer_drain (c_in c) n; c_out := c_out c; c_client := c_client c;
     c_files := c_files c; c_redis := c_redis c |}.
Definition send (d : list Z) (c : conn) : conn :=
  {| c_in := c_in c; c_out := evbuffer_add (c_out c) d; c_client := c_client c;
     c_files := c_files c; c_redis := c_redis c |}.
Definition set_client (x : option nbd_client) (c : conn) : conn :=
  {| c_in := c_in c; c_out := c_out c; c_client := x;
     c_files := c_files c; c_redis := c_redis c |}.
Definition set_files (x : files) (c : conn) : conn :=
  {| c_in := c_in c; c_out := c_out c; c_client := c_client c;
     c_files := x; c_redis := c_redis c |}.
Definition set_redis (x : redis_async) (c : conn) : conn :=
  {| c_in := c_in c; c_out := c_out c; c_client := c_client c;
     c_files := c_files c; c_redis := x |}.

(** [client->state = s] *)
Definition enter (s : NBD_CLIENT_STATE) (c : conn) : option conn :=
  cl ← c_client c; Some (set_client (Some (set_state s cl)) c).

(** [nbd_ev_handler(bev, BEV_EVENT_EOF, client)]: frees the client. *)
Definition nbd_ev_handler_eof (c : conn) : option conn :=
  cl ← c_client c;
  _ ← cfree (nc_buf cl);
  Some (set_client None c).

(** ** Handshake; [true] means that more input is needed *)

Definition __check_zero_handshake (c : conn) : option (conn * bool) :=
  match evbuffer_pullup (c_in c) 4 with
  | Some peek =>
      if negb (le_dec peek =? 0) then c ← enter NBD_DISCONNECTED c; Some (c, false)
      else c ← enter NBD_ZERO_RECEIVED (drain 4 c); Some (c, false)
  | None => Some (c, true)
  end.

Definition export_flags : Z :=
  Z.lor NBD_FLAG_HAS_FLAGS (Z.lor NBD_FLAG_SEND_FLUSH (Z.lor NBD_FLAG_SEND_FUA
    (Z.lor NBD_FLAG_ROTATIONAL NBD_FLAG_SEND_TRIM))).

Definition __send_export_info (h : nbd_handle) (c : conn) : conn :=
  send (be_enc 8 (nh_size h) ++ be_enc 2 export_flags ++ replicate 124 0) c.

(** [option] are the bytes of the request's member, not converted. *)
Definition __send_unsupported_opt (option : list Z) (c : conn) : conn :=
  send (be_enc 8 GAMMARAY_NBD_REPLY_MAGIC ++ option ++ be_enc 4 NBD_REP_ERR_UNSUP ++
        le_enc 4 0) c.

(** [data] is a pointer and [len] the number of bytes behind it to send. *)
Definition __send_response (error handle : Z) (data : cptr) (len : Z) (c : conn) :
    option conn :=
  let c := send (be_enc 4 GAMMARAY_NBD_REP_MAGIC ++ be_enc 4 error ++ be_enc 8 handle) c in
  if negb (is_null data) && negb (len =? 0) then
    m ← deref data; d ← mem_read m 0 len; Some (send d c)
  else Some c.

Definition __check_opt_header (h : nbd_handle) (c : conn) : option (conn * bool) :=
  match evbuffer_pullup (c_in c) OPT_SIZE with
  | None => Some (c, true)
  | Some peek =>
      let fail := c ← enter NBD_DISCONNECTED c; Some (c, false) in
      if negb (beget nbd_opt_header "magic" peek =? GAMMARAY_NBD_NEW_PROTOCOL) then fail
      else
        let option := beget nbd_opt_header "option" peek in
        if option =? NBD_OPT_EXPORT_NAME then
          let name_len := beget nbd_opt_header "len" peek in
          if negb (name_len =? nh_name_len h) then fail
          else if evbuffer_get_length (c_in c) <? OPT_SIZE + name_len then Some (c, true)
          else
            let c := drain OPT_SIZE c in
            match evbuffer_pullup (c_in c) name_len with
            | None => c ← enter NBD_DISCONNECTED c; Some (c, false)
            | Some export_name =>
                eq ← strncmp_eq (Z.to_nat name_len) export_name (nh_export_name h ++ [0]);
                if eq : bool then
                  c ← enter NBD_DATA_PUSHING (__send_export_info h c);
                  Some (drain name_len c, false)
                else c ← enter NBD_DISCONNECTED c; Some (c, false)
            end
        else if option =? NBD_OPT_ABORT then fail
        else Some (__send_unsupported_opt (fbytes nbd_opt_header "option" peek) c, false)
  end.

(** ** Requests *)

(** [while (len) { ret = read(fd, buf, len); ...; len -= ret; }]; the second
    component is [errno] after a failure. *)
Fixpoint read_loop (fuel : nat) (fs : files) (fd : Z) (buf : list Z) (len : Z) :
    option (files * list Z * option Z) :=
  match fuel with
  | O => None
  | S fuel =>
      if len =? 0 then Some (fs, buf, None) else
      let '(fs, r) := sys_read fs fd len in
      match r with
      | inr e => Some (fs, buf, Some e)
      | inl d => buf ← mem_write buf 0 d; read_loop fuel fs fd buf (len - zlen d)
      end
  end.

(** [while (pos < len) { ret = write(fd, &(buf[pos]), len); ...; pos += ret; }] *)
Fixpoint write_loop (fuel : nat) (fs : files) (fd : Z) (buf : list Z) (pos len : Z) :
    option (files * option Z) :=
  match fuel with
  | O => None
  | S fuel =>
      if negb (pos <? len) then Some (fs, None) else
      d ← mem_read buf pos len;
      let '(fs, r) := sys_write fs fd d in
      match r with
      | inr e => Some (fs, Some e)
      | inl n => write_loop fuel fs fd buf (pos + n) len
      end
  end.

(** One turn per byte suffices when every call transfers something. *)
Definition io_fuel (len : Z) : nat := S (Z.to_nat len).

Definition err_of (e : option Z) : Z := match e with Some e => u32 e | None => 0 end.

(** [client->buf = buf = realloc(client->buf, len); assert(buf != NULL)] *)
Definition grow_buf (len : Z) (c : conn) : option (conn * nbd_client * list Z) :=
  cl ← c_client c;
  p ← crealloc (nc_buf cl) len;
  m ← deref p;
  let cl := set_buf p cl in
  Some (set_client (Some cl) c, cl, m).

Definition __handle_read (h : nbd_handle) (req : list Z) (c : conn) : option (conn * Z) :=
  let offset := s64 (beget nbd_req_header "offset" req) in
  let len := beget nbd_req_header "length" req in
  '(c, cl, m) ← grow_buf len c;
  let '(fs, r) := lseek64 (c_files c) (nh_fd h) offset in
  match r with
  | inr e => Some (set_files fs c, u32 e)
  | inl _ =>
      '(fs, m, e) ← read_loop (io_fuel len) fs (nh_fd h) m len;
      Some (set_files fs (set_client (Some (set_buf (PLive m) cl)) c), err_of e)
  end.

(** [LPUSH writequeue <payload>] *)
Definition lpush_writequeue (payload : list Z) (c : conn) : option conn :=
  r ← redisAsyncCommand (c_redis c) [str_bytes "LPUSH"; str_bytes "writequeue"; payload];
  Some (set_redis r c).

(** [-1] as a [uint32_t] *)
Definition ERR_MORE : Z := u32 (-1).

Definition __handle_write (h : nbd_handle) (req : list Z) (c : conn) : option (conn * Z) :=
  let offset := s64 (beget nbd_req_header "offset" req) in
  let len := beget nbd_req_header "length" req in
  '(c, cl, m) ← grow_buf len c;
  if evbuffer_get_length (c_in c) <? REQ_SIZE + len then Some (c, ERR_MORE) else
  let c := drain REQ_SIZE c in
  let d := evbuffer_copyout (c_in c) len in
  m ← mem_write m 0 d;
  let c := set_client (Some (set_buf (PLive m) cl)) c in
  if zlen d <? len then Some (c, ERR_MORE) else
  let c := set_client (Some (count_write len (set_buf (PLive m) cl))) c in
  if negb ((0 <? nh_fd h) && nh_redis h) then None else
  let '(fs, r) := lseek64 (c_files c) (nh_fd h) offset in
  let c := set_files fs c in
  match r with
  | inr e => Some (c, u32 e)
  | inl _ =>
      '(fs, e) ← write_loop (io_fuel len) fs (nh_fd h) m 0 len;
      let c := set_files fs c in
      match e with
      | Some e => Some (c, u32 e)
      | None =>
          c ← lpush_writequeue (le_enc 8 (Z.quot offset 512)) c;
          c ← lpush_writequeue m c;
          Some (c, 0)
      end
  end.

Definition result_code (r : unit + Z) : Z :=
  match r with inl _ => 0 | inr e => u32 e end.

Definition __check_request (h : nbd_handle) (c : conn) : option (conn * bool) :=
  match evbuffer_pullup (c_in c) REQ_SIZE with
  | None => Some (c, true)
  | Some req =>
      if negb (beget nbd_req_header "magic" req =? GAMMARAY_NBD_REQ_MAGIC) then Some (c, true)
      else
        let handle := beget nbd_req_header "handle" req in
        let length := beget nbd_req_header "length" req in
        let type := beget nbd_req_header "type" req in
        if type =? NBD_CMD_READ then
          '(c, err) ← __handle_read h req c;
          if err =? ERR_MORE then Some (c, true) else
          let c := drain REQ_SIZE c in
          cl ← c_client c;
          c ← __send_response err handle (nc_buf cl) length c;
          Some (c, false)
        else if type =? NBD_CMD_WRITE then
          '(c, err) ← __handle_write h req c;
          if err =? ERR_MORE then Some (c, true) else
          let c := drain length c in
          c ← __send_response err handle PNull 0 c;
          Some (c, false)
        else if type =? NBD_CMD_DISC then
          c ← enter NBD_DISCONNECTED c;
          c ← nbd_ev_handler_eof (drain REQ_SIZE c);
          Some (c, false)
        else if type =? NBD_CMD_FLUSH then
          let c := drain REQ_SIZE c in
          let '(fs, r) := fsync (c_files c) (nh_fd h) in
          c ← __send_response (result_code r) handle PNull 0 (set_files fs c);
          Some (c, false)
        else if type =? NBD_CMD_TRIM then
          let c := drain REQ_SIZE c in
          let '(fs, r) := fallocate_punch (c_files c) (nh_fd h)
                            (s64 (beget nbd_req_header "offset" req)) length in
          c ← __send_response (result_code r) handle PNull 0 (set_files fs c);
          Some (c, false)
        else
          let c := match evbuffer_pullup (c_in c) (REQ_SIZE + length) with
                   | Some _ => drain (REQ_SIZE + length) c
                   | None => c
                   end in
          c ← enter NBD_DISCONNECTED c;
          c ← nbd_ev_handler_eof c;
          Some (c, true)
  end.

(** ** The read callback: [fuel] bounds the turns of its loop *)

Fixpoint nbd_client_handler (fuel : nat) (h : nbd_handle) (c : conn) : option conn :=
  match fuel with
  | O => None
  | S fuel =>
      if evbuffer_get_length (c_in c) =? 0 then Some c else
      cl ← c_client c;
      match nc_state cl with
      | NBD_HANDSHAKE_SENT =>
          '(c, more) ← __check_zero_handshake c;
          if more : bool then Some c else nbd_client_handler fuel h c
      | NBD_ZERO_RECEIVED =>
          '(c, more) ← __check_opt_header h c;
          if more : bool then Some c else nbd_client_handler fuel h c
      | NBD_DATA_PUSHING =>
          '(c, more) ← __check_request h c;
          if more : bool then Some c else nbd_client_handler fuel h c
      | NBD_DISCONNECTED => nbd_ev_handler_eof c
      | NBD_OPTION_SETTING => Some c
      end
  end.

(** ** New connections *)

Definition new_client (s : NBD_CLIENT_STATE) : nbd_client :=
  {| nc_state := s; nc_write_count := 0; nc_write_bytes := 0; nc_buf := PNull |}.

(** The arguments are the empty buffers of the new bufferevent. *)
Definition nbd_new_conn (i o : evbuffer) (fs : files) (r : redis_async) : conn :=
  send (be_enc 8 GAMMARAY_NBD_MAGIC ++ be_enc 8 GAMMARAY_NBD_NEW_PROTOCOL ++
        be_enc 2 NBD_FLAG_FIXED_NEWSTYLE)
    {| c_in := i; c_out := o; c_client := Some (new_client NBD_HANDSHAKE_SENT);
       c_files := fs; c_redis := r |}.

Definition nbd_old_conn (h : nbd_handle) (i o : evbuffer) (fs : files) (r : redis_async) :
    conn :=
  send (be_enc 8 GAMMARAY_NBD_MAGIC ++ be_enc 8 GAMMARAY_NBD_OLD_PROTOCOL ++
        be_enc 8 (nh_size h) ++
        be_enc 4 (Z.lor NBD_FLAG_HAS_FLAGS (Z.lor NBD_FLAG_SEND_FLUSH
                   (Z.lor NBD_FLAG_SEND_FUA NBD_FLAG_SEND_TRIM))) ++
        replicate 124 0)
    {| c_in := i; c_out := o; c_client := Some (new_client NBD_DATA_PUSHING);
       c_files := fs; c_redis := r |}.
End nbd.
