(* ===== verification/NbdSpec.v ===== *)
(** * The NBD server implements an abstract block server

    The abstract server is a disk (its bytes) that consumes requests and
    produces replies; [spec_request] is one request of it. The theorems relate
    the callbacks of Nbd to it, for every buffer, file and Redis client that
    keep the laws of NbdEnv. *)
From S2P Require Import Prelude Words Memory Struct NbdEnv Nbd.

#[local] Open Scope string_scope.
#[local] Open Scope list_scope.
#[local] Open Scope Z_scope.

(** ** The abstract server *)

Inductive request :=
  | RRead (handle off len : Z)
  | RWrite (handle off : Z) (data : list Z)
  | RFlush (handle off len : Z)
  | RTrim (handle off len : Z).

Definition enc_header (type handle off len : Z) : list Z :=
  be_enc 4 GAMMARAY_NBD_REQ_MAGIC ++ be_enc 4 type ++ be_enc 8 handle ++ be_enc 8 off ++
  be_enc 4 len.

(** The bytes of a request on the wire. *)
Definition enc_request (r : request) : list Z :=
  match r with
  | RRead h off len => enc_header NBD_CMD_READ h off len
  | RWrite h off d => enc_header NBD_CMD_WRITE h off (zlen d) ++ d
  | RFlush h off len => enc_header NBD_CMD_FLUSH h off len
  | RTrim h off len => enc_header NBD_CMD_TRIM h off len
  end.

Definition req_ok (r : request) : Prop :=
  let ok h off := 0 ≤ h < 2 ^ 64 ∧ 0 ≤ off < 2 ^ 63 in
  match r with
  | RRead h off len | RTrim h off len => ok h off ∧ 0 < len < 2 ^ 32
  | RFlush h off len => ok h off ∧ 0 ≤ len < 2 ^ 32
  | RWrite h off d => ok h off ∧ 0 < zlen d < 2 ^ 32
  end.

Definition reply (error handle : Z) : list Z :=
  be_enc 4 GAMMARAY_NBD_REP_MAGIC ++ be_enc 4 error ++ be_enc 8 handle.

Definition lpush (payload : list Z) : list (list Z) :=
  [str_bytes "LPUSH"; str_bytes "writequeue"; payload].

(** One request on a disk: the new disk, the bytes of the reply, the commands
    sent to Redis. No result when the request leaves the disk. *)
Definition spec_request (disk : list Z) (r : request) :
    option (list Z * list Z * list (list (list Z))) :=
  match r with
  | RRead h off len => d ← mem_read disk off len; Some (disk, reply 0 h ++ d, [])
  | RWrite h off d =>
      disk ← mem_write disk off d;
      Some (disk, reply 0 h, [lpush (le_enc 8 (off `div` 512)); lpush d])
  | RFlush h _ _ => Some (disk, reply 0 h, [])
  | RTrim h off len =>
      disk ← mem_write disk off (replicate (Z.to_nat len) 0);
      Some (disk, reply 0 h, [])
  end.

Fixpoint spec_requests (disk : list Z) (rs : list request) :
    option (list Z * list Z * list (list (list Z))) :=
  match rs with
  | [] => Some (disk, [], [])
  | r :: rs =>
      '(disk, out, cmds) ← spec_request disk r;
      '(disk, out', cmds') ← spec_requests disk rs;
      Some (disk, out ++ out', cmds ++ cmds')
  end.

Lemma spec_requests_app rs1 : ∀ rs2 d d' rep cmds,
  spec_requests d (rs1 ++ rs2) = Some (d', rep, cmds) →
  ∃ d1 rep1 rep2 cmds1 cmds2, spec_requests d rs1 = Some (d1, rep1, cmds1) ∧
    spec_requests d1 rs2 = Some (d', rep2, cmds2) ∧
    rep = rep1 ++ rep2 ∧ cmds = cmds1 ++ cmds2.
Proof.
  induction rs1 as [|r rs1 IH]; intros rs2 d d' rep cmds E; simpl in *.
  { by exists d, [], rep, [], cmds. }
  bind_inv E. destruct x as [[d0 rep0] cmds0]. bind_inv E. destruct x as [[d2 repr] cmdsr].
  apply IH in E1 as (d1 & rep1 & rep2 & cmds1 & cmds2 & E1 & E2 & -> & ->).
  rewrite E0. simpl. rewrite E1. simpl. simplify_eq.
  exists d1, (rep0 ++ rep1), rep2, (cmds0 ++ cmds1), cmds2. by rewrite !app_assoc.
Qed.

(** ** The fields of a header *)

Lemma length_enc_header t h off len : length (enc_header t h off len) = 28%nat.
Proof. unfold enc_header. len. Qed.

#[export] Hint Rewrite length_enc_header : len.

Lemma be_dec_small n z : 0 ≤ z < 2 ^ (8 * Z.of_nat n) → be_dec (be_enc n z) = z.
Proof. intros. rewrite be_dec_enc. by apply Z.mod_small. Qed.

Lemma fbytes_mid L f o n pre d post :
  offset_of L f = Some (o, n) → length pre = o → length d = n →
  fbytes L f (pre ++ d ++ post) = d.
Proof.
  intros E Hp Hd. unfold fbytes. rewrite E, drop_app_exact by done.
  by apply take_app_exact.
Qed.

Lemma header_fields t h off len :
  0 ≤ t < 2 ^ 32 → 0 ≤ h < 2 ^ 64 → 0 ≤ off < 2 ^ 64 → 0 ≤ len < 2 ^ 32 →
  let m := enc_header t h off len in
  beget nbd_req_header "magic" m = GAMMARAY_NBD_REQ_MAGIC ∧
  beget nbd_req_header "type" m = t ∧ beget nbd_req_header "handle" m = h ∧
  beget nbd_req_header "offset" m = off ∧ beget nbd_req_header "length" m = len.
Proof.
  intros Ht Hh Ho Hl m. unfold beget, m, enc_header.
  set (a := be_enc 4 GAMMARAY_NBD_REQ_MAGIC). set (b := be_enc 4 t).
  set (c := be_enc 8 h). set (d := be_enc 8 off). set (e := be_enc 4 len).
  assert (length a = 4 ∧ length b = 4 ∧ length c = 8 ∧ length d = 8 ∧ length e = 4)%nat
    as (La & Lb & Lc & Ld & Le) by (unfold a, b, c, d, e; rewrite !length_be_enc; done).
  pose proof (fbytes_mid nbd_req_header "magic" 0 4 [] a (b ++ c ++ d ++ e)
                eq_refl eq_refl La) as Em.
  simpl in Em. rewrite Em. clear Em.
  rewrite (fbytes_mid _ "type" 4 4 a b) by done.
  replace (a ++ b ++ c ++ d ++ e) with ((a ++ b) ++ c ++ d ++ e) by (by rewrite <-!app_assoc).
  rewrite (fbytes_mid _ "handle" 8 8 (a ++ b) c) by (done || len).
  replace ((a ++ b) ++ c ++ d ++ e) with ((a ++ b ++ c) ++ d ++ e) by (by rewrite <-!app_assoc).
  rewrite (fbytes_mid _ "offset" 16 8 (a ++ b ++ c) d) by (done || len).
  replace ((a ++ b ++ c) ++ d ++ e) with ((a ++ b ++ c ++ d) ++ e ++ [])
    by (by rewrite app_nil_r, <-!app_assoc).
  rewrite (fbytes_mid _ "length" 24 4 (a ++ b ++ c ++ d) e) by (done || len).
  unfold a, b, c, d, e. rewrite !be_dec_small by (done || lia). done.
Qed.

(** ** The simulation relation *)

Section server.
Context `{MallocTotal} `{EvBuffer} `{Posix} `{RedisUp}.
Context (h : nbd_handle) `{!RegularFile (nh_fd h)}.

(** The connection has the unread bytes [input], has been sent [output], and
    the disk and the commands queued for Redis are [disk] and [log]. *)
Record serving (c : conn) (input output disk : list Z) (log : list (list (list Z))) :
    Prop := {
  sv_client : ∃ cl, c_client c = Some cl ∧ nc_state cl = NBD_DATA_PUSHING ∧
                    nc_buf cl ≠ PDangling;
  sv_in : evbuffer_data (c_in c) = input;
  sv_out : evbuffer_data (c_out c) = output;
  sv_disk : file_bytes (c_files c) = disk;
  sv_log : redis_commands (c_redis c) = log;
}.

Lemma serving_drain c i o d l n :
  serving c i o d l → 0 ≤ n → serving (drain n c) (drop (Z.to_nat n) i) o d l.
Proof. intros [] Hn. split; simpl; try done. rewrite evbuffer_drain_spec by done. by subst. Qed.

Lemma serving_send c i o d l x : serving c i o d l → serving (send x c) i (o ++ x) d l.
Proof. intros []. split; simpl; try done. rewrite evbuffer_add_spec. by subst. Qed.

Lemma serving_files c i o d l fs d' :
  serving c i o d l → file_bytes fs = d' → serving (set_files fs c) i o d' l.
Proof. intros [] E. by split. Qed.

Lemma serving_set_client c i o d l cl :
  serving c i o d l → nc_state cl = NBD_DATA_PUSHING → nc_buf cl ≠ PDangling →
  serving (set_client (Some cl) c) i o d l.
Proof. intros [] Hs Hb. split; simpl; try done. by exists cl. Qed.

Lemma serving_lpush c i o d l x :
  serving c i o d l →
  ∃ c', lpush_writequeue x c = Some c' ∧ serving c' i o d (l ++ [lpush x]).
Proof.
  intros [Hc Hi Ho Hd Hl]. unfold lpush_writequeue.
  destruct (redis_up (c_redis c) (lpush x)) as [r E]. unfold lpush in E. rewrite E. simpl.
  eexists. split; [done|]. apply redis_queues in E. split; try done.
  simpl. by rewrite E, Hl.
Qed.

Lemma serving_pullup c i o d l n :
  serving c i o d l → 0 < n →
  evbuffer_pullup (c_in c) n = if n <=? zlen i then Some (take (Z.to_nat n) i) else None.
Proof. intros [_ <- _ _ _] Hn. by apply evbuffer_pullup_spec. Qed.

Lemma serving_grow_buf c i o d l n :
  serving c i o d l → 0 ≤ n < 2 ^ 63 →
  ∃ cl m, grow_buf n c = Some (set_client (Some cl) c, cl, m) ∧
    zlen m = n ∧ nc_state cl = NBD_DATA_PUSHING ∧ nc_buf cl = PLive m.
Proof.
  intros [(cl & Ec & Es & Eb) _ _ _ _] Hn. unfold grow_buf. rewrite Ec. simpl.
  destruct (crealloc_live (nc_buf cl) n Hn Eb) as (m & E & Hm). rewrite E. simpl.
  by exists (set_buf (PLive m) cl), m.
Qed.

Lemma serving_response c i o d l err hd :
  serving c i o d l →
  ∃ c', __send_response err hd PNull 0 c = Some c' ∧
    serving c' i (o ++ reply err hd) d l.
Proof. intros Hs. eexists. split; [done|]. by apply serving_send. Qed.

(** ** The loops on a regular file *)

Lemma read_loop_full fs m off len d :
  0 < len → zlen m = len → 0 ≤ off → file_pos fs = off →
  mem_read (file_bytes fs) off len = Some d →
  ∃ fs', read_loop (io_fuel len) fs (nh_fd h) m len = Some (fs', d, None) ∧
    file_bytes fs' = file_bytes fs.
Proof.
  intros Hl Hm Ho Hp Hr. pose proof (mem_read_length _ _ _ _ Hr) as Hd.
  unfold mem_read in Hr. case_bool_decide as Hc; [|done]. simplify_eq Hr.
  intros <-. destruct (read_inside fs len) as (fs' & E & Eb); [lia..|].
  exists fs'. split; [|done]. unfold io_fuel.
  destruct (Z.to_nat len) as [|k] eqn:Ek; [lia|].
  cbn [read_loop]. case_test. rewrite E. rewrite Hp in *.
  set (x := take _ _) in *.
  pose proof (mem_write_app [] m x [] 0 eq_refl) as W. simpl in W.
  rewrite !app_nil_r in W. rewrite W by lia. cbn [mbind option_bind].
  by rewrite Hd, Z.sub_diag.
Qed.

Lemma write_loop_full fs d off disk' :
  0 < zlen d → 0 ≤ off → file_pos fs = off →
  mem_write (file_bytes fs) off d = Some disk' →
  ∃ fs', write_loop (io_fuel (zlen d)) fs (nh_fd h) d 0 (zlen d) = Some (fs', None) ∧
    file_bytes fs' = disk'.
Proof.
  intros Hl Ho Hp Hw.
  assert (off + zlen d ≤ zlen (file_bytes fs)) as Hr.
  { unfold mem_write in Hw. case_bool_decide; [lia|done]. }
  destruct (write_inside fs d) as (fs' & E & Eb); [lia..|].
  rewrite Hp, Hw in Eb. simplify_eq Eb. intros ->.
  exists fs'. split; [|done]. unfold io_fuel.
  destruct (Z.to_nat (zlen d)) as [|k] eqn:Ek; [lia|].
  cbn [write_loop]. case_test. cbn [negb].
  rewrite mem_read_prefix, Nat2Z.id, firstn_all by lia. cbn [mbind option_bind].
  rewrite E. cbn [write_loop]. rewrite Z.add_0_l, Z.ltb_irrefl. done.
Qed.
(** ** One request *)

Lemma pullup_header c t hd off len tail o d l :
  serving c (enc_header t hd off len ++ tail) o d l →
  evbuffer_pullup (c_in c) REQ_SIZE = Some (enc_header t hd off len).
Proof.
  intros Hs. rewrite (serving_pullup _ _ _ _ _ _ Hs) by done.
  unfold REQ_SIZE. autorewrite with len. case_test. by rewrite (take_app_exact (enc_header t hd off len)) by len.
Qed.

Lemma drain_header c t hd off len tail o d l :
  serving c (enc_header t hd off len ++ tail) o d l →
  serving (drain REQ_SIZE c) tail o d l.
Proof.
  intros Hs. apply (serving_drain _ _ _ _ _ REQ_SIZE) in Hs; [|done].
  rewrite drop_app_exact in Hs; [exact Hs|]. by rewrite length_enc_header.
Qed.

Lemma check_request_header c t hd off len tail o d l :
  serving c (enc_header t hd off len ++ tail) o d l →
  0 ≤ t < 2 ^ 32 → 0 ≤ hd < 2 ^ 64 → 0 ≤ off < 2 ^ 63 → 0 ≤ len < 2 ^ 32 →
  let m := enc_header t hd off len in
  evbuffer_pullup (c_in c) REQ_SIZE = Some m ∧
  beget nbd_req_header "magic" m = GAMMARAY_NBD_REQ_MAGIC ∧
  beget nbd_req_header "type" m = t ∧ beget nbd_req_header "handle" m = hd ∧
  beget nbd_req_header "offset" m = off ∧ beget nbd_req_header "length" m = len.
Proof.
  intros Hs Ht Hh Ho Hl m. split; [by eapply pullup_header|].
  apply header_fields; lia.
Qed.

(** Opens [__check_request] on a request with known fields. *)
Ltac open_request Hs :=
  destruct (check_request_header _ _ _ _ _ _ _ _ _ Hs) as (Ep & Em & Et & Eh & Eo & El);
  [done|lia..|]; unfold __check_request; rewrite Ep, Em, Et, Eh, El, Z.eqb_refl;
  cbn [negb].

Lemma read_step c hd off len rest o d l x :
  serving c (enc_request (RRead hd off len) ++ rest) o d l →
  req_ok (RRead hd off len) → mem_read d off len = Some x →
  ∃ c', __check_request h c = Some (c', false) ∧
        serving c' rest (o ++ reply 0 hd ++ x) d l.
Proof.
  intros Hs [[Hh Ho] Hl] Hx. simpl in Hs. open_request Hs.
  cbn [Z.eqb NBD_CMD_READ]. unfold __handle_read. rewrite Eo, El, swrap_small by lia.
  destruct (serving_grow_buf _ _ _ _ _ len Hs) as (cl & m & Eg & Hm & Hst & Hbuf); [lia|].
  rewrite Eg. cbn [mbind option_bind c_files set_client].
  destruct (lseek_set (fd := nh_fd h) (c_files c) off) as (fs & Ef & Eb & Epos); [lia|].
  rewrite Ef. destruct (read_loop_full fs m off len x) as (fs' & Er & Eb'); [lia..|done| |].
  { rewrite Eb. by destruct Hs as [_ _ _ -> _]. }
  rewrite Er. cbn [mbind option_bind err_of].
  cbn [c_client set_files set_client drain]. cbn [mbind option_bind].
  unfold __send_response. cbn [nc_buf set_buf is_null negb andb deref].
  change (0 =? ERR_MORE) with false. cbv iota. case_test. cbn [negb mbind option_bind].
  pose proof (mem_read_length _ _ _ _ Hx) as Hlx.
  rewrite mem_read_prefix by lia. rewrite <-Hlx, Nat2Z.id, firstn_all.
  cbn [mbind option_bind]. eexists. split; [done|].
  rewrite (app_assoc o). apply serving_send, serving_send.
  eapply (drain_header _ NBD_CMD_READ hd off len).
  apply serving_files with (d := d); [|by rewrite Eb', Eb; destruct Hs].
  by apply serving_set_client; [apply serving_set_client; [..|by rewrite Hbuf]|..].
Qed.

Lemma write_step c hd off x rest o d l d' :
  0 < nh_fd h → nh_redis h = true →
  serving c (enc_request (RWrite hd off x) ++ rest) o d l →
  req_ok (RWrite hd off x) → mem_write d off x = Some d' →
  ∃ c', __check_request h c = Some (c', false) ∧
        serving c' rest (o ++ reply 0 hd) d'
          (l ++ [lpush (le_enc 8 (off `div` 512)); lpush x]).
Proof.
  intros Hfd Hredis Hs [[Hh Ho] Hl] Hx. simpl in Hs. rewrite <-app_assoc in Hs.
  open_request Hs. cbn [Z.eqb NBD_CMD_READ NBD_CMD_WRITE].
  unfold __handle_write. rewrite Eo, El, swrap_small by lia.
  destruct (serving_grow_buf _ _ _ _ _ (zlen x) Hs) as (cl & m & Eg & Hm & Hst & Hbuf); [lia|].
  rewrite Eg. cbn [mbind option_bind].
  assert (serving (set_client (Some cl) c)
            (enc_header NBD_CMD_WRITE hd off (zlen x) ++ x ++ rest) o d l) as Hs1.
  { by apply serving_set_client; [|..|by rewrite Hbuf]. }
  rewrite evbuffer_get_length_spec, (sv_in _ _ _ _ _ Hs1).
  unfold REQ_SIZE at 1. autorewrite with len. case_test.
  apply drain_header in Hs1. set (c1 := drain REQ_SIZE (set_client (Some cl) c)) in *.
  rewrite evbuffer_copyout_spec, (sv_in _ _ _ _ _ Hs1), Nat2Z.id, take_app_length by lia.
  pose proof (mem_write_app [] m x [] 0 eq_refl) as W. simpl in W.
  rewrite !app_nil_r in W. rewrite W by lia. cbn [mbind option_bind].
  rewrite Z.ltb_irrefl, Hredis, (proj2 (Z.ltb_lt 0 (nh_fd h))) by done. cbn [andb negb].
  set (c2 := set_client _ (set_client _ c1)).
  assert (serving c2 (x ++ rest) o d l) as Hs2.
  { apply serving_set_client; [apply serving_set_client|..]; done. }
  clearbody c2. destruct (lseek_set (fd := nh_fd h) (c_files c2) off)
    as (fs & Ef & Eb & Epos); [lia|]. rewrite Ef.
  destruct (write_loop_full fs x off d') as (fs' & Er & Eb'); [lia..|done| |].
  { rewrite Eb. by destruct Hs2 as [_ _ _ -> _]. }
  rewrite Er. cbn [mbind option_bind].
  assert (serving (set_files fs' (set_files fs c2)) (x ++ rest) o d' l) as Hs3.
  { eapply serving_files; [|done]. by eapply serving_files; [|done]. }
  clearbody c1. rewrite Z.quot_div_nonneg by lia.
  destruct (serving_lpush _ _ _ _ _ (le_enc 8 (off `div` 512)) Hs3) as (c4 & E4 & Hs4).
  rewrite E4. cbn [mbind option_bind].
  destruct (serving_lpush _ _ _ _ _ x Hs4) as (c5 & E5 & Hs5).
  rewrite E5. cbn [mbind option_bind].
  change (0 =? ERR_MORE) with false. cbv iota.
  apply (serving_drain _ _ _ _ _ (zlen x)) in Hs5; [|lia].
  rewrite Nat2Z.id, drop_app_length in Hs5.
  destruct (serving_response _ _ _ _ _ 0 hd Hs5) as (c6 & E6 & Hs6).
  rewrite E6. cbn [mbind option_bind]. exists c6. split; [done|].
  by rewrite <-app_assoc in Hs6.
Qed.
Lemma flush_step c hd off len rest o d l :
  serving c (enc_request (RFlush hd off len) ++ rest) o d l →
  req_ok (RFlush hd off len) →
  ∃ c', __check_request h c = Some (c', false) ∧ serving c' rest (o ++ reply 0 hd) d l.
Proof.
  intros Hs [[Hh Ho] Hl]. simpl in Hs. open_request Hs.
  cbn [Z.eqb NBD_CMD_READ NBD_CMD_WRITE NBD_CMD_DISC NBD_CMD_FLUSH Pos.eqb].
  apply drain_header in Hs.
  destruct (fsync_ok (fd := nh_fd h) (c_files (drain REQ_SIZE c))) as (fs & Ef & Eb).
  rewrite Ef. assert (serving (set_files fs (drain REQ_SIZE c)) rest o d l) as Hs1.
  { eapply serving_files; [done|]. rewrite Eb. by destruct Hs. }
  eexists. split; [done|]. by apply serving_send.
Qed.

Lemma trim_step c hd off len rest o d l d' :
  serving c (enc_request (RTrim hd off len) ++ rest) o d l →
  req_ok (RTrim hd off len) → mem_write d off (replicate (Z.to_nat len) 0) = Some d' →
  ∃ c', __check_request h c = Some (c', false) ∧ serving c' rest (o ++ reply 0 hd) d' l.
Proof.
  intros Hs [[Hh Ho] Hl] Hw. simpl in Hs. open_request Hs.
  cbn [Z.eqb NBD_CMD_READ NBD_CMD_WRITE NBD_CMD_DISC NBD_CMD_FLUSH NBD_CMD_TRIM Pos.eqb].
  apply drain_header in Hs. rewrite Eo, swrap_small by lia.
  assert (off + len ≤ zlen d) as Hr.
  { unfold mem_write in Hw. case_bool_decide as Hc; [|done].
    autorewrite with len in Hc. lia. }
  destruct (punch_inside (fd := nh_fd h) (c_files (drain REQ_SIZE c)) off len)
    as (fs & Ef & Eb); [lia..| |].
  { rewrite (sv_disk _ _ _ _ _ Hs). lia. }
  rewrite Ef. rewrite (sv_disk _ _ _ _ _ Hs), Hw in Eb. simplify_eq Eb. intros E.
  assert (serving (set_files fs (drain REQ_SIZE c)) rest o d' l) as Hs1.
  { by eapply serving_files. }
  eexists. split; [done|]. by apply serving_send.
Qed.

Hypothesis Hfd : 0 < nh_fd h.
Hypothesis Hredis : nh_redis h = true.

Lemma request_step c r rest o d l d' rep cmds :
  serving c (enc_request r ++ rest) o d l → req_ok r →
  spec_request d r = Some (d', rep, cmds) →
  ∃ c', __check_request h c = Some (c', false) ∧ serving c' rest (o ++ rep) d' (l ++ cmds).
Proof.
  intros Hs Hr E. destruct r as [hd off len|hd off x|hd off len|hd off len]; simpl in E.
  - bind_inv E. simplify_eq. rewrite app_nil_r. by eapply read_step.
  - bind_inv E. simplify_eq. by eapply write_step.
  - simplify_eq. rewrite app_nil_r. by eapply flush_step.
  - bind_inv E. simplify_eq. rewrite app_nil_r. by eapply trim_step.
Qed.

(** ** Requests that have not arrived completely *)

Definition partial (p : list Z) : Prop :=
  ∃ r q, req_ok r ∧ p ++ q = enc_request r ∧ q ≠ [].

Lemma partial_write hd off x p q :
  p ++ q = enc_header NBD_CMD_WRITE hd off (zlen x) ++ x → 28 ≤ zlen p → q ≠ [] →
  ∃ y, p = enc_header NBD_CMD_WRITE hd off (zlen x) ++ y ∧ zlen y < zlen x.
Proof.
  intros E Hp Hq. exists (drop 28 p).
  assert (take 28 p = enc_header NBD_CMD_WRITE hd off (zlen x)) as Et.
  { rewrite <-(take_app_le p q 28) by lia. rewrite E. by apply take_app_exact. }
  split; [by rewrite <-Et, take_drop|].
  apply (f_equal length) in E. autorewrite with len in E.
  rewrite length_drop. destruct q; [done|]. simpl in E. lia.
Qed.

(** Nothing happens but that a buffer may be allocated. *)
Lemma partial_step c p o d l :
  serving c p o d l → partial p →
  ∃ c', __check_request h c = Some (c', true) ∧ serving c' p o d l.
Proof.
  intros Hs (r & q & Hr & E & Hq).
  destruct (Z.lt_ge_cases (zlen p) 28) as [Hp|Hp].
  { unfold __check_request. rewrite (serving_pullup _ _ _ _ _ _ Hs) by done.
    unfold REQ_SIZE. case_test. by exists c. }
  assert (0 < length q)%nat as Hlq by (destruct q; [done|simpl; lia]).
  pose proof (f_equal length E) as Elen. rewrite length_app in Elen.
  destruct r as [hd off len|hd off x|hd off len|hd off len]; simpl in E, Elen;
    rewrite ?length_enc_header in Elen; try lia.
  destruct (partial_write hd off x p q E Hp Hq) as (y & -> & Hy).
  destruct Hr as [[Hh Ho] Hl]. open_request Hs.
  cbn [Z.eqb NBD_CMD_READ NBD_CMD_WRITE].
  unfold __handle_write. rewrite Eo, El.
  destruct (serving_grow_buf _ _ _ _ _ (zlen x) Hs) as (cl & m & Eg & Hm & Hst & Hbuf); [lia|].
  rewrite Eg. cbn [mbind option_bind].
  rewrite evbuffer_get_length_spec. cbn [c_in set_client]. rewrite (sv_in _ _ _ _ _ Hs).
  unfold REQ_SIZE at 1. autorewrite with len. case_test.
  cbn [mbind option_bind]. rewrite Z.eqb_refl. eexists. split; [done|].
  by apply serving_set_client; [|..|by rewrite Hbuf].
Qed.
(** ** The callback and the stream *)

Definition stalled (p : list Z) : Prop := p = [] ∨ partial p.

Abbreviation enc_requests rs := (mjoin (enc_request <$> rs)).

Lemma handler_pushing fuel c i o d l :
  serving c i o d l → i ≠ [] →
  nbd_client_handler (S fuel) h c =
    ('(c, more) ← __check_request h c;
     if more : bool then Some c else nbd_client_handler fuel h c).
Proof.
  intros Hs Hi. cbn [nbd_client_handler].
  rewrite evbuffer_get_length_spec, (sv_in _ _ _ _ _ Hs).
  rewrite (proj2 (Z.eqb_neq (zlen i) 0)) by (destruct i; simpl; [done|lia]).
  destruct (sv_client _ _ _ _ _ Hs) as (cl & -> & E & _). simpl. by rewrite E.
Qed.

Lemma handler_empty fuel c o d l :
  serving c [] o d l → nbd_client_handler (S fuel) h c = Some c.
Proof.
  intros Hs. cbn [nbd_client_handler].
  by rewrite evbuffer_get_length_spec, (sv_in _ _ _ _ _ Hs).
Qed.

Lemma enc_request_nonempty r : enc_request r ≠ [].
Proof.
  intros E. apply (f_equal length) in E.
  destruct r; simpl in E; autorewrite with len in E; simpl in E; lia.
Qed.

Lemma handler_requests rs : ∀ fuel c p o d l d' rep cmds,
  serving c (enc_requests rs ++ p) o d l → Forall req_ok rs → stalled p →
  spec_requests d rs = Some (d', rep, cmds) → (length rs < fuel)%nat →
  ∃ c', nbd_client_handler fuel h c = Some c' ∧ serving c' p (o ++ rep) d' (l ++ cmds).
Proof.
  induction rs as [|r rs IH]; intros fuel c p o d l d' rep cmds Hs Hok Hp E Hf;
    (destruct fuel as [|fuel]; [simpl in Hf; lia|]).
  - simpl in E. simplify_eq. rewrite !app_nil_r. simpl in Hs.
    destruct (decide (p = [])) as [->|Hne].
    + exists c. split; [by eapply handler_empty|done].
    + destruct Hp as [->|Hp]; [done|].
      destruct (partial_step c p o d' l Hs Hp) as (c' & Ec & Hs').
      rewrite (handler_pushing _ _ _ _ _ _ Hs Hne), Ec. simpl. by exists c'.
  - apply Forall_cons_1 in Hok as [Hr Hok]. simpl in E. bind_inv E.
    destruct x as [[d1 rep1] cmds1]. bind_inv E. destruct x as [[d2 rep2] cmds2].
    simplify_eq. simpl in Hs. rewrite <-app_assoc in Hs.
    destruct (request_step c r _ o d l d1 rep1 cmds1 Hs Hr E0) as (c1 & Ec & Hs1).
    rewrite (handler_pushing _ _ _ _ _ _ Hs), Ec.
    + simpl. destruct (IH fuel c1 p _ d1 _ d' rep2 cmds2 Hs1 Hok Hp E1)
        as (c' & Ec' & Hs'); [simpl in Hf; lia|].
      exists c'. by rewrite <-!app_assoc in Hs'.
    + intros En. apply app_eq_nil in En as [En _]. by apply (enc_request_nonempty r).
Qed.

(** ** Segmentation of the stream *)

(** New bytes arrive from the client. *)
Definition deliver (x : list Z) (c : conn) : conn :=
  {| c_in := evbuffer_add (c_in c) x; c_out := c_out c; c_client := c_client c;
     c_files := c_files c; c_redis := c_redis c |}.

(** The callback runs after each segment. *)
Fixpoint serve (fuel : nat) (c : conn) (segments : list (list Z)) : option conn :=
  match segments with
  | [] => Some c
  | x :: xs => c ← nbd_client_handler fuel h (deliver x c); serve fuel c xs
  end.

Lemma serving_deliver c i o d l x : serving c i o d l → serving (deliver x c) (i ++ x) o d l.
Proof. intros []. split; simpl; try done. rewrite evbuffer_add_spec. by subst. Qed.

(** The type and length fields of a header give the size of the request. *)
Lemma enc_request_size r :
  req_ok r → ∃ t hd off len, 0 ≤ t < 2 ^ 32 ∧ 0 ≤ hd < 2 ^ 64 ∧ 0 ≤ off < 2 ^ 64 ∧
    0 ≤ len < 2 ^ 32 ∧ (∃ y, enc_request r = enc_header t hd off len ++ y) ∧
    zlen (enc_request r) = 28 + (if t =? NBD_CMD_WRITE then len else 0).
Proof.
  intros Hr. destruct r as [hd off len|hd off x|hd off len|hd off len];
    destruct Hr as [[Hh Ho] Hl]; simpl enc_request.
  - exists NBD_CMD_READ, hd, off, len. repeat split; try (done || lia || len).
    exists []. by rewrite app_nil_r.
  - exists NBD_CMD_WRITE, hd, off, (zlen x). repeat split; try (done || lia).
    + by exists x.
    + autorewrite with len. simpl. lia.
  - exists NBD_CMD_FLUSH, hd, off, len. repeat split; try (done || lia || len).
    exists []. by rewrite app_nil_r.
  - exists NBD_CMD_TRIM, hd, off, len. repeat split; try (done || lia || len).
    exists []. by rewrite app_nil_r.
Qed.

Lemma enc_request_prefix r r0 y :
  enc_request r ++ y = enc_request r0 → req_ok r → req_ok r0 → y = [].
Proof.
  intros E Hr Hr0.
  destruct (enc_request_size r Hr) as (t & hd & off & len & Ht & Hh & Ho & Hl & [x Ex] & Hz).
  destruct (enc_request_size r0 Hr0)
    as (t0 & hd0 & off0 & len0 & Ht0 & Hh0 & Ho0 & Hl0 & [x0 Ex0] & Hz0).
  assert (enc_header t hd off len = enc_header t0 hd0 off0 len0) as Eh.
  { apply (f_equal (take 28)) in E. rewrite Ex, Ex0, <-app_assoc in E.
    by rewrite !take_app_exact in E by len. }
  destruct (header_fields t hd off len) as (_ & Et & _ & _ & El); [done..|].
  destruct (header_fields t0 hd0 off0 len0) as (_ & Et0 & _ & _ & El0); [done..|].
  rewrite Eh in Et, El. rewrite Et in Et0. rewrite El in El0. subst t0 len0.
  apply (f_equal length) in E. rewrite length_app in E.
  destruct y; [done|]. simpl in E. lia.
Qed.

(** A prefix of a stream of requests is such a stream, with a partial request
    at its end. *)
Lemma split_stream rs : ∀ u v p,
  Forall req_ok rs → stalled p → u ++ v = enc_requests rs ++ p →
  ∃ rs1 rs2 p1, rs = rs1 ++ rs2 ∧ u = enc_requests rs1 ++ p1 ∧ stalled p1 ∧
    p1 ++ v = enc_requests rs2 ++ p.
Proof.
  induction rs as [|r rs IH]; intros u v p Hok Hp E; simpl in E.
  - exists [], [], u. split; [done|]. split; [done|]. split; [|done].
    destruct Hp as [->|(r & q & Hr & Eq & Hq)].
    + apply app_eq_nil in E as [-> _]. by left.
    + right. exists r, (v ++ q). split; [done|]. split; [by rewrite app_assoc, E|].
      by destruct v.
  - apply Forall_cons_1 in Hok as [Hr Hok]. rewrite <-app_assoc in E.
    destruct (decide (length u < length (enc_request r))%nat) as [Hlt|Hge].
    + exists [], (r :: rs), u. split; [done|]. split; [done|].
      split; [|simpl; by rewrite <-app_assoc]. right.
      assert (take (length u) (enc_request r) = u) as Eu.
      { apply (f_equal (take (length u))) in E.
        rewrite take_app_length, take_app_le in E by lia. done. }
      exists r, (drop (length u) (enc_request r)). split; [done|]. split.
      * rewrite <-Eu at 1. by rewrite take_drop.
      * intros En. apply (f_equal length) in En. rewrite length_drop in En. simpl in En. lia.
    + assert (u = enc_request r ++ drop (length (enc_request r)) u) as Eu.
      { rewrite <-(take_drop (length (enc_request r)) u) at 1. f_equal.
        apply (f_equal (take (length (enc_request r)))) in E.
        rewrite take_app_length, take_app_le in E by lia. done. }
      set (u' := drop _ u) in *. rewrite Eu, <-app_assoc in E. apply app_inv_head in E.
      destruct (IH u' v p Hok Hp E) as (rs1 & rs2 & p1 & -> & Eu' & Hp1 & Ev).
      exists (r :: rs1), rs2, p1. split; [done|]. split; [|done].
      simpl. by rewrite Eu, Eu', app_assoc.
Qed.

Lemma stalled_no_request p rs p' :
  stalled p → Forall req_ok rs → p = enc_requests rs ++ p' → rs = [].
Proof.
  intros Hp Hok E. destruct rs as [|r rs]; [done|]. exfalso.
  apply Forall_cons_1 in Hok as [Hr Hok]. simpl in E. rewrite <-app_assoc in E.
  destruct Hp as [->|(r0 & q & Hr0 & E0 & Hq)].
  - symmetry in E. apply app_eq_nil in E as [E _]. by apply (enc_request_nonempty r).
  - rewrite E, <-app_assoc in E0. apply enc_request_prefix in E0; [|done..].
    apply app_eq_nil in E0 as [_ ->]. done.
Qed.
End server.
