(* ===== verification/NbdProps.v ===== *)
(** * Properties of the NBD server *)
From S2P Require Import Prelude Words Memory Struct NbdEnv Nbd NbdSpec.

#[local] Open Scope string_scope.
#[local] Open Scope list_scope.
#[local] Open Scope Z_scope.

(** Segment after segment. *)
Lemma stream_ok `{MallocTotal} `{EvBuffer} `{Posix} `{RedisUp}
    (h : nbd_handle) `{!RegularFile (nh_fd h)} segments rs p c out disk log disk' rep cmds fuel :
  0 < nh_fd h → nh_redis h = true →
  serving h c [] out disk log →
  mjoin segments = mjoin (enc_request <$> rs) ++ p → Forall req_ok rs → stalled p →
  spec_requests disk rs = Some (disk', rep, cmds) → (length rs < fuel)%nat →
  ∃ c', serve h fuel c segments = Some c' ∧
        serving h c' p (out ++ rep) disk' (log ++ cmds).
Proof.
  intros Hfd Hredis Hs E Hok Hp Hspec Hf.
  assert (stalled []) as Hp0 by (by left).
  change (mjoin segments) with ([] ++ mjoin segments) in E.
  revert c out disk log rs rep cmds Hs E Hok Hspec Hf Hp0. generalize (@nil Z) as p0.
  induction segments as [|x xs IH]; intros p0 c out disk log rs rep cmds Hs E Hok Hspec Hf Hp0.
  - simpl in E. rewrite app_nil_r in E.
    pose proof (stalled_no_request _ _ _ Hp0 Hok E) as ->. simpl in E, Hspec. subst p0.
    simplify_eq. exists c. by rewrite !app_nil_r.
  - simpl in E. rewrite app_assoc in E.
    destruct (split_stream rs _ _ _ Hok Hp E) as (rs1 & rs2 & p1 & -> & E1 & Hp1 & E2).
    apply Forall_app in Hok as [Hok1 Hok2]. rewrite length_app in Hf.
    apply (serving_deliver _ _ _ _ _ _ x) in Hs. rewrite E1 in Hs.
    destruct (spec_requests_app _ _ _ _ _ _ Hspec)
      as (d1 & rep1 & rep2 & cmds1 & cmds2 & Hsp1 & Hsp2 & -> & ->).
    destruct (handler_requests h Hfd Hredis rs1 fuel (deliver x c) p1 out disk log d1 rep1 cmds1)
      as (c1 & Ec1 & Hs1); [done..|lia|].
    simpl. rewrite Ec1. simpl.
    destruct (IH p1 c1 _ d1 _ rs2 rep2 cmds2 Hs1 E2 Hok2 Hsp2) as (c' & Ec' & Hs'); [lia|done|].
    exists c'. split; [done|]. by rewrite !app_assoc.
Qed.

(** ** Properties *)

(** C2: a client in transmission is served as the abstract block server says,
    however the stream is cut into segments: after any sequence of complete
    requests that stay inside the disk, followed by an incomplete one, the
    replies sent, the disk and the commands queued for Redis are the abstract
    server's, the incomplete request is left in the buffer, and the callback
    has returned after at most one turn per request. *)
Theorem nbd_stream_refines `{MallocTotal} `{EvBuffer} `{Posix} `{RedisUp}
    (h : nbd_handle) `{!RegularFile (nh_fd h)} segments rs p c out disk log disk' rep cmds fuel :
  0 < nh_fd h → nh_redis h = true →
  serving h c [] out disk log →
  mjoin segments = mjoin (enc_request <$> rs) ++ p → Forall req_ok rs → stalled p →
  spec_requests disk rs = Some (disk', rep, cmds) → (length rs < fuel)%nat →
  ∃ c', serve h fuel c segments = Some c' ∧
        serving h c' p (out ++ rep) disk' (log ++ cmds).
Proof. apply stream_ok. Qed.

Definition witness_handle : nbd_handle :=
  {| nh_fd := 3; nh_size := 8; nh_export_name := str_bytes "disk"; nh_name_len := 4;
     nh_redis := true |}.

Definition witness_conn (s : NBD_CLIENT_STATE) (input disk : list Z) : conn :=
  {| c_in := (input : evbuffer); c_out := ([] : evbuffer); c_client := Some (new_client s);
     c_files := ((disk, 0) : files); c_redis := ([] : redis_async) |}.

(** A write and a read, cut in the middle of the payload. *)
Definition witness_requests : list request := [RWrite 1 2 [10; 11; 12]; RRead 2 1 4].

Lemma nbd_stream_refines_witness :
  let w := enc_request (RWrite 1 2 [10; 11; 12]) in
  ∃ c', serve witness_handle 3 (witness_conn NBD_DATA_PUSHING [] (replicate 8 0))
          [take 30 w; drop 30 w ++ enc_request (RRead 2 1 4)] = Some c' ∧
        serving witness_handle c' [] (reply 0 1 ++ reply 0 2 ++ [0; 10; 11; 12])
          [0; 0; 10; 11; 12; 0; 0; 0] [lpush (le_enc 8 0); lpush [10; 11; 12]].
Proof.
  intros w.
  apply (nbd_stream_refines witness_handle _ witness_requests [] _ [] (replicate 8 0) []
           [0; 0; 10; 11; 12; 0; 0; 0] (reply 0 1 ++ reply 0 2 ++ [0; 10; 11; 12])
           [lpush (le_enc 8 0); lpush [10; 11; 12]] 3).
  - done.
  - done.
  - split; try done. by exists (new_client NBD_DATA_PUSHING).
  - done.
  - repeat constructor; done.
  - by left.
  - vm_compute. reflexivity.
  - simpl. lia.
Defined.

(** ** Handshake *)

Definition opt_request (option : Z) (payload : list Z) : list Z :=
  be_enc 8 GAMMARAY_NBD_NEW_PROTOCOL ++ be_enc 4 option ++ be_enc 4 (zlen payload) ++ payload.

Lemma opt_fields option payload :
  0 ≤ option < 2 ^ 32 → zlen payload < 2 ^ 32 →
  let m := take 16 (opt_request option payload) in
  beget nbd_opt_header "magic" m = GAMMARAY_NBD_NEW_PROTOCOL ∧
  beget nbd_opt_header "option" m = option ∧
  beget nbd_opt_header "len" m = zlen payload ∧
  fbytes nbd_opt_header "option" m = be_enc 4 option.
Proof.
  intros Ho Hl m.
  assert (m = be_enc 8 GAMMARAY_NBD_NEW_PROTOCOL ++ be_enc 4 option ++
              be_enc 4 (zlen payload)) as E.
  { unfold m, opt_request. rewrite !app_assoc. apply take_app_exact. len. }
  assert (fbytes nbd_opt_header "option" m = be_enc 4 option) as Eo.
  { rewrite E. by apply (fbytes_mid _ _ 8 4). }
  split; [|split; [|split; [|done]]].
  - unfold beget. rewrite E.
    pose proof (fbytes_mid nbd_opt_header "magic" 0 8 [] (be_enc 8 GAMMARAY_NBD_NEW_PROTOCOL)
      (be_enc 4 option ++ be_enc 4 (zlen payload)) eq_refl eq_refl eq_refl) as Em.
    simpl in Em. rewrite Em. apply be_dec_small. unfold GAMMARAY_NBD_NEW_PROTOCOL. lia.
  - unfold beget. rewrite Eo. by apply be_dec_small.
  - unfold beget. rewrite E, app_assoc.
    rewrite <-(app_nil_r (be_enc 4 (zlen payload))).
    rewrite (fbytes_mid _ "len" 12 4) by (done || len). apply be_dec_small. lia.
Qed.

Lemma strncmp_eq_refl a r s :
  Forall (λ z, z ≠ 0) a → strncmp_eq (length a) (a ++ r) (a ++ s) = Some true.
Proof.
  induction 1 as [|x a Hx Ha IH]; simpl; [done|]. rewrite Z.eqb_refl.
  by case_test.
Qed.

(** What the greeted client must have: the connection record around it. *)
Definition greeted `{Malloc} `{EvBuffer} `{Posix} `{AsyncRedis} (c : conn)
    (s : NBD_CLIENT_STATE) (input : list Z) : Prop :=
  (∃ cl, c_client c = Some cl ∧ nc_state cl = s ∧ nc_buf cl ≠ PDangling) ∧
  evbuffer_data (c_in c) = input.

Definition export_info (h : nbd_handle) : list Z :=
  be_enc 8 (nh_size h) ++ be_enc 2 0x3d ++ replicate 124 0.

Lemma zero_handshake_step `{Malloc} `{EvBuffer} `{Posix} `{AsyncRedis} c rest :
  greeted c NBD_HANDSHAKE_SENT ([0; 0; 0; 0] ++ rest) →
  ∃ c', __check_zero_handshake c = Some (c', false) ∧ greeted c' NBD_ZERO_RECEIVED rest ∧
    c_out c' = c_out c ∧ c_files c' = c_files c ∧ c_redis c' = c_redis c.
Proof.
  intros [(cl & Ec & Es & Eb) Ei]. unfold __check_zero_handshake.
  rewrite evbuffer_pullup_spec, Ei by done. autorewrite with len.
  rewrite (proj2 (Z.leb_le _ _)) by (simpl; lia).
  replace (take (Z.to_nat 4) ([0; 0; 0; 0] ++ rest)) with [0; 0; 0; 0] by done.
  cbn [le_dec Z.mul Z.add Z.eqb negb].
  unfold enter. cbn [c_client drain]. rewrite Ec. cbn [mbind option_bind].
  eexists. split; [done|]. split; [|done]. split; [by exists (set_state NBD_ZERO_RECEIVED cl)|].
  simpl. by rewrite evbuffer_drain_spec, Ei by done.
Qed.

Lemma export_name_step `{Malloc} `{EvBuffer} `{Posix} `{AsyncRedis} h c rest :
  greeted c NBD_ZERO_RECEIVED (opt_request NBD_OPT_EXPORT_NAME (nh_export_name h) ++ rest) →
  nh_name_len h = zlen (nh_export_name h) → 0 < nh_name_len h < 2 ^ 32 →
  Forall (λ z, z ≠ 0) (nh_export_name h) →
  ∃ c', __check_opt_header h c = Some (c', false) ∧ greeted c' NBD_DATA_PUSHING rest ∧
    evbuffer_data (c_out c') = evbuffer_data (c_out c) ++ export_info h ∧
    c_files c' = c_files c ∧ c_redis c' = c_redis c.
Proof.
  intros [(cl & Ec & Es & Eb) Ei] Hn Hl Hz. unfold __check_opt_header.
  set (name := nh_export_name h) in *. set (m := opt_request _ name) in *.
  assert (length m = (16 + length name)%nat) as Lm by (unfold m, opt_request; len).
  destruct (opt_fields NBD_OPT_EXPORT_NAME name) as (Em & Eo & El & _); [done|lia|].
  fold m in Em, Eo, El.
  rewrite evbuffer_pullup_spec, Ei by done. unfold OPT_SIZE.
  rewrite (proj2 (Z.leb_le _ _)) by len. rewrite take_app_le by (rewrite Lm; lia).
  change (Z.to_nat 16) with 16%nat. rewrite Em, Eo, El, !Z.eqb_refl. cbn [negb].
  rewrite Hn, Z.eqb_refl, evbuffer_get_length_spec, Ei. cbn [negb].
  rewrite (proj2 (Z.ltb_ge _ _)) by len.
  rewrite evbuffer_pullup_spec by lia. cbn [c_in drain].
  rewrite evbuffer_drain_spec, Ei by done.
  assert (drop (Z.to_nat 16) (m ++ rest) = name ++ rest) as Ed.
  { replace m with ((be_enc 8 GAMMARAY_NBD_NEW_PROTOCOL ++ be_enc 4 NBD_OPT_EXPORT_NAME ++
                     be_enc 4 (zlen name)) ++ name) by (by rewrite <-!app_assoc).
    rewrite <-app_assoc. apply drop_app_exact. len. }
  rewrite Ed. rewrite (proj2 (Z.leb_le _ _)) by len.
  rewrite Nat2Z.id, take_app_length.
  pose proof (strncmp_eq_refl name [] [0] Hz) as Hcmp. rewrite app_nil_r in Hcmp.
  rewrite Hcmp. cbn [mbind option_bind]. unfold enter. cbn [c_client drain __send_export_info send].
  rewrite Ec. cbn [mbind option_bind]. eexists. split; [reflexivity|]. split; [|split; [|split; reflexivity]].
  - split; [exists (set_state NBD_DATA_PUSHING cl); split_and!; [reflexivity..|exact Eb]|].
    simpl. rewrite evbuffer_drain_spec, evbuffer_drain_spec, Ei, Ed by lia.
    by rewrite Nat2Z.id, drop_app_length.
  - simpl. rewrite evbuffer_add_spec. done.
Qed.

(** C25: the handshake: a greeted client that answers with four zero bytes and
    the name of the export gets the export's size and flags and is then served
    as a client in transmission, whatever requests it has sent along. *)
Theorem nbd_handshake_serves `{MallocTotal} `{EvBuffer} `{Posix} `{RedisUp}
    (h : nbd_handle) `{!RegularFile (nh_fd h)} c rest fuel :
  greeted c NBD_HANDSHAKE_SENT
    ([0; 0; 0; 0] ++ opt_request NBD_OPT_EXPORT_NAME (nh_export_name h) ++ rest) →
  nh_name_len h = zlen (nh_export_name h) → 0 < nh_name_len h < 2 ^ 32 →
  Forall (λ z, z ≠ 0) (nh_export_name h) →
  ∃ c', nbd_client_handler (S (S fuel)) h c = nbd_client_handler fuel h c' ∧
    serving h c' rest (evbuffer_data (c_out c) ++ export_info h)
      (file_bytes (c_files c)) (redis_commands (c_redis c)).
Proof.
  intros Hg Hn Hl Hz.
  destruct (zero_handshake_step c _ Hg) as (c1 & E1 & Hg1 & Eo1 & Ef1 & Er1).
  destruct (export_name_step h c1 rest Hg1 Hn Hl Hz) as (c2 & E2 & Hg2 & Eo2 & Ef2 & Er2).
  exists c2. split.
  - destruct Hg as [(cl & Ec & Es & _) Ei], Hg1 as [(cl1 & Ec1 & Es1 & _) Ei1].
    cbn [nbd_client_handler]. rewrite evbuffer_get_length_spec, Ei, Ec.
    cbn [length app mbind option_bind]. rewrite Es, E1. cbn [mbind option_bind].
    rewrite (proj2 (Z.eqb_neq _ _)) by lia.
    rewrite evbuffer_get_length_spec, Ei1, Ec1. cbn [mbind option_bind]. rewrite Es1, E2.
    rewrite (proj2 (Z.eqb_neq _ _)); [done|]. unfold opt_request. len.
  - destruct Hg2 as [Hc Hi]. split; try done; congruence.
Qed.

Lemma nbd_handshake_serves_witness :
  let c := witness_conn NBD_HANDSHAKE_SENT
             ([0; 0; 0; 0] ++ opt_request NBD_OPT_EXPORT_NAME (str_bytes "disk") ++ [])
             (replicate 8 0) in
  ∃ c', nbd_client_handler 3 witness_handle c = nbd_client_handler 1 witness_handle c' ∧
        serving witness_handle c' [] ([] ++ export_info witness_handle) (replicate 8 0) [].
Proof.
  intros c. destruct (nbd_handshake_serves witness_handle c [] 1) as (c' & E & Hs).
  - split; [|done]. by exists (new_client NBD_HANDSHAKE_SENT).
  - done.
  - done.
  - repeat constructor; done.
  - exists c'. split; [exact E|exact Hs].
Defined.

(** An option the server does not support (anything but the export name
    and abort) is answered but never taken out of the input buffer: the
    callback answers it again and again and never returns. *)
Theorem nbd_option_livelock `{MallocTotal} `{EvBuffer} `{Posix} `{AsyncRedis}
    h c option payload rest fuel :
  greeted c NBD_ZERO_RECEIVED (opt_request option payload ++ rest) →
  0 ≤ option < 2 ^ 32 → option ≠ NBD_OPT_EXPORT_NAME → option ≠ NBD_OPT_ABORT →
  zlen payload < 2 ^ 32 →
  nbd_client_handler fuel h c = None.
Proof.
  intros Hg Ho H1' H2' Hl. revert c Hg. induction fuel as [|fuel IH]; intros c Hg; [done|].
  pose proof Hg as [(cl & Ec & Es & Eb) Ei].
  destruct (opt_fields option payload Ho Hl) as (Em & Eo & _ & Ef).
  assert (length (opt_request option payload) = (16 + length payload)%nat) as Lm
    by (unfold opt_request; len).
  cbn [nbd_client_handler]. rewrite evbuffer_get_length_spec, Ei, Ec.
  rewrite (proj2 (Z.eqb_neq _ _)) by len.
  cbn [mbind option_bind]. rewrite Es. unfold __check_opt_header.
  rewrite evbuffer_pullup_spec, Ei by done. unfold OPT_SIZE.
  rewrite (proj2 (Z.leb_le _ _)) by len. rewrite take_app_le by (rewrite Lm; lia).
  change (Z.to_nat 16) with 16%nat. rewrite Em, Eo, Z.eqb_refl. cbn [negb].
  rewrite (proj2 (Z.eqb_neq _ _) H1'), (proj2 (Z.eqb_neq _ _) H2').
  cbn [mbind option_bind]. apply IH.
  split; [by exists cl|done].
Qed.

Lemma nbd_option_livelock_witness :
  nbd_client_handler 1000 witness_handle
    (witness_conn NBD_ZERO_RECEIVED (opt_request 3 [] ++ []) []) = None.
Proof.
  apply (nbd_option_livelock _ _ 3 [] []).
  - split; [|done]. by exists (new_client NBD_ZERO_RECEIVED).
  - lia.
  - done.
  - done.
  - done.
Defined.

(** ** Transfers that are not complete *)

(** The transfer loops only work when every call transfers everything at
    once: reading past the end of the file, where [read] returns 0, never ends,
    and after a short write the next one reads beyond the request's buffer. *)
Theorem nbd_partial_transfers `{Posix} fs fd buf len :
  0 < len → zlen buf = len →
  ((∀ fs n, sys_read fs fd n = (fs, inl [])) → ∀ fuel, read_loop fuel fs fd buf len = None) ∧
  (∀ fs' n, sys_write fs fd buf = (fs', inl n) → 0 < n < len →
   ∀ fuel, write_loop fuel fs fd buf 0 len = None).
Proof.
  intros Hl Hb. split.
  - intros Hr fuel. assert (∀ m, zlen m = len → read_loop fuel fs fd m len = None) as Hm;
      [|by apply Hm].
    induction fuel as [|fuel IH]; intros m Hm; [done|]. cbn [read_loop]. case_test.
    rewrite Hr. unfold mem_write. rewrite bool_decide_true by (simpl; lia).
    simpl. rewrite drop_0, Z.sub_0_r. by apply IH.
  - intros fs' n Hw Hn fuel. destruct fuel as [|fuel]; [done|]. cbn [write_loop].
    case_test. cbn [negb]. rewrite mem_read_prefix by lia.
    rewrite <-Hb, Nat2Z.id, firstn_all. cbn [mbind option_bind]. rewrite Hw.
    destruct fuel as [|fuel]; [done|]. cbn [write_loop]. case_test. cbn [negb].
    by rewrite mem_read_oob by lia.
Qed.

(** A kernel whose reads hit the end of the file and whose writes take one byte. *)
#[local, refine] Instance slow_posix : Posix | 1000 := {|
  files := unit;
  lseek64 f _ _ := (f, inl tt);
  sys_read f _ _ := (f, inl []);
  sys_write f _ d := (f, inl 1);
  fsync f _ := (f, inl tt);
  fallocate_punch f _ _ _ := (f, inl tt);
|}.
Proof. intros f _ n f' d Hn E. by simplify_eq. Defined.

Lemma nbd_partial_transfers_witness :
  (∀ fuel, @read_loop slow_posix fuel tt 3 [1; 2] 2 = None) ∧
  (∀ fuel, @write_loop slow_posix fuel tt 3 [1; 2] 0 2 = None).
Proof.
  destruct (@nbd_partial_transfers slow_posix tt 3 [1; 2] 2) as [Hr Hw]; [lia|done|].
  split; [by apply Hr; intros []|]. by apply (Hw tt 1).
Defined.

(** A server without Redis (as [nbd_init_file] sets it up) aborts on the
    first complete write request, and so does one without a file. *)
Theorem nbd_write_aborts `{MallocTotal} `{EvBuffer} `{Posix} `{RedisUp}
    (h : nbd_handle) `{!RegularFile (nh_fd h)} c hd off x rest out disk log :
  serving h c (enc_request (RWrite hd off x) ++ rest) out disk log →
  req_ok (RWrite hd off x) → nh_fd h ≤ 0 ∨ nh_redis h = false →
  __check_request h c = None.
Proof.
  intros Hs [[Hh Ho] Hl] Hbad. simpl in Hs. rewrite <-app_assoc in Hs.
  destruct (check_request_header h _ _ _ _ _ _ _ _ _ Hs) as (Ep & Em & Et & Eh & Eo & El);
    [done|lia..|]. unfold __check_request. rewrite Ep, Em, Et, Eh, El, Z.eqb_refl.
  cbn [negb Z.eqb NBD_CMD_READ NBD_CMD_WRITE]. unfold __handle_write. rewrite El.
  destruct (serving_grow_buf h _ _ _ _ _ (zlen x) Hs) as (cl & m & Eg & Hm & Hst & Hbuf); [lia|].
  rewrite Eg. cbn [mbind option_bind].
  assert (serving h (set_client (Some cl) c)
            (enc_header NBD_CMD_WRITE hd off (zlen x) ++ x ++ rest) out disk log) as Hs1.
  { by apply serving_set_client; [|..|by rewrite Hbuf]. }
  rewrite evbuffer_get_length_spec, (sv_in _ _ _ _ _ _ Hs1).
  unfold REQ_SIZE at 1. autorewrite with len. case_test.
  apply drain_header in Hs1.
  rewrite evbuffer_copyout_spec, (sv_in _ _ _ _ _ _ Hs1), Nat2Z.id, take_app_length by lia.
  pose proof (mem_write_app [] m x [] 0 eq_refl) as W. simpl in W.
  rewrite !app_nil_r in W. rewrite W by lia. cbn [mbind option_bind].
  rewrite Z.ltb_irrefl.
  replace ((0 <? nh_fd h) && nh_redis h) with false; [done|].
  destruct Hbad as [Hf| ->]; [|by rewrite andb_false_r].
  by rewrite (proj2 (Z.ltb_ge _ _)).
Qed.

Lemma nbd_write_aborts_witness :
  let h := {| nh_fd := 3; nh_size := 8; nh_export_name := str_bytes "disk";
              nh_name_len := 4; nh_redis := false |} in
  __check_request h
    (witness_conn NBD_DATA_PUSHING (enc_request (RWrite 1 0 [5]) ++ []) (replicate 8 0)) = None.
Proof.
  intros h. apply (nbd_write_aborts h _ 1 0 [5] [] [] (replicate 8 0) []).
  - split; try done. by exists (new_client NBD_DATA_PUSHING).
  - done.
  - by right.
Defined.

(** A disconnect request frees the client; any byte that follows it in the
    buffer makes the callback read the freed client. *)
Theorem nbd_disconnect_frees `{MallocTotal} `{EvBuffer} `{Posix} `{RedisUp}
    (h : nbd_handle) `{!RegularFile (nh_fd h)} c hd off len rest out disk log fuel :
  serving h c (enc_header NBD_CMD_DISC hd off len ++ rest) out disk log →
  0 ≤ hd < 2 ^ 64 → 0 ≤ off < 2 ^ 63 → 0 ≤ len < 2 ^ 32 →
  (rest = [] → ∃ c', nbd_client_handler (S (S fuel)) h c = Some c' ∧ c_client c' = None) ∧
  (rest ≠ [] → nbd_client_handler (S (S fuel)) h c = None).
Proof.
  intros Hs Hh Ho Hl.
  destruct (check_request_header h _ _ _ _ _ _ _ _ _ Hs) as (Ep & Em & Et & Eh & Eo & El);
    [done|lia..|].
  assert (∃ c', __check_request h c = Some (c', false) ∧ c_client c' = None ∧
                evbuffer_data (c_in c') = rest) as (c' & E & Ec & Ei).
  { unfold __check_request. rewrite Ep, Em, Et, Z.eqb_refl.
    cbn [negb Z.eqb NBD_CMD_READ NBD_CMD_WRITE NBD_CMD_DISC Pos.eqb].
    destruct (sv_client _ _ _ _ _ _ Hs) as (cl & Ec & Es & Eb). unfold enter.
    rewrite Ec. cbn [mbind option_bind]. unfold nbd_ev_handler_eof.
    cbn [c_client drain set_client mbind option_bind nc_buf set_state].
    apply drain_header, sv_in in Hs.
    destruct (nc_buf cl); simpl; [| |done]; eexists; split; [reflexivity| |reflexivity|];
      (split; [done|exact Hs]). }
  rewrite (handler_pushing h _ _ _ _ _ _ Hs), E.
  2:{ unfold enc_header. intros En. apply (f_equal length) in En. simpl in En. len. }
  cbn [mbind option_bind nbd_client_handler].
  rewrite evbuffer_get_length_spec, Ei, Ec. split.
  - intros ->. simpl. by exists c'.
  - intros Hr. rewrite (proj2 (Z.eqb_neq _ _)); [done|]. destruct rest; [done|simpl; lia].
Qed.

Lemma nbd_disconnect_frees_witness :
  nbd_client_handler 2 witness_handle
    (witness_conn NBD_DATA_PUSHING (enc_header NBD_CMD_DISC 1 0 0 ++ [7]) (replicate 8 0)) = None.
Proof.
  apply (nbd_disconnect_frees witness_handle _ 1 0 0 [7] [] (replicate 8 0) [] 0).
  - split; try done. by exists (new_client NBD_DATA_PUSHING).
  - lia.
  - lia.
  - lia.
  - done.
Defined.
