(* ===== verification/NbdInit.v ===== *)
(** * src/nbd/nbd.c: setting the server up and shutting it down

    The results of the calls an initializer makes are given by a [calls]
    record; the initializer is the sequence of these calls and of the releases
    on its error paths, and the resources it holds when it returns are part of
    the result. *)
From S2P Require Import Prelude Words Memory NbdEnv Nbd.

(** ** Definitions *)

Inductive resource :=
  | File_descriptor | Addrinfo | Event_base | Redis_context | Handle | Signal_event
  | Listener.

#[export] Instance resource_eq_dec : EqDecision resource.
Proof. solve_decision. Defined.

(** What the calls return; [None] and [false] are failures. *)
Record calls := {
  stat_size : option Z;
  open_fd : option Z;
  getaddrinfo_ok : bool;
  event_base_new_ok : bool;
  redisAsyncConnect_ok : bool;
  set_disconnect_ok : bool;
  malloc_ok : bool;
  evsignal_new_ok : bool;
  event_add_ok : bool;
  listener_ok : bool;
  select_ok : bool;  (** [redisAsyncCommand(... "select %d" ...) == REDIS_OK] *)
}.

Abbreviation held := (list resource).

Definition release (r : resource) (h : held) : held := filter (λ x, x ≠ r) h.
Definition releases (rs : list resource) (h : held) : held := foldr release h rs.

(** [if (!evsignal || event_add(evsignal, NULL) < 0)]: the event exists as soon
    as it has been created. *)
Definition signal_event (e : calls) (h : held) : held * bool :=
  if evsignal_new_ok e then (Signal_event :: h, event_add_ok e) else (h, false).

Definition mk_handle (fd size : Z) (name : list Z) (redis : bool) : nbd_handle :=
  {| nh_fd := fd; nh_size := u64 size; nh_export_name := name;
     nh_name_len := u32 (zlen name); nh_redis := redis |}.

(** The pointer arguments are [None] when null; a null result is [None]. *)
Definition nbd_init_file (e : calls) (export_name fname nodename port : option (list Z)) :
    option nbd_handle * held :=
  match export_name, fname, port with
  | Some name, Some _, Some _ =>
      match stat_size e with
      | None => (None, [])
      | Some size =>
      match open_fd e with
      | None => (None, [])
      | Some fd =>
        let h := [File_descriptor] in
        if negb (getaddrinfo_ok e) then (None, h) else
        let h := Addrinfo :: h in
        if negb (event_base_new_ok e)
        then (None, releases [Addrinfo; File_descriptor] h) else
        let h := Event_base :: h in
        if negb (malloc_ok e)
        then (None, releases [Addrinfo; File_descriptor; Event_base] h) else
        let h := Handle :: h in
        let '(h, ok) := signal_event e h in
        if negb ok
        then (None, releases [Addrinfo; File_descriptor; Event_base] h) else
        if negb (listener_ok e)
        then (None, releases [Addrinfo; File_descriptor; Event_base; Handle] h) else
        let h := Listener :: h in
        (Some (mk_handle fd size name false), release Addrinfo h)
      end end
  | _, _, _ => (None, [])
  end.

(** Common to the two initializers with a Redis connection, from the network
    socket on; [None] is the abort of a failing [assert]. *)
Definition init_redis_from (e : calls) (fd size : Z) (name : list Z) (h : held) :
    option (option nbd_handle * held) :=
  if negb (getaddrinfo_ok e) then Some (None, h) else
  let h := Addrinfo :: h in
  if negb (event_base_new_ok e) then Some (None, release Addrinfo h) else
  let h := Event_base :: h in
  if negb (redisAsyncConnect_ok e)
  then Some (None, releases [Addrinfo; Event_base] h) else
  let h := Redis_context :: h in
  if negb (set_disconnect_ok e)
  then Some (None, releases [Redis_context; Addrinfo; Event_base] h) else
  if negb (malloc_ok e) then Some (None, releases [Addrinfo; Event_base] h) else
  let h := Handle :: h in
  let '(h, ok) := signal_event e h in
  if negb ok then Some (None, releases [Addrinfo; Event_base] h) else
  if negb (listener_ok e)
  then Some (None, releases [Addrinfo; Event_base; Handle] h) else
  let h := Listener :: h in
  if negb (select_ok e) then None else
  Some (Some (mk_handle fd size name true), release Addrinfo h).

Definition nbd_init_both (e : calls) (export_name redis_server nodename port : option (list Z))
    (fsize : Z) : option (option nbd_handle * held) :=
  match redis_server, nodename, port, export_name with
  | Some _, Some _, Some _, Some name =>
      match stat_size e with
      | None => Some (None, [])
      | Some _ =>
          match open_fd e with
          | None => Some (None, [])
          | Some fd => init_redis_from e fd fsize name [File_descriptor]
          end
      end
  | _, _, _, _ => Some (None, [])
  end.

Definition nbd_init_redis (e : calls) (export_name redis_server nodename port : option (list Z))
    (fsize : Z) : option (option nbd_handle * held) :=
  match redis_server, nodename, port, export_name with
  | Some _, Some _, Some _, Some name => init_redis_from e (-1) fsize name []
  | _, _, _, _ => Some (None, [])
  end.

(** [if (handle->fd) close(handle->fd); if (handle->eb) event_base_free(handle->eb);] *)
Definition nbd_shutdown (handle : option nbd_handle) (h : held) : held :=
  match handle with
  | None => h
  | Some n =>
      let h := if negb (nh_fd n =? 0) then release File_descriptor h else h in
      release Event_base h
  end.

(** ** Properties *)

(** Case analysis on every call; what is held is then a concrete list. *)
Ltac each_call :=
  unfold init_redis_from, signal_event;
  repeat match goal with
  | |- context [if negb ?b then _ else _] => destruct b; cbn [negb]
  | |- context [if ?b then (_, _) else (_, _)] => destruct b; cbn
  end;
  let E := fresh in
  intros E; first [discriminate E | injection E as <-];
  apply (bool_decide_unpack _); vm_compute; exact I.

(** What an initializer holds when it fails after opening the image:
    [nbd_init_file] has closed the descriptor unless the address lookup failed,
    while [nbd_init_both] has not closed it on any of its error paths. *)
Theorem nbd_init_descriptor_leak e name fname node port server fsize fd size :
  stat_size e = Some size → open_fd e = Some fd →
  (∀ h, nbd_init_file e (Some name) (Some fname) node (Some port) = (None, h) →
     (File_descriptor ∈ h ↔ getaddrinfo_ok e = false)) ∧
  (∀ h, nbd_init_both e (Some name) (Some server) (Some fname) (Some port) fsize
        = Some (None, h) → File_descriptor ∈ h).
Proof.
  intros Es Eo. unfold nbd_init_file, nbd_init_both. rewrite Es, Eo. split; intros h.
  - each_call.
  - each_call.
Qed.

Definition witness_calls (listener : bool) : calls :=
  {| stat_size := Some 4096; open_fd := Some 5; getaddrinfo_ok := true;
     event_base_new_ok := true; redisAsyncConnect_ok := true; set_disconnect_ok := true;
     malloc_ok := true; evsignal_new_ok := true; event_add_ok := true;
     listener_ok := listener; select_ok := true |}.

Lemma nbd_init_descriptor_leak_witness :
  ∃ h, nbd_init_both (witness_calls false) (Some []) (Some []) (Some []) (Some []) 4096
       = Some (None, h) ∧ File_descriptor ∈ h.
Proof.
  eexists. split; [reflexivity|].
  apply (nbd_init_descriptor_leak (witness_calls false) [] [] None [] [] 4096 5 4096); done.
Defined.

(** When every call succeeds the three initializers return a handle with
    the export's name, its length and size, and the descriptor (none for the
    Redis-only server), and hold everything but the address list; shutting
    down then releases the descriptor and the event base and nothing else. *)
Theorem nbd_init_ok e name fname node port server fsize fd :
  stat_size e = Some fsize → open_fd e = Some fd → 0 < fd →
  getaddrinfo_ok e = true → event_base_new_ok e = true → redisAsyncConnect_ok e = true →
  set_disconnect_ok e = true → malloc_ok e = true → evsignal_new_ok e = true →
  event_add_ok e = true → listener_ok e = true → select_ok e = true →
  ∃ h1 h2 h3,
    nbd_init_file e (Some name) (Some fname) (Some node) (Some port)
      = (Some (mk_handle fd fsize name false), h1) ∧
    nbd_init_both e (Some name) (Some server) (Some node) (Some port) fsize
      = Some (Some (mk_handle fd fsize name true), h2) ∧
    nbd_init_redis e (Some name) (Some server) (Some node) (Some port) fsize
      = Some (Some (mk_handle (-1) fsize name true), h3) ∧
    h1 = [Listener; Signal_event; Handle; Event_base; File_descriptor] ∧
    h2 = [Listener; Signal_event; Handle; Redis_context; Event_base; File_descriptor] ∧
    h3 = [Listener; Signal_event; Handle; Redis_context; Event_base] ∧
    nbd_shutdown (Some (mk_handle fd fsize name true)) h2
      = [Listener; Signal_event; Handle; Redis_context].
Proof.
  intros Es Eo Hfd Eg Ee Er Ed Em Ev Ea El Ec.
  unfold nbd_init_file, nbd_init_both, nbd_init_redis, init_redis_from, signal_event.
  rewrite Es, Eo, Eg, Ee, Er, Ed, Em, Ev, Ea, El, Ec. cbn [negb].
  do 3 eexists. do 3 (split; [reflexivity|]). split_and!; [done..|].
  unfold nbd_shutdown. cbn [nh_fd mk_handle]. by rewrite (proj2 (Z.eqb_neq _ _)) by lia.
Qed.

Lemma nbd_init_ok_witness :
  nbd_init_file (witness_calls true) (Some [100]) (Some []) (Some []) (Some [])
  = (Some (mk_handle 5 4096 [100] false),
     [Listener; Signal_event; Handle; Event_base; File_descriptor]).
Proof.
  destruct (nbd_init_ok (witness_calls true) [100] [] [] [] [] 4096 5)
    as (h1 & h2 & h3 & E1 & _ & _ & -> & _); done.
Defined.
