(* ===== verification/NbdMain.v ===== *)
(** * The two NBD server programs: src/nbd/nbd-test.c, src/nbd/nbd-queuer-test.c

    A program checks its arguments, sets a server up, serves until the event
    loop ends and shuts it down. The result is that of the process, the handle
    that was served, and what the process still holds; a failing [assert] and an
    access through the null pointer behind the last argument have none. *)
From S2P Require Import Prelude Words Memory NbdEnv Nbd NbdInit.

(** ** Definitions *)

(** [atoll]: blanks, a sign, and digits. *)
Fixpoint digits_value (s : list Z) (acc : Z) : Z :=
  match s with
  | c :: s => if (48 <=? c) && (c <=? 57) then digits_value s (10 * acc + (c - 48)) else acc
  | [] => acc
  end.

Fixpoint atoll (s : list Z) : Z :=
  match s with
  | c :: s' =>
      if (c =? 32) || ((9 <=? c) && (c <=? 13)) then atoll s'
      else if c =? 45 then - digits_value s' 0
      else if c =? 43 then digits_value s' 0
      else digits_value s 0
  | [] => 0
  end.

(** [(strncmp(arg, "y", 1) == 0) || (strncmp(arg, "Y", 1) == 0)]; the argument
    is a string, not the null pointer. *)
Definition old_handshake (arg : option (list Z)) : option bool :=
  s ← arg; Some (match s with c :: _ => (c =? 121) || (c =? 89) | [] => false end).

(** An image without a size, such as a device, is served as one of a tebibyte. *)
Definition served (n : nbd_handle) : nbd_handle :=
  if nh_size n =? 0 then
    {| nh_fd := nh_fd n; nh_size := 1024 * 1024 * 1024 * 1024;
       nh_export_name := nh_export_name n; nh_name_len := nh_name_len n; nh_redis := nh_redis n |}
  else n.

(** The assertions on the handle, the handle that is served, and [nbd_shutdown]. *)
Definition serve_export (export : option (list Z)) (handle : option nbd_handle) (h : held) :
    option (Z * option nbd_handle * held) :=
  n ← handle;
  name ← export;
  if negb (nh_fd n =? 0) && bool_decide (take (length name) (nh_export_name n) = name)
  then Some (EXIT_SUCCESS, Some (served n), nbd_shutdown handle h) else None.

Definition nbd_test_main (e : calls) (argv : list (list Z)) :
    option (Z * option nbd_handle * held) :=
  if zlen argv <? 6 then Some (EXIT_FAILURE, None, []) else
  _ ← old_handshake (argv !! 5%nat);
  let '(handle, h) :=
    nbd_init_file e (argv !! 1%nat) (argv !! 2%nat) (argv !! 3%nat) (argv !! 4%nat) in
  serve_export (argv !! 1%nat) handle h.

Definition nbd_queuer_test_main (e : calls) (argv : list (list Z)) :
    option (Z * option nbd_handle * held) :=
  if zlen argv <? 9 then Some (EXIT_FAILURE, None, []) else
  _ ← old_handshake (argv !! 9%nat);
  size ← argv !! 6%nat;
  '(handle, h) ← nbd_init_both e (argv !! 1%nat) (argv !! 3%nat) (argv !! 7%nat) (argv !! 8%nat)
                   (atoll size);
  serve_export (argv !! 1%nat) handle h.

(** Every call of an initializer succeeds. *)
Definition all_ok (e : calls) (size fd : Z) : Prop :=
  stat_size e = Some size ∧ open_fd e = Some fd ∧ 0 < fd ∧
  getaddrinfo_ok e = true ∧ event_base_new_ok e = true ∧ redisAsyncConnect_ok e = true ∧
  set_disconnect_ok e = true ∧ malloc_ok e = true ∧ evsignal_new_ok e = true ∧
  event_add_ok e = true ∧ listener_ok e = true ∧ select_ok e = true.

(** ** Properties *)

Lemma serve_ok name fd size redis h : 0 < fd →
  serve_export (Some name) (Some (mk_handle fd size name redis)) h
  = Some (EXIT_SUCCESS, Some (served (mk_handle fd size name redis)),
          nbd_shutdown (Some (mk_handle fd size name redis)) h).
Proof.
  intros Hfd. unfold serve_export. cbn [mbind option_bind mk_handle nh_fd nh_export_name].
  rewrite firstn_all, bool_decide_true by done. case_test. done.
Qed.

(** The queuer wants nine arguments after its name but accepts eight: with
    eight it reads the ninth through the null pointer. With fewer it says how it
    is used; with nine, and when every call succeeds, it serves an export of the
    sixth argument's size, a tebibyte for 0, and then holds the Redis connection,
    the handle, the signal event and the listener, which nothing releases. *)
Theorem nbd_queuer_arguments e argv size fd :
  all_ok e size fd → (length argv ≤ 10)%nat →
  nbd_queuer_test_main e argv =
    if zlen argv <? 9 then Some (EXIT_FAILURE, None, [])
    else if zlen argv =? 9 then None
    else Some (EXIT_SUCCESS,
               Some (served (mk_handle fd (atoll (nth 6 argv [])) (nth 1 argv []) true)),
               [Listener; Signal_event; Handle; Redis_context]).
Proof.
  intros (Es & Eo & Hfd & Eg & Ee & Er & Ed & Em & Ev & Ea & El & Ec) Hn.
  do 9 (destruct argv as [|? argv]; [done|]).
  destruct argv as [|a9 argv]; [done|]. destruct argv; [|cbn in Hn; lia].
  unfold nbd_queuer_test_main. cbn -[serve_export init_redis_from Nat.add].
  rewrite Es, Eo. unfold init_redis_from, signal_event.
  rewrite Eg, Ee, Er, Ed, Em, Ev, Ea, El, Ec. cbn [negb mbind option_bind].
  rewrite serve_ok by done. unfold nbd_shutdown. cbn [mk_handle nh_fd].
  rewrite (proj2 (Z.eqb_neq fd 0)) by lia. reflexivity.
Qed.

Lemma nbd_queuer_arguments_witness :
  nbd_queuer_test_main (witness_calls true) (replicate 9 (str_bytes "y")) = None.
Proof.
  apply (nbd_queuer_arguments (witness_calls true) (replicate 9 (str_bytes "y")) 4096 5).
  - repeat split; done.
  - simpl. lia.
Defined.
