(* ===== verification/NbdReconnect.v ===== *)
(** * src/nbd/nbd.c: the connection to the Redis server when it is lost

    [redis_disconnect_callback] replaces [handle->redis_c]. hiredis frees a
    context as soon as its disconnect callback, if it has one, has returned; the
    results of the calls the callback makes are given by a [reconnect] record. *)
From S2P Require Import Prelude.

(** ** Definitions *)

(** A context: whether its [data] is the handle, whether the disconnect
    callback is set, and the database its commands go to. *)
Record redis_context := {
  rc_data : bool;
  rc_callback : bool;
  rc_db : Z;
}.

(** [handle->redis_c]: null, a context, or a context that has been freed. *)
Inductive redis_link :=
  | No_context
  | Context (c : redis_context)
  | Freed_context.

(** [status == REDIS_OK]; [c->err == REDIS_ERR_EOF]; any other error. *)
Inductive disconnect_status := Status_ok | Status_eof | Status_error.

(** [redisAsyncConnect(...) != NULL], [redisAsyncSetDisconnectCallback(...) !=
    REDIS_ERR], [redisAsyncCommand(..., "select %d", ...) == REDIS_OK] *)
Record reconnect := {
  again_connect : bool;
  again_set_callback : bool;
  again_select : bool;
}.

(** [c] is the context the callback is called for, [link] the handle's; the
    result is the handle's afterwards, none when an [assert] fails. *)
Definition redis_disconnect_callback (e : reconnect) (redis_db : Z) (c : redis_context)
    (status : disconnect_status) (link : redis_link) : option redis_link :=
  if negb (rc_data c) then None else
  match status with
  | Status_eof =>
      if again_connect e then
        let c' := {| rc_data := rc_data c; rc_callback := false; rc_db := 0 |} in
        if again_set_callback e then
          if again_select e
          then Some (Context {| rc_data := rc_data c; rc_callback := true; rc_db := redis_db |})
          else None
        else Some (Context c')
      else Some No_context
  | Status_error => None
  | Status_ok => Some link
  end.

(** What hiredis does when a connection ends. *)
Definition disconnect (e : reconnect) (redis_db : Z) (c : redis_context)
    (status : disconnect_status) : option redis_link :=
  if rc_callback c then redis_disconnect_callback e redis_db c status Freed_context
  else Some Freed_context.

(** The handle's connection as the initializers leave it. *)
Definition attached (redis_db : Z) : redis_context :=
  {| rc_data := true; rc_callback := true; rc_db := redis_db |}.

(** The context of [__handle_write], after [assert(redis_c != NULL)]: the
    database its commands go to. *)
Definition write_database (link : redis_link) : option Z :=
  match link with Context c => Some (rc_db c) | _ => None end.

(** ** The connection over time: it may be lost any number of times. *)
Inductive link_step (redis_db : Z) : redis_link → redis_link → Prop :=
  | link_lost e c status link :
      disconnect e redis_db c status = Some link →
      link_step redis_db (Context c) link.

Definition link_reachable (redis_db : Z) : redis_link → Prop :=
  rtc (link_step redis_db) (Context (attached redis_db)).

(** A context without a disconnect callback, on the default database. *)
Definition unattended : redis_context :=
  {| rc_data := true; rc_callback := false; rc_db := 0 |}.

Definition link_inv (redis_db : Z) (link : redis_link) : Prop :=
  link = Context (attached redis_db) ∨ link = Context unattended ∨
  link = No_context ∨ link = Freed_context.

Lemma link_inv_step redis_db l l' :
  link_inv redis_db l → link_step redis_db l l' → link_inv redis_db l'.
Proof.
  unfold link_inv. intros Hi Hs. destruct Hs as [e c status link E].
  destruct Hi as [Hi|[Hi|[Hi|Hi]]]; simplify_eq; unfold disconnect in E; cbn in E.
  - destruct status; cbn in E; simplify_eq; [by auto|].
    destruct e as [[] [] []]; cbn in E; simplify_eq; eauto.
  - simplify_eq. auto.
Qed.

Lemma link_inv_reachable redis_db l : link_reachable redis_db l → link_inv redis_db l.
Proof.
  intros Hr. unfold link_reachable in Hr.
  assert (link_inv redis_db (Context (attached redis_db))) as Hi by (by left).
  induction Hr as [|x y z Hs _ IH]; [done|]. eauto using link_inv_step.
Qed.

(** ** Properties *)

(** C40: However often the server drops the connection, the handle's context is
    the one the initializers made, with the callback and the database selected,
    or no write reaches the right database any more: the context is null or
    freed, or it is a context without callback that commands database 0. So a
    write that is queued goes to the chosen database or to database 0. *)
Theorem redis_link_invariant redis_db link :
  link_reachable redis_db link →
  (link = Context (attached redis_db) ∧ write_database link = Some redis_db) ∨
  (link = Context unattended ∧ write_database link = Some 0) ∨
  write_database link = None.
Proof.
  intros Hr. destruct (link_inv_reachable _ _ Hr) as [->|[->|[->| ->]]]; auto.
Qed.

Lemma redis_link_invariant_witness :
  let e := {| again_connect := true; again_set_callback := false; again_select := true |} in
  write_database (Context unattended) = Some 0 ∧
  ((Context unattended = Context (attached 3) ∧
    write_database (Context unattended) = Some 3) ∨
   (Context unattended = Context unattended ∧
    write_database (Context unattended) = Some 0) ∨
   write_database (Context unattended) = None).
Proof.
  intros e. split; [done|]. apply (redis_link_invariant 3 (Context unattended)).
  apply rtc_once. exact (link_lost 3 e (attached 3) Status_eof (Context unattended) eq_refl).
Defined.

(** A connection lost by a timeout of the server comes back as it was when the
    calls succeed, and only an [EOF] is survived: any other error aborts. *)
Theorem redis_reconnected e redis_db status link :
  disconnect e redis_db (attached redis_db) status = Some link →
  again_connect e = true → again_set_callback e = true → status ≠ Status_ok →
  link = Context (attached redis_db) ∧ status = Status_eof.
Proof.
  intros E H1 H2 Hs. unfold disconnect in E. cbn in E.
  destruct status; cbn in E; [done| |done]. rewrite H1, H2 in E.
  destruct (again_select e); by simplify_eq.
Qed.

Lemma redis_reconnected_witness :
  Context (attached 3) = Context (attached 3) ∧ Status_eof = Status_eof.
Proof.
  apply (redis_reconnected
           {| again_connect := true; again_set_callback := true; again_select := true |}
           3 Status_eof); done.
Defined.
