(* ===== verification/Scan.v ===== *)
(** * Scanning text: [sscanf] of numbers and [strtok]

    The store's values are texts such as [start:4096:end:8192:file:7]; the
    inspection cuts them at the colons and scans the numbers. [decimal] prints
    a number as hiredis does for [%lu], and is scanned back. *)
From S2P Require Import Prelude Words Memory.

#[local] Open Scope list_scope.
#[local] Open Scope Z_scope.

(** [sscanf(s, "%lu", id)] on a C string: white space, a sign, digits. [None] is
    an overflow, which is undefined; [Some None] no match. *)
Definition is_space (c : Z) : bool := (c =? 32) || ((9 <=? c) && (c <=? 13)).
Definition is_digit (c : Z) : bool := (48 <=? c) && (c <=? 57).

Fixpoint skip_spaces (l : list Z) : list Z :=
  match l with c :: l' => if is_space c then skip_spaces l' else l | [] => [] end.

Fixpoint scan_digits (acc : Z) (l : list Z) : Z :=
  match l with
  | c :: l => if is_digit c then scan_digits (10 * acc + (c - 48)) l else acc
  | [] => acc
  end.

Definition scan_u64 (l : list Z) : option (option Z) :=
  let l := skip_spaces l in
  let '(neg, l) := match l with
                   | c :: l' => if c =? 45 then (true, l')
                                else if c =? 43 then (false, l') else (false, l)
                   | [] => (false, l)
                   end in
  match l with
  | c :: _ =>
      if is_digit c then
        let v := scan_digits 0 l in
        if v <? 2 ^ 64 then Some (Some (if neg : bool then u64 (- v) else v)) else None
      else Some None
  | [] => Some None
  end.

(** [sscanf(s, "%lu", &x)] where [x] holds [old]. *)
Definition scan_into (s : list Z) (old : Z) : option Z :=
  r ← scan_u64 s; Some (default old r).

(** The tokens that successive calls of [strtok(_, ":")] return for a C string;
    the call behind the last one returns a null pointer. *)
Definition COLON : Z := 58.

Fixpoint split_colon (l : list Z) : list (list Z) :=
  match l with
  | [] => [[]]
  | c :: l =>
      if c =? COLON then [] :: split_colon l
      else match split_colon l with
           | t :: ts => (c :: t) :: ts
           | [] => [[c]]
           end
  end.

Definition tokens (l : list Z) : list (list Z) := filter (λ t, t ≠ []) (split_colon l).

(** [strtok(pointer, ":"); sscanf(strtok(NULL, ":"), "%lu", &x)] *)
Definition pointer_arg (pointer : list Z) (old : Z) : option Z :=
  t ← tokens pointer !! 1%nat; scan_into t old.

(** ** Lemmas *)

Lemma split_colon_token t l :
  Forall (λ c, c ≠ COLON) t → split_colon (t ++ COLON :: l) = t :: split_colon l.
Proof.
  induction 1 as [|c t Hc Ht IH]; simpl; [done|].
  rewrite (proj2 (Z.eqb_neq c COLON) Hc). by rewrite IH.
Qed.

Lemma split_colon_last t : Forall (λ c, c ≠ COLON) t → split_colon t = [t].
Proof.
  induction 1 as [|c t Hc Ht IH]; simpl; [done|].
  rewrite (proj2 (Z.eqb_neq c COLON) Hc). by rewrite IH.
Qed.

(** A text without colons that is not empty is one token. *)
Definition is_token (t : list Z) : Prop := t ≠ [] ∧ Forall (λ c, c ≠ COLON) t.

Lemma tokens_cons t l : is_token t → tokens (t ++ COLON :: l) = t :: tokens l.
Proof.
  intros [Hn Ht]. unfold tokens. rewrite split_colon_token by done. by rewrite filter_cons_True.
Qed.

Lemma tokens_one t : is_token t → tokens t = [t].
Proof.
  intros [Hn Ht]. unfold tokens. rewrite split_colon_last by done. by rewrite filter_cons_True.
Qed.

Lemma scan_digits_app a l1 l2 :
  Forall (λ d, 48 ≤ d < 58) l1 → scan_digits a (l1 ++ l2) = scan_digits (scan_digits a l1) l2.
Proof.
  intros H. revert a. induction H as [|d l1 Hd H1 IH]; intros a; [done|]. simpl.
  unfold is_digit. rewrite (proj2 (Z.leb_le _ _)), (proj2 (Z.leb_le _ _)) by lia. simpl.
  apply IH.
Qed.

Lemma scan_decimal_digits fuel z :
  0 ≤ z < 10 ^ Z.of_nat fuel → scan_digits 0 (decimal_digits fuel z) = z.
Proof.
  revert z. induction fuel as [|fuel IH]; intros z Hz; [simpl in *; lia|].
  rewrite Nat2Z.inj_succ, Z.pow_succ_r in Hz by lia. cbn [decimal_digits].
  assert (0 ≤ z mod 10 < 10) by (apply Z.mod_pos_bound; lia).
  assert (∀ a, scan_digits a [48 + z `mod` 10] = 10 * a + z `mod` 10) as Hlast.
  { intros a. cbn [scan_digits]. unfold is_digit.
    rewrite (proj2 (Z.leb_le _ _)), (proj2 (Z.leb_le _ _)) by lia. simpl. lia. }
  destruct (Z.ltb_spec z 10) as [Hs|Hs].
  - simpl app. rewrite Hlast, Z.mod_small; lia.
  - rewrite scan_digits_app by apply decimal_digits_range. rewrite Hlast, IH.
    + rewrite (Z.div_mod z 10) at 3 by lia. lia.
    + split; [apply Z.div_pos; lia|]. apply Z.div_lt_upper_bound; lia.
Qed.

Lemma decimal_token z : is_token (decimal z).
Proof.
  split.
  - unfold decimal. change 20%nat with (S 19). cbn [decimal_digits].
    intros E. by apply app_eq_nil in E as [_ E].
  - unfold decimal. apply (Forall_impl (P := λ d, 48 ≤ d < 58));
      [intros d Hd; unfold COLON; lia|apply decimal_digits_range].
Qed.

(** What [%lu] prints is what [%lu] scans. *)
Lemma scan_decimal z : 0 ≤ z < 2 ^ 64 → scan_u64 (decimal z) = Some (Some z).
Proof.
  intros Hz. pose proof (scan_decimal_digits 20 z ltac:(lia)) as Hs. fold (decimal z) in Hs.
  destruct (decimal_token z) as [Hn _]. unfold scan_u64.
  pose proof (decimal_digits_range 20 z) as Hr. fold (decimal z) in Hr.
  destruct (decimal z) as [|d l] eqn:Ed; [done|]. apply Forall_cons_1 in Hr as [Hd Hr].
  assert (skip_spaces (d :: l) = d :: l) as ->.
  { cbn [skip_spaces]. unfold is_space.
    rewrite (proj2 (Z.eqb_neq d 32)), (proj2 (Z.leb_gt d 13)), andb_false_r by lia. done. }
  assert (is_digit d = true) as Hdig.
  { unfold is_digit. by rewrite (proj2 (Z.leb_le _ _)), (proj2 (Z.leb_le _ _)) by lia. }
  cbv beta iota. rewrite (proj2 (Z.eqb_neq d 45)), (proj2 (Z.eqb_neq d 43)) by lia.
  rewrite Hdig, Hs.
  by rewrite (proj2 (Z.ltb_lt _ _)) by lia.
Qed.

Lemma scan_into_decimal z old : 0 ≤ z < 2 ^ 64 → scan_into (decimal z) old = Some z.
Proof. intros Hz. unfold scan_into. by rewrite scan_decimal. Qed.

(** [kind:id] pointers, such as [fs:1] and [lfiles:2048]. *)
Lemma pointer_arg_decimal kind z old :
  is_token kind → 0 ≤ z < 2 ^ 64 → pointer_arg (kind ++ COLON :: decimal z) old = Some z.
Proof.
  intros Hk Hz. unfold pointer_arg.
  rewrite tokens_cons, tokens_one by (done || apply decimal_token). simpl.
  by apply scan_into_decimal.
Qed.

Definition pointer_text (kind : string) (id : Z) : list Z := str_bytes kind ++ COLON :: decimal id.

Lemma pointer_text_read kind id post old :
  is_token (str_bytes kind) → Forall (λ c, c ≠ 0) (str_bytes kind) → 0 ≤ id < 2 ^ 64 →
  cstr_at (pointer_text kind id ++ 0 :: post) 0 = Some (pointer_text kind id) ∧
  pointer_arg (pointer_text kind id) old = Some id.
Proof.
  intros Ht Hz Hid. split; [|by apply pointer_arg_decimal].
  apply (cstr_at_app []); [done|]. apply Forall_app. split; [done|]. constructor; [done|].
  apply (Forall_impl (P := λ d, 48 ≤ d < 58)); [intros c Hc; lia|apply decimal_digits_range].
Qed.

Lemma pointer_texts_short kind ids :
  zlen (str_bytes kind) < 2 ^ 30 → Forall (λ x, zlen x < 2 ^ 31) (pointer_text kind <$> ids).
Proof.
  intros Hk. apply Forall_fmap, Forall_true. intros id. unfold compose, pointer_text.
  pose proof (decimal_digits_length 20 id). fold (decimal id) in *.
  rewrite length_app. cbn [length]. lia.
Qed.
