(* ===== verification/RedisEnv.v ===== *)
(** * hiredis and the Redis server

    The server executes commands on its data; [Hiredis] is the client library:
    a connection has a queue of commands whose replies have not been read. The
    laws are the library's documentation: [redisAppendCommand] only queues,
    [redisGetReply] reads the reply of the oldest queued command, and
    [redisCommand] is the one after the other. *)
From S2P Require Import Prelude Words Memory.

(** [redisReply]: [reply_len] is the member [len], a string's length. *)
#[warnings="-register-all"]
Inductive redisReply :=
  | RString (s : list Z)
  | RArray (len : Z) (elements : list redisReply)
  | RInteger (i : Z)
  | RNil
  | RStatus (s : list Z)
  | RError (s : list Z).

Definition reply_len (r : redisReply) : Z :=
  match r with
  | RString s | RStatus s | RError s => zlen s
  | RArray len _ => len
  | _ => 0
  end.

Definition reply_str (r : redisReply) : option (list Z) :=
  match r with RString s | RStatus s | RError s => Some s | _ => None end.

(** The arguments of a format string: [%lu], [%ld] and [%d], [%s], [%b]. *)
Inductive arg :=
  | AInt (z : Z)
  | AStr (s : list Z)
  | ABin (d : list Z).

Record command := { c_fmt : string; c_args : list arg }.

#[export] Instance arg_eq_dec : EqDecision arg.
Proof. solve_decision. Defined.
#[export] Instance command_eq_dec : EqDecision command.
Proof. solve_decision. Defined.

Class RedisServer := {
  db : Type;
  exec : db → command → db * redisReply;
}.

Class Hiredis `{RedisServer} := {
  redisContext : Type;
  redisAppendCommand : redisContext → command → redisContext;
  redisGetReply : redisContext → redisContext * option redisReply;
  redisCommand : redisContext → command → redisContext * option redisReply;
  (** the server's data and the queued commands, oldest first *)
  data_of : redisContext → db;
  queued : redisContext → list command;
  append_spec x c :
    data_of (redisAppendCommand x c) = data_of x ∧
    queued (redisAppendCommand x c) = queued x ++ [c];
  command_spec x c : redisCommand x c = redisGetReply (redisAppendCommand x c);
  (** a lost connection answers with a null pointer *)
  reply_spec x x' r c cs :
    queued x = c :: cs → redisGetReply x = (x', Some r) →
    (data_of x', r) = exec (data_of x) c ∧ queued x' = cs;
}.

(** The connection is up. *)
Class Connected `{Hiredis} :=
  connected x c cs : queued x = c :: cs → is_Some (redisGetReply x).2.

Lemma get_reply_up `{Connected} x c cs :
  queued x = c :: cs →
  ∃ x', redisGetReply x = (x', Some (exec (data_of x) c).2) ∧
    data_of x' = (exec (data_of x) c).1 ∧ queued x' = cs.
Proof.
  intros E. destruct (connected x c cs E) as [r Er].
  destruct (redisGetReply x) as [x' r'] eqn:Eg. simpl in Er. subst r'.
  destruct (reply_spec _ _ _ _ _ E Eg) as [Ed Eq]. exists x'.
  rewrite <-Ed. done.
Qed.

(** A connection to a server that is always up. *)
#[export, refine] Instance local_hiredis `{RedisServer} : Hiredis | 100 := {|
  redisContext := (db * list command)%type;
  redisAppendCommand x c := (x.1, x.2 ++ [c]);
  redisGetReply x :=
    match x.2 with
    | [] => (x, None)
    | c :: cs => let '(d, r) := exec x.1 c in ((d, cs), Some r)
    end;
  redisCommand x c :=
    match x.2 ++ [c] with
    | [] => (x, None)
    | c :: cs => let '(d, r) := exec x.1 c in ((d, cs), Some r)
    end;
  data_of := fst;
  queued := snd;
|}.
Proof.
  - intros x c. by split.
  - intros [d [|c0 q]] c; reflexivity.
  - intros [d q] x' r c cs E Er. simpl in *. rewrite E in Er.
    destruct (exec d c) as [d' r']. by simplify_eq.
Defined.

#[export] Instance local_connected `{RedisServer} : Connected (H0 := local_hiredis).
Proof. intros [d q] c cs E. simpl in *. rewrite E. destruct (exec d c). by eexists. Qed.

(** A server that keeps a log and answers by the command alone. *)
Definition log_server (reply : command → redisReply) : RedisServer :=
  {| db := list command; exec d c := (d ++ [c], reply c) |}.
