(* ===== verification/Redis.v ===== *)
(** * src/gray-inferencer/redis_queue.c: the store the inspection keeps in Redis

    [kv_store] is the connection and the counters of pipelined commands; the
    flusher threads are the numbers of replies they still have to read. A
    failing [assert], a call of [exit] and an access through a null reply have
    no result. *)
From S2P Require Import Prelude Words Memory Bitarray Scan RedisEnv.

#[local] Open Scope string_scope.
#[local] Open Scope list_scope.
#[local] Open Scope Z_scope.

Definition REDIS_DEFAULT_TIMEOUT : Z := 30.
Definition REDIS_DEFAULT_PIPELINED : Z := 16384.
Definition REDIS_DEFAULT_BYTES : Z := 262144000.

(** ** The formats of include/redis_queue.h *)

Definition REDIS_MBR_SECTOR_INSERT := "HSET mbr:%lu %s %b".
Definition REDIS_MBR_INSERT := "SET sector:%lu mbr:%lu".
Definition REDIS_SUPERBLOCK_SECTOR_INSERT := "HSET fs:%lu %s %b".
Definition REDIS_SUPERBLOCK_SECTOR_GET := "HGET fs:%lu %s".
Definition REDIS_SUPERBLOCK_INSERT := "SET sector:%lu fs:%lu".
Definition REDIS_BGD_SECTOR_INSERT := "HSET bgd:%lu %s %b".
Definition REDIS_BGD_SECTOR_GET := "HGET bgd:%lu %s".
Definition REDIS_BGDS_INSERT := "RPUSH bgds:%lu bgd:%lu".
Definition REDIS_BGDS_LGET := "LRANGE bgds:%lu 0 -1".
Definition REDIS_BGDS_SECTOR_INSERT := "SET sector:%lu lbgds:%lu".
Definition REDIS_INODE_INSERT := "RPUSH inode:%lu file:%lu".
Definition REDIS_FILE_SECTOR_INSERT := "HSET file:%lu %s %b".
Definition REDIS_FILE_SECTOR_GET := "HGET file:%lu %s".
Definition REDIS_FILE_SECTORS_INSERT := "RPUSH filesectors:%lu sector:%ld".
Definition REDIS_FILE_SECTORS_LAST_SECTOR := "LINDEX filesectors:%lu -1".
Definition REDIS_FILE_SECTORS_LLEN := "LLEN filesectors:%lu".
Definition REDIS_FILE_SECTORS_LSET := "LSET filesectors:%lu %lu sector:%ld".
Definition REDIS_FILE_SECTORS_DELETE := "DEL filesectors:%lu".
Definition REDIS_FILES_INSERT := "RPUSH files:%lu file:%lu".
Definition REDIS_FILES_LGET := "LRANGE files:%lu 0 -1".
Definition REDIS_FILES_SECTOR_INSERT := "SET sector:%lu lfiles:%lu".
Definition REDIS_PATH_SET := "SET path:%b %lu".
Definition REDIS_PATH_GET := "GET path:%b".
Definition REDIS_EXTENT_SECTOR_INSERT := "HSET extent:%lu %s %b".
Definition REDIS_EXTENT_SECTOR_GET := "HGET extent:%lu %s".
Definition REDIS_EXTENTS_INSERT := "RPUSH extents:%lu extent:%lu".
Definition REDIS_EXTENTS_LGET := "LRANGE extents:%lu 0 -1".
Definition REDIS_EXTENTS_LINSERT := "LINSERT extents:%lu BEFORE %lu extent:%lu".
Definition REDIS_EXTENTS_SECTOR_INSERT := "SET sector:%lu extent:%lu".
Definition REDIS_DIR_SECTOR_INSERT := "HSET dirdata:%lu %s %b".
Definition REDIS_DIR_FILES_INSERT := "RPUSH dirlist:%lu %b".
Definition REDIS_DIR_INSERT := "SET sector:%lu dirdata:%lu".
Definition REDIS_ASYNC_QUEUE_PUSH := "LPUSH writequeue %b".
Definition REDIS_ASYNC_QUEUE_POP := "BRPOP writequeue 0".
Definition REDIS_RESET_CREATED := "DEL createset".
Definition REDIS_RESET_DELETED := "DEL deleteset".
Definition REDIS_LOAD_LRECORDS := "SET sector:%lu loadlist:%lu".
Definition REDIS_LOAD_LRECORDS_INSERT := "RPUSH loadlist:%lu load:%lu".
Definition REDIS_GET_LRECORDS := "LRANGE loadlist:%lu 0 -1".

(** ** The formats of redis_queue.c *)

Definition REDIS_MD_FILTER_SET := "SET metadata_filter %b".
Definition REDIS_MD_FILTER_GET := "GET metadata_filter".
Definition REDIS_SECTOR_GET := "GET sector:%lu".
Definition REDIS_DATA_INSERT := "SET sector:%lu start:%lu:end:%lu:file:%lu".
Definition REDIS_ENQUEUE_WRITE := "SETEX qsector:%lu %d %b".
Definition REDIS_DEQUEUE_WRITE := "GET qsector:%lu".
Definition REDIS_DEL_WRITE := "DEL qsector:%lu".
Definition REDIS_PUBLISH := "PUBLISH %s %b".
Definition REDIS_FCOUNTER := "INCR fcounter".
Definition REDIS_FCOUNTER_SET := "SET fcounter %lu".

Definition cmd (fmt : string) (args : list arg) : command :=
  {| c_fmt := fmt; c_args := args |}.

Section redis.
Context `{Malloc} `{Hiredis}.

Record kv_store := {
  kv_connection : redisContext;
  kv_cmds : Z;  (** [outstanding_pipelined_cmds] *)
  kv_bytes : Z;  (** [outstanding_bytes] *)
}.

Definition set_connection (x : redisContext) (s : kv_store) : kv_store :=
  {| kv_connection := x; kv_cmds := kv_cmds s; kv_bytes := kv_bytes s |}.
Definition set_cmds (n : Z) (s : kv_store) : kv_store :=
  {| kv_connection := kv_connection s; kv_cmds := n; kv_bytes := kv_bytes s |}.
Definition set_bytes (n : Z) (s : kv_store) : kv_store :=
  {| kv_connection := kv_connection s; kv_cmds := kv_cmds s; kv_bytes := n |}.

(** ** Replies and the pipeline *)

Definition check_redis_return (r : option redisReply) : Z :=
  match r with None => EXIT_FAILURE | Some _ => EXIT_SUCCESS end.

(** [reply = redisCommand(handle->connection, ...)] *)
Definition do_command (s : kv_store) (c : command) : kv_store * option redisReply :=
  let '(x, r) := redisCommand (kv_connection s) c in (set_connection x s, r).

Definition redis_select (s : kv_store) (database : list Z) : kv_store * Z :=
  let '(s, r) := do_command s (cmd "SELECT %s" [AStr database]) in
  (s, check_redis_return r).

Fixpoint flush_loop (fuel : nat) (s : kv_store) : kv_store * Z :=
  match fuel with
  | O => (s, EXIT_SUCCESS)
  | S fuel =>
      if kv_cmds s =? 0 then (s, EXIT_SUCCESS) else
      let '(x, r) := redisGetReply (kv_connection s) in
      let s := set_connection x s in
      if negb (check_redis_return r =? EXIT_SUCCESS) then (s, EXIT_FAILURE)
      else flush_loop fuel (set_cmds (u64 (kv_cmds s - 1)) s)
  end.

(** One turn per outstanding command. *)
Definition redis_flush_pipeline (s : kv_store) : kv_store * Z :=
  flush_loop (Z.to_nat (kv_cmds s)) s.

(** [redis_init] with [background_flush] false; [outstanding_bytes] is not set.
    [x] is what [redisConnectWithTimeout] returned, [err] its member. *)
Definition redis_init (x : redisContext) (err : Z) (database : list Z) : option kv_store :=
  if negb (err =? 0) then None else
  let '(s, rc) := redis_select
    {| kv_connection := x; kv_cmds := indeterminate; kv_bytes := indeterminate |} database in
  if negb (rc =? EXIT_SUCCESS) then None else Some (set_cmds 0 s).

(** [redisAppendCommand(...); outstanding_pipelined_cmds++;], and a flush once
    there are many, which must succeed. *)
Definition append_pipelined (s : kv_store) (c : command) : option (kv_store * Z) :=
  let s := set_connection (redisAppendCommand (kv_connection s) c) s in
  let s := set_cmds (u64 (kv_cmds s + 1)) s in
  if REDIS_DEFAULT_PIPELINED <=? kv_cmds s then
    let '(s, rc) := redis_flush_pipeline s in
    if negb (rc =? EXIT_SUCCESS) then None else Some (s, EXIT_SUCCESS)
  else Some (s, EXIT_SUCCESS).

Definition redis_enqueue_pipelined (s : kv_store) (sector : Z) (data : list Z) :=
  append_pipelined s
    (cmd REDIS_ENQUEUE_WRITE [AInt sector; AInt REDIS_DEFAULT_TIMEOUT; ABin data]).

Definition redis_delqueue_pipelined (s : kv_store) (sector : Z) :=
  append_pipelined s (cmd REDIS_DEL_WRITE [AInt sector]).

Definition redis_reverse_pointer_set (s : kv_store) (fmt : string) (src dst : Z) :=
  append_pipelined s (cmd fmt [AInt src; AInt dst]).

Definition redis_hash_field_set (s : kv_store) (fmt : string) (src : Z)
    (field data : list Z) :=
  append_pipelined s (cmd fmt [AInt src; AStr field; ABin data]).

Definition redis_list_set (s : kv_store) (fmt : string) (src index value : Z) :=
  append_pipelined s (cmd fmt [AInt src; AInt index; AInt value]).

Definition redis_binary_insert (s : kv_store) (fmt : string) (src : Z) (data : list Z) :=
  append_pipelined s (cmd fmt [AInt src; ABin data]).

Definition redis_reverse_file_data_pointer_set (s : kv_store) (src start end_ dst : Z) :=
  append_pipelined s (cmd REDIS_DATA_INSERT [AInt src; AInt start; AInt end_; AInt dst]).

Definition redis_path_set (s : kv_store) (path : list Z) (id : Z) :=
  append_pipelined s (cmd REDIS_PATH_SET [ABin path; AInt id]).

Definition redis_metadata_set (s : kv_store) (data : list Z) :=
  append_pipelined s (cmd REDIS_MD_FILTER_SET [ABin data]).

Definition redis_delete_key (s : kv_store) (fmt : string) (id : Z) :=
  append_pipelined s (cmd fmt [AInt id]).

(** ** Commands that wait for their reply *)

(** [redis_flush_pipeline(handle); reply = redisCommand(...)]; the result of
    the flush is not looked at. *)
Definition flushed_command (s : kv_store) (c : command) : kv_store * option redisReply :=
  do_command (redis_flush_pipeline s).1 c.

Definition redis_publish (s : kv_store) (channel data : list Z) : kv_store * Z :=
  let '(s, r) := do_command s (cmd REDIS_PUBLISH [AStr channel; ABin data]) in
  (s, check_redis_return r).

(** The string of a reply when it fits a buffer of [cap] bytes. *)
Definition reply_bytes (cap : Z) (r : redisReply) : list Z :=
  match r with
  | RString s => if (0 <? zlen s) && (zlen s <=? cap) then s else []
  | _ => []
  end.

Definition redis_dequeue (s : kv_store) (sector cap : Z) :
    option (kv_store * list Z * Z) :=
  let '(s, r) := do_command s (cmd REDIS_DEQUEUE_WRITE [AInt sector]) in
  r ← r;
  let data := reply_bytes cap r in
  let '(s, r) := do_command s (cmd REDIS_DEL_WRITE [AInt sector]) in
  Some (s, data, check_redis_return r).

Definition redis_hash_field_get (s : kv_store) (fmt : string) (src : Z) (field : list Z)
    (cap : Z) : option (kv_store * list Z * Z) :=
  let '(s, r) := flushed_command s (cmd fmt [AInt src; AStr field]) in
  r ← r; Some (s, reply_bytes cap r, EXIT_SUCCESS).

Definition redis_sector_lookup (s : kv_store) (src cap : Z) :
    option (kv_store * list Z * Z) :=
  let '(s, r) := flushed_command s (cmd REDIS_SECTOR_GET [AInt src]) in
  r ← r; Some (s, reply_bytes cap r, EXIT_SUCCESS).

(** The out-parameters keep their value ([out]) on other replies. *)
Definition redis_list_len (s : kv_store) (fmt : string) (src : Z) :
    option (kv_store * Z * Z) :=
  let '(s, r) := flushed_command s (cmd fmt [AInt src]) in
  r ← r;
  Some (s, match r with RInteger i => u64 i | _ => 0 end, EXIT_SUCCESS).

Definition redis_path_get (s : kv_store) (path : list Z) (out : Z) :
    option (kv_store * Z * Z) :=
  let '(s, r) := flushed_command s (cmd REDIS_PATH_GET [ABin path]) in
  r ← r;
  match r with
  | RString str =>
      if 0 <? zlen str then
        v ← scan_u64 str; Some (s, match v with Some v => v | None => out end, EXIT_SUCCESS)
      else Some (s, out, EXIT_SUCCESS)
  | _ => Some (s, out, EXIT_SUCCESS)
  end.

Definition redis_metadata_get (s : kv_store) (out : option (list Z)) :
    option (kv_store * option (list Z) * Z) :=
  let '(s, r) := flushed_command s (cmd REDIS_MD_FILTER_GET []) in
  r ← r;
  match r with
  | RString str =>
      if 0 <? zlen str then
        m ← malloc (zlen str); m ← mem_write m 0 str; Some (s, Some m, EXIT_SUCCESS)
      else Some (s, out, EXIT_SUCCESS)
  | _ => Some (s, out, EXIT_SUCCESS)
  end.

Definition redis_get_fcounter (s : kv_store) (out : Z) : option (kv_store * Z * Z) :=
  let '(s, r) := flushed_command s (cmd REDIS_FCOUNTER []) in
  r ← r;
  Some (s, match r with RInteger i => u64 i | _ => out end, EXIT_SUCCESS).

Definition redis_set_fcounter (s : kv_store) (counter : Z) : kv_store * Z :=
  let '(s, r) := flushed_command s (cmd REDIS_FCOUNTER_SET [AInt counter]) in
  (s, check_redis_return r).

Definition redis_set_add (s : kv_store) (fmt : string) (id : Z) : kv_store * Z :=
  let '(s, r) := flushed_command s (cmd fmt [AInt id]) in (s, check_redis_return r).

Definition redis_set_remove (s : kv_store) (fmt : string) (id : Z) :
    option (kv_store * Z * Z) :=
  let '(s, r) := flushed_command s (cmd fmt [AInt id]) in
  r ← r;
  Some (s, match r with RInteger i => u64 i | _ => 0 end, EXIT_SUCCESS).

Definition redis_set_reset (s : kv_store) : kv_store * Z :=
  let '(s, r) := flushed_command s (cmd REDIS_RESET_CREATED []) in
  let '(s, r2) := do_command s (cmd REDIS_RESET_DELETED []) in
  (s, if (check_redis_return r =? 0) && (check_redis_return r2 =? 0) then 0 else 1).

(** [data] is not terminated: [strtok] reads on into its indeterminate part. *)
Definition redis_last_file_sector (s : kv_store) (id sector : Z) :
    option (kv_store * Z * Z) :=
  let '(s, r) := flushed_command s (cmd REDIS_FILE_SECTORS_LAST_SECTOR [AInt id]) in
  r ← r;
  match r with
  | RString str =>
      if (0 <? zlen str) && (zlen str <=? 64) then
        data ← mem_write (replicate 64 (u8 indeterminate)) 0 str;
        pointer ← cstr_at data 0;
        v ← pointer_arg pointer sector;
        Some (s, v, EXIT_SUCCESS)
      else Some (s, sector, EXIT_SUCCESS)
  | _ => Some (s, sector, EXIT_SUCCESS)
  end.

(** ** Lists: every element copied into a block of [size] bytes, then a NUL *)

Definition copy_element (size : Z) (str : list Z) : option (list Z) :=
  m ← malloc size; m ← mem_write m 0 str; mem_write m (zlen str) [0].

(** [None] in the second component is the early return on an element that is
    not a string. *)
Fixpoint copy_elements (size : redisReply → Z) (es : list redisReply) :
    option (option (list (list Z))) :=
  match es with
  | [] => Some (Some [])
  | RString str :: es =>
      m ← copy_element (size (RString str)) str;
      rest ← copy_elements size es;
      Some (option_map (cons m) rest)
  | _ :: _ => Some None
  end.

(** [size len e]: what is allocated for the element [e] of an array reply whose
    own [len] is [len]. *)
Definition list_reply (size : Z → redisReply → Z) (s : kv_store) (r : option redisReply)
    (out : option (list (list Z))) : option (kv_store * option (list (list Z)) * Z) :=
  r ← r;
  match r with
  | RArray len es =>
      if bool_decide (malloc (8 * zlen es) = None) then Some (s, None, EXIT_FAILURE) else
      l ← copy_elements (size len) es;
      Some (s, l, match l with None => EXIT_FAILURE | Some _ => EXIT_SUCCESS end)
  | _ => Some (s, out, EXIT_SUCCESS)
  end.

Definition redis_list_get (s : kv_store) (fmt : string) (src : Z)
    (out : option (list (list Z))) : option (kv_store * option (list (list Z)) * Z) :=
  let '(s, r) := flushed_command s (cmd fmt [AInt src]) in
  list_reply (λ _ e, reply_len e + 1) s r out.

Definition redis_list_get_var (s : kv_store) (fmt : string) (src start end_ : Z)
    (out : option (list (list Z))) : option (kv_store * option (list (list Z)) * Z) :=
  let '(s, r) := flushed_command s (cmd fmt [AInt src; AInt start; AInt end_]) in
  list_reply (λ len _, len + 1) s r out.

Fixpoint free_elements (len : nat) (list : list cptr) : option unit :=
  match len, list with
  | O, _ => Some tt
  | S len, p :: list => _ ← cfree p; free_elements len list
  | S _, [] => None
  end.

(** [None] is the null pointer, or a [list] that was never set. *)
Definition redis_free_list (list : option (list cptr)) (len : Z) : option unit :=
  match list with None => Some tt | Some l => free_elements (Z.to_nat len) l end.

(** ** The asynchronous write queue *)

(** [busy] is whether a [pthread_mutex_trylock] of the two finds the mutex
    taken. The last component is the job handed to a new flusher thread. *)
Definition redis_async_write_enqueue (s : kv_store) (bits : bitarray) (sector : Z)
    (data : list Z) (conn_busy cmd_busy : bool) : option (kv_store * option Z * Z) :=
  wanted ← (if conn_busy || cmd_busy
            then bitarray_get_bit bits (u64 (Z.quot sector 4096)) else Some true);
  if negb wanted then Some (s, None, EXIT_FAILURE) else
  let push d x := redisAppendCommand x (cmd REDIS_ASYNC_QUEUE_PUSH [ABin d]) in
  let s := set_connection (push data (push (le_enc 8 sector) (kv_connection s))) s in
  let s := set_cmds (u64 (kv_cmds s + 2)) s in
  let s := set_bytes (u64 (kv_bytes s + 8 + zlen data)) s in
  if (REDIS_DEFAULT_PIPELINED <=? kv_cmds s) || (REDIS_DEFAULT_BYTES <? kv_bytes s) then
    Some (set_bytes 0 (set_cmds 0 s), Some (kv_cmds s), EXIT_SUCCESS)
  else Some (s, None, EXIT_SUCCESS).

Record qemu_bdrv_write := { w_sector_num : Z; w_nb_sectors : Z; w_data : list Z }.

Definition SECTOR_SIZE : Z := 512.

Definition redis_async_write_dequeue (s : kv_store) :
    option (kv_store * qemu_bdrv_write * Z) :=
  let '(s, r) := flushed_command s (cmd REDIS_ASYNC_QUEUE_POP []) in
  r ← r;
  match r with
  | RArray _ [_; RString sec] =>
      if zlen sec =? 8 then
        let '(s, r) := do_command s (cmd REDIS_ASYNC_QUEUE_POP []) in
        r ← r;
        match r with
        | RArray _ [_; e] =>
            d ← reply_str e;
            match malloc (zlen d) with
            | Some m =>
                m ← mem_write m 0 d;
                Some (s, {| w_sector_num := s64 (le_dec sec);
                            w_nb_sectors := zlen d `div` SECTOR_SIZE; w_data := m |},
                      EXIT_SUCCESS)
            | None =>
                Some (s, {| w_sector_num := s64 (le_dec sec); w_nb_sectors := 0;
                            w_data := [] |}, EXIT_FAILURE)
            end
        | _ => None
        end
      else None
  | _ => None
  end.

(** ** Flusher threads: [jobs] are the replies each still has to read *)

(** [redis_periodic_flusher] takes over all outstanding commands. *)
Definition periodic_job (s : kv_store) : kv_store * Z := (set_cmds 0 s, kv_cmds s).

(** One turn of [redis_flush_thread_pipeline]: a lost connection aborts. *)
Definition flush_thread_turn (s : kv_store) (job : Z) : option (kv_store * Z) :=
  let '(x, r) := redisGetReply (kv_connection s) in
  r ← r; Some (set_connection x s, u64 (job - 1)).

(** [redis_shutdown] polls until no flusher is left, then flushes. *)
Definition redis_shutdown (s : kv_store) (jobs : list Z) : option kv_store :=
  match jobs with [] => Some (redis_flush_pipeline s).1 | _ => None end.
End redis.
