(* ===== verification/RedisProps.v ===== *)
(** * Properties of the Redis store

    The pipeline: which reply a command gets, and that every queued command is
    waited for exactly once by the store or a flusher thread. *)
From stdpp Require Import relations.
From S2P Require Import Prelude Words Memory Bitarray RedisEnv Redis.

#[local] Open Scope string_scope.
#[local] Open Scope list_scope.
#[local] Open Scope Z_scope.

(** The server's data after the commands [cs]. *)
Definition exec_all `{RedisServer} (d : db) (cs : list command) : db :=
  foldl (λ d c, (exec d c).1) d cs.

Lemma exec_all_app `{RedisServer} d cs1 cs2 :
  exec_all d (cs1 ++ cs2) = exec_all (exec_all d cs1) cs2.
Proof. apply foldl_app. Qed.

(** ** The pipeline *)

Section pipeline.
Context `{Malloc} `{Connected}.
Implicit Types s : kv_store.

Abbreviation sdata s := (data_of (kv_connection s)).
Abbreviation squeue s := (queued (kv_connection s)).

(** The store waits for all queued commands itself: no flusher is running. *)
Definition synced s : Prop := kv_cmds s = zlen (squeue s) ∧ kv_cmds s < 2 ^ 64.

Lemma flush_loop_ok n : ∀ s fuel,
  (n ≤ fuel)%nat → kv_cmds s = Z.of_nat n → Z.of_nat n < 2 ^ 64 →
  (n ≤ length (squeue s))%nat →
  ∃ x, flush_loop fuel s = (set_cmds 0 (set_connection x s), EXIT_SUCCESS) ∧
    queued x = drop n (squeue s) ∧ data_of x = exec_all (sdata s) (take n (squeue s)).
Proof.
  induction n as [|n IH]; intros s fuel Hf Hc Hb Hq.
  - exists (kv_connection s). split; [|by rewrite drop_0].
    destruct s as [x c b]. simpl in *. subst c. by destruct fuel.
  - destruct fuel as [|fuel]; [lia|]. cbn [flush_loop]. case_test.
    destruct (squeue s) as [|c cs] eqn:Eq; [simpl in Hq; lia|].
    destruct (get_reply_up _ c cs Eq) as (x & Ex & Ed & Eqx). rewrite Ex. simpl.
    destruct (IH (set_cmds (u64 (kv_cmds s - 1)) (set_connection x s)) fuel)
      as (x' & Ef & Eq' & Ed'); simpl.
    { lia. }
    { rewrite uwrap_small; lia. }
    { lia. }
    { rewrite Eqx. simpl in Hq. lia. }
    exists x'. rewrite Ef. simpl in *. rewrite Eqx in *. by rewrite Eq', Ed', Ed.
Qed.

Lemma flush_ok s :
  0 ≤ kv_cmds s < 2 ^ 64 → kv_cmds s ≤ zlen (squeue s) →
  ∃ x, redis_flush_pipeline s = (set_cmds 0 (set_connection x s), EXIT_SUCCESS) ∧
    queued x = drop (Z.to_nat (kv_cmds s)) (squeue s) ∧
    data_of x = exec_all (sdata s) (take (Z.to_nat (kv_cmds s)) (squeue s)).
Proof. intros Hc Hq. apply flush_loop_ok; lia. Qed.

Lemma do_command_ok s c c0 cs :
  squeue s ++ [c] = c0 :: cs →
  ∃ x, do_command s c = (set_connection x s, Some (exec (sdata s) c0).2) ∧
    queued x = cs ∧ data_of x = (exec (sdata s) c0).1.
Proof.
  intros E. unfold do_command. rewrite command_spec.
  destruct (append_spec (kv_connection s) c) as [Ed Eq].
  rewrite E in Eq. destruct (get_reply_up _ _ _ Eq) as (x & Ex & Edx & Eqx).
  rewrite Ex, Ed in *. by exists x.
Qed.

(** On a synced store, a command behind a flush gets its own reply. *)
Lemma flushed_command_ok s c :
  synced s →
  ∃ x, flushed_command s c
       = (set_cmds 0 (set_connection x s), Some (exec (exec_all (sdata s) (squeue s)) c).2) ∧
    queued x = [] ∧ data_of x = exec_all (sdata s) (squeue s ++ [c]).
Proof.
  intros [Hc Hb]. destruct (flush_ok s) as (x & Ef & Eq & Ed); [lia..|].
  unfold flushed_command. rewrite Ef. simpl.
  rewrite Hc, Nat2Z.id in Eq, Ed. rewrite drop_all in Eq. rewrite firstn_all in Ed.
  destruct (do_command_ok (set_cmds 0 (set_connection x s)) c c []) as (x' & Ec & Eq' & Ed').
  { simpl. by rewrite Eq. }
  rewrite Ec. simpl in *. exists x'. rewrite exec_all_app, <-Ed. simpl. done.
Qed.

(** ** Accounting *)

(** The store and its flusher threads. [s_jobs]: the replies the registered ones
    still have to read, whose number is the value of the semaphore
    [thread_counter]; [s_taken]: what the periodic flusher has taken over, behind
    [cmd_lock], and not yet registered with [sem_post]. *)
Record sys := { s_kv : kv_store; s_taken : list Z; s_jobs : list Z }.

Definition sum_jobs (js : list Z) : Z := foldr Z.add 0 js.

Lemma sum_jobs_app j1 j2 : sum_jobs (j1 ++ j2) = sum_jobs j1 + sum_jobs j2.
Proof. induction j1; simpl; lia. Qed.

(** The steps of the store and of its threads. A pipelined operation is
    [append_pipelined]; the others are sequences of commands, with or without
    a flush before them. *)
Inductive sys_step : sys → sys → Prop :=
  | step_pipelined s ts js c s' rc :
      append_pipelined s c = Some (s', rc) →
      sys_step {| s_kv := s; s_taken := ts; s_jobs := js |} {| s_kv := s'; s_taken := ts; s_jobs := js |}
  | step_command s ts js c s' r :
      do_command s c = (s', r) →
      sys_step {| s_kv := s; s_taken := ts; s_jobs := js |} {| s_kv := s'; s_taken := ts; s_jobs := js |}
  | step_flush s ts js s' rc :
      redis_flush_pipeline s = (s', rc) →
      sys_step {| s_kv := s; s_taken := ts; s_jobs := js |} {| s_kv := s'; s_taken := ts; s_jobs := js |}
  | step_async s ts js bits sector data b1 b2 s' job rc :
      redis_async_write_enqueue s bits sector data b1 b2 = Some (s', job, rc) →
      sys_step {| s_kv := s; s_taken := ts; s_jobs := js |}
               {| s_kv := s'; s_taken := ts; s_jobs := match job with Some n => n :: js | None => js end |}
  | step_take s ts js s' n :
      periodic_job s = (s', n) →
      sys_step {| s_kv := s; s_taken := ts; s_jobs := js |}
               {| s_kv := s'; s_taken := n :: ts; s_jobs := js |}
  | step_post s t1 n t2 js :
      sys_step {| s_kv := s; s_taken := t1 ++ n :: t2; s_jobs := js |}
               {| s_kv := s; s_taken := t1 ++ t2; s_jobs := n :: js |}
  | step_thread s ts j1 n j2 s' n' :
      n ≠ 0 → flush_thread_turn s n = Some (s', n') →
      sys_step {| s_kv := s; s_taken := ts; s_jobs := j1 ++ n :: j2 |}
               {| s_kv := s'; s_taken := ts; s_jobs := j1 ++ n' :: j2 |}
  | step_exit s ts j1 j2 :
      sys_step {| s_kv := s; s_taken := ts; s_jobs := j1 ++ 0 :: j2 |} {| s_kv := s; s_taken := ts; s_jobs := j1 ++ j2 |}.

Record accounted (σ : sys) : Prop := {
  ac_cmds : 0 ≤ kv_cmds (s_kv σ) < REDIS_DEFAULT_PIPELINED;
  ac_taken : Forall (λ n, 0 ≤ n < 2 ^ 64) (s_taken σ);
  ac_jobs : Forall (λ n, 0 ≤ n < 2 ^ 64) (s_jobs σ);
  ac_queue : kv_cmds (s_kv σ) + sum_jobs (s_taken σ) + sum_jobs (s_jobs σ)
             = zlen (squeue (s_kv σ));
}.

Lemma sum_jobs_nonneg js : Forall (λ n, 0 ≤ n < 2 ^ 64) js → 0 ≤ sum_jobs js.
Proof. induction 1; simpl; lia. Qed.

Lemma sys_step_accounted σ σ' : sys_step σ σ' → accounted σ → accounted σ'.
Proof.
  intros Hstep [Hc Ht Hj Hq].
  pose proof (sum_jobs_nonneg _ Hj) as Hn. pose proof (sum_jobs_nonneg _ Ht) as Hnt.
  unfold REDIS_DEFAULT_PIPELINED in *.
  destruct Hstep as [s ts js c s' rc E|s ts js c s' r E|s ts js s' rc E
    |s ts js bits sector data b1 b2 s' job rc E|s ts js s' n E|s t1 n t2 js
    |s ts j1 n j2 s' n' Hn0 E|s ts j1 j2];
    simpl in *.
  - unfold append_pipelined, REDIS_DEFAULT_PIPELINED in E. simpl in E.
    destruct (append_spec (kv_connection s) c) as [Ed Eq].
    rewrite uwrap_small in E by lia. revert E. case_test; intros E.
    + destruct (flush_ok (set_cmds (kv_cmds s + 1)
        (set_connection (redisAppendCommand (kv_connection s) c) s))) as (x & Ef & Eqx & _);
        simpl in *; [lia|rewrite Eq; len|].
      rewrite Ef in E. simpl in E. simplify_eq. split; unfold REDIS_DEFAULT_PIPELINED; simpl; [done|done|done|].
      rewrite Eqx, length_drop, Eq, length_app. simpl. lia.
    + simplify_eq. split; unfold REDIS_DEFAULT_PIPELINED; simpl; [lia|done|done|]. rewrite Eq, length_app. simpl. lia.
  - destruct (squeue s ++ [c]) as [|c0 cs] eqn:Eq; [by destruct (squeue s)|].
    destruct (do_command_ok s c c0 cs Eq) as (x & Ed & Eqx & _).
    rewrite Ed in E. simplify_eq. split; unfold REDIS_DEFAULT_PIPELINED; simpl; [done|done|done|].
    apply (f_equal length) in Eq. rewrite length_app in Eq. simpl in Eq. lia.
  - destruct (flush_ok s) as (x & Ef & Eqx & _); [lia|lia|].
    rewrite Ef in E. simplify_eq. split; unfold REDIS_DEFAULT_PIPELINED; simpl; [done|done|done|].
    rewrite Eqx, length_drop. lia.
  - unfold redis_async_write_enqueue, REDIS_DEFAULT_PIPELINED in E. bind_inv E.
    destruct x; simpl in E; [|by simplify_eq].
    pose proof (append_spec (kv_connection s)
      (cmd REDIS_ASYNC_QUEUE_PUSH [ABin (le_enc 8 sector)])) as [_ Eq1].
    pose proof (append_spec (redisAppendCommand (kv_connection s)
      (cmd REDIS_ASYNC_QUEUE_PUSH [ABin (le_enc 8 sector)]))
      (cmd REDIS_ASYNC_QUEUE_PUSH [ABin data])) as [_ Eq2].
    rewrite Eq1 in Eq2. rewrite (uwrap_small 64 (kv_cmds s + 2)) in E by lia.
    clear E0; revert E; destruct (_ || _) eqn:Eb; intros E; simplify_eq; split; unfold REDIS_DEFAULT_PIPELINED; simpl.
    + lia.
    + done.
    + constructor; [lia|done].
    + rewrite Eq2, !length_app. simpl. lia.
    + apply orb_false_iff in Eb as [Eb _]. apply Z.leb_gt in Eb. lia.
    + done.
    + done.
    + rewrite Eq2, !length_app. simpl. lia.
  - unfold periodic_job in E. simplify_eq. split; unfold REDIS_DEFAULT_PIPELINED; simpl; [done| |done|lia].
    constructor; [lia|done].
  - apply Forall_app in Ht as [Ht1 Ht2]. apply Forall_cons_1 in Ht2 as [Hn0 Ht2].
    rewrite sum_jobs_app in Hq. simpl in Hq.
    split; simpl; [done|by apply Forall_app|by constructor|]. rewrite sum_jobs_app. lia.
  - apply Forall_app in Hj as [Hj1 Hj2]. apply Forall_cons_1 in Hj2 as [Hjn Hj2].
    rewrite sum_jobs_app in Hq. simpl in Hq.
    pose proof (sum_jobs_nonneg _ Hj1). pose proof (sum_jobs_nonneg _ Hj2).
    destruct (squeue s) as [|c cs] eqn:Eq; [simpl in Hq; lia|].
    destruct (get_reply_up _ c cs Eq) as (x & Ex & Edx & Eqx).
    unfold flush_thread_turn in E. rewrite Ex in E. simpl in E. simplify_eq.
    rewrite uwrap_small by lia. split; unfold REDIS_DEFAULT_PIPELINED; simpl; [done|done| |].
    + apply Forall_app. split; [done|]. constructor; [lia|done].
    + rewrite sum_jobs_app. simpl in *. lia.
  - apply Forall_app in Hj as [Hj1 Hj2]. apply Forall_cons_1 in Hj2 as [_ Hj2].
    split; unfold REDIS_DEFAULT_PIPELINED; simpl; [done|done|by apply Forall_app|]. rewrite sum_jobs_app in *. simpl in Hq. lia.
Qed.
End pipeline.

(** ** Lists *)

Section lists.
Context `{MallocTotal}.

Lemma copy_elements_ok size l :
  Forall (λ s, zlen s < 2 ^ 31) l → (∀ s, s ∈ l → size (RString s) = zlen s + 1) →
  copy_elements size (RString <$> l) = Some (Some ((λ s, s ++ [0]) <$> l)).
Proof.
  intros Hb Hsize. induction l as [|y l IH]; [done|].
  apply Forall_cons_1 in Hb as [Hy Hb]. rewrite !fmap_cons. cbn [copy_elements].
  rewrite (Hsize y) by (left). unfold copy_element.
  destruct (malloc_total (zlen y + 1)) as [m Em]; [lia|]. rewrite Em. cbn [mbind option_bind].
  apply malloc_length in Em.
  rewrite (list_split_at m (length y)).
  pose proof (mem_write_app [] (take (length y) m) y (drop (length y) m) 0 eq_refl) as W.
  simpl in W. rewrite W by (rewrite length_take; lia). cbn [mbind option_bind].
  destruct (drop (length y) m) as [|z [|]] eqn:Ed;
    apply (f_equal length) in Ed; rewrite length_drop in Ed; simpl in Ed; try lia.
  pose proof (mem_write_app y [z] [0] [] (zlen y) eq_refl eq_refl) as W'.
  rewrite app_nil_r in W'. rewrite W'. cbn [mbind option_bind].
  rewrite IH; [done|done|]. intros s' Hs'. apply Hsize. by right.
Qed.

Lemma list_room (l : list (list Z)) :
  zlen l < 2 ^ 32 → bool_decide (malloc (8 * zlen (RString <$> l)) = None) = false.
Proof.
  intros Hl'. apply bool_decide_eq_false. rewrite length_fmap.
  destruct (malloc_total (8 * zlen l)) as [m Em]; [lia|]. by rewrite Em.
Qed.
End lists.

Lemma free_elements_ok l : ∀ n, (n ≤ length l)%nat → free_elements n (PLive <$> l) = Some tt.
Proof.
  induction l as [|m l IH]; intros [|n] Hn; try done; [simpl in Hn; lia|].
  rewrite fmap_cons. cbn [free_elements cfree mbind option_bind]. apply IH. simpl in Hn. lia.
Qed.

Lemma free_copies l : redis_free_list (Some (PLive <$> l)) (zlen l) = Some tt.
Proof. cbn [redis_free_list]. rewrite Nat2Z.id. by apply free_elements_ok. Qed.

(** The copies of [redis_list_get_var] have one byte when the array reply's own
    length is 0. *)
Lemma list_var_overflow `{MallocTotal} `{Connected} s fmt src a b out x xs :
  synced s → zlen (x :: xs) < 2 ^ 32 →
  (exec (exec_all (data_of (kv_connection s)) (queued (kv_connection s)))
     (cmd fmt [AInt src; AInt a; AInt b])).2 = RArray 0 (RString <$> x :: xs) →
  x ≠ [] → redis_list_get_var s fmt src a b out = None.
Proof.
  intros Hs Hl Er Hne.
  destruct (flushed_command_ok s (cmd fmt [AInt src; AInt a; AInt b]) Hs) as (y & E & _).
  unfold redis_list_get_var. rewrite E. unfold list_reply. rewrite Er.
  cbn [mbind option_bind]. rewrite list_room by done. rewrite !fmap_cons.
  cbn [copy_elements]. unfold copy_element.
  destruct (malloc_total (0 + 1)) as [m Em]; [lia|]. rewrite Em. cbn [mbind option_bind].
  apply malloc_length in Em.
  destruct (mem_write m 0 x) as [m'|] eqn:Ew; [|done].
  apply mem_write_length in Ew. cbn [mbind option_bind].
  unfold mem_write. rewrite bool_decide_false; [done|].
  assert (0 < length x)%nat by (destruct x; [done|simpl; lia]). simpl. lia.
Qed.

(** ** A server with a write queue *)

(** What the documentation of LPUSH and BRPOP says of the list [writequeue]; the
    oldest element comes first in [write_queue]. *)
Class WriteQueue `{RedisServer} := {
  write_queue : db → list (list Z);
  exec_push d x :
    write_queue (exec d (cmd REDIS_ASYNC_QUEUE_PUSH [ABin x])).1 = write_queue d ++ [x];
  exec_pop d x xs :
    write_queue d = x :: xs →
    ∃ d' n k, exec d (cmd REDIS_ASYNC_QUEUE_POP []) = (d', RArray n [RString k; RString x]) ∧
      write_queue d' = xs;
}.

(** A server that knows nothing but the queue. *)
Definition queue_exec (d : list (list Z)) (c : command) : list (list Z) * redisReply :=
  if String.eqb (c_fmt c) REDIS_ASYNC_QUEUE_PUSH then
    match c_args c with
    | [ABin x] => (d ++ [x], RInteger (zlen d + 1))
    | _ => (d, RError [])
    end
  else if String.eqb (c_fmt c) REDIS_ASYNC_QUEUE_POP then
    match d with
    | x :: d => (d, RArray 0 [RString (str_bytes "writequeue"); RString x])
    | [] => (d, RNil)
    end
  else (d, RArray 0 [RString [1; 2]]).

#[export] Instance queue_server : RedisServer | 100 :=
  {| db := list (list Z); exec := queue_exec |}.

#[export, refine] Instance queue_write_queue : WriteQueue | 100 :=
  {| write_queue := (λ d, d) : db → list (list Z) |}.
Proof.
  - done.
  - intros d x xs E. simpl in *. subst d. by do 3 eexists.
Defined.

(** The write queue as it will be once the pipeline has been executed. *)
Definition pending_writes `{Malloc} `{Hiredis} `{!WriteQueue} (s : kv_store) :
    list (list Z) :=
  write_queue (exec_all (data_of (kv_connection s)) (queued (kv_connection s))).

(** A dequeue takes a sector number and the data behind it. *)
Lemma write_dequeue_ok `{MallocTotal} `{Connected} `{!WriteQueue} s sector x rest :
  synced s → - 2 ^ 63 ≤ sector < 2 ^ 63 → zlen x < 2 ^ 31 →
  pending_writes s = le_enc 8 sector :: x :: rest →
  ∃ s', redis_async_write_dequeue s
    = Some (s', {| w_sector_num := sector; w_nb_sectors := zlen x `div` 512; w_data := x |},
            EXIT_SUCCESS) ∧
    synced s' ∧ queued (kv_connection s') = [] ∧
    data_of (kv_connection s') = exec_all (data_of (kv_connection s))
      (queued (kv_connection s) ++
       [cmd REDIS_ASYNC_QUEUE_POP []; cmd REDIS_ASYNC_QUEUE_POP []]) ∧
    pending_writes s' = rest.
Proof.
  intros Hs Hsec Hx Hp. unfold redis_async_write_dequeue.
  destruct (flushed_command_ok s (cmd REDIS_ASYNC_QUEUE_POP []) Hs) as (y & E & Eq & Ed).
  rewrite E. unfold pending_writes in Hp.
  destruct (exec_pop _ _ _ Hp) as (d' & n & k & Ex & Hq). rewrite Ex.
  rewrite exec_all_app in Ed. simpl in Ed. rewrite Ex in Ed. simpl in Ed.
  cbn [snd mbind option_bind]. rewrite length_le_enc. cbn [Z.of_nat Z.eqb Pos.of_succ_nat].
  set (s1 := set_cmds 0 (set_connection y s)).
  destruct (do_command_ok s1 (cmd REDIS_ASYNC_QUEUE_POP []) (cmd REDIS_ASYNC_QUEUE_POP []) [])
    as (z & Ez & Eqz & Edz).
  { simpl. by rewrite Eq. }
  change (data_of (kv_connection s1)) with (data_of y) in Ez, Edz.
  rewrite Ed in Ez, Edz.
  destruct (exec_pop _ _ _ Hq) as (d2 & n2 & k2 & Ex2 & Hq2). rewrite Ex2 in Ez, Edz.
  simpl (Z.eqb _ _). cbv iota. rewrite Ez. cbn [snd mbind option_bind reply_str].
  destruct (malloc_total (zlen x)) as [m Em]; [lia|]. rewrite Em.
  apply malloc_length in Em.
  pose proof (mem_write_app [] m x [] 0 eq_refl) as W. simpl in W.
  rewrite !app_nil_r in W. rewrite W by lia. cbn [mbind option_bind].
  rewrite le_dec_enc_u with (w := 64), swrap_uwrap by (done || lia).
  eexists. split; [done|]. split; [split; simpl; [by rewrite Eqz|lia]|].
  split; [done|]. split.
  - simpl. rewrite Edz, exec_all_app. simpl. rewrite Ex. simpl. by rewrite Ex2.
  - unfold pending_writes. simpl. by rewrite Eqz, Edz.
Qed.

Definition witness_store (q : list command) : kv_store :=
  {| kv_connection := (([], q) : redisContext); kv_cmds := zlen q; kv_bytes := 0 |}.

(** ** Properties *)



(** C29: as long as no flusher thread is running, the operations that flush
    first get the reply of their own command, executed after everything
    pipelined before it, and leave an empty pipeline. *)
Theorem redis_own_reply `{Malloc} `{Connected} s fmt src field cap :
  synced s →
  let d := exec_all (data_of (kv_connection s)) (queued (kv_connection s)) in
  (∃ s', redis_hash_field_get s fmt src field cap
         = Some (s', reply_bytes cap (exec d (cmd fmt [AInt src; AStr field])).2, EXIT_SUCCESS) ∧
     synced s' ∧ queued (kv_connection s') = [] ∧
     data_of (kv_connection s') = (exec d (cmd fmt [AInt src; AStr field])).1) ∧
  (∃ s', redis_sector_lookup s src cap
         = Some (s', reply_bytes cap (exec d (cmd REDIS_SECTOR_GET [AInt src])).2, EXIT_SUCCESS) ∧
     synced s' ∧ queued (kv_connection s') = []) ∧
  (∃ s', redis_list_len s fmt src
         = Some (s', match (exec d (cmd fmt [AInt src])).2 with RInteger i => u64 i | _ => 0 end,
                 EXIT_SUCCESS) ∧ synced s' ∧ queued (kv_connection s') = []).
Proof.
  intros Hs d.
  assert (∀ x, queued x = [] → synced (set_cmds 0 (set_connection x s))) as Hs'.
  { intros x E. split; simpl; [by rewrite E|lia]. }
  split; [|split].
  - destruct (flushed_command_ok s (cmd fmt [AInt src; AStr field]) Hs) as (x & E & Eq & Ed).
    unfold redis_hash_field_get. rewrite E. simpl. eexists. split; [done|].
    split; [by apply Hs'|]. split; [done|]. simpl. by rewrite Ed, exec_all_app.
  - destruct (flushed_command_ok s (cmd REDIS_SECTOR_GET [AInt src]) Hs) as (x & E & Eq & Ed).
    unfold redis_sector_lookup. rewrite E. simpl. eexists. by split; [|split; [apply Hs'|]].
  - destruct (flushed_command_ok s (cmd fmt [AInt src]) Hs) as (x & E & Eq & Ed).
    unfold redis_list_len. rewrite E. simpl. eexists. by split; [|split; [apply Hs'|]].
Qed.

Lemma redis_own_reply_witness :
  ∃ s', redis_hash_field_get (witness_store [cmd REDIS_ASYNC_QUEUE_PUSH [ABin [7]]])
          "HGET fs:%lu %s" 1 [] 8 = Some (s', [], EXIT_SUCCESS).
Proof.
  destruct (redis_own_reply (witness_store [cmd REDIS_ASYNC_QUEUE_PUSH [ABin [7]]])
    "HGET fs:%lu %s" 1 [] 8) as [(s' & E & _) _]; [done|].
  exists s'. exact E.
Defined.

(** [redis_dequeue] does not flush: with a command still in the pipeline it
    takes that command's reply for the stored write, and deletes the write. *)
Theorem redis_dequeue_stale `{Malloc} `{Connected} s sector cap c0 cs :
  queued (kv_connection s) = c0 :: cs →
  ∃ s' rc, redis_dequeue s sector cap
    = Some (s', reply_bytes cap (exec (data_of (kv_connection s)) c0).2, rc) ∧
    kv_cmds s' = kv_cmds s ∧ length (queued (kv_connection s')) = S (length cs).
Proof.
  intros E. unfold redis_dequeue.
  destruct (do_command_ok s (cmd REDIS_DEQUEUE_WRITE [AInt sector]) c0
    (cs ++ [cmd REDIS_DEQUEUE_WRITE [AInt sector]])) as (x & Ex & Eq & Ed).
  { by rewrite E. }
  rewrite Ex. cbn [mbind option_bind].
  set (s1 := set_connection x s).
  assert (∃ c1 cs1, queued (kv_connection s1) ++ [cmd REDIS_DEL_WRITE [AInt sector]]
                    = c1 :: cs1 ∧ length cs1 = S (length cs)) as (c1 & cs1 & E1 & El).
  { simpl. rewrite Eq. destruct cs as [|c1 cs].
    - by do 2 eexists.
    - do 2 eexists. split; [done|]. autorewrite with len. simpl. lia. }
  destruct (do_command_ok s1 _ c1 cs1 E1) as (x' & Ex' & Eq' & _).
  rewrite Ex'. do 2 eexists. split; [done|]. split; [done|]. simpl. by rewrite Eq'.
Qed.

Lemma redis_dequeue_stale_witness :
  ∃ s' rc, redis_dequeue (witness_store [cmd REDIS_ASYNC_QUEUE_PUSH [ABin [7]]]) 5 512
    = Some (s', [], rc).
Proof.
  destruct (redis_dequeue_stale (witness_store [cmd REDIS_ASYNC_QUEUE_PUSH [ABin [7]]]) 5 512
    _ _ eq_refl) as (s' & rc & E & _). exists s', rc. exact E.
Defined.

(** [redis_list_get] copies every string of the reply with a terminator;
    [redis_list_get_var] sizes the copies by the length of the array reply,
    which for an array is 0, and so writes past each of them. *)
Theorem redis_list_copies `{MallocTotal} `{Connected} s fmt src a b out n x xs :
  synced s → Forall (λ s, zlen s < 2 ^ 31) (x :: xs) → zlen (x :: xs) < 2 ^ 32 →
  let d := exec_all (data_of (kv_connection s)) (queued (kv_connection s)) in
  ((exec d (cmd fmt [AInt src])).2 = RArray n (RString <$> x :: xs) →
   ∃ s', redis_list_get s fmt src out
         = Some (s', Some ((λ s, s ++ [0]) <$> x :: xs), EXIT_SUCCESS)) ∧
  ((exec d (cmd fmt [AInt src; AInt a; AInt b])).2 = RArray 0 (RString <$> x :: xs) →
   x ≠ [] → redis_list_get_var s fmt src a b out = None).
Proof.
  intros Hs Hx Hl d.
  pose proof list_room as Hm. pose proof copy_elements_ok as Hcopy.
  split.
  - intros Er. destruct (flushed_command_ok s (cmd fmt [AInt src]) Hs) as (y & E & _).
    unfold redis_list_get. rewrite E. fold d. unfold list_reply. rewrite Er.
    cbn [mbind option_bind]. rewrite Hm, Hcopy by done. simpl. by eexists.
  - intros Er Hne. by apply (list_var_overflow s fmt src a b out x xs Hs Hl).
Qed.

Lemma redis_list_copies_witness :
  redis_list_get_var (witness_store []) "LRANGE filesectors:%lu %lu %lu" 1 0 9 None = None.
Proof.
  apply (redis_list_copies (witness_store []) "LRANGE filesectors:%lu" 1 0 9 None 0 [1; 2] []).
  - done.
  - by repeat constructor.
  - done.
  - done.
  - done.
Defined.

(** C33: the asynchronous write queue is a FIFO queue of writes: an enqueue that
    starts no flusher appends the sector number and the data, a dequeue takes
    the oldest pair off and returns it, with the number of whole sectors. *)
Theorem redis_write_fifo `{MallocTotal} `{Connected} `{!WriteQueue} s bits sector x rest :
  synced s → 0 ≤ kv_bytes s → - 2 ^ 63 ≤ sector < 2 ^ 63 → zlen x < 2 ^ 31 →
  (kv_cmds s + 2 < REDIS_DEFAULT_PIPELINED →
   kv_bytes s + 8 + zlen x ≤ REDIS_DEFAULT_BYTES →
   ∃ s', redis_async_write_enqueue s bits sector x false false = Some (s', None, EXIT_SUCCESS) ∧
     synced s' ∧ pending_writes s' = pending_writes s ++ [le_enc 8 sector; x]) ∧
  (pending_writes s = le_enc 8 sector :: x :: rest →
   ∃ s', redis_async_write_dequeue s
     = Some (s', {| w_sector_num := sector; w_nb_sectors := zlen x `div` 512; w_data := x |},
             EXIT_SUCCESS) ∧
     synced s' ∧ pending_writes s' = rest).
Proof.
  intros Hs Hb Hsec Hx. split.
  - intros Hc Hbytes. unfold redis_async_write_enqueue. cbn [orb mbind option_bind negb].
    pose proof (append_spec (kv_connection s)
      (cmd REDIS_ASYNC_QUEUE_PUSH [ABin (le_enc 8 sector)])) as [Ed1 Eq1].
    pose proof (append_spec (redisAppendCommand (kv_connection s)
      (cmd REDIS_ASYNC_QUEUE_PUSH [ABin (le_enc 8 sector)]))
      (cmd REDIS_ASYNC_QUEUE_PUSH [ABin x])) as [Ed2 Eq2].
    rewrite Ed1 in Ed2. rewrite Eq1 in Eq2. destruct Hs as [Hs Hs'].
    unfold REDIS_DEFAULT_PIPELINED, REDIS_DEFAULT_BYTES in *.
    cbn [kv_cmds kv_bytes set_cmds set_bytes set_connection].
    rewrite (uwrap_small 64 (kv_cmds s + 2)) by lia.
    rewrite (uwrap_small 64 (kv_bytes s + 8 + zlen x)) by lia.
    rewrite (proj2 (Z.leb_gt _ _)), (proj2 (Z.ltb_ge _ _)) by lia. cbn [orb].
    eexists. split; [done|]. split.
    + split; simpl; [|lia]. rewrite Eq2, !length_app. simpl. lia.
    + unfold pending_writes. simpl. rewrite Ed2, Eq2, !exec_all_app. simpl.
      by rewrite !exec_push, <-app_assoc.
  - intros Hp. destruct (write_dequeue_ok s sector x rest Hs Hsec Hx Hp)
      as (s' & E & Hs1 & _ & _ & Hr). by exists s'.
Qed.

Lemma redis_write_fifo_witness :
  ∃ s', redis_async_write_enqueue (witness_store []) {| ba_array := []; ba_len := 0 |}
          2048 [1; 2; 3] false false = Some (s', None, EXIT_SUCCESS) ∧
        pending_writes s' = [le_enc 8 2048; [1; 2; 3]].
Proof.
  destruct (redis_write_fifo (witness_store []) {| ba_array := []; ba_len := 0 |}
    2048 [1; 2; 3] []) as [He _]; [done..|lia|done|].
  destruct He as (s' & E & _ & Hp); [done|done|]. exists s'. split; [exact E|exact Hp].
Defined.
