(* ===== verification/StoreView.v ===== *)
(** * The store as its data: what a sequence of operations does to the server

    Whatever is still in the pipeline, the server's data will be [applied]: the
    commands queued, executed in order. As long as the store itself waits for
    all of them ([ready]), every operation adds its own commands to it, and the
    ones that flush first get the reply their command has there. *)
From S2P Require Import Prelude Words Memory Scan RedisEnv Redis RedisProps.

#[local] Open Scope string_scope.
#[local] Open Scope list_scope.
#[local] Open Scope Z_scope.

Section view.
Context `{Malloc} `{Connected}.
Implicit Types s : kv_store.

Definition applied s : db :=
  exec_all (data_of (kv_connection s)) (queued (kv_connection s)).

Record ready s : Prop := {
  rd_synced : synced s;
  rd_bound : kv_cmds s < REDIS_DEFAULT_PIPELINED;
}.

(** From [s] the commands [cs] have been issued, and [s'] is ready for more. *)
Definition issued s (cs : list command) s' : Prop :=
  ready s' ∧ applied s' = exec_all (applied s) cs.

Lemma issued_refl s : ready s → issued s [] s.
Proof. by split. Qed.

Lemma issued_trans s1 cs1 s2 cs2 s3 :
  issued s1 cs1 s2 → issued s2 cs2 s3 → issued s1 (cs1 ++ cs2) s3.
Proof. intros [_ E1] [Hr E2]. split; [done|]. by rewrite E2, E1, exec_all_app. Qed.

Lemma issued_cons s1 c s2 cs s3 :
  issued s1 [c] s2 → issued s2 cs s3 → issued s1 (c :: cs) s3.
Proof. apply issued_trans. Qed.

Lemma issued_ready s cs s' : issued s cs s' → ready s'.
Proof. by intros [Hr _]. Qed.

Lemma emptied s x cs :
  queued x = [] → data_of x = exec_all (applied s) cs →
  issued s cs (set_cmds 0 (set_connection x s)).
Proof.
  intros Eq Ed. split; [split|].
  - split; simpl; [by rewrite Eq|lia].
  - done.
  - unfold applied at 1. simpl. by rewrite Eq, Ed.
Qed.

Lemma flush_issued s :
  ready s → ∃ s', redis_flush_pipeline s = (s', EXIT_SUCCESS) ∧ issued s [] s' ∧
                  queued (kv_connection s') = [].
Proof.
  intros [[Hc Hb] _]. destruct (flush_ok s) as (x & Ef & Eq & Ed); [lia..|].
  rewrite Hc, Nat2Z.id in Eq, Ed. rewrite drop_all in Eq. rewrite firstn_all in Ed.
  eexists. split; [exact Ef|]. split; [|done]. by apply emptied.
Qed.

(** A pipelined operation: the command is in the pipeline, or the pipeline has
    been flushed. *)
(** The command is queued, or the pipeline is executed with it. *)
Lemma append_data s c :
  ready s → ∃ s', append_pipelined s c = Some (s', EXIT_SUCCESS) ∧ issued s [c] s' ∧
    let x := kv_connection s in
    let x' := kv_connection s' in
    (data_of x' = data_of x ∧ queued x' = queued x ++ [c] ∨
     data_of x' = exec_all (data_of x) (queued x ++ [c]) ∧ queued x' = []).
Proof.
  intros [[Hc Hb] Hp]. unfold append_pipelined. simpl.
  destruct (append_spec (kv_connection s) c) as [Ed Eq].
  unfold REDIS_DEFAULT_PIPELINED in *. rewrite uwrap_small by lia.
  case_test; cycle 1.
  { eexists. split; [done|]. split; [|left; split; [exact Ed|exact Eq]]. split; [split; [split|]|]; simpl.
    - rewrite Eq, length_app. simpl. lia.
    - lia.
    - unfold REDIS_DEFAULT_PIPELINED. lia.
    - unfold applied. simpl. by rewrite Ed, Eq, exec_all_app. }
  destruct (flush_ok (set_cmds (kv_cmds s + 1)
    (set_connection (redisAppendCommand (kv_connection s) c) s))) as (x & Ef & Eqx & Edx);
    simpl in *; [lia|rewrite Eq; len|].
  rewrite Ef. simpl. eexists. split; [done|].
  assert (Z.to_nat (kv_cmds s + 1) = length (queued (kv_connection s) ++ [c])) as E.
  { rewrite length_app. simpl. lia. }
  rewrite Eq, E in Eqx, Edx. rewrite drop_all in Eqx. rewrite firstn_all in Edx.
  rewrite Ed in Edx. split; [|right; split; [exact Edx|exact Eqx]].
  apply (emptied s x [c]); [done|]. by rewrite Edx, exec_all_app.
Qed.

Lemma append_issued s c :
  ready s → ∃ s', append_pipelined s c = Some (s', EXIT_SUCCESS) ∧ issued s [c] s'.
Proof. intros Hr. destruct (append_data s c Hr) as (s' & E & Hi & _). by exists s'. Qed.

(** A command behind a flush. *)
Lemma flushed_issued s c :
  ready s → ∃ s', flushed_command s c = (s', Some (exec (applied s) c).2) ∧ issued s [c] s' ∧
                  queued (kv_connection s') = [].
Proof.
  intros [Hs _]. destruct (flushed_command_ok s c Hs) as (x & E & Eq & Ed).
  eexists. split; [exact E|]. split; [|done].
  apply emptied; [done|]. unfold applied. by rewrite <-exec_all_app.
Qed.

(** A command without a flush is executed after all others, but the reply is
    that of the oldest one. *)
Lemma command_issued s c :
  ready s →
  ∃ s' r, do_command s c = (s', Some r) ∧ issued s [c] s' ∧ kv_cmds s' = kv_cmds s ∧
    (queued (kv_connection s) = [] →
     r = (exec (applied s) c).2 ∧ queued (kv_connection s') = []).
Proof.
  intros [[Hc Hb] Hp].
  destruct (queued (kv_connection s) ++ [c]) as [|c0 cs] eqn:E; [by destruct (queued _)|].
  destruct (do_command_ok s c c0 cs E) as (x & Ex & Eq & Ed).
  rewrite Ex. do 2 eexists. split; [done|]. split; [|split; [done|]].
  - split; [split; [split|]|]; simpl; [|lia|done|].
    + rewrite Eq. apply (f_equal length) in E. rewrite length_app in E. simpl in E. lia.
    + unfold applied. simpl. rewrite Eq, Ed.
      transitivity (exec_all (data_of (kv_connection s)) (c0 :: cs)); [done|].
      by rewrite <-E, exec_all_app.
  - intros E0. unfold applied. rewrite E0 in *. simpl in E. simplify_eq. done.
Qed.

(** ** The operations *)

Lemma publish_issued s channel data :
  ready s → ∃ s', redis_publish s channel data = (s', EXIT_SUCCESS) ∧
                  issued s [cmd REDIS_PUBLISH [AStr channel; ABin data]] s'.
Proof.
  intros Hr. unfold redis_publish.
  destruct (command_issued s (cmd REDIS_PUBLISH [AStr channel; ABin data]) Hr)
    as (s' & r & E & Hi & _).
  rewrite E. by exists s'.
Qed.

Lemma hash_get_issued s fmt src field cap :
  ready s →
  let c := cmd fmt [AInt src; AStr field] in
  ∃ s', redis_hash_field_get s fmt src field cap
        = Some (s', reply_bytes cap (exec (applied s) c).2, EXIT_SUCCESS) ∧ issued s [c] s'.
Proof.
  intros Hr c. unfold redis_hash_field_get.
  destruct (flushed_issued s c Hr) as (s' & E & Hi & _). fold c. rewrite E. simpl. by exists s'.
Qed.

Lemma sector_lookup_issued s src cap :
  ready s →
  let c := cmd REDIS_SECTOR_GET [AInt src] in
  ∃ s', redis_sector_lookup s src cap
        = Some (s', reply_bytes cap (exec (applied s) c).2, EXIT_SUCCESS) ∧ issued s [c] s'.
Proof.
  intros Hr c. unfold redis_sector_lookup.
  destruct (flushed_issued s c Hr) as (s' & E & Hi & _). fold c. rewrite E. simpl. by exists s'.
Qed.

Lemma list_len_issued s fmt src :
  ready s →
  let c := cmd fmt [AInt src] in
  ∃ s', redis_list_len s fmt src
        = Some (s', match (exec (applied s) c).2 with RInteger i => u64 i | _ => 0 end,
                EXIT_SUCCESS) ∧ issued s [c] s'.
Proof.
  intros Hr c. unfold redis_list_len.
  destruct (flushed_issued s c Hr) as (s' & E & Hi & _). fold c. rewrite E. simpl. by exists s'.
Qed.

Lemma dequeue_issued s sector cap :
  ready s →
  let c1 := cmd REDIS_DEQUEUE_WRITE [AInt sector] in
  let c2 := cmd REDIS_DEL_WRITE [AInt sector] in
  ∃ s' d, redis_dequeue s sector cap = Some (s', d, EXIT_SUCCESS) ∧ issued s [c1; c2] s' ∧
    (queued (kv_connection s) = [] →
     d = reply_bytes cap (exec (applied s) c1).2 ∧ queued (kv_connection s') = []).
Proof.
  intros Hr c1 c2. unfold redis_dequeue. fold c1 c2.
  destruct (command_issued s c1 Hr) as (s1 & r1 & E1 & Hi1 & _ & Hq1).
  rewrite E1. cbn [mbind option_bind].
  destruct (command_issued s1 c2 (issued_ready _ _ _ Hi1)) as (s2 & r2 & E2 & Hi2 & _ & Hq2).
  rewrite E2. do 2 eexists. split; [done|]. split; [by eapply (issued_cons _ c1 _ [c2])|].
  intros E. destruct (Hq1 E) as [-> E']. by destruct (Hq2 E') as [_ ?].
Qed.
End view.

Lemma list_get_issued `{MallocTotal} `{Connected} s fmt src out n l :
  ready s → Forall (λ s, zlen s < 2 ^ 31) l → zlen l < 2 ^ 32 →
  let c := cmd fmt [AInt src] in
  (exec (applied s) c).2 = RArray n (RString <$> l) →
  ∃ s', redis_list_get s fmt src out = Some (s', Some ((λ s, s ++ [0]) <$> l), EXIT_SUCCESS) ∧
        issued s [c] s' ∧ queued (kv_connection s') = [].
Proof.
  intros Hr Hl Hn c Hrep. unfold redis_list_get.
  destruct (flushed_issued s c Hr) as (s' & E & Hi & Eq). fold c. rewrite E, Hrep.
  unfold list_reply. cbn [mbind option_bind]. rewrite list_room by done.
  rewrite copy_elements_ok by done. by exists s'.
Qed.

(** An idle store connected to a server that keeps a log. *)
Definition log_store (reply : command → redisReply) :
    @kv_store (log_server reply) (@local_hiredis (log_server reply)) :=
  @Build_kv_store (log_server reply) (@local_hiredis (log_server reply)) ([], []) 0 0.

Lemma log_store_ready reply : ready (log_store reply).
Proof. split; [done|by vm_compute]. Qed.

Create HintDb store.
#[export] Hint Resolve issued_refl issued_ready : store.
#[export] Hint Extern 4 (ready _) => (eapply issued_ready; eassumption) : store.

(** The pipelined operations are [append_pipelined]. *)
Ltac store_ops :=
  unfold redis_enqueue_pipelined, redis_delqueue_pipelined, redis_reverse_pointer_set,
    redis_hash_field_set, redis_list_set, redis_binary_insert,
    redis_reverse_file_data_pointer_set, redis_path_set, redis_metadata_set,
    redis_delete_key in *.

(** The next operation of the goal, by its lemma: the state behind it is [s'],
    and [Hi] says which commands were issued. *)
Tactic Notation "pipelined" "as" ident(s') ident(Hi) :=
  store_ops;
  match goal with
  | |- context [append_pipelined ?s ?c] =>
      let E := fresh "E" in
      destruct (append_issued s c ltac:(eauto with store)) as (s' & E & Hi);
      rewrite E; cbn [mbind option_bind]; clear E
  end.

(** The commands issued so far, one hypothesis after the other. *)
Ltac issued :=
  first [ eassumption
        | eapply issued_cons; [eassumption|issued]
        | eapply issued_trans; [eassumption|issued]
        | apply issued_refl; eauto with store ].
