(* ===== verification/KeyValue.v ===== *)
(** * The keys of the Redis server

    hiredis takes a format apart at its spaces: the pieces, with the arguments in
    them, are the words of the command. [KeyValue] is what the documentation of
    the server says about the words the inferencer sends: a key holds a string,
    a hash or another value, [SET] and [HSET] store one, [GET] and [HGET] answer
    with it and change nothing, as does [PUBLISH], and these commands, those on
    lists, [SETEX], and [DEL] and [BRPOP] of one key have to do with this key
    alone. *)
From S2P Require Import Prelude Words Memory RedisEnv Redis RedisProps.

(** ** The words of a command *)

Definition arg_text (a : arg) : list Z :=
  match a with
  | AInt z => if z <? 0 then 45 :: decimal (- z) else decimal z
  | AStr s => s
  | ABin d => d
  end.

(** Text in front of the first word. *)
Definition prepend (t : list Z) (ws : list (list Z)) : list (list Z) :=
  match ws with w :: ws => (t ++ w) :: ws | [] => [t] end.

(** [conv]: behind a [%], up to the letter that ends the conversion. *)
Fixpoint format_words (fmt : list Z) (conv : bool) (args : list (list Z)) : list (list Z) :=
  match fmt with
  | [] => [[]]
  | c :: fmt =>
      if conv then
        if c =? 108 then format_words fmt true args
        else match args with
             | a :: args => prepend a (format_words fmt false args)
             | [] => []
             end
      else if c =? 32 then [] :: format_words fmt false args
      else if c =? 37 then format_words fmt true args
      else prepend [c] (format_words fmt false args)
  end.

Definition command_words (c : command) : list (list Z) :=
  format_words (str_bytes (c_fmt c)) false (arg_text <$> c_args c).

(** ** Values and commands *)

Inductive redis_value :=
  | KString (s : list Z)
  | KHash (h : gmap (list Z) (list Z))
  | KOther.

(** The hash [HSET] works on: a missing key is an empty one. *)
Definition hash_of (v : option redis_value) : option (gmap (list Z) (list Z)) :=
  match v with None => Some ∅ | Some (KHash h) => Some h | _ => None end.

(** Verbs of which the first argument is the only key. *)
Definition one_key : list (list Z) :=
  str_bytes <$> ["SET"; "GET"; "HSET"; "HGET"; "SETEX"; "RPUSH"; "LPUSH"].

(** The command has to do with one key, [k]; [DEL] can have more of them, and so
    can [BRPOP], in front of the timeout. *)
Definition about (c : command) (k : list Z) : Prop :=
  ∃ verb args, command_words c = verb :: k :: args ∧
               (verb ∈ one_key ∨ verb = str_bytes "DEL" ∧ args = [] ∨
                verb = str_bytes "BRPOP" ∧ length args = 1%nat).

Class KeyValue `{RedisServer} := {
  value_at : db → list Z → option redis_value;
  exec_set d c k v :
    command_words c = [str_bytes "SET"; k; v] → value_at (exec d c).1 k = Some (KString v);
  exec_hset d c k f v h :
    command_words c = [str_bytes "HSET"; k; f; v] → hash_of (value_at d k) = Some h →
    value_at (exec d c).1 k = Some (KHash (<[f := v]> h));
  exec_get d c k :
    command_words c = [str_bytes "GET"; k] →
    value_at (exec d c).1 k = value_at d k ∧
    ∀ s, value_at d k = Some (KString s) → (exec d c).2 = RString s;
  exec_hget d c k f :
    command_words c = [str_bytes "HGET"; k; f] →
    value_at (exec d c).1 k = value_at d k ∧
    ∀ h s, value_at d k = Some (KHash h) → h !! f = Some s → (exec d c).2 = RString s;
  exec_frame d c k k' : about c k → k ≠ k' → value_at (exec d c).1 k' = value_at d k';
  exec_publish d c channel x k :
    command_words c = [str_bytes "PUBLISH"; channel; x] → value_at (exec d c).1 k = value_at d k;
}.

(** ** A server that has strings and hashes *)

Definition kv_exec (d : gmap (list Z) redis_value) (c : command) :
    gmap (list Z) redis_value * redisReply :=
  match command_words c with
  | [verb; k] =>
      if streq verb (str_bytes "GET") then
        (d, match d !! k with Some (KString s) => RString s | None => RNil | _ => RError [] end)
      else (d, RError [])
  | [verb; k; a] =>
      if streq verb (str_bytes "SET") then (<[k := KString a]> d, RStatus (str_bytes "OK"))
      else if streq verb (str_bytes "HGET") then
        (d, match hash_of (d !! k) with
            | Some h => match h !! a with Some s => RString s | None => RNil end
            | None => RError []
            end)
      else (d, RError [])
  | [verb; k; f; v] =>
      if streq verb (str_bytes "HSET") then
        match hash_of (d !! k) with
        | Some h => (<[k := KHash (<[f := v]> h)]> d, RInteger 1)
        | None => (d, RError [])
        end
      else (d, RError [])
  | _ => (d, RError [])
  end.

Definition kv_server : RedisServer := {| db := gmap (list Z) redis_value; exec := kv_exec |}.

Lemma streq_refl s : streq s s = true.
Proof. by apply bool_decide_eq_true. Qed.

Section kv_exec.
Implicit Types d : gmap (list Z) redis_value.

Lemma kv_exec_set d c k v :
  command_words c = [str_bytes "SET"; k; v] → (kv_exec d c).1 !! k = Some (KString v).
Proof.
  intros E. unfold kv_exec. rewrite E.
  change (streq (str_bytes "SET") (str_bytes "GET")) with false.
  rewrite streq_refl. apply lookup_insert_eq.
Qed.

Lemma kv_exec_hset d c k f v h :
  command_words c = [str_bytes "HSET"; k; f; v] → hash_of (d !! k) = Some h →
  (kv_exec d c).1 !! k = Some (KHash (<[f := v]> h)).
Proof.
  intros E Eh. unfold kv_exec. rewrite E, streq_refl, Eh. apply lookup_insert_eq.
Qed.

Lemma kv_exec_get d c k :
  command_words c = [str_bytes "GET"; k] →
  (kv_exec d c).1 !! k = d !! k ∧ ∀ s, d !! k = Some (KString s) → (kv_exec d c).2 = RString s.
Proof. intros E. unfold kv_exec. rewrite E, streq_refl. split; [done|]. by intros s ->. Qed.

Lemma kv_exec_hget d c k f :
  command_words c = [str_bytes "HGET"; k; f] →
  (kv_exec d c).1 !! k = d !! k ∧
  ∀ h s, d !! k = Some (KHash h) → h !! f = Some s → (kv_exec d c).2 = RString s.
Proof.
  intros E. unfold kv_exec. rewrite E.
  change (streq (str_bytes "HGET") (str_bytes "SET")) with false. rewrite streq_refl.
  split; [done|]. intros h s -> Ef. cbn [hash_of snd]. by rewrite Ef.
Qed.

Lemma kv_exec_frame d c k k' : about c k → k ≠ k' → (kv_exec d c).1 !! k' = d !! k'.
Proof.
  intros (verb & args & E & _) Hk. unfold kv_exec. rewrite E.
  destruct args as [|a [|b [|x args]]];
    repeat match goal with
           | |- context [if streq ?x ?y then _ else _] => destruct (streq x y)
           | |- context [match hash_of ?x with _ => _ end] => destruct (hash_of x)
           end; cbn [fst]; try done; by apply lookup_insert_ne.
Qed.

Lemma kv_exec_publish d c channel x k :
  command_words c = [str_bytes "PUBLISH"; channel; x] → (kv_exec d c).1 !! k = d !! k.
Proof. intros E. unfold kv_exec. by rewrite E. Qed.
End kv_exec.

#[export] Instance kv_keys : KeyValue (H := kv_server) | 100 := {|
  value_at := (λ d k, d !! k) : @db kv_server → list Z → option redis_value;
  exec_set := kv_exec_set;
  exec_hset := kv_exec_hset;
  exec_get := kv_exec_get;
  exec_hget := kv_exec_hget;
  exec_frame := kv_exec_frame;
  exec_publish := kv_exec_publish;
|}.

(** ** What sequences of commands leave *)

Section keys.
Context `{KeyValue}.

Lemma value_at_others cs k' : ∀ d,
  Forall (λ c, ∃ k, about c k ∧ k ≠ k') cs → value_at (exec_all d cs) k' = value_at d k'.
Proof.
  induction cs as [|c cs IH]; intros d Hcs; [done|].
  apply Forall_cons_1 in Hcs as [(k & Hk & Hne) Hcs].
  unfold exec_all in *. cbn [foldl]. rewrite IH by done. by eapply exec_frame.
Qed.
End keys.
