(* ===== verification/Filter.v ===== *)
(** * The metadata filter: src/datastructures/bitarray.c writes it, and
      src/gray-inferencer/qemu_common.c loads it again

    [bitarray_serialize], [qemu_load_md_filter] and [qemu_parse_header]. *)
From S2P Require Import Prelude Words Memory Struct Stdio Util Bitarray Bson BsonEncode BsonDecode BsonFields.

#[local] Open Scope string_scope.
#[local] Open Scope list_scope.
#[local] Open Scope Z_scope.

(** ** Definitions *)

(** [value.type = BSON_BINARY; value.size = n; value.key = key; value.data = m] *)
Definition fill_bin (key : string) (n : Z) (m : list Z) (v : bson_kv) : bson_kv :=
  {| kv_type := BSON_BINARY; kv_subtype := kv_subtype v; kv_size := s32 n;
     kv_key := DMem (cstr key); kv_data := DMem m |}.

Definition qemu_bdrv_write_header : layout := [("sector_num", 8%nat); ("nb_sectors", 4%nat)].

(** [write->header = *((struct qemu_bdrv_write_header* ) event_stream)] *)
Definition qemu_parse_header (event_stream : list Z) : option (Z * Z) :=
  m ← mem_read event_stream 0 12;
  Some (s64 (fget qemu_bdrv_write_header "sector_num" m),
        s32 (fget qemu_bdrv_write_header "nb_sectors" m)).

Section filter.
Context `{Malloc}.

Definition bitarray_serialize (bits : bitarray) (f : FILE) : option (FILE * Z) :=
  if ba_len bits =? 0 then Some (f, EXIT_FAILURE) else
  let size := ba_len bits `div` 8 in
  write_document
    [fill_str "type" 15 (cstr "metadata_filter");
     fill_bin "bitarray" size (ba_array bits)] f.

(** The document behind a successful [bson_readf]; [inl] leaves the function
    with a result, [inr] goes on with the next document. *)
Definition md_filter_document (b : bson_info) (v1 v2 : bson_kv) :
    option ((option bitarray * Z) + bson_info * bson_kv * bson_kv) :=
  '(b, v1, v2, rc) ← bson_deserialize b v1 v2;
  if negb (rc =? 1) then Some (inl (None, EXIT_FAILURE)) else
  m ← deref (bi_buffer b);
  key ← kv_cstr m (kv_key v1);
  if negb (streq key (str_bytes "type")) then Some (inl (None, EXIT_FAILURE)) else
  data ← kv_cstr m (kv_data v1);
  if streq data (str_bytes "metadata_filter") then
    '(b, v1, v2, rc) ← bson_deserialize b v1 v2;
    if negb (rc =? 1) then Some (inl (None, EXIT_FAILURE)) else
    key ← kv_cstr m (kv_key v1);
    if streq key (str_bytes "bitarray") then
      o ← off_of (kv_data v1);
      bits ← bitarray_init_data (drop (Z.to_nat o) m) (u64 (kv_size v1));
      Some (inl (Some bits, EXIT_SUCCESS))
    else Some (inl (None, EXIT_FAILURE))
  else Some (inr (b, v1, v2)).

(** [fuel] bounds the number of documents of the file. *)
Fixpoint md_filter_loop (fuel : nat) (b : bson_info) (v1 v2 : bson_kv) (index : FILE) :
    option (option bitarray * FILE * Z) :=
  match fuel with
  | O => None
  | S fuel =>
      '(b, index, rc) ← bson_readf b index;
      if negb (rc =? 1) then Some (None, index, EXIT_FAILURE) else
      r ← md_filter_document b v1 v2;
      match r with
      | inl (bits, rc) => Some (bits, index, rc)
      | inr (b, v1, v2) => md_filter_loop fuel b v1 v2 index
      end
  end.

Definition qemu_load_md_filter (fuel : nat) (index : FILE) :
    option (option bitarray * FILE * Z) :=
  b ← bson_init; md_filter_loop fuel b kv_indet kv_indet index.
End filter.

(** ** Lemmas *)

(** The document of a filter; the subtype is indeterminate. *)
Definition filter_doc (subtype : Z) (bits : bitarray) : list elem :=
  [e_str "type" (str_bytes "metadata_filter");
   e_bin "bitarray" subtype (take (Z.to_nat (ba_len bits `div` 8)) (ba_array bits))].

(** A document that starts with another type. *)
Definition other_type (t : list Z) : Prop :=
  t ≠ str_bytes "metadata_filter" ∧ Forall (λ z, z ≠ 0) t ∧ zlen t < 2 ^ 31 - 1.

Definition other_doc (d : list elem) : Prop :=
  ∃ t es, d = e_str "type" t :: es ∧ other_type t ∧ zlen (enc_elems d) + 5 < 2 ^ 31.

(** A filter of [2^k] bits and its storage. *)
Record filter_ok (k : Z) (bits : bitarray) : Prop := {
  fo_len : ba_len bits = 2 ^ k;
  fo_k : 6 ≤ k < 32;
  fo_array : zlen (ba_array bits) = 2 ^ k `div` 8;
}.

Lemma filter_size k bits :
  filter_ok k bits →
  ba_len bits `div` 8 = 2 ^ (k - 3) ∧ 2 ^ k = 8 * 2 ^ (k - 3) ∧ 8 ≤ 2 ^ (k - 3) < 2 ^ 29 ∧
  zlen (ba_array bits) = 2 ^ (k - 3).
Proof.
  intros [Hl Hk Ha].
  assert (2 ^ k = 8 * 2 ^ (k - 3)) as E.
  { change 8 with (2 ^ 3). rewrite <-Z.pow_add_r by lia. f_equal. lia. }
  assert (2 ^ k `div` 8 = 2 ^ (k - 3)) as Ed by (rewrite E, Z.mul_comm; by apply Z.div_mul).
  rewrite Hl, Ed. split; [done|]. split; [done|]. split; [|congruence]. split.
  - change 8 with (2 ^ 3). apply Z.pow_le_mono_r; lia.
  - apply Z.pow_lt_mono_r; lia.
Qed.

Lemma encodes_bin key v n s :
  key_ok key = true → n = zlen s → zlen s < 2 ^ 31 →
  kv_encodes (fill_bin key n s v) (e_bin key (u8 (kv_subtype v)) s).
Proof.
  intros Hk -> Hs. apply kv_encodes_intro; [done..|]. simpl.
  rewrite swrap_small by lia. split; [done|]. split; [done|].
  exists []. by rewrite app_nil_r.
Qed.

Section lemmas.
Context `{MallocTotal}.

Lemma bitarray_serialize_ok k bits f :
  filter_ok k bits → at_end f →
  bitarray_serialize bits f
  = Some (append f (enc_doc (filter_doc (u8 indeterminate) bits)), EXIT_SUCCESS).
Proof.
  intros Hb Hf. destruct (filter_size k bits Hb) as (E8 & E & Hr & Ha).
  unfold bitarray_serialize. rewrite (fo_len _ _ Hb).
  rewrite (proj2 (Z.eqb_neq _ _)) by lia. rewrite <-(fo_len _ _ Hb).
  unfold filter_doc. rewrite E8, <-Ha, Nat2Z.id, firstn_all.
  apply write_document_ok; [|unfold max_doc; doc_size|done].
  apply fields_cons; [unfold cstr; by apply encodes_str|].
  apply fields_cons; [|apply fields_nil]. apply encodes_bin; [done|done|lia].
Qed.

(** The document of the filter, and one of another type. *)
Lemma filter_document_ok k bits st b v1 v2 m :
  filter_ok k bits → dec_rep m b [] (enc_elems (filter_doc st bits) ++ [0]) →
  md_filter_document b v1 v2 = Some (inl
    (Some {| ba_array := take (Z.to_nat (2 ^ (k - 6))) (ba_array bits);
             ba_len := 2 ^ (k - 3) |}, EXIT_SUCCESS)).
Proof.
  intros Hb Hrep. destruct (filter_size k bits Hb) as (E8 & E & Hr & Ha).
  set (arr := take (Z.to_nat (ba_len bits `div` 8)) (ba_array bits)).
  assert (arr = ba_array bits) as Earr by (unfold arr; by rewrite E8, <-Ha, Nat2Z.id, firstn_all).
  unfold filter_doc in Hrep. fold arr in Hrep. rewrite !enc_elems_cons in Hrep.
  rewrite <-app_assoc in Hrep.
  destruct (bson_deserialize_cstr m b v1 v2 [] _ _ _ Hrep)
    as (b1 & w1 & Ed1 & Hrep1 & Ek1 & Edata); [by repeat constructor|done|by repeat constructor|].
  unfold md_filter_document. rewrite (bind_Some_eq _ _ _ Ed1). cbn [Z.eqb Pos.eqb negb].
  rewrite (dr_buffer _ _ _ _ Hrep1). cbn [deref mbind option_bind].
  rewrite Ek1. cbn [mbind option_bind]. rewrite Edata. cbn [mbind option_bind].
  unfold streq. rewrite !bool_decide_true by done. cbn [negb].
  rewrite <-app_assoc in Hrep1.
  destruct (bson_deserialize_bin m b1 w1 v2 _ _ _ _ _ Hrep1)
    as (b2 & w2 & o & Ed2 & Ek2 & Eo & Es & Em); [by repeat constructor|rewrite Earr; lia|].
  rewrite (bind_Some_eq _ _ _ Ed2). cbn [Z.eqb Pos.eqb negb].
  rewrite Ek2. cbn [mbind option_bind]. rewrite bool_decide_true by done.
  rewrite Eo, Es, Earr, Ha. cbn [off_of mbind option_bind].
  rewrite Earr, Ha in Em. unfold mem_read in Em.
  case_bool_decide as Hc; [|done].
  rewrite (uwrap_small 64) by lia.
  set (data := drop (Z.to_nat o) m) in *. set (n := 2 ^ (k - 3)) in *.
  assert (n = 8 * 2 ^ (k - 6)) as En.
  { unfold n. change 8 with (2 ^ 3). rewrite <-Z.pow_add_r by (destruct Hb; lia).
    f_equal. lia. }
  assert (n `div` 8 = 2 ^ (k - 6)) as En8 by (rewrite En, Z.mul_comm; by apply Z.div_mul).
  destruct (bitarray_init_data_spec data n) as (j & Hj & Hjb & Ei); [lia| |].
  { unfold data. rewrite length_drop. lia. }
  assert (j = k - 3) as ->.
  { apply (pow2_bracket j (k - 3) n); [lia|destruct Hb; lia|done|].
    fold n. rewrite Z.pow_add_r by (destruct Hb; lia). fold n. lia. }
  rewrite Ei. fold n. rewrite bool_decide_true by done. cbn [mbind option_bind].
  injection Em as Em. rewrite <-Em, En8, take_take.
  do 6 f_equal. rewrite Nat.min_l; [done|]. lia.
Qed.

Lemma other_document_ok t es b v1 v2 m :
  other_type t → dec_rep m b [] (enc_elems (e_str "type" t :: es) ++ [0]) →
  ∃ b' v1', md_filter_document b v1 v2 = Some (inr (b', v1', v2)) ∧ reusable b'.
Proof.
  intros (Ht & Hz & Hl) Hrep. rewrite enc_elems_cons, <-app_assoc in Hrep.
  destruct (bson_deserialize_cstr m b v1 v2 [] _ _ _ Hrep)
    as (b1 & w1 & Ed1 & Hrep1 & Ek1 & Edata); [by repeat constructor|done|done|].
  unfold md_filter_document. rewrite (bind_Some_eq _ _ _ Ed1). cbn [Z.eqb Pos.eqb negb].
  rewrite (dr_buffer _ _ _ _ Hrep1). cbn [deref mbind option_bind].
  rewrite Ek1. cbn [mbind option_bind]. rewrite Edata. cbn [mbind option_bind].
  unfold streq. rewrite bool_decide_true by done. rewrite bool_decide_false by done. cbn [negb].
  do 2 eexists. split; [done|]. by eapply dec_rep_reusable.
Qed.

(** The loop passes over the documents [ds] in front of the filter's. *)
Lemma md_filter_loop_ok k bits st post docs : ∀ fuel b v1 v2 f pre,
  filter_ok k bits → reusable b → Forall other_doc docs →
  f_data f = pre ++ concat (enc_doc <$> docs) ++ enc_doc (filter_doc st bits) ++ post →
  f_pos f = zlen pre → (length docs < fuel)%nat →
  ∃ f', md_filter_loop fuel b v1 v2 f =
    Some (Some {| ba_array := take (Z.to_nat (2 ^ (k - 6))) (ba_array bits);
                  ba_len := 2 ^ (k - 3) |}, f', EXIT_SUCCESS).
Proof.
  induction docs as [|d docs IH]; intros fuel b v1 v2 f pre Hb Hres Hds Ef Hp Hf;
    (destruct fuel as [|fuel]; [simpl in Hf; lia|]).
  - cbn [fmap list_fmap concat app] in Ef.
    destruct (bson_readf_ok b (filter_doc st bits) f pre post Hres Ef Hp)
      as (b1 & f' & m & Er & Hrep & _).
    { destruct (filter_size k bits Hb) as (E8 & E & Hr & Ha). unfold filter_doc.
      rewrite E8, <-Ha, Nat2Z.id, firstn_all. doc_size. }
    exists f'. cbn [md_filter_loop]. rewrite (bind_Some_eq _ _ _ Er). cbn [Z.eqb Pos.eqb negb].
    by rewrite (filter_document_ok k bits st b1 v1 v2 m).
  - apply Forall_cons_1 in Hds as [(t & es & -> & Ht & Hl) Hds].
    cbn [fmap list_fmap concat] in Ef. rewrite <-app_assoc in Ef.
    destruct (bson_readf_ok b (e_str "type" t :: es) f pre _ Hres Ef Hp)
      as (b1 & f1 & m & Er & Hrep & Ef1 & Hp1); [done|].
    cbn [md_filter_loop]. rewrite (bind_Some_eq _ _ _ Er). cbn [Z.eqb Pos.eqb negb].
    destruct (other_document_ok t es b1 v1 v2 m Ht Hrep) as (b2 & w1 & E2 & Hres2).
    rewrite (bind_Some_eq _ _ _ E2).
    apply (IH fuel b2 w1 v2 f1 (pre ++ enc_doc (e_str "type" t :: es)));
      [done..|by rewrite Ef1, Ef, <-app_assoc|rewrite Hp1, Hp; len|simpl in Hf; lia].
Qed.
End lemmas.

(** ** Properties *)

(** C24: a filter of [2^k] bits written by [bitarray_serialize] is found again by
    [qemu_load_md_filter], behind any documents of other types, but comes back
    with one eighth of its bits: the byte count of the document is taken for the
    number of bits. The bits below [2^k/8] are the ones written, all others read
    as unset, so the writes of metadata they marked are ignored. *)
Theorem md_filter_reload `{MallocTotal} k bits f pre docs post fuel :
  filter_ok k bits → bitarray_wf bits → at_end f → Forall other_doc docs →
  (length docs < fuel)%nat →
  (∃ st, bitarray_serialize bits f
     = Some (append f (enc_doc (filter_doc st bits)), EXIT_SUCCESS) ∧
     ∀ g, f_data g = pre ++ concat (enc_doc <$> docs) ++ enc_doc (filter_doc st bits) ++ post →
     f_pos g = zlen pre →
     ∃ g' bits', qemu_load_md_filter fuel g = Some (Some bits', g', EXIT_SUCCESS) ∧
       ba_len bits' = ba_len bits `div` 8 ∧
       ∀ i, 0 ≤ i → bitarray_get_bit bits' i
         = if i <? ba_len bits `div` 8 then bitarray_get_bit bits i else Some false).
Proof.
  intros Hb Hwf Hf Hds Hfuel. destruct (filter_size k bits Hb) as (E8 & E & Hr & Ha).
  exists (u8 indeterminate). split; [by eapply bitarray_serialize_ok|].
  intros g Eg Hg. destruct bson_init_reusable as (b0 & E0 & Hres).
  destruct (md_filter_loop_ok k bits (u8 indeterminate) post docs fuel b0 kv_indet kv_indet g pre)
    as [g' El]; [done..|].
  assert (qemu_load_md_filter fuel g = md_filter_loop fuel b0 kv_indet kv_indet g) as Eq
    by (unfold qemu_load_md_filter; by rewrite E0).
  rewrite <-Eq in El.
  eexists g', _. split; [exact El|]. split; [by rewrite E8|].
  intros i Hi. rewrite E8. unfold bitarray_get_bit. cbn [ba_len ba_array].
  case_test; [|done]. rewrite (fo_len _ _ Hb). case_test.
  assert (2 ^ (k - 3) = 8 * 2 ^ (k - 6)) as Ek.
  { change 8 with (2 ^ 3). rewrite <-Z.pow_add_r by (destruct Hb; lia). f_equal. lia. }
  assert (0 ≤ i `div` 8 < 2 ^ (k - 6)) as Hd.
  { split; [by apply Z.div_pos|]. apply Z.div_lt_upper_bound; lia. }
  unfold mem_byte. rewrite bool_decide_true by lia.
  by rewrite lookup_take_lt by lia.
Qed.

(** 64 bits, all set: after reloading, bit 8 is lost. *)
Definition witness_filter : bitarray := {| ba_array := replicate 8 255; ba_len := 64 |}.

(** A file with the document of a partition table in front. *)
Definition witness_index_doc : list elem := [e_str "type" (str_bytes "mbr")].

Lemma md_filter_reload_witness :
  ∃ st g' bits',
    bitarray_serialize witness_filter (file_of [])
      = Some (append (file_of []) (enc_doc (filter_doc st witness_filter)), EXIT_SUCCESS) ∧
    qemu_load_md_filter 2
        (file_of (enc_doc witness_index_doc ++ enc_doc (filter_doc st witness_filter)))
      = Some (Some bits', g', EXIT_SUCCESS) ∧
    bitarray_get_bit bits' 7 = Some true ∧ bitarray_get_bit bits' 8 = Some false.
Proof.
  destruct (md_filter_reload 6 witness_filter (file_of []) [] [witness_index_doc] [] 2)
    as (st & Es & Hl).
  - split; [done|lia|done].
  - split; [by exists 6|done|repeat constructor; discriminate].
  - done.
  - apply list.Forall_singleton. exists (str_bytes "mbr"), []. split; [done|].
    split; [|by vm_compute]. split; [by vm_compute|]. split; [by repeat constructor|by vm_compute].
  - simpl. lia.
  - destruct (Hl (file_of (enc_doc witness_index_doc ++ enc_doc (filter_doc st witness_filter))))
      as (g' & bits' & El & _ & Hg).
    + cbn [fmap list_fmap concat f_data file_of app]. by rewrite !app_nil_r.
    + done.
    + exists st, g', bits'. split; [exact Es|]. split; [exact El|].
      split; (rewrite Hg; [vm_compute; reflexivity|lia]).
Defined.
