(* ===== verification/Queuer.v ===== *)
(** * src/gray-inferencer/gray-ndb-queuer.c: the writes of a stream go into the
      write queue in Redis

    A descriptor is the sequence of what [read] will find: runs of bytes, cut
    wherever the writer or the kernel cut them, and errors; its end is the end
    of the file. The periodic flusher and the flusher threads run in the turns of
    the loop and while the process exits, by any schedule ([Threads]), in steps
    from one lock, semaphore or reply to the next; the messages are not modelled. *)
From stdpp Require Import relations.
From S2P Require Import Prelude Words Memory Struct Stdio Bitarray RedisEnv Redis RedisProps Filter.

#[local] Open Scope Z_scope.

(** ** Reading the stream *)

Definition stream := list (option (list Z)).

(** [read(fd, buf, n)]: what it returns and what it stores; -1 on an error. *)
Definition fd_read (fd : stream) (n : Z) : stream * Z * list Z :=
  match fd with
  | [] => ([], 0, [])
  | None :: fd => (fd, -1, [])
  | Some d :: fd =>
      if zlen d <=? n then (fd, zlen d, d)
      else (Some (drop (Z.to_nat n) d) :: fd, n, take (Z.to_nat n) d)
  end.

(** [while (read_ret > 0 && total < n)]; a turn that does not end it reads a
    byte at least. *)
Fixpoint read_more (fuel : nat) (fd : stream) (buf : list Z) (n total read_ret : Z) :
    option (stream * list Z * Z) :=
  match fuel with
  | O => None
  | S fuel =>
      if (0 <? read_ret) && (total <? n) then
        let '(fd, read_ret, d) := fd_read fd (u64 (n - total)) in
        buf ← mem_write buf total d;
        read_more fuel fd buf n (total + read_ret) read_ret
      else Some (fd, buf, read_ret)
  end.

(** The first [read] and that loop. The last component is [read_ret]. *)
Definition read_fully (fd : stream) (buf : list Z) (n : Z) : option (stream * list Z * Z) :=
  let '(fd, read_ret, d) := fd_read fd (u64 n) in
  buf ← mem_write buf 0 d;
  read_more (S (Z.to_nat n)) fd buf n read_ret read_ret.

Definition QEMU_HEADER_SIZE : Z := Z.of_nat (sizeof qemu_bdrv_write_header).

(** [nb_sectors * SECTOR_SIZE] in [int] *)
Definition write_bytes (nb_sectors : Z) : option Z :=
  let z := nb_sectors * SECTOR_SIZE in
  if bool_decide (- 2 ^ 31 ≤ z < 2 ^ 31) then Some z else None.

Section queuer.
Context `{Malloc} `{Hiredis}.

(** The steps of a flusher thread that is registered: a turn of its loop, and
    the [sem_wait] behind it. *)
Inductive flush_step : sys → sys → Prop :=
  | flush_turn s ts j1 n j2 s' n' :
      n ≠ 0 → flush_thread_turn s n = Some (s', n') →
      flush_step {| s_kv := s; s_taken := ts; s_jobs := j1 ++ n :: j2 |}
                 {| s_kv := s'; s_taken := ts; s_jobs := j1 ++ n' :: j2 |}
  | flush_exit s ts j1 j2 :
      flush_step {| s_kv := s; s_taken := ts; s_jobs := j1 ++ 0 :: j2 |}
                 {| s_kv := s; s_taken := ts; s_jobs := j1 ++ j2 |}.

(** [redis_periodic_flusher] takes the outstanding commands over under
    [cmd_lock]; its [sem_post] is a step of its own, behind the lock. *)
Definition take_cmds (σ : sys) : sys :=
  let '(s, n) := periodic_job (s_kv σ) in
  {| s_kv := s; s_taken := n :: s_taken σ; s_jobs := s_jobs σ |}.

(** The steps of the other threads of the process. *)
Inductive thread_step : sys → sys → Prop :=
  | thread_take σ : thread_step σ (take_cmds σ)
  | thread_post s t1 n t2 js :
      thread_step {| s_kv := s; s_taken := t1 ++ n :: t2; s_jobs := js |}
                  {| s_kv := s; s_taken := t1 ++ t2; s_jobs := n :: js |}
  | thread_flush σ σ' : flush_step σ σ' → thread_step σ σ'.

(** The scheduler. [others]: what the threads do in a turn of the loop, by its
    number, before its write is queued, and whether they hold the locks of the
    connection and of the counters then. [at_exit]: what they do before the
    [n]-th access of the exit handler to what it shares with them. *)
Class Threads := {
  others : nat → sys → sys;
  others_steps n σ : rtc thread_step σ (others n σ);
  at_exit : nat → sys → sys;
  at_exit_steps n σ : rtc thread_step σ (at_exit n σ);
  conn_locked : nat → bool;
  cmd_locked : nat → bool;
}.

Context `{!Threads}.

(** One turn of the loop: [inr rc] leaves [read_loop] with [rc]. *)
Definition queue_turn (counter : nat) (bits : bitarray) (data : cptr) (fd : stream) (σ : sys) :
    option (stream * sys * (cptr + Z)) :=
  buf ← Some (replicate (Z.to_nat QEMU_HEADER_SIZE) (u8 indeterminate));
  '(fd, buf, read_ret) ← read_fully fd buf QEMU_HEADER_SIZE;
  if read_ret =? 0 then Some (fd, σ, inr EXIT_SUCCESS) else
  if read_ret <? 0 then Some (fd, σ, inr EXIT_FAILURE) else
  '(sector_num, nb_sectors) ← qemu_parse_header buf;
  n ← write_bytes nb_sectors;
  data ← crealloc data (u64 n);
  match data with
  | PLive m =>
      '(fd, m, read_ret) ← read_fully fd m n;
      if read_ret <=? 0 then Some (fd, σ, inr EXIT_FAILURE) else
      let σ := others counter σ in
      '(s, job, _) ← redis_async_write_enqueue (s_kv σ) bits sector_num
                       m (conn_locked counter) (cmd_locked counter);
      Some (fd, {| s_kv := s; s_taken := s_taken σ;
                   s_jobs := match job with Some j => j :: s_jobs σ | None => s_jobs σ end |},
            inl (PLive m))
  | _ => Some (fd, σ, inr EXIT_FAILURE)
  end.

(** [fuel] bounds the turns: each but the last takes a header off the stream. *)
Fixpoint queue_turns (fuel counter : nat) (bits : bitarray) (data : cptr) (fd : stream)
    (σ : sys) : option (stream * sys * Z) :=
  match fuel with
  | O => None
  | S fuel =>
      '(fd, σ, r) ← queue_turn counter bits data fd σ;
      match r with
      | inl data => queue_turns fuel (S counter) bits data fd σ
      | inr rc => Some (fd, σ, rc)
      end
  end.

Definition queuer_read_loop (fuel : nat) (fd : stream) (bits : bitarray) (σ : sys) :
    option (stream * sys * Z) :=
  match cmalloc 4096 with
  | PNull => Some (fd, σ, EXIT_FAILURE)
  | data => queue_turns fuel 0 bits data fd σ
  end.

(** ** The process *)

(** [while (outstanding != 0)]: the value of the semaphore is the number of
    registered flushers. *)
Fixpoint shutdown_wait (fuel n : nat) (σ : sys) : option (nat * sys) :=
  match fuel with
  | O => None
  | S fuel =>
      let σ := at_exit n σ in
      if zlen (s_jobs σ) =? 0 then Some (S n, σ) else shutdown_wait fuel (S n) σ
  end.

Definition set_kv (s : kv_store) (σ : sys) : sys :=
  {| s_kv := s; s_taken := s_taken σ; s_jobs := s_jobs σ |}.

(** [redis_flush_pipeline] with the other threads between the test and the
    reply, and between the reply and the decrement; it takes no lock. *)
Fixpoint shutdown_flush (fuel n : nat) (σ : sys) : option sys :=
  match fuel with
  | O => None
  | S fuel =>
      let σ := at_exit n σ in
      if kv_cmds (s_kv σ) =? 0 then Some σ else
      let σ := at_exit (S n) σ in
      let '(x, r) := redisGetReply (kv_connection (s_kv σ)) in
      let σ := at_exit (S (S n)) (set_kv (set_connection x (s_kv σ)) σ) in
      if negb (check_redis_return r =? EXIT_SUCCESS) then Some σ
      else shutdown_flush fuel (S (S (S n)))
             (set_kv (set_cmds (u64 (kv_cmds (s_kv σ) - 1)) (s_kv σ)) σ)
  end.

(** The handler of [on_exit], [redis_shutdown]: it waits until no flusher is
    registered, flushes, and frees the connection with what is still queued on
    it. A turn of the flush for each command is enough, unless the counter
    wraps: then the loop waits for replies that never come. *)
Definition queuer_exit (fuel : nat) (σ : sys) : option kv_store :=
  '(n, σ) ← shutdown_wait fuel 0 σ;
  σ ← shutdown_flush (S (Z.to_nat (kv_cmds (s_kv σ)))) n σ;
  Some (s_kv σ).

(** The filter of the index file, or one that lets everything pass. *)
Definition queuer_filter (fuel : nat) (indexf : FILE) : option (option bitarray) :=
  '(bits, _, rc) ← qemu_load_md_filter fuel indexf;
  if negb (rc =? EXIT_SUCCESS) then
    bits ← bitarray_init 5242880; bits ← bitarray_set_all bits; Some (Some bits)
  else Some bits.

(** [x] and [err] are what [redisConnectWithTimeout] returned; [None] is a file
    that could not be opened. The store is the one whose connection
    [redis_shutdown] has freed, when it was registered. [fuel] is for the turns
    of the loop, and for the rounds [redis_shutdown] waits. *)
Definition queuer_main (fuel : nat) (argc : Z) (x : redisContext) (err : Z) (db : list Z)
    (indexf : option FILE) (fd : option stream) : option (option kv_store * Z) :=
  if argc <? 4 then Some (None, EXIT_FAILURE) else
  match redis_init x err db with
  | None => Some (None, EXIT_FAILURE)
  | Some handle =>
      match indexf with
      | None => Some (None, EXIT_FAILURE)
      | Some indexf =>
          bits ← queuer_filter fuel indexf;
          match bits with
          | None => Some (None, EXIT_FAILURE)
          | Some bits =>
              let σ := {| s_kv := handle; s_taken := []; s_jobs := [] |} in
              match fd with
              | None => s ← queuer_exit fuel σ; Some (Some s, EXIT_FAILURE)
              | Some fd =>
                  '(_, σ, _) ← queuer_read_loop fuel fd bits σ;
                  s ← queuer_exit fuel σ; Some (Some s, EXIT_SUCCESS)
              end
          end
      end
  end.
End queuer.
