(* ===== verification/QueuerProps.v ===== *)
(** * Properties of the queuer

    However the stream is cut and whatever the flusher threads do meanwhile,
    its writes are appended to the write queue, in their order. When the process
    has ended all of them have been executed, unless the periodic flusher took
    them over during the exit. *)
From stdpp Require Import relations.
From S2P Require Import Prelude Words Memory Struct Stdio Bitarray Bson RedisEnv Redis RedisProps StoreView Filter Queuer.

#[local] Open Scope Z_scope.

(** ** Reading *)

(** The runs of the stream are the bytes [l], and then it ends. *)
Definition carries (fd : stream) (l : list Z) : Prop :=
  ∃ ls, fd = Some <$> ls ∧ Forall (λ d, d ≠ []) ls ∧ concat ls = l.

Lemma fd_read_ok fd l n :
  carries fd l → 0 < n → l ≠ [] →
  ∃ k fd', fd_read fd n = (fd', k, take (Z.to_nat k) l) ∧ 0 < k ≤ n ∧ k ≤ zlen l ∧
    carries fd' (drop (Z.to_nat k) l).
Proof.
  intros (ls & -> & Hne & <-) Hn Hl. destruct ls as [|d ls]; [done|].
  apply Forall_cons_1 in Hne as [Hd Hne]. cbn [fd_read fmap list_fmap concat].
  assert (0 < zlen d) by (destruct d; [done|simpl; lia]).
  case_test.
  - exists (zlen d), (Some <$> ls). rewrite Nat2Z.id, take_app_length, drop_app_length.
    split; [done|]. rewrite length_app. split; [lia|]. split; [lia|]. by exists ls.
  - exists n, (Some <$> drop (Z.to_nat n) d :: ls). rewrite take_app_le, drop_app_le by lia.
    split; [done|]. rewrite length_app. split; [lia|]. split; [lia|].
    exists (drop (Z.to_nat n) d :: ls). split; [done|]. split; [|done].
    constructor; [|done]. intros E. apply (f_equal length) in E. rewrite length_drop in E.
    simpl in E. lia.
Qed.

Lemma fd_read_eof fd n : carries fd [] → fd_read fd n = ([], 0, []).
Proof.
  intros (ls & -> & Hne & E). destruct ls as [|d ls]; [done|].
  apply Forall_cons_1 in Hne as [Hd _]. by destruct d.
Qed.

Lemma fd_read_none fd l : carries fd l → ∃ fd', fd_read fd 0 = (fd', 0, []).
Proof.
  intros (ls & -> & Hne & _). destruct ls as [|d ls]; [by eexists|].
  apply Forall_cons_1 in Hne as [Hd _]. destruct d; [done|]. by eexists.
Qed.

Lemma mem_write_into pre buf d off :
  off = zlen pre → (length d ≤ length buf)%nat →
  mem_write (pre ++ buf) off d = Some ((pre ++ d) ++ drop (length d) buf).
Proof.
  intros -> Hd. rewrite (list_split_at buf (length d)) at 1.
  rewrite (mem_write_app pre (take (length d) buf) d) by (rewrite ?length_take; lia).
  by rewrite app_assoc.
Qed.

(** The part of [buf] from [total] on filled from the stream. *)
Lemma read_more_ok fuel : ∀ fd l pre buf n total read_ret,
  carries fd l → 0 < read_ret → total = zlen pre → n = zlen (pre ++ buf) → n < 2 ^ 63 →
  zlen buf < Z.of_nat fuel →
  (zlen buf ≤ zlen l →
   ∃ fd' r, read_more fuel fd (pre ++ buf) n total read_ret
            = Some (fd', pre ++ take (length buf) l, r) ∧ 0 < r ∧
     carries fd' (drop (length buf) l)) ∧
  (zlen l < zlen buf →
   ∃ fd' buf', read_more fuel fd (pre ++ buf) n total read_ret = Some (fd', buf', 0)).
Proof.
  induction fuel as [|fuel IH]; intros fd l pre buf n total read_ret Hl Hr -> En Hn Hf; [lia|].
  cbn [read_more]. rewrite (proj2 (Z.ltb_lt _ _) Hr). cbn [andb]. rewrite length_app in En.
  destruct buf as [|b0 buf0]; [|set (buf := b0 :: buf0) in *].
  { case_test; [simpl in *; lia|]. split; [|simpl; lia]. intros _.
    exists fd, read_ret. simpl. by rewrite drop_0. }
  assert (0 < zlen buf) by (unfold buf; simpl; lia).
  case_test. rewrite uwrap_small by lia.
  destruct (decide (l = [])) as [->|Hne].
  { split; [simpl; lia|]. intros _. rewrite (fd_read_eof fd _ Hl).
    destruct (mem_write_is_Some (pre ++ buf) (zlen pre) []) as [m Em]; [lia|len|].
    rewrite Em. cbn [mbind option_bind]. destruct fuel as [|fuel]; [lia|].
    cbn [read_more andb Z.ltb Z.compare]. by do 2 eexists. }
  destruct (fd_read_ok fd l (n - zlen pre) Hl)
    as (k & fd1 & E & Hk & Hkl & Hl1); [lia|done|]. rewrite E.
  set (d := take (Z.to_nat k) l) in *.
  assert (zlen d = k) as Hd by (unfold d; rewrite length_take; lia).
  rewrite mem_write_into by lia. cbn [mbind option_bind].
  destruct (IH fd1 (drop (Z.to_nat k) l) (pre ++ d) (drop (length d) buf)
    n (zlen pre + k) k) as [IHa IHb];
    [done|lia|len|len|lia|len|].
  autorewrite with len in *. split.
  - intros Hlen. destruct IHa as (fd' & r & E' & Hr' & Hc); [lia|].
    exists fd', r. rewrite E'. split; [|split; [done|]].
    + rewrite <-app_assoc. do 4 f_equal. replace (length d) with (Z.to_nat k) by lia.
      rewrite (list_split_at l (Z.to_nat k)) at 2. fold d.
      rewrite take_app_ge by lia. f_equal.
      replace (length d + (length buf - length d))%nat with (length buf) by lia. f_equal. lia.
    + rewrite drop_drop in Hc. by replace (Z.to_nat k + (length buf - length d))%nat
        with (length buf) in Hc by lia.
  - intros Hlen. apply IHb. lia.
Qed.

Lemma read_fully_ok fd d rest buf n :
  carries fd (d ++ rest) → n = zlen d → n = zlen buf → 0 < n < 2 ^ 63 →
  ∃ fd' r, read_fully fd buf n = Some (fd', d, r) ∧ 0 < r ∧ carries fd' rest.
Proof.
  intros Hl Hd -> Hn. unfold read_fully. rewrite uwrap_small by lia.
  destruct (fd_read_ok fd (d ++ rest) (zlen buf) Hl) as (k & fd1 & E & Hk & Hkl & Hl1); [lia|..].
  { intros E. apply (f_equal length) in E. rewrite length_app in E. simpl in E. lia. }
  rewrite E. rewrite take_app_le by lia. rewrite drop_app_le in Hl1 by lia.
  set (d1 := take (Z.to_nat k) d) in *.
  assert (zlen d1 = k) as Hd1 by (unfold d1; rewrite length_take; lia).
  pose proof (mem_write_into [] buf d1 0 eq_refl ltac:(lia)) as W. cbn [app] in W. rewrite W. cbn [mbind option_bind].
  destruct (read_more_ok (S (Z.to_nat (zlen buf))) fd1 (drop (Z.to_nat k) d ++ rest) d1
    (drop (length d1) buf) (zlen buf) k k) as [Hok _];
    [done|lia|lia|len|lia|len|].
  destruct Hok as (fd' & r & E' & Hr & Hc); [len|].
  exists fd', r. rewrite E'. rewrite take_app_exact, drop_app_exact in * by len.
  split; [|done]. unfold d1. by rewrite take_drop.
Qed.

(** A stream that ends too early: the last [read] finds the end of the file. *)
Lemma read_fully_short fd l buf n :
  carries fd l → n = zlen buf → 0 ≤ n < 2 ^ 63 → n = 0 ∨ zlen l < n →
  ∃ fd' buf', read_fully fd buf n = Some (fd', buf', 0).
Proof.
  intros Hl -> Hn Hs. unfold read_fully. rewrite uwrap_small by lia.
  destruct (decide (l = [] ∨ zlen buf = 0)) as [He|Hne].
  { assert (∃ fd', fd_read fd (zlen buf) = (fd', 0, [])) as [fd' ->].
    { destruct He as [->|E0]; [by rewrite fd_read_eof; eauto|].
      rewrite E0. by eapply fd_read_none. }
    destruct (mem_write_is_Some buf 0 []) as [m Em]; [lia|len|].
    rewrite Em. cbn [mbind option_bind read_more andb Z.ltb Z.compare]. by do 2 eexists. }
  destruct (fd_read_ok fd l (zlen buf) Hl) as (k & fd1 & E & Hk & Hkl & Hl1); [lia|tauto|].
  rewrite E. set (d1 := take (Z.to_nat k) l) in *.
  assert (zlen d1 = k) as Hd1 by (unfold d1; rewrite length_take; lia).
  pose proof (mem_write_into [] buf d1 0 eq_refl ltac:(lia)) as W. cbn [app] in W. rewrite W. cbn [mbind option_bind].
  destruct (read_more_ok (S (Z.to_nat (zlen buf))) fd1 (drop (Z.to_nat k) l) d1
    (drop (length d1) buf) (zlen buf) k k) as [_ Hshort];
    [done|lia|lia|len|lia|len|]. apply Hshort. len.
Qed.

(** ** The other threads *)

Section threads.
Context `{Malloc} `{Connected}.

Lemma thread_step_sys σ σ' : thread_step σ σ' → sys_step σ σ'.
Proof.
  destruct 1 as [[s ts js]|s t1 n t2 js|σ σ' []];
    [by eapply step_take|by eapply step_post|by eapply step_thread|by eapply step_exit].
Qed.

Lemma accounted_queue s ts j1 n j2 :
  accounted {| s_kv := s; s_taken := ts; s_jobs := j1 ++ n :: j2 |} →
  kv_cmds s + n ≤ zlen (queued (kv_connection s)).
Proof.
  intros [_ Ht Hj Hq]. cbn [s_kv s_jobs s_taken] in *. rewrite sum_jobs_app in Hq.
  cbn [sum_jobs foldr] in Hq. apply Forall_app in Hj as [Hj1 Hj2].
  apply Forall_cons_1 in Hj2 as [_ Hj2]. pose proof (sum_jobs_nonneg _ Ht).
  pose proof (sum_jobs_nonneg _ Hj1). pose proof (sum_jobs_nonneg _ Hj2).
  unfold sum_jobs in *. lia.
Qed.

(** A turn of a flusher thread executes the oldest command. *)
Lemma flush_thread_turn_ok s n :
  0 < n < 2 ^ 64 → n ≤ zlen (queued (kv_connection s)) →
  ∃ s', flush_thread_turn s n = Some (s', n - 1) ∧ applied s' = applied s ∧
    kv_cmds s' = kv_cmds s ∧
    S (length (queued (kv_connection s'))) = length (queued (kv_connection s)).
Proof.
  intros Hn Hq. destruct (queued (kv_connection s)) as [|c cs] eqn:Eq; [simpl in Hq; lia|].
  destruct (get_reply_up _ c cs Eq) as (x & Ex & Edx & Eqx).
  unfold flush_thread_turn. rewrite Ex. cbn [mbind option_bind].
  rewrite uwrap_small by lia. eexists. split; [done|]. unfold applied. simpl.
  by rewrite Eqx, Edx, Eq.
Qed.

Lemma thread_step_ok σ σ' :
  thread_step σ σ' → accounted σ → accounted σ' ∧ applied (s_kv σ') = applied (s_kv σ).
Proof.
  intros Hst Ha. split; [by eapply sys_step_accounted, Ha; apply thread_step_sys|].
  destruct Hst as [σ|s t1 n t2 js|σ σ' [s ts j1 n j2 s' n' Hn0 E|]]; [done|done| |done].
  pose proof (accounted_queue _ _ _ _ _ Ha) as Hq. destruct Ha as [Hc _ Hj _].
  cbn [s_kv s_jobs] in *. apply Forall_app in Hj as [_ Hj]. apply Forall_cons_1 in Hj as [Hn _].
  destruct (flush_thread_turn_ok s n) as (s2 & E2 & Eapp & _); [lia|lia|]. by simplify_eq.
Qed.

Lemma threads_ok σ σ' :
  rtc thread_step σ σ' → accounted σ → accounted σ' ∧ applied (s_kv σ') = applied (s_kv σ).
Proof.
  induction 1 as [|σ1 σ2 σ3 Hs _ IH]; [done|]. intros Ha.
  destruct (thread_step_ok _ _ Hs Ha) as [Ha2 E2]. destruct (IH Ha2) as [Ha3 E3].
  split; [done|congruence].
Qed.

(** ** The exit handler *)

Context `{!Threads}.

(** The first [n] rounds of what the threads do while the process exits. *)
Definition exit_rounds (n : nat) (σ : sys) : sys := foldl (λ σ n, at_exit n σ) σ (seq 0 n).

(** When the process starts to exit, the periodic flusher is not on its way from
    [cmd_lock] to [sem_post], it takes nothing over any more, and the scheduler
    lets the flushers that are registered finish. *)
Record calm_exit (fuel : nat) (σ : sys) : Prop := {
  calm_taken : s_taken σ = [];
  calm_steps n σ : rtc flush_step σ (at_exit n σ);
  calm_done : ∃ k, (k < fuel)%nat ∧ s_jobs (exit_rounds (S k) σ) = [];
}.

(** The periodic flusher takes the commands over when no flusher is registered
    and the process exits, and is not run again. *)
Record racing_exit (σ : sys) : Prop := {
  racing_jobs : s_jobs σ = [];
  racing_take : at_exit 0 σ = take_cmds σ;
  racing_idle : at_exit 1 (take_cmds σ) = take_cmds σ;
}.

Lemma flush_steps_taken σ σ' : rtc flush_step σ σ' → s_taken σ' = s_taken σ.
Proof. induction 1 as [|σ1 σ2 σ3 [] _ IH]; [done|by rewrite IH..]. Qed.

Lemma flush_steps_idle σ σ' : rtc flush_step σ σ' → s_jobs σ = [] → σ' = σ.
Proof.
  destruct 1 as [|σ1 σ2 σ3 [s ts j1 n j2 s' n' _ _|s ts j1 j2] _]; [done| |];
    intros E; cbn [s_jobs] in E; by destruct j1.
Qed.

Lemma idle_exit n s ts :
  (∀ n σ, rtc flush_step σ (at_exit n σ)) →
  at_exit n {| s_kv := s; s_taken := ts; s_jobs := [] |}
  = {| s_kv := s; s_taken := ts; s_jobs := [] |}.
Proof. intros Hs. by apply (flush_steps_idle _ _ (Hs n _)). Qed.

Lemma shutdown_wait_ok k : ∀ fuel n σ,
  accounted σ → s_taken σ = [] → (∀ n σ, rtc flush_step σ (at_exit n σ)) → (k < fuel)%nat →
  s_jobs (foldl (λ σ n, at_exit n σ) σ (seq n (S k))) = [] →
  ∃ n' σ', shutdown_wait fuel n σ = Some (n', σ') ∧ accounted σ' ∧
    applied (s_kv σ') = applied (s_kv σ) ∧ s_taken σ' = [] ∧ s_jobs σ' = [].
Proof.
  induction k as [|k IH]; intros fuel n σ Ha Ht Hs Hf Hj;
    (destruct fuel as [|fuel]; [lia|]); cbn [shutdown_wait seq foldl] in *.
  all: destruct (threads_ok σ (at_exit n σ)) as [Ha1 E1]; [apply at_exit_steps|done|].
  all: pose proof (flush_steps_taken _ _ (Hs n σ)) as Et; rewrite Ht in Et.
  - rewrite Hj. by exists (S n), (at_exit n σ).
  - case_test.
    + exists (S n), (at_exit n σ). split; [done|]. split; [done|]. split; [done|].
      split; [done|]. apply length_zero_iff_nil. lia.
    + destruct (IH fuel (S n) (at_exit n σ)) as (n' & σ' & E & Ha' & E' & Ht' & Hj');
        [done|done|done|lia|done|].
      exists n', σ'. rewrite E. split; [done|]. split; [done|]. split; [congruence|done].
Qed.

(** Alone, the flush executes what is left. *)
Lemma shutdown_flush_alone c : ∀ fuel n s,
  (∀ n σ, rtc flush_step σ (at_exit n σ)) → kv_cmds s = Z.of_nat c → Z.of_nat c < 2 ^ 64 →
  length (queued (kv_connection s)) = c → (c < fuel)%nat →
  ∃ s', shutdown_flush fuel n {| s_kv := s; s_taken := []; s_jobs := [] |}
        = Some {| s_kv := s'; s_taken := []; s_jobs := [] |} ∧
    data_of (kv_connection s') = applied s ∧ queued (kv_connection s') = [].
Proof.
  induction c as [|c IH]; intros fuel n s Hs Hc Hb Hq Hf;
    (destruct fuel as [|fuel]; [lia|]); cbn [shutdown_flush].
  all: rewrite (idle_exit n) by done; cbn [s_kv]; rewrite Hc.
  - exists s. split; [done|]. apply length_zero_iff_nil in Hq.
    split; [by unfold applied; rewrite Hq|done].
  - case_test. rewrite (idle_exit (S n)) by done. cbn [s_kv].
    destruct (queued (kv_connection s)) as [|c0 cs] eqn:Eq; [done|].
    destruct (get_reply_up _ c0 cs Eq) as (x & Ex & Edx & Eqx). rewrite Ex.
    unfold set_kv. cbn [s_kv s_taken s_jobs].
    rewrite (idle_exit (S (S n))) by done. cbn [s_kv s_taken s_jobs].
    change (check_redis_return _ =? EXIT_SUCCESS) with true. cbn [negb].
    destruct (IH fuel (S (S (S n))) (set_cmds (u64 (kv_cmds s - 1)) (set_connection x s)))
      as (s' & E & Ed & Eq'); [done| |lia| |lia|].
    + cbn [kv_cmds set_cmds]. rewrite uwrap_small by lia. lia.
    + cbn [kv_connection set_cmds set_connection]. rewrite Eqx. simpl in Hq. lia.
    + exists s'. rewrite <-E. split; [done|]. split; [|done]. rewrite Ed. unfold applied.
      cbn [kv_connection set_cmds set_connection]. by rewrite Eqx, Edx, Eq.
Qed.

(** A calm end leaves nothing queued. *)
Lemma queuer_exit_ok fuel σ :
  accounted σ → calm_exit fuel σ →
  ∃ s', queuer_exit fuel σ = Some s' ∧ data_of (kv_connection s') = applied (s_kv σ) ∧
    queued (kv_connection s') = [].
Proof.
  intros Ha [Ht Hs (k & Hk & Hj)].
  destruct (shutdown_wait_ok k fuel 0 σ) as (n & [s ts js] & E & [Hc _ _ Hq] & Ea & Et & Ej);
    [done..|].
  cbn [s_taken s_jobs s_kv] in *. subst ts js. simpl in Hq.
  unfold queuer_exit. rewrite E. cbn [mbind option_bind s_kv].
  destruct (shutdown_flush_alone (Z.to_nat (kv_cmds s)) (S (Z.to_nat (kv_cmds s))) n s)
    as (s' & E' & Ed & Eq); [done|lia|unfold REDIS_DEFAULT_PIPELINED in *; lia|lia|lia|].
  rewrite E'. cbn [mbind option_bind]. exists s'. split; [done|]. split; [congruence|done].
Qed.

(** A racing flusher leaves everything queued. *)
Lemma queuer_exit_race fuel σ :
  racing_exit σ → (0 < fuel)%nat → queuer_exit fuel σ = Some (s_kv (take_cmds σ)).
Proof.
  intros [Hj Ht Hi] Hf. destruct fuel as [|fuel]; [lia|].
  unfold queuer_exit. cbn [shutdown_wait]. rewrite Ht.
  change (s_jobs (take_cmds σ)) with (s_jobs σ). rewrite Hj. cbv beta iota delta [length Z.of_nat Z.eqb].
  cbn [mbind option_bind shutdown_flush]. by rewrite Hi.
Qed.
End threads.

(** ** The loop *)

(** A write the guest can issue. *)
Record guest_write (w : qemu_bdrv_write) : Prop := {
  wk_sector : - 2 ^ 63 ≤ w_sector_num w < 2 ^ 63;
  wk_nb : 0 < w_nb_sectors w;
  wk_bytes : w_nb_sectors w * 512 < 2 ^ 31;
  wk_data : zlen (w_data w) = w_nb_sectors w * 512;
}.

(** The elements of the write queue for a write. *)
Definition queue_pair (w : qemu_bdrv_write) : list (list Z) :=
  [le_enc 8 (w_sector_num w); w_data w].

Definition event_header (sector nb : Z) : list Z := le_enc 8 sector ++ le_enc 4 nb.

Definition enc_write (w : qemu_bdrv_write) : list Z :=
  event_header (w_sector_num w) (w_nb_sectors w) ++ w_data w.

(** What may follow the last write: an incomplete header, at which the loop
    ends successfully, or a header whose data is incomplete or empty, which is
    an error. *)
Inductive stream_end : list Z → Z → Prop :=
  | end_header tail : zlen tail < 12 → stream_end tail EXIT_SUCCESS
  | end_data sector nb d :
      - 2 ^ 63 ≤ sector < 2 ^ 63 → 0 ≤ nb → nb * 512 < 2 ^ 31 →
      nb = 0 ∨ zlen d < nb * 512 →
      stream_end (event_header sector nb ++ d) EXIT_FAILURE.

Lemma length_event_header sector nb : length (event_header sector nb) = 12%nat.
Proof. unfold event_header. by rewrite length_app, !length_le_enc. Qed.

Lemma qemu_parse_header_ok sector nb :
  - 2 ^ 63 ≤ sector < 2 ^ 63 → 0 ≤ nb → nb * 512 < 2 ^ 31 →
  qemu_parse_header (event_header sector nb) = Some (sector, nb).
Proof.
  intros Hs Hn Hb. unfold qemu_parse_header.
  rewrite mem_read_prefix by (rewrite length_event_header; lia). cbn [mbind option_bind].
  rewrite firstn_all2 by (rewrite length_event_header; done).
  assert (fbytes qemu_bdrv_write_header "sector_num" (event_header sector nb) = le_enc 8 sector)
    as E1 by (unfold fbytes, event_header; simpl; done).
  assert (fbytes qemu_bdrv_write_header "nb_sectors" (event_header sector nb) = le_enc 4 nb)
    as E2 by (unfold fbytes, event_header; simpl; done).
  unfold fget. rewrite E1, E2, !le_dec_enc.
  change (8 * Z.of_nat 8) with 64. change (8 * Z.of_nat 4) with 32.
  f_equal. f_equal.
  - by apply (swrap_uwrap 64).
  - by apply (swrap_uwrap 32); [lia|lia].
Qed.

Section loop.
Context `{MallocTotal} `{Connected} `{!WriteQueue} `{!Threads}.

(** Whether the write is queued: a write is dropped when a lock is taken and
    the filter does not have its sector. *)
Definition kept (bits : bitarray) (counter : nat) (w : qemu_bdrv_write) : bool :=
  negb (conn_locked counter || cmd_locked counter)
  || bit_at bits (u64 (Z.quot (w_sector_num w) 4096)).

(** The writes that are queued, from the turn [counter] on. *)
Fixpoint kept_writes (bits : bitarray) (counter : nat) (ws : list qemu_bdrv_write) :
    list qemu_bdrv_write :=
  match ws with
  | [] => []
  | w :: ws => (if kept bits counter w then [w] else []) ++ kept_writes bits (S counter) ws
  end.

(** What they add to the queue. *)
Definition queue_of (ws : list qemu_bdrv_write) : list (list Z) := concat (queue_pair <$> ws).

Lemma queue_of_app ws1 ws2 : queue_of (ws1 ++ ws2) = queue_of ws1 ++ queue_of ws2.
Proof. unfold queue_of. by rewrite fmap_app, concat_app. Qed.

Lemma queue_of_kept bits counter w :
  queue_of (if kept bits counter w then [w] else [])
  = if kept bits counter w then queue_pair w else [].
Proof. by destruct (kept bits counter w). Qed.

Lemma kept_writes_all bits ws :
  (∀ n, conn_locked n = false ∧ cmd_locked n = false) →
  ∀ counter, kept_writes bits counter ws = ws.
Proof.
  intros Hl. induction ws as [|w ws IH]; intros counter; [done|]. cbn [kept_writes].
  unfold kept. destruct (Hl counter) as [-> ->]. cbn [orb negb app]. by rewrite IH.
Qed.

Lemma kept_writes_guest bits ws : ∀ counter,
  Forall guest_write ws → Forall guest_write (kept_writes bits counter ws).
Proof.
  induction ws as [|w ws IH]; intros counter Hws; [constructor|].
  apply Forall_cons_1 in Hws as [Hw Hws]. cbn [kept_writes]. apply Forall_app.
  split; [|by apply IH]. destruct (kept bits counter w); [by apply list.Forall_singleton|by apply list.Forall_nil].
Qed.

Lemma enqueue_ok σ bits sector d b1 b2 :
  accounted σ → bitarray_wf bits →
  ∃ s job rc, redis_async_write_enqueue (s_kv σ) bits sector d b1 b2 = Some (s, job, rc) ∧
    accounted {| s_kv := s; s_taken := s_taken σ;
                 s_jobs := match job with Some n => n :: s_jobs σ | None => s_jobs σ end |} ∧
    pending_writes s = pending_writes (s_kv σ) ++
      (if negb (b1 || b2) || bit_at bits (u64 (Z.quot sector 4096))
       then [le_enc 8 sector; d] else []).
Proof.
  intros Ha Hwf.
  destruct (redis_async_write_enqueue (s_kv σ) bits sector d b1 b2) as [[[s job] rc]|] eqn:E.
  - exists s, job, rc. split; [done|]. split.
    { eapply sys_step_accounted; [|exact Ha]. destruct σ as [s0 ts js].
      by eapply step_async. }
    unfold redis_async_write_enqueue in E. revert E.
    assert (∀ P : bool, (if b1 || b2 then Some P else Some true)
                        = Some (negb (b1 || b2) || P)) as Ew by (intros; by destruct (_ || _)).
    rewrite bitarray_get_bit_at, Ew by (done || apply uwrap_range; lia).
    cbn [mbind option_bind].
    destruct (negb (b1 || b2) || _); cbn [negb]; intros E; simplify_eq; [|by rewrite app_nil_r].
    set (c1 := cmd REDIS_ASYNC_QUEUE_PUSH [ABin (le_enc 8 sector)]) in *.
    set (c2 := cmd REDIS_ASYNC_QUEUE_PUSH [ABin d]) in *.
    destruct (append_spec (kv_connection (s_kv σ)) c1) as [D1 Q1].
    destruct (append_spec (redisAppendCommand (kv_connection (s_kv σ)) c1) c2) as [D2 Q2].
    assert (kv_connection s
            = redisAppendCommand (redisAppendCommand (kv_connection (s_kv σ)) c1) c2) as Es.
    { revert E. destruct ((REDIS_DEFAULT_PIPELINED <=? _) || _); intros E; by simplify_eq. }
    unfold pending_writes. rewrite Es, D2, Q2, D1, Q1, !exec_all_app. simpl.
    unfold c1, c2. by rewrite !exec_push, <-app_assoc.
  - exfalso. unfold redis_async_write_enqueue in E. revert E.
    rewrite bitarray_get_bit_at by (done || apply uwrap_range; lia).
    destruct (b1 || b2); cbn [mbind option_bind];
      [destruct (bit_at _ _)|]; cbn [negb]; try done; by destruct ((_ <=? _) || _).
Qed.

(** One turn takes one write off the stream. *)
Lemma queue_turn_ok bits counter data fd w rest σ :
  accounted σ → bitarray_wf bits → guest_write w → data ≠ PDangling →
  carries fd (enc_write w ++ rest) →
  ∃ fd' σ' m, queue_turn counter bits data fd σ = Some (fd', σ', inl (PLive m)) ∧
    accounted σ' ∧ carries fd' rest ∧
    pending_writes (s_kv σ') = pending_writes (s_kv σ) ++
      (if kept bits counter w then queue_pair w else []).
Proof.
  intros Ha Hwf [Hsec Hnb Hb Hd] Hp Hc. unfold queue_turn, enc_write in *.
  rewrite <-app_assoc in Hc. change QEMU_HEADER_SIZE with 12. cbn [mbind option_bind].
  destruct (read_fully_ok fd (event_header (w_sector_num w) (w_nb_sectors w)) (w_data w ++ rest)
    (replicate 12 (u8 indeterminate)) 12 Hc) as (fd1 & r1 & E1 & Hr1 & Hc1);
    [by rewrite length_event_header|done|lia|].
  rewrite (bind_Some_eq _ _ _ E1). do 2 case_test.
  rewrite (bind_Some_eq _ _ _ (qemu_parse_header_ok (w_sector_num w) (w_nb_sectors w)
    Hsec ltac:(lia) Hb)).
  unfold write_bytes, SECTOR_SIZE. rewrite bool_decide_true by lia. cbn [mbind option_bind].
  rewrite uwrap_small by lia.
  destruct (crealloc_live data (w_nb_sectors w * 512)) as (m & Em & Hm); [lia|done|].
  rewrite Em. cbn [mbind option_bind].
  destruct (read_fully_ok fd1 (w_data w) rest m (w_nb_sectors w * 512) Hc1)
    as (fd2 & r2 & E2 & Hr2 & Hc2); [lia..|].
  rewrite (bind_Some_eq _ _ _ E2). case_test.
  destruct (threads_ok σ (others counter σ)) as [Ha' Eapp]; [apply others_steps|done|].
  destruct (enqueue_ok (others counter σ) bits (w_sector_num w) (w_data w)
    (conn_locked counter) (cmd_locked counter)) as (s & job & rc & E3 & Ha3 & Hp3); [done..|].
  rewrite (bind_Some_eq _ _ _ E3). do 3 eexists. split; [done|]. split; [exact Ha3|].
  split; [done|]. cbn [s_kv]. rewrite Hp3. unfold pending_writes, applied in *. by rewrite Eapp.
Qed.

(** The turn that meets the end of the stream. *)
Lemma queue_turn_end bits counter data fd tail rc σ :
  data ≠ PDangling → carries fd tail → stream_end tail rc →
  ∃ fd', queue_turn counter bits data fd σ = Some (fd', σ, inr rc).
Proof.
  intros Hp Hc He. unfold queue_turn. change QEMU_HEADER_SIZE with 12. cbn [mbind option_bind].
  destruct He as [tail Hl|sector nb d Hsec Hnb Hb Hd].
  { destruct (read_fully_short fd tail (replicate 12 (u8 indeterminate)) 12 Hc)
      as (fd' & buf & E); [done|lia|by right|].
    rewrite (bind_Some_eq _ _ _ E). by eexists. }
  destruct (read_fully_ok fd (event_header sector nb) d
    (replicate 12 (u8 indeterminate)) 12 Hc) as (fd1 & r1 & E1 & Hr1 & Hc1);
    [by rewrite length_event_header|done|lia|].
  rewrite (bind_Some_eq _ _ _ E1). do 2 case_test.
  rewrite (bind_Some_eq _ _ _ (qemu_parse_header_ok sector nb Hsec Hnb Hb)).
  unfold write_bytes, SECTOR_SIZE. rewrite bool_decide_true by lia. cbn [mbind option_bind].
  rewrite uwrap_small by lia.
  destruct (crealloc_live data (nb * 512)) as (m & Em & Hm); [lia|done|].
  rewrite Em. cbn [mbind option_bind].
  destruct (read_fully_short fd1 d m (nb * 512) Hc1) as (fd2 & buf & E2); [lia|lia|lia|].
  rewrite (bind_Some_eq _ _ _ E2). by eexists.
Qed.

Lemma queue_turns_ok bits tail rc ws : ∀ fuel counter data fd σ,
  accounted σ → bitarray_wf bits → Forall guest_write ws → data ≠ PDangling →
  carries fd (concat (enc_write <$> ws) ++ tail) → stream_end tail rc →
  (length ws < fuel)%nat →
  ∃ fd' σ', queue_turns fuel counter bits data fd σ = Some (fd', σ', rc) ∧ accounted σ' ∧
    pending_writes (s_kv σ') = pending_writes (s_kv σ) ++ queue_of (kept_writes bits counter ws).
Proof.
  induction ws as [|w ws IH]; intros fuel counter data fd σ Ha Hwf Hws Hp Hc He Hf;
    (destruct fuel as [|fuel]; [simpl in Hf; lia|]); cbn [queue_turns].
  - destruct (queue_turn_end bits counter data fd tail rc σ Hp Hc He) as [fd' E].
    rewrite (bind_Some_eq _ _ _ E). exists fd', σ. split; [done|]. split; [done|].
    by rewrite app_nil_r.
  - apply Forall_cons_1 in Hws as [Hw Hws].
    cbn [fmap list_fmap concat] in Hc. rewrite <-app_assoc in Hc.
    destruct (queue_turn_ok bits counter data fd w _ σ Ha Hwf Hw Hp Hc)
      as (fd1 & σ1 & m & E & Ha1 & Hc1 & Hp1).
    rewrite (bind_Some_eq _ _ _ E).
    destruct (IH fuel (S counter) (PLive m) fd1 σ1) as (fd2 & σ2 & E2 & Ha2 & Hp2);
      [done..|simpl in Hf; lia|].
    exists fd2, σ2. split; [exact E2|]. split; [done|].
    cbn [kept_writes]. by rewrite Hp2, Hp1, queue_of_app, queue_of_kept, app_assoc.
Qed.

Lemma queuer_read_loop_ok bits tail rc ws fuel fd σ :
  accounted σ → bitarray_wf bits → Forall guest_write ws →
  carries fd (concat (enc_write <$> ws) ++ tail) → stream_end tail rc →
  (length ws < fuel)%nat →
  ∃ fd' σ', queuer_read_loop fuel fd bits σ = Some (fd', σ', rc) ∧ accounted σ' ∧
    pending_writes (s_kv σ') = pending_writes (s_kv σ) ++ queue_of (kept_writes bits 0 ws).
Proof.
  intros. unfold queuer_read_loop. destruct (cmalloc_live 4096) as (m & -> & _); [lia|].
  by eapply queue_turns_ok.
Qed.
End loop.

Lemma redis_init_ok `{Malloc} `{Connected} x database :
  queued x = [] →
  ∃ s, redis_init x 0 database = Some s ∧ kv_cmds s = 0 ∧ queued (kv_connection s) = [] ∧
    data_of (kv_connection s) = (exec (data_of x) (cmd "SELECT %s" [AStr database])).1.
Proof.
  intros Eq. unfold redis_init, redis_select. cbn [Z.eqb negb].
  destruct (do_command_ok
    {| kv_connection := x; kv_cmds := indeterminate; kv_bytes := indeterminate |}
    (cmd "SELECT %s" [AStr database]) (cmd "SELECT %s" [AStr database]) [])
    as (x' & E & Eq' & Ed); [simpl; by rewrite Eq|].
  rewrite E. by eexists.
Qed.

(** The whole process: its loop ends with [rc], in a state [σ']. *)
Lemma queuer_main_ok `{MallocTotal} `{Connected} `{!WriteQueue} `{!Threads}
    fuel argc x database indexf bits fd ws tail rc :
  4 ≤ argc → queued x = [] →
  queuer_filter fuel indexf = Some (Some bits) → bitarray_wf bits →
  Forall guest_write ws → carries fd (concat (enc_write <$> ws) ++ tail) → stream_end tail rc →
  (length ws < fuel)%nat →
  ∃ h fd' σ', redis_init x 0 database = Some h ∧
    queuer_read_loop fuel fd bits {| s_kv := h; s_taken := []; s_jobs := [] |}
      = Some (fd', σ', rc) ∧
    accounted σ' ∧
    pending_writes (s_kv σ')
    = write_queue (exec (data_of x) (cmd "SELECT %s" [AStr database])).1
      ++ queue_of (kept_writes bits 0 ws) ∧
    queuer_main fuel argc x 0 database (Some indexf) (Some fd)
    = (s ← queuer_exit fuel σ'; Some (Some s, EXIT_SUCCESS)).
Proof.
  intros Ha Hx Hbits Hwf Hws Hc He Hf.
  destruct (redis_init_ok x database Hx) as (h & Es & Ec & Eq & Ed).
  assert (accounted {| s_kv := h; s_taken := []; s_jobs := [] |}) as Hacc.
  { split; cbn [s_kv s_jobs s_taken]; [by rewrite Ec|constructor..|by rewrite Ec, Eq]. }
  destruct (queuer_read_loop_ok bits tail rc ws fuel fd _ Hacc Hwf Hws Hc He Hf)
    as (fd' & σ' & El & Ha' & Hp).
  exists h, fd', σ'. split; [done|]. split; [done|]. split; [done|]. split.
  - rewrite Hp. cbn [s_kv]. unfold pending_writes. by rewrite Eq, Ed.
  - unfold queuer_main. case_test. by rewrite Es, (bind_Some_eq _ _ _ Hbits), (bind_Some_eq _ _ _ El).
Qed.

(** ** Properties *)

(** C8: the queuer appends the writes of its stream to the write queue, in
    their order, as pairs of a sector number and the data, however [read] cuts
    the stream into pieces and whatever the flusher threads do in between. A
    write is lost only when a lock is taken at its turn and the filter does not
    have its sector; where no lock is taken none is. At an incomplete write, or
    one of no sectors, the loop ends, with an error unless the header is
    incomplete; the process succeeds all the same. When the process exits while
    the periodic flusher is quiet and the flushers at work finish, every command
    has been executed; but a periodic flusher that takes the commands over
    during the exit, before it has registered, is not waited for: the
    connection is freed with every command it took unexecuted. *)
Theorem queuer_main_spec `{MallocTotal} `{Connected} `{!WriteQueue} `{!Threads}
    fuel argc x database indexf bits fd ws tail rc :
  4 ≤ argc → queued x = [] →
  queuer_filter fuel indexf = Some (Some bits) → bitarray_wf bits →
  Forall guest_write ws → carries fd (concat (enc_write <$> ws) ++ tail) → stream_end tail rc →
  (length ws < fuel)%nat →
  let d := (exec (data_of x) (cmd "SELECT %s" [AStr database])).1 in
  let all := write_queue d ++ queue_of (kept_writes bits 0 ws) in
  let main := queuer_main fuel argc x 0 database (Some indexf) (Some fd) in
  ∃ h fd' σ',
    redis_init x 0 database = Some h ∧
    queuer_read_loop fuel fd bits {| s_kv := h; s_taken := []; s_jobs := [] |}
      = Some (fd', σ', rc) ∧
    accounted σ' ∧ pending_writes (s_kv σ') = all ∧
    (calm_exit fuel σ' →
     ∃ s, main = Some (Some s, EXIT_SUCCESS) ∧ queued (kv_connection s) = [] ∧
       write_queue (data_of (kv_connection s)) = all) ∧
    (racing_exit σ' →
     ∃ s, main = Some (Some s, EXIT_SUCCESS) ∧ kv_connection s = kv_connection (s_kv σ')) ∧
    ((∀ n, conn_locked n = false ∧ cmd_locked n = false) → kept_writes bits 0 ws = ws).
Proof.
  intros Ha Hx Hbits Hwf Hws Hc He Hf d all main.
  destruct (queuer_main_ok fuel argc x database indexf bits fd ws tail rc)
    as (h & fd' & σ' & Eh & El & Hacc & Hp & Em); [done..|].
  exists h, fd', σ'. do 4 (split; [done|]). split; [|split].
  - intros Hcalm. destruct (queuer_exit_ok fuel σ' Hacc Hcalm) as (s & Ex & Ed & Eq).
    unfold main. rewrite Em, Ex. exists s. split; [done|]. split; [done|]. by rewrite Ed.
  - intros Hrace. unfold main. rewrite Em, queuer_exit_race by (done || lia). by eexists.
  - intros. by apply kept_writes_all.
Qed.

(** Before each write the periodic flusher takes the commands over and
    registers; a flusher makes a step before each access at the exit. *)
Definition run_flusher `{Malloc} `{Hiredis} (σ : sys) : sys :=
  match s_jobs σ with
  | [] => σ
  | n :: js =>
      if n =? 0 then {| s_kv := s_kv σ; s_taken := s_taken σ; s_jobs := js |}
      else match flush_thread_turn (s_kv σ) n with
           | Some (s, n) => {| s_kv := s; s_taken := s_taken σ; s_jobs := n :: js |}
           | None => σ
           end
  end.

Lemma run_flusher_steps `{Malloc} `{Hiredis} σ : rtc flush_step σ (run_flusher σ).
Proof.
  destruct σ as [s ts js]. unfold run_flusher. cbn [s_jobs s_kv s_taken].
  destruct js as [|n js]; [apply rtc_refl|].
  destruct (Z.eqb_spec n 0) as [->|Hn]; [apply rtc_once; by apply (flush_exit s ts [])|].
  destruct (flush_thread_turn s n) as [[s' n']|] eqn:E; [|apply rtc_refl].
  apply rtc_once. by apply (flush_turn s ts [] n js).
Qed.

Lemma flush_thread_steps `{Malloc} `{Hiredis} σ σ' : rtc flush_step σ σ' → rtc thread_step σ σ'.
Proof. apply rtc_subrel. intros. by apply thread_flush. Qed.

#[local, refine] Instance busy_threads `{Malloc} `{Hiredis} : Threads | 0 := {|
  others _ σ := let '(s, n) := periodic_job (s_kv σ) in
                {| s_kv := s; s_taken := s_taken σ; s_jobs := n :: s_jobs σ |};
  at_exit _ σ := run_flusher σ;
  conn_locked _ := false;
  cmd_locked _ := false
|}.
Proof.
  - intros _ [s ts js]. eapply rtc_l; [apply thread_take|]. apply rtc_once.
    apply (thread_post _ []).
  - intros. apply flush_thread_steps, run_flusher_steps.
Defined.

Definition witness_queued_write : qemu_bdrv_write :=
  {| w_sector_num := 2048; w_nb_sectors := 1; w_data := replicate 512 7 |}.

Definition witness_queuer_index : FILE :=
  file_of (enc_doc (filter_doc 0 witness_filter)).

(** Two writes; a stream cut inside a header and inside the data, with half a
    header at its end. *)
Definition witness_event_runs : list (list Z) :=
  let l := enc_write witness_queued_write in
  [take 5 l; take 100 (drop 5 l); drop 105 l ++ l ++ [1; 2; 3]].

(** The commands of the first write are the flusher's, those of the second are
    left to the exit. *)
Lemma queuer_main_spec_witness :
  ∃ s, queuer_main 6 4 (kv_connection (witness_store [])) 0 [52] (Some witness_queuer_index)
         (Some (Some <$> witness_event_runs)) = Some (Some s, EXIT_SUCCESS) ∧
    write_queue (data_of (kv_connection s))
    = [le_enc 8 2048; replicate 512 7; le_enc 8 2048; replicate 512 7].
Proof.
  destruct (queuer_main_spec 6 4 (kv_connection (witness_store [])) [52] witness_queuer_index
    {| ba_array := [255]; ba_len := 8 |} (Some <$> witness_event_runs)
    [witness_queued_write; witness_queued_write] [1; 2; 3] EXIT_SUCCESS)
    as (h & fd' & σ' & Eh & El & _ & _ & Hcalm & _ & _).
  - lia.
  - done.
  - vm_compute. reflexivity.
  - split; [by exists 3|done|repeat constructor; discriminate].
  - repeat constructor; simpl; lia.
  - exists witness_event_runs. split; [reflexivity|]. split; [|vm_compute; reflexivity].
    repeat constructor; vm_compute; discriminate.
  - by apply end_header.
  - simpl. lia.
  - destruct Hcalm as (s & E & _ & Hw).
    + assert (match redis_init (kv_connection (witness_store [])) 0 [52] with
              | Some h =>
                  match queuer_read_loop 6 (Some <$> witness_event_runs)
                          {| ba_array := [255]; ba_len := 8 |}
                          {| s_kv := h; s_taken := []; s_jobs := [] |} with
                  | Some (_, σ, _) => s_taken σ = [] ∧ s_jobs (exit_rounds 5 σ) = []
                  | None => False
                  end
              | None => False
              end) as M by (vm_compute; by split).
      rewrite Eh, El in M. destruct M as [Ht Hj].
      split; [exact Ht|intros; apply run_flusher_steps|]. exists 4%nat. split; [lia|exact Hj].
    + exists s. split; [exact E|]. rewrite Hw. vm_compute. reflexivity.
Defined.

(** The schedule in which the periodic flusher wakes up behind the last write. *)
Definition racing_threads `{Malloc} `{Hiredis} : Threads.
Proof.
  refine {| others _ σ := σ; at_exit n σ := if Nat.eqb n 0 then take_cmds σ else σ;
            conn_locked _ := false; cmd_locked _ := false |}.
  - intros. apply rtc_refl.
  - intros n σ. destruct (Nat.eqb n 0); [apply rtc_once, thread_take|apply rtc_refl].
Defined.

(** The process succeeds, and neither write is in the queue. *)
Lemma queuer_race_loses :
  match queuer_main (H2 := racing_threads) 6 4 (kv_connection (witness_store [])) 0 [52]
          (Some witness_queuer_index) (Some (Some <$> witness_event_runs)) with
  | Some (Some s, rc) =>
      rc = EXIT_SUCCESS ∧ write_queue (data_of (kv_connection s)) = [] ∧
      length (queued (kv_connection s)) = 4%nat
  | _ => False
  end.
Proof. vm_compute. by repeat split. Qed.
