(* ===== verification/InspectLoad.v ===== *)
(** * src/gray-inferencer/deep_inspection.c: loading the crawler's documents

    [qemu_load_index] reads the documents of the crawler's stream and puts what
    they say into the store: hashes with the fields, lists, and for every
    sector a pointer that says what a write to it means. The function's static
    variables are a [load_state]. The loops end when the document does; [fuel]
    bounds their turns. *)
From S2P Require Import Prelude Words Memory Stdio Bson BsonEncode BsonDecode Scan RedisEnv Redis.

#[local] Open Scope string_scope.
#[local] Open Scope list_scope.
#[local] Open Scope Z_scope.

(** ** [struct super_info] and the static variables of [qemu_load_document] *)

Record super_info := {
  superblock_sector : Z;
  superblock_offset : Z;
  block_size : Z;
  blocks_per_group : Z;
  inodes_per_group : Z;
  inode_size : Z;
}.

Record load_state := {
  fs_id : Z;
  bgd_counter : Z;
  file_counter : Z;
  super : super_info;
}.

Definition initial_super : super_info :=
  {| superblock_sector := 0; superblock_offset := 0; block_size := 0;
     blocks_per_group := 0; inodes_per_group := 0; inode_size := 0 |}.

Definition initial_load : load_state :=
  {| fs_id := 0; bgd_counter := 0; file_counter := 0; super := initial_super |}.

(** ** Loops over the elements of a document *)

Section elements.
Context {T : Type}.

(** [while (again(bson_deserialize(bson, &value1, &value2))) body], where a
    body that does not succeed returns from the function. *)
Fixpoint while_elements (again : Z → bool)
    (body : bson_info → bson_kv → bson_kv → T → option (bson_kv * bson_kv * T * Z))
    (fuel : nat) (b : bson_info) (v v2 : bson_kv) (t : T) :
    option (bson_info * bson_kv * bson_kv * T * Z) :=
  match fuel with
  | O => None
  | S fuel =>
      '(b, v, v2, rc) ← bson_deserialize b v v2;
      if again rc then
        '(v, v2, t, rc) ← body b v v2 t;
        if rc =? EXIT_SUCCESS then while_elements again body fuel b v v2 t
        else Some (b, v, v2, t, rc)
      else Some (b, v, v2, t, EXIT_SUCCESS)
  end.
End elements.

(** The condition of the outer loops: the result -1 for an unknown type goes
    round the loop like an element. *)
Definition nonzero (rc : Z) : bool := negb (rc =? 0).
(** The condition of the inner loops. *)
Definition is_one (rc : Z) : bool := rc =? 1.

(** The block behind [value.data], of [value.size] bytes; an empty one is not
    looked at. *)
Definition kv_block (b : bson_info) (v : bson_kv) : option (list Z) :=
  if kv_size v =? 0 then Some [] else
  m ← deref (bi_buffer b); kv_read m (kv_data v) (u64 (kv_size v)).

Definition kv_key_is (b : bson_info) (v : bson_kv) (key : string) : option bool :=
  m ← deref (bi_buffer b); k ← kv_cstr m (kv_key v); Some (streq k (str_bytes key)).

Definition kv_key_str (b : bson_info) (v : bson_kv) : option (list Z) :=
  m ← deref (bi_buffer b); kv_cstr m (kv_key v).

(** [strcmp(value.data, s) == 0] *)
Definition kv_data_is (b : bson_info) (v : bson_kv) (s : string) : option bool :=
  m ← deref (bi_buffer b); k ← kv_cstr m (kv_data v); Some (streq k (str_bytes s)).

(** [(uint64_t) *((uint32_t * ) value.data)] and
    [(int64_t) *((int32_t * ) value.data)] *)
Definition kv_u32 (b : bson_info) (v : bson_kv) : option Z :=
  m ← deref (bi_buffer b); kv_le 4 m (kv_data v).
Definition kv_s32 (b : bson_info) (v : bson_kv) : option Z :=
  z ← kv_u32 b v; Some (s32 z).

(** The value of a variable of [n] bytes after the store has copied [d] into it. *)
Definition overlay (n : nat) (old : Z) (d : list Z) : Z :=
  le_dec (d ++ drop (length d) (le_enc n old)).

Section load.
Context `{Malloc} `{Hiredis}.

(** [if (redis_...(store, ...)) return EXIT_FAILURE; rest] *)
Definition andalso (r : option (kv_store * Z)) (rest : kv_store → option (kv_store * Z)) :
    option (kv_store * Z) :=
  '(s, rc) ← r;
  if rc =? EXIT_SUCCESS then rest s else Some (s, EXIT_FAILURE).

Definition succeed (s : kv_store) : option (kv_store * Z) := Some (s, EXIT_SUCCESS).

(** [GET_FIELD]: the variable keeps its value when the reply does not fit it. The
    last component is the value of [len]: what [redis_hash_field_get] has left
    in it, the number of bytes it stored. *)
Definition GET_FIELD_len (s : kv_store) (fmt : string) (id : Z) (field : string) (n : nat)
    (old : Z) : option (kv_store * Z * Z) :=
  '(s, d, _) ← redis_hash_field_get s fmt id (str_bytes field) (Z.of_nat n);
  Some (s, overlay n old d, zlen d).

(** The same where [len] has no other use. *)
Definition GET_FIELD (s : kv_store) (fmt : string) (id : Z) (field : string) (n : nat)
    (old : Z) : option (kv_store * Z) :=
  '(s, v, _) ← GET_FIELD_len s fmt id field n old; Some (s, v).

Definition qemu_get_superinfo (s : kv_store) (fs : Z) : option (kv_store * super_info * Z) :=
  let get s field := GET_FIELD s REDIS_SUPERBLOCK_SECTOR_GET fs field 8 indeterminate in
  '(s, sector) ← get s "superblock_sector";
  '(s, offset) ← get s "superblock_offset";
  '(s, bsize) ← get s "block_size";
  '(s, bpg) ← get s "blocks_per_group";
  '(s, ipg) ← get s "inodes_per_group";
  '(s, isize) ← get s "inode_size";
  Some (s, {| superblock_sector := sector; superblock_offset := offset;
              block_size := bsize; blocks_per_group := bpg; inodes_per_group := ipg;
              inode_size := isize |}, EXIT_SUCCESS).

(** [qemu_get_pt_offset]: [sector_offset] has 32 bits, and so has the product. *)
Definition qemu_get_pt_offset (s : kv_store) (pt_id : Z) : option (kv_store * Z * Z) :=
  '(s, sector_offset) ← GET_FIELD s REDIS_SUPERBLOCK_SECTOR_GET pt_id "first_sector_lba" 4 0;
  Some (s, u32 (sector_offset * SECTOR_SIZE), EXIT_SUCCESS).

(** ** The handlers of one element *)

(** The [else] branches: the field goes into the hash of the document. *)
Definition set_field (fmt : string) (b : bson_info) (v : bson_kv) (id : Z) (s : kv_store) :
    option (kv_store * Z) :=
  k ← kv_key_str b v; d ← kv_block b v; redis_hash_field_set s fmt id k d.

Definition mbr_element (id : Z) (b : bson_info) (v : bson_kv) (s : kv_store) :
    option (kv_store * Z) :=
  is_sector ← kv_key_is b v "sector";
  if is_sector : bool then
    n ← kv_u32 b v; redis_reverse_pointer_set s REDIS_MBR_INSERT n id
  else set_field REDIS_MBR_SECTOR_INSERT b v id s.

Definition partition_element (id : Z) (b : bson_info) (v : bson_kv) (s : kv_store) :
    option (kv_store * Z) :=
  is_sector ← kv_key_is b v "superblock_sector";
  if is_sector : bool then
    n ← kv_u32 b v; redis_reverse_pointer_set s REDIS_SUPERBLOCK_INSERT n id
  else set_field REDIS_SUPERBLOCK_SECTOR_INSERT b v id s.

Definition fs_element (id : Z) (b : bson_info) (v : bson_kv) (s : kv_store) :
    option (kv_store * Z) :=
  is_sector ← kv_key_is b v "superblock_sector";
  andalso
    (if is_sector : bool then
       m ← deref (bi_buffer b); n ← kv_le 8 m (kv_data v);
       redis_reverse_pointer_set s REDIS_SUPERBLOCK_INSERT n id
     else succeed s)
    (λ s, set_field REDIS_SUPERBLOCK_SECTOR_INSERT b v id s).

Definition bgd_element (id : Z) (b : bson_info) (v : bson_kv) (s : kv_store) :
    option (kv_store * Z) :=
  is_sector ← kv_key_is b v "sector";
  if is_sector : bool then
    n ← kv_u32 b v;
    andalso (redis_reverse_pointer_set s REDIS_BGDS_INSERT n id)
      (λ s, redis_reverse_pointer_set s REDIS_BGDS_SECTOR_INSERT n n)
  else set_field REDIS_BGD_SECTOR_INSERT b v id s.

Definition bitarray_element (b : bson_info) (v : bson_kv) (s : kv_store) :
    option (kv_store * Z) :=
  is_bits ← kv_key_is b v "bitarray";
  if is_bits : bool then d ← kv_block b v; redis_metadata_set s d
  else Some (s, EXIT_FAILURE).

(** A loop whose body leaves [value1] and [value2] alone. *)
Definition while_fields (body : bson_info → bson_kv → kv_store → option (kv_store * Z))
    (fuel : nat) (b : bson_info) (s : kv_store) : option (bson_info * kv_store * Z) :=
  '(b, _, _, s, rc) ← while_elements nonzero
     (λ b v v2 s, '(s, rc) ← body b v s; Some (v, v2, s, rc)) fuel b kv_indet kv_indet s;
  Some (b, s, rc).

Definition __deserialize_mbr fuel b s id := while_fields (mbr_element id) fuel b s.
Definition __deserialize_partition fuel b s id := while_fields (partition_element id) fuel b s.
Definition __deserialize_bgd fuel b s id := while_fields (bgd_element id) fuel b s.
Definition __deserialize_bitarray fuel b s := while_fields bitarray_element fuel b s.

(** [old] is what [super] held. *)
Definition __deserialize_fs (fuel : nat) (b : bson_info) (s : kv_store) (id : Z)
    (old : super_info) : option (bson_info * kv_store * super_info * Z) :=
  '(b, s, rc) ← while_fields (fs_element id) fuel b s;
  if negb (rc =? EXIT_SUCCESS) then Some (b, s, old, rc) else
  let '(s, _) := redis_flush_pipeline s in
  '(s, sup, _) ← qemu_get_superinfo s id;
  Some (b, s, sup, EXIT_SUCCESS).

(** ** Arrays inside a document *)

(** The copy of an array in a document of its own; [Some None] when there is no
    memory for it. *)
Definition open_array (b : bson_info) (v2 : bson_kv) : option (option bson_info) :=
  b2 ← bson_init;
  _ ← cfree (bi_buffer b2);
  match cmalloc (u64 (kv_size v2)) with
  | PLive blk =>
      m ← deref (bi_buffer b);
      d ← kv_read m (kv_data v2) (u64 (kv_size v2));
      blk ← mem_write blk 0 d;
      '(b2, _) ← bson_make_readable (set_buffer (PLive blk) b2);
      Some (Some b2)
  | _ => Some None
  end.

(** [value2] behind an inner loop that started with its pointer cleared: what
    the loop left in it leads into a block that has been freed. *)
Definition outlive (before after : bson_kv) : bson_kv :=
  set_kv_data (if cdata_null (kv_data after) then kv_data before else DNull) after.

(** The inner loops over [files], [sectors] and [extents]; the state [T] is that
    of the body, with the store in it. *)
Definition over_array {T} (body : bson_info → bson_kv → T → option (T * Z))
    (fuel : nat) (b : bson_info) (v v2 : bson_kv) (t : T) :
    option (bson_kv * bson_kv * T * Z) :=
  opened ← open_array b v2;
  match opened with
  | None => Some (v, v2, t, EXIT_FAILURE)
  | Some b2 =>
      '(b2, v', v2', t, rc) ← while_elements is_one
         (λ b v v2 t, '(t, rc) ← body b v t; Some (v, v2, t, rc))
         fuel b2 v (set_kv_data DNull v2) t;
      _ ← bson_cleanup b2;
      Some (set_kv_data DNull (set_kv_key DNull v'), outlive v2 v2', t, rc)
  end.

(** [sscanf(value1.key, "%lu", &sector)] *)
Definition scan_key (b : bson_info) (v : bson_kv) (sector : Z) : option Z :=
  k ← kv_key_str b v; scan_into k sector.

(** ** Documents of files *)

(** The store and the variable [sector]. *)
Definition file_loop : Type := kv_store * Z.

(** An element of [files] in [__deserialize_file]. *)
Definition dir_element (id : Z) (b : bson_info) (v : bson_kv) (t : file_loop) :
    option (file_loop * Z) :=
  let '(s, sector) := t in
  sector ← scan_key b v sector;
  '(s, rc) ← andalso
    (redis_hash_field_set s REDIS_DIR_SECTOR_INSERT sector (str_bytes "file") (le_enc 8 id))
    (λ s, andalso
      (d ← kv_block b v; redis_binary_insert s REDIS_DIR_FILES_INSERT sector d)
      (λ s, redis_reverse_pointer_set s REDIS_DIR_INSERT sector sector));
  Some ((s, sector), rc).

(** An element of [sectors]; the state has [counter] too, and the results of
    the store are not looked at. *)
Definition sectors_element (id bs : Z) (b : bson_info) (v : bson_kv) (t : file_loop * Z) :
    option (file_loop * Z * Z) :=
  let '(s, sector, counter) := t in
  n ← kv_s32 b v;
  '(s, _) ← redis_reverse_pointer_set s REDIS_FILE_SECTORS_INSERT id n;
  '(s, _) ← redis_reverse_file_data_pointer_set s (u64 n) counter (u64 (counter + bs)) id;
  Some ((s, sector, u64 (counter + bs)), EXIT_SUCCESS).

(** An element of [extents]. *)
Definition extents_element (id : Z) (b : bson_info) (v : bson_kv) (t : file_loop) :
    option (file_loop * Z) :=
  let '(s, sector) := t in
  sector ← scan_key b v sector;
  '(s, rc) ← andalso
    (redis_hash_field_set s REDIS_EXTENT_SECTOR_INSERT sector (str_bytes "file") (le_enc 8 id))
    (λ s, andalso (redis_reverse_pointer_set s REDIS_EXTENTS_INSERT id sector)
      (λ s, redis_reverse_pointer_set s REDIS_EXTENTS_SECTOR_INSERT sector sector));
  Some ((s, sector), rc).

(** Branches that do not look into an array. *)
Definition leave (v v2 : bson_kv) (sector : Z) (r : option (kv_store * Z)) :
    option (bson_kv * bson_kv * file_loop * Z) :=
  '(s, rc) ← r; Some (v, v2, (s, sector), rc).

Definition file_element (fuel : nat) (sup : super_info) (id : Z) (b : bson_info)
    (v v2 : bson_kv) (t : file_loop) : option (bson_kv * bson_kv * file_loop * Z) :=
  let '(s, sector) := t in
  key ← kv_key_str b v;
  if streq key (str_bytes "inode_sector") then
    n ← kv_u32 b v;
    leave v v2 sector (andalso (redis_reverse_pointer_set s REDIS_FILES_INSERT n id)
      (λ s, redis_reverse_pointer_set s REDIS_FILES_SECTOR_INSERT n n))
  else if streq key (str_bytes "inode_num") then
    n ← kv_u32 b v;
    leave v v2 sector (andalso (redis_reverse_pointer_set s REDIS_INODE_INSERT n id)
      (λ s, set_field REDIS_FILE_SECTOR_INSERT b v id s))
  else if streq key (str_bytes "files") then over_array (dir_element id) fuel b v v2 t
  else if streq key (str_bytes "sectors") then
    '(v, v2, (t, _), rc) ← over_array (sectors_element id (block_size sup)) fuel b v v2 (t, 0);
    Some (v, v2, t, rc)
  else if streq key (str_bytes "extents") then
    over_array (extents_element id) fuel b v v2 t
  else if streq key (str_bytes "path") then
    leave v v2 sector (andalso (set_field REDIS_FILE_SECTOR_INSERT b v id s)
      (λ s, d ← kv_block b v; redis_path_set s d id))
  else leave v v2 sector (set_field REDIS_FILE_SECTOR_INSERT b v id s).

Definition __deserialize_file (fuel : nat) (sup : super_info) (b : bson_info)
    (s : kv_store) (id : Z) : option (bson_info * kv_store * Z) :=
  '(b, _, _, (s, _), rc) ← while_elements nonzero (file_element fuel sup id) fuel b
     kv_indet kv_indet (s, 0);
  Some (b, s, rc).

(** The lazy variant only remembers which documents a sector needs; its state
    is the store, [sector] and [inode_sector]. *)
Definition lazy_loop : Type := kv_store * Z * Z.

Definition lazy_key_element (b : bson_info) (v : bson_kv) (t : lazy_loop) :
    option (lazy_loop * Z) :=
  let '(s, sector, inode_sector) := t in
  sector ← scan_key b v sector;
  '(s, rc) ← andalso (redis_reverse_pointer_set s REDIS_LOAD_LRECORDS sector inode_sector)
    succeed;
  Some ((s, sector, inode_sector), rc).

Definition lazy_sectors_element (b : bson_info) (v : bson_kv) (t : lazy_loop) :
    option (lazy_loop * Z) :=
  let '(s, sector, inode_sector) := t in
  n ← kv_s32 b v;
  '(s, _) ← redis_reverse_pointer_set s REDIS_LOAD_LRECORDS (u64 n) inode_sector;
  Some ((s, sector, inode_sector), EXIT_SUCCESS).

Definition lazy_element (fuel : nat) (b : bson_info) (v v2 : bson_kv) (t : lazy_loop) :
    option (bson_kv * bson_kv * lazy_loop * Z) :=
  let '(s, sector, inode_sector) := t in
  key ← kv_key_str b v;
  if streq key (str_bytes "inode_sector") then
    n ← kv_u32 b v;
    '(s, rc) ← andalso
      (redis_reverse_pointer_set s REDIS_LOAD_LRECORDS_INSERT n (bi_f_offset b))
      (λ s, andalso (redis_reverse_pointer_set s REDIS_LOAD_LRECORDS n n) succeed);
    Some (v, v2, (s, sector, n), rc)
  else if streq key (str_bytes "files") then over_array lazy_key_element fuel b v v2 t
  else if streq key (str_bytes "sectors") then
    over_array lazy_sectors_element fuel b v v2 t
  else if streq key (str_bytes "extents") then over_array lazy_key_element fuel b v v2 t
  else Some (v, v2, t, EXIT_SUCCESS).

Definition __deserialize_file_lazy (fuel : nat) (b : bson_info) (s : kv_store) :
    option (bson_info * kv_store * Z) :=
  '(b, _, _, (s, _, _), rc) ← while_elements nonzero (lazy_element fuel) fuel b
     kv_indet kv_indet (s, 0, 0);
  Some (b, s, rc).

(** ** Documents by their type *)

Definition set_counters (fs bgds files : Z) (sup : super_info) : load_state :=
  {| fs_id := fs; bgd_counter := bgds; file_counter := files; super := sup |}.

(** [bson_deserialize] must find the field [pte_num]; [Some None] when it does
    not. *)
Definition read_pte_num (b : bson_info) (v v2 : bson_kv) :
    option (bson_info * option Z) :=
  '(b, v, _, rc) ← bson_deserialize b v v2;
  if negb (rc =? 1) then Some (b, None) else
  is_num ← kv_key_is b v "pte_num";
  if is_num : bool then n ← kv_u32 b v; Some (b, Some n) else Some (b, None).

(** The out-parameters [bgdcounter] and [fcounter] are set exactly when the
    result is [EXIT_SUCCESS]. *)
Definition qemu_load_document (fuel : nat) (s : kv_store) (b : bson_info)
    (lazy_load : bool) (σ : load_state) :
    option (bson_info * kv_store * load_state * Z) :=
  '(b, v, v2, rc) ← bson_deserialize b kv_indet kv_indet;
  if negb (rc =? 1) then Some (b, s, σ, EXIT_FAILURE) else
  is_type ← kv_key_is b v "type";
  if negb is_type then Some (b, s, σ, EXIT_FAILURE) else
  m ← deref (bi_buffer b);
  type ← kv_cstr m (kv_data v);
  let 'Build_load_state fs bgds files sup := σ in
  if streq type (str_bytes "file") then
    let σ := set_counters fs bgds (u64 (files + 1)) sup in
    '(b, s, _) ← (if lazy_load then __deserialize_file fuel sup b s files
                  else __deserialize_file_lazy fuel b s);
    Some (b, s, σ, EXIT_SUCCESS)
  else if streq type (str_bytes "bgd") then
    '(b, s, _) ← __deserialize_bgd fuel b s bgds;
    Some (b, s, set_counters fs (u64 (bgds + 1)) files sup, EXIT_SUCCESS)
  else if streq type (str_bytes "fs") then
    '(b, n) ← read_pte_num b v v2;
    match n with
    | None => Some (b, s, σ, EXIT_FAILURE)
    | Some fs =>
        '(b, s, sup, _) ← __deserialize_fs fuel b s fs sup;
        Some (b, s, set_counters fs bgds files sup, EXIT_SUCCESS)
    end
  else if streq type (str_bytes "partition") then
    '(b, n) ← read_pte_num b v v2;
    match n with
    | None => Some (b, s, σ, EXIT_FAILURE)
    | Some fs =>
        '(b, s, _) ← __deserialize_partition fuel b s fs;
        Some (b, s, set_counters fs bgds files sup, EXIT_SUCCESS)
    end
  else if streq type (str_bytes "mbr") then
    '(b, s, rc) ← __deserialize_mbr fuel b s 0;
    Some (b, s, σ, if rc =? EXIT_SUCCESS then EXIT_SUCCESS else EXIT_FAILURE)
  else if streq type (str_bytes "metadata_filter") then
    '(b, s, rc) ← __deserialize_bitarray fuel b s;
    Some (b, s, σ, if rc =? EXIT_SUCCESS then EXIT_SUCCESS else EXIT_FAILURE)
  else Some (b, s, σ, EXIT_FAILURE).

(** ** The stream of documents *)

(** The loop of [qemu_load_index]; [fuel] bounds the documents, and [doc_fuel]
    the elements of each. *)
Fixpoint load_index_loop (fuel doc_fuel : nat) (b : bson_info) (f : FILE)
    (s : kv_store) (σ : load_state) (files : Z) :
    option (bson_info * kv_store * load_state * Z) :=
  match fuel with
  | O => None
  | S fuel =>
      '(b, f, rc) ← bson_readf b f;
      if rc =? 1 then
        '(b, s, σ, rc) ← qemu_load_document doc_fuel s b true σ;
        load_index_loop fuel doc_fuel b f s σ
          (if rc =? EXIT_SUCCESS then file_counter σ else files)
      else Some (b, s, σ, files)
  end.

Definition qemu_load_index (fuel doc_fuel : nat) (index : FILE) (s : kv_store)
    (σ : load_state) : option (kv_store * load_state * Z) :=
  b ← bson_init;
  '(b, s, σ, files) ← load_index_loop fuel doc_fuel b index s σ 0;
  let '(s, _) := redis_set_fcounter s files in
  let '(s, _) := redis_flush_pipeline s in
  _ ← bson_cleanup b;
  Some (s, σ, EXIT_SUCCESS).

(** [pointer] is [load:<offset>]: the document at that offset of the crawler's
    stream. A document that cannot be read ends the process. *)
Definition __load (fuel : nat) (pointer : list Z) (metadata : FILE) (s : kv_store)
    (σ : load_state) : option (FILE * kv_store * load_state * Z) :=
  b ← bson_init;
  offset ← pointer_arg pointer indeterminate;
  let '(f, rc) := fseeko metadata offset in
  if negb (rc =? 0) then Some (f, s, σ, EXIT_FAILURE) else
  '(b, f, rc) ← bson_readf b f;
  if negb (rc =? 1) then None else
  '(b, s, σ, _) ← qemu_load_document fuel s b true σ;
  _ ← bson_cleanup b;
  let '(s, _) := redis_flush_pipeline s in
  Some (f, s, σ, EXIT_SUCCESS).

Fixpoint load_list_loop (fuel : nat) (l : list (list Z)) (f : FILE) (s : kv_store)
    (σ : load_state) : option (FILE * kv_store * load_state) :=
  match l with
  | [] => Some (f, s, σ)
  | e :: l =>
      p ← cstr_at e 0;
      '(f, s, σ, _) ← __load fuel p f s σ;
      load_list_loop fuel l f s σ
  end.

(** A list that the store did not return is an indeterminate pointer. *)
Definition __load_list (fuel : nat) (pointer : list Z) (metadata : FILE) (s : kv_store)
    (σ : load_state) : option (FILE * kv_store * load_state * Z) :=
  listid ← pointer_arg pointer indeterminate;
  '(s, list, _) ← redis_list_get s REDIS_GET_LRECORDS listid None;
  list ← list;
  '(f, s, σ) ← load_list_loop fuel list metadata s σ;
  _ ← redis_free_list (Some (PLive <$> list)) (zlen list);
  Some (f, s, σ, EXIT_SUCCESS).
End load.
