(* ===== verification/InspectEmit.v ===== *)
(** * src/gray-inferencer/deep_inspection.c: publishing what changed

    Updates are published as documents on channels named after the host, the
    virtual machine and a path. [Host] is the system call that names the host;
    a null channel handed to the store has no result. *)
From S2P Require Import Prelude Words Memory Stdio Bson BsonEncode Scan RedisEnv Redis InspectLoad.

#[local] Open Scope string_scope.
#[local] Open Scope list_scope.
#[local] Open Scope Z_scope.

Definition HOST_NAME_MAX : Z := 256.
Definition VM_NAME_MAX : Z := 512.
Definition PATH_MAX : Z := 4096.

(** [gethostname(buf, n)] leaves a terminated name in [buf], or fails. *)
Class Host := {
  gethostname : Z → option (list Z);
  gethostname_spec n h : gethostname n = Some h → Forall (λ c, c ≠ 0) h ∧ zlen h < n;
}.

(** A host for the witnesses. *)
#[export, refine] Instance local_host : Host | 100 :=
  {| gethostname n := if 9 <? n then Some (str_bytes "localhost") else None |}.
Proof.
  intros n h. case_test; intros; simplify_eq. split; [|simpl; lia].
  apply (bool_decide_unpack _). by vm_compute.
Defined.

Section emit.
Context `{Malloc} `{Hiredis} `{Host}.

(** [Some None] is the null pointer; the three parts are C strings. *)
Definition construct_channel_name (vmname path : list Z) : option (option (list Z)) :=
  match malloc (HOST_NAME_MAX + VM_NAME_MAX + PATH_MAX + 3) with
  | None => Some None
  | Some buf =>
      match gethostname HOST_NAME_MAX with
      | None => Some None
      | Some host =>
          let name := host ++ COLON :: vmname ++ COLON :: path in
          if zlen name + 1 <=? zlen buf then Some (Some name) else None
      end
  end.

Definition clone_cstring (cstring : list Z) : option (option (list Z)) :=
  n ← cstrlen cstring;
  match malloc (n + 1) with
  | None => Some None
  | Some ret => d ← mem_read cstring 0 (n + 1); m ← mem_write ret 0 d; Some (Some m)
  end.

(** [redis_publish(store, channel, bson->buffer, bson->position)], then
    [bson_cleanup(bson)] unless it failed. *)
Definition publish_document (s : kv_store) (channel : option (list Z)) (b : bson_info)
    (failure : Z) : option (kv_store * Z) :=
  m ← deref (bi_buffer b);
  d ← mem_read m 0 (bi_position b);
  channel ← channel;
  let '(s, rc) := redis_publish s channel d in
  if negb (rc =? EXIT_SUCCESS) then Some (s, failure) else
  _ ← bson_cleanup b; Some (s, EXIT_SUCCESS).

(** The three mutations differ in one key. *)
Definition emit_mutation (key : string) (s : kv_store) (channel : option (list Z))
    (file : list Z) (flen transaction_id : Z) : option (kv_store * Z) :=
  match bson_init with
  | None => Some (s, EXIT_FAILURE)
  | Some b =>
      '(b, _) ← serialize_fields b kv_indet
        [fill_str "type" 8 (cstr "mutation");
         fill_mem BSON_INT64 "transaction" (le_enc 8 transaction_id);
         fill_str key flen file];
      '(b, _) ← bson_finalize b;
      publish_document s channel b EXIT_FAILURE
  end.

Definition __emit_deleted_file := emit_mutation "delete".
Definition __emit_created_file := emit_mutation "create".
Definition __emit_rename_file := emit_mutation "rename".

(** [val.type = ty; val.subtype = BSON_BINARY_GENERIC; val.key = key;
    val.data = d; val.size = zlen d] *)
Definition fill_value (ty : Z) (key : string) (d : list Z) (v : bson_kv) : bson_kv :=
  {| kv_type := ty; kv_subtype := BSON_BINARY_GENERIC; kv_size := s32 (zlen d);
     kv_key := DMem (cstr key); kv_data := DMem d |}.

(** With [emit]; the hexdump of [print] is output. *)
Definition update_fields (field type : string) (bson_type : Z) (oldv newv : list Z)
    (transaction_id : Z) : list (bson_kv → bson_kv) :=
  [fill_str "type" (zlen (str_bytes type)) (cstr type);
   fill_mem BSON_INT64 "transaction" (le_enc 8 transaction_id);
   fill_str "field" (zlen (str_bytes field)) (cstr field);
   fill_value bson_type "old" oldv;
   fill_value bson_type "new" newv].

Definition __emit_field_update (s : kv_store) (field type : string)
    (channel : option (list Z)) (bson_type : Z) (oldv newv : list Z)
    (transaction_id : Z) (emit : bool) : option (kv_store * Z) :=
  match bson_init with
  | None => Some (s, EXIT_FAILURE)
  | Some b =>
      if emit then
        '(b, _) ← serialize_fields b kv_indet
          (update_fields field type bson_type oldv newv transaction_id);
        '(b, _) ← bson_finalize b;
        publish_document s channel b EXIT_FAILURE
      else _ ← bson_cleanup b; Some (s, EXIT_SUCCESS)
  end.

(** [DIRECT_FIELD_COMPARE] on variables of [n] bytes. *)
Definition DIRECT_FIELD_COMPARE (s : kv_store) (channel : option (list Z))
    (transaction_id : Z) (fname type : string) (btype : Z) (n : nat) (old new : Z) :
    option kv_store :=
  if old =? new then Some s else
  '(s, _) ← __emit_field_update s fname type channel btype (le_enc n old) (le_enc n new)
    transaction_id true;
  Some s.

(** [SET_FIELD]; the last component of the first is [len]. *)
Definition SET_FIELD_len (s : kv_store) (fmt : string) (id : Z) (field : string) (n : nat)
    (old new : Z) : option (kv_store * Z) :=
  let len := Z.of_nat n in
  if new =? old then Some (s, len) else
  '(s, _) ← redis_hash_field_set s fmt id (str_bytes field) (le_enc n new); Some (s, len).

Definition SET_FIELD (s : kv_store) (fmt : string) (id : Z) (field : string) (n : nat)
    (old new : Z) : option kv_store :=
  '(s, _) ← SET_FIELD_len s fmt id field n old new; Some s.

(** ** Writes to the data of files *)

(** [path[len] = 0] in a buffer of [PATH_MAX] bytes that holds [d]. *)
Definition path_string (d : list Z) : option (list Z) :=
  if zlen d <? PATH_MAX then cstr_at (d ++ [0]) 0 else None.

(** [val.type = BSON_BINARY; val.key = key; val.data = d; val.size = n]: the
    subtype is not assigned. *)
Definition fill_binary (key : string) (d : list Z) (n : Z) (v : bson_kv) : bson_kv :=
  {| kv_type := BSON_BINARY; kv_subtype := kv_subtype v; kv_size := s32 n;
     kv_key := DMem (cstr key); kv_data := DMem d |}.

(** The three numbers of [start:<start>:end:<end>:file:<file>]; [Some None]
    when a token is missing. *)
Definition scan_token (pointer : list Z) (k : nat) : option (option Z) :=
  match tokens pointer !! k with
  | None => Some None
  | Some t => z ← scan_into t indeterminate; Some (Some z)
  end.

Definition data_pointer (pointer : list Z) : option (option (Z * Z * Z)) :=
  start ← scan_token pointer 1;
  match start with
  | None => Some None
  | Some start =>
      end_ ← scan_token pointer 3;
      match end_ with
      | None => Some None
      | Some end_ =>
          file ← scan_token pointer 5;
          Some (match file with None => None | Some file => Some (start, end_, file) end)
      end
  end.

(** [write] is the memory from the pointer on. *)
Definition __emit_file_bytes (write : list Z) (s : kv_store) (vmname : list Z)
    (write_counter : Z) (pointer : list Z) (write_len sector : Z) :
    option (kv_store * Z) :=
  p ← data_pointer pointer;
  match p with
  | None => Some (s, EXIT_FAILURE)
  | Some (start, end_, file) =>
      '(s, d, rc) ← redis_hash_field_get s REDIS_FILE_SECTOR_GET file (str_bytes "path") PATH_MAX;
      if negb (rc =? EXIT_SUCCESS) then Some (s, EXIT_FAILURE) else
      path ← path_string d;
      '(s, d, rc) ← redis_hash_field_get s REDIS_FILE_SECTOR_GET file (str_bytes "size") 8;
      if negb (rc =? EXIT_SUCCESS) then Some (s, EXIT_FAILURE) else
      let fsize := overlay 8 indeterminate d in
      channel_name ← construct_channel_name vmname path;
      b ← bson_init;
      '(b, v) ← serialize_fields b kv_indet
        [fill_str "type" 4 (cstr "data");
         fill_mem BSON_INT64 "transaction" (le_enc 8 write_counter);
         fill_mem BSON_INT64 "start" (le_enc 8 start)];
      let rest := u64 (fsize - start) in
      let last := rest <=? write_len in
      let write_len := if last then rest else write_len in
      '(s, _) ← (if last then
                   d ← mem_read write 0 write_len; redis_enqueue_pipelined s sector d
                 else Some (s, EXIT_SUCCESS));
      '(s, _) ← (if end_ <? fsize then redis_delqueue_pipelined s sector
                 else Some (s, EXIT_SUCCESS));
      '(b, _) ← serialize_fields b v
        [fill_mem BSON_INT64 "end" (le_enc 8 end_); fill_binary "write" write write_len];
      '(b, _) ← bson_finalize b;
      publish_document s channel_name b (-1)
  end.
End emit.
