(* ===== verification/InspectLoadProps.v ===== *)
(** * Properties of the loader: what a document does to the store

    The elements of a document as the loader's loops see them, the commands
    each of them is turned into, and the documents of files the crawler wrote. *)
From S2P Require Import Prelude Words Memory Stdio Bson BsonEncode BsonDecode BsonFields Scan RedisEnv Redis RedisProps StoreView InspectLoad.

#[local] Open Scope string_scope.
#[local] Open Scope list_scope.
#[local] Open Scope Z_scope.

(** ** An element as [bson_deserialize] leaves it

    [elem_block] is what [value1.data] and [value1.size] delimit, for the types
    the crawler writes. *)
Definition elem_block (x : bval) : list Z :=
  match x with
  | VString s | VBinary _ s => s
  | VInt32 i | VInt64 i => i
  | VBoolean b => [if b then 1 else 0]
  | _ => []
  end.

Definition plain (x : bval) : Prop :=
  match x with
  | VString _ | VBinary _ _ | VInt32 _ | VInt64 _ | VBoolean _ | VArray _ => True
  | _ => False
  end.

Record field_at (m : list Z) (v v2 : bson_kv) (e : elem) : Prop := {
  fa_key : kv_cstr m (kv_key v) = Some (e_key e);
  fa_size : kv_size v = zlen (elem_block (e_val e));
  fa_data : kv_size v ≠ 0 →
            kv_read m (kv_data v) (kv_size v) = Some (elem_block (e_val e));
  fa_array : ∀ d, e_val e = VArray d →
             kv_size v2 = zlen d ∧ kv_read m (kv_data v2) (zlen d) = Some d;
}.

Section fields.
Context (m : list Z).

(** The members behind the case of a type, from the equations in the context. *)
Ltac member :=
  do 3 eexists; split; [reflexivity|]; split; [eassumption|];
  split; cbn [kv_key kv_size kv_data set_kv_size set_kv_data set_kv_subtype elem_block e_val
              e_key fst snd];
  [assumption| | |intros ? [=]]; try (intros _); try assumption; try (simpl in *; lia).

Lemma deserialize_field b v v2 pre e rest :
  dec_rep m b pre (enc_elem e ++ rest) → elem_ok e → plain (e_val e) →
  ∃ b' v' v2', bson_deserialize b v v2 = Some (b', v', v2', 1) ∧
    dec_rep m b' (pre ++ enc_elem e) rest ∧ field_at m v' v2' e.
Proof.
  intros Hr [Hk Hx] Hp. unfold enc_elem in *. destruct e as [k x]. simpl in Hr, Hk, Hx, Hp.
  rewrite <-app_assoc in Hr. simpl in Hr.
  destruct (bson_deserialize_head m b v v2 _ _ _ _ Hr Hk)
    as (b1 & v1 & E & Hr1 & Ht & Hz & Hkey).
  rewrite E. cbn [e_key e_val].
  replace (pre ++ btype x :: k ++ 0 :: enc_val x) with ((pre ++ btype x :: k ++ [0]) ++ enc_val x)
    by (rewrite <-app_assoc; simpl; by rewrite <-app_assoc).
  unfold deserialize_value. destruct x; simpl in Hp; try done; cbv [btype]; dispatch;
    cbn [btype] in *.
  - destruct (deserialize_string_rep m _ v1 _ _ _ Hr1 Hx) as (b' & o & rc & E2 & ? & ?).
    rewrite (bind_Some_eq _ _ _ E2). member.
  - destruct (deserialize_document_rep m _ v2 _ _ _ Hr1 Hx) as (b' & E2 & ?).
    pose proof (kv_read_rep m _ _ _ _ _ Hr1 eq_refl) as Hd.
    rewrite (bind_Some_eq _ _ _ E2). do 3 eexists. split; [reflexivity|]. split; [eassumption|].
    split; cbn [e_key e_val elem_block]; [done|done| |].
    + intros Hne. by rewrite Hz in Hne.
    + intros d' [= <-]. by split.
  - destruct (deserialize_binary_rep m _ v1 _ _ _ _ Hr1 Hx) as (b' & o & E2 & ? & ?).
    rewrite (bind_Some_eq _ _ _ E2). member.
  - destruct (deserialize_fixed_rep m b1 v1 _ [if b0 then 1 else 0] rest 1 Hr1 eq_refl)
      as (? & ? & E2 & ? & ?). rewrite E2. member.
  - destruct (deserialize_fixed_rep m b1 v1 _ i rest 4 Hr1 (eq_sym Hx)) as (? & ? & E2 & ? & ?).
    rewrite E2. member.
  - destruct (deserialize_fixed_rep m b1 v1 _ i rest 8 Hr1 (eq_sym Hx)) as (? & ? & E2 & ? & ?).
    rewrite E2. member.
Qed.

Context (b : bson_info) (Hb : bi_buffer b = PLive m) (Hm : zlen m < 2 ^ 63).
Context (v v2 : bson_kv) (e : elem) (Hf : field_at m v v2 e).

Lemma field_key : kv_key_str b v = Some (e_key e).
Proof. unfold kv_key_str. rewrite Hb. simpl. apply Hf. Qed.

Lemma field_key_is key : kv_key_is b v key = Some (streq (e_key e) (str_bytes key)).
Proof. unfold kv_key_is. rewrite Hb. simpl. by rewrite (fa_key _ _ _ _ Hf). Qed.

Lemma kv_read_bound p n d : kv_read m p n = Some d → zlen d = n ∧ n ≤ zlen m.
Proof.
  unfold kv_read. destruct (off_of p) as [o|]; simpl; [|done]. intros E.
  split; [by eapply mem_read_length|]. revert E. unfold mem_read. case_test; [lia|done].
Qed.

Lemma field_block : kv_block b v = Some (elem_block (e_val e)).
Proof.
  unfold kv_block. pose proof (fa_size _ _ _ _ Hf) as Hs. case_test.
  - rewrite Hs in *. destruct (elem_block (e_val e)); [done|simpl in *; lia].
  - rewrite Hb. simpl. pose proof (fa_data _ _ _ _ Hf ltac:(done)) as Hd.
    apply kv_read_bound in Hd as Hl. by rewrite uwrap_small by lia.
Qed.

Lemma kv_read_prefix p d n (k : nat) :
  kv_read m p n = Some d → (k ≤ length d)%nat → kv_read m p (Z.of_nat k) = Some (take k d).
Proof.
  unfold kv_read. destruct (off_of p) as [o|]; simpl; [|done]. intros E Hk.
  apply mem_read_length in E as El. revert E. unfold mem_read.
  case_test; intros; simplify_eq. case_test.
  rewrite <-E, take_take. do 2 f_equal. lia.
Qed.

(** Integers: 32 bits read from an [int32] or from the low half of an [int64]. *)
Lemma field_u32 i k :
  elem_block (e_val e) = le_enc k i → (4 ≤ k)%nat → kv_u32 b v = Some (u32 i).
Proof.
  intros Ei Hk. unfold kv_u32, kv_le. rewrite Hb. simpl.
  pose proof (fa_size _ _ _ _ Hf) as Hs. pose proof (fa_data _ _ _ _ Hf) as Hd.
  rewrite Ei, length_le_enc in Hs. rewrite Ei in Hd.
  rewrite (kv_read_prefix (kv_data v) _ _ 4 (Hd ltac:(lia))) by (rewrite length_le_enc; lia).
  simpl. replace k with (4 + (k - 4))%nat by lia. rewrite le_enc_app, take_app_exact by len.
  by rewrite le_dec_enc_u with (w := 32).
Qed.
End fields.

(** ** Loops over documents

    [K a e cs a']: an element [e] met with the loop's other variables at [a]
    issues the commands [cs]. *)
Inductive runs {A} (K : A → elem → list command → A → Prop) :
    A → list elem → list command → A → Prop :=
  | runs_nil a : runs K a [] [] a
  | runs_cons a e cs a1 es cs' a' :
      elem_ok e → plain (e_val e) → K a e cs a1 → runs K a1 es cs' a' →
      runs K a (e :: es) (cs ++ cs') a'.

Section loops.
Context `{Malloc} `{Connected}.
Context {T A : Type} (st : T → kv_store) (gh : T → A).
Context (K : A → elem → list command → A → Prop).

Definition body_ok (body : bson_info → bson_kv → bson_kv → T →
    option (bson_kv * bson_kv * T * Z)) : Prop :=
  ∀ m b v v2 e t cs a',
    bi_buffer b = PLive m → zlen m < 2 ^ 63 → field_at m v v2 e → ready (st t) →
    K (gh t) e cs a' →
    ∃ v' v2' t', body b v v2 t = Some (v', v2', t', EXIT_SUCCESS) ∧
      issued (st t) cs (st t') ∧ gh t' = a'.

Lemma while_elements_ok again body m es :
  again 1 = true → again 0 = false → body_ok body →
  ∀ fuel b v v2 t pre cs a',
  (length es < fuel)%nat → dec_rep m b pre (enc_elems es ++ [0]) → ready (st t) →
  runs K (gh t) es cs a' →
  ∃ b' v' v2' t', while_elements again body fuel b v v2 t
      = Some (b', v', v2', t', EXIT_SUCCESS) ∧
    bi_buffer b' = PLive m ∧ reusable b' ∧ issued (st t) cs (st t') ∧ gh t' = a'.
Proof.
  intros Hgo Hend Hbody. induction es as [|e es IH]; intros fuel b v v2 t pre cs a' Hfuel Hr Hs Hruns;
    inversion Hruns; subst; (destruct fuel as [|fuel]; [simpl in Hfuel; lia|]);
    cbn [while_elements].
  { destruct (bson_deserialize_end m b v v2 pre Hr) as (b' & E & Hr'). rewrite E.
    cbn [mbind option_bind]. rewrite Hend. exists b', v, v2, t.
    split; [done|]. split; [apply Hr'|]. split; [by eapply dec_rep_reusable|].
    split; [|done]. by apply issued_refl. }
  rewrite enc_elems_cons, <-app_assoc in Hr.
  destruct (deserialize_field m b v v2 pre e _ Hr) as (b1 & v1 & v21 & E & Hr1 & Hf); [done..|].
  rewrite E. cbn [mbind option_bind]. rewrite Hgo.
  match goal with Hk : K _ e _ _ |- _ =>
    destruct (Hbody m b1 v1 v21 e t _ _ (dr_buffer _ _ _ _ Hr1) (dr_bound _ _ _ _ Hr1) Hf Hs Hk)
      as (v' & v2' & t1 & E1 & Hi & Hg) end.
  rewrite E1. cbn [mbind option_bind]. rewrite Z.eqb_refl.
  match goal with Hk : runs K _ es _ _ |- _ => rewrite <-Hg in Hk;
    destruct (IH fuel b1 v' v2' t1 _ _ _ ltac:(simpl in Hfuel; lia) Hr1 ltac:(by apply Hi) Hk)
      as (b' & v3 & v4 & t' & E' & Hb' & Hu & Hi' & Hg') end.
  exists b', v3, v4, t'. split; [done|]. split; [done|]. split; [done|]. split; [|done].
  by eapply issued_trans.
Qed.
End loops.

(** ** Arrays inside a document *)

Lemma enc_elems_length es : (length es ≤ length (enc_elems es))%nat.
Proof. induction es as [|e es IH]; [done|]. rewrite enc_elems_cons. len. Qed.

Lemma enc_doc_self_sized es : zlen (enc_doc es) < 2 ^ 31 → self_sized (enc_doc es).
Proof.
  intros Hl. exists (enc_elems es ++ [0]). split; [|done]. unfold enc_doc at 1. do 2 f_equal.
  rewrite length_enc_doc. done.
Qed.

Section arrays.
Context `{MallocTotal} `{Connected}.

Lemma open_array_ok m b v v2 e es :
  bi_buffer b = PLive m → field_at m v v2 e → e_val e = VArray (enc_doc es) →
  zlen (enc_doc es) < 2 ^ 31 →
  ∃ b2 m2 pre, open_array b v2 = Some (Some b2) ∧ dec_rep m2 b2 pre (enc_elems es ++ [0]).
Proof.
  intros Hb Hf He Hl. destruct (fa_array _ _ _ _ Hf _ He) as [Hs Hd].
  unfold open_array. rewrite Hs, uwrap_small by lia.
  destruct bson_init_rep as (b0 & -> & (rest & Hb0 & _ & Hsz & _)). cbn [mbind option_bind].
  apply doubled_bounds in Hsz. rewrite Hb0. cbn [cfree mbind option_bind].
  destruct (cmalloc_live (zlen (enc_doc es))) as (blk & -> & Hblk); [lia|].
  rewrite Hb. cbn [deref mbind option_bind]. rewrite Hd. cbn [mbind option_bind].
  pose proof (mem_write_app [] blk (enc_doc es) [] 0 eq_refl ltac:(lia)) as W.
  simpl in W. rewrite !app_nil_r in W. rewrite W. cbn [mbind option_bind].
  unfold bson_make_readable. cbn [set_buffer bi_buffer bi_size is_null orb].
  rewrite (proj2 (Z.ltb_ge _ _)) by lia. cbn [deref mbind option_bind].
  pose proof (length_enc_doc es) as El.
  pose proof (mem_le_app 4 [] (zlen (enc_elems es) + 5) (enc_elems es ++ [0]) 0 eq_refl) as W2.
  simpl app in W2. fold (enc_doc es) in W2. rewrite W2. cbn [mbind option_bind].
  rewrite (Z.mod_small (_ + 5)), swrap_small, uwrap_small by lia.
  exists (set_position 4 (set_size (zlen (enc_elems es) + 5 - 4)
    (set_buffer (PLive (enc_doc es)) b0))), (enc_doc es), (le_enc 4 (zlen (enc_elems es) + 5)).
  split; [done|]. split; simpl; [done| |done|len|lia].
  exists []. by rewrite app_nil_r.
Qed.

Context {T A : Type} (st : T → kv_store) (gh : T → A).
Context (K : A → elem → list command → A → Prop).

Definition array_body_ok (body : bson_info → bson_kv → T → option (T * Z)) : Prop :=
  ∀ m b v v2 e t cs a',
    bi_buffer b = PLive m → zlen m < 2 ^ 63 → field_at m v v2 e → ready (st t) →
    K (gh t) e cs a' →
    ∃ t', body b v t = Some (t', EXIT_SUCCESS) ∧ issued (st t) cs (st t') ∧ gh t' = a'.

Lemma over_array_ok body m b v v2 e es fuel t cs a' :
  array_body_ok body →
  bi_buffer b = PLive m → field_at m v v2 e → e_val e = VArray (enc_doc es) →
  zlen (enc_doc es) < 2 ^ 31 → (length es < fuel)%nat → ready (st t) →
  runs K (gh t) es cs a' →
  ∃ v' v2' t', over_array body fuel b v v2 t = Some (v', v2', t', EXIT_SUCCESS) ∧
    issued (st t) cs (st t') ∧ gh t' = a'.
Proof.
  intros Hbody Hb Hf He Hl Hfuel Hs Hruns.
  destruct (open_array_ok m b v v2 e es Hb Hf He Hl) as (b2 & m2 & pre & E & Hr).
  unfold over_array. rewrite E. cbn [mbind option_bind].
  edestruct (while_elements_ok st gh K is_one
    (λ b v v2 t, '(t, rc) ← body b v t; Some (v, v2, t, rc)) m2 es) as
    (b' & v' & v2' & t' & E' & Hb' & _ & Hi & Hg); [done|done| |exact Hfuel|exact Hr|exact Hs|
    exact Hruns|].
  { intros m' b' v' v2' e' t' cs' a2 Hb' Hm' Hf' Hs' Hk'.
    destruct (Hbody m' b' v' v2' e' t' cs' a2 Hb' Hm' Hf' Hs' Hk') as (t2 & E2 & Hi & Hg).
    rewrite E2. cbn [mbind option_bind]. by do 3 eexists. }
  rewrite E'. cbn [mbind option_bind]. unfold bson_cleanup. rewrite Hb'.
  cbn [cfree mbind option_bind]. by do 3 eexists.
Qed.
End arrays.

(** ** Documents of files: the commands of every field *)

Definition int_elem (key : string) (n : Z) (e : elem) : Prop :=
  e_key e = str_bytes key ∧ ∃ k i, (4 ≤ k)%nat ∧ elem_block (e_val e) = le_enc k i ∧ n = u32 i.

(** The elements of [sectors]: [counter] goes on by a block for each. *)
Inductive sector_cmds (id bs : Z) : Z → elem → list command → Z → Prop :=
  | sector_cmds_intro counter e i :
      e_val e = VInt32 (le_enc 4 i) →
      sector_cmds id bs counter e
        [cmd REDIS_FILE_SECTORS_INSERT [AInt id; AInt (s32 i)];
         cmd REDIS_DATA_INSERT [AInt (u64 (s32 i)); AInt counter; AInt (u64 (counter + bs));
                                AInt id]]
        (u64 (counter + bs)).

(** The elements of [files] and [extents] have the sector as their key. *)
Inductive dir_cmds (id : Z) : unit → elem → list command → unit → Prop :=
  | dir_cmds_intro e n :
      0 ≤ n < 2 ^ 64 → e_key e = decimal n →
      dir_cmds id tt e
        [cmd REDIS_DIR_SECTOR_INSERT [AInt n; AStr (str_bytes "file"); ABin (le_enc 8 id)];
         cmd REDIS_DIR_FILES_INSERT [AInt n; ABin (elem_block (e_val e))];
         cmd REDIS_DIR_INSERT [AInt n; AInt n]] tt.

Inductive extent_cmds (id : Z) : unit → elem → list command → unit → Prop :=
  | extent_cmds_intro e n :
      0 ≤ n < 2 ^ 64 → e_key e = decimal n →
      extent_cmds id tt e
        [cmd REDIS_EXTENT_SECTOR_INSERT [AInt n; AStr (str_bytes "file"); ABin (le_enc 8 id)];
         cmd REDIS_EXTENTS_INSERT [AInt id; AInt n];
         cmd REDIS_EXTENTS_SECTOR_INSERT [AInt n; AInt n]] tt.

Definition file_keys : list (list Z) :=
  str_bytes <$> ["inode_sector"; "inode_num"; "files"; "sectors"; "extents"; "path"].

Definition hset (fmt : string) (id : Z) (e : elem) : command :=
  cmd fmt [AInt id; AStr (e_key e); ABin (elem_block (e_val e))].

(** [bound] limits the elements of an array. *)
Inductive file_cmds (id bs : Z) (bound : nat) : unit → elem → list command → unit → Prop :=
  | fc_inode_sector e n :
      int_elem "inode_sector" n e →
      file_cmds id bs bound tt e
        [cmd REDIS_FILES_INSERT [AInt n; AInt id]; cmd REDIS_FILES_SECTOR_INSERT [AInt n; AInt n]]
        tt
  | fc_inode_num e n :
      int_elem "inode_num" n e →
      file_cmds id bs bound tt e
        [cmd REDIS_INODE_INSERT [AInt n; AInt id]; hset REDIS_FILE_SECTOR_INSERT id e] tt
  | fc_files es cs :
      zlen (enc_doc es) < 2 ^ 31 → (length es ≤ bound)%nat → runs (dir_cmds id) tt es cs tt →
      file_cmds id bs bound tt (e_arr "files" (enc_doc es)) cs tt
  | fc_sectors es cs c :
      zlen (enc_doc es) < 2 ^ 31 → (length es ≤ bound)%nat →
      runs (sector_cmds id bs) 0 es cs c →
      file_cmds id bs bound tt (e_arr "sectors" (enc_doc es)) cs tt
  | fc_extents es cs :
      zlen (enc_doc es) < 2 ^ 31 → (length es ≤ bound)%nat → runs (extent_cmds id) tt es cs tt →
      file_cmds id bs bound tt (e_arr "extents" (enc_doc es)) cs tt
  | fc_path path :
      file_cmds id bs bound tt (e_str "path" path)
        [hset REDIS_FILE_SECTOR_INSERT id (e_str "path" path);
         cmd REDIS_PATH_SET [ABin path; AInt id]] tt
  | fc_field e :
      e_key e ∉ file_keys →
      file_cmds id bs bound tt e [hset REDIS_FILE_SECTOR_INSERT id e] tt.

(** The comparisons of a key that is known. *)
Ltac key_tests :=
  repeat match goal with
  | |- context [streq (str_bytes ?a) (str_bytes ?b)] =>
      let r := eval vm_compute in (streq (str_bytes a) (str_bytes b)) in
      change (streq (str_bytes a) (str_bytes b)) with r
  end; cbv iota.

Lemma streq_other (k : list Z) key (keys : list string) :
  k ∉ str_bytes <$> keys → key ∈ keys → streq k (str_bytes key) = false.
Proof.
  intros Hk Hin. apply bool_decide_eq_false. intros ->. apply Hk.
  by apply list_elem_of_fmap_2.
Qed.

Section file.
Context `{MallocTotal} `{Connected}.
Context (id : Z) (bound : nat).

Lemma sectors_element_ok bs :
  array_body_ok (λ t, t.1.1) snd (sector_cmds id bs) (sectors_element id bs).
Proof.
  intros m b v v2 e [[s sector] counter] cs a' Hb Hm Hf Hs Hk. simpl in Hs, Hk.
  inversion Hk as [c e' i Ei]; subst. unfold sectors_element, kv_s32.
  rewrite (field_u32 m b Hb v v2 e Hf i 4) by (rewrite ?Ei; done || lia).
  cbn [mbind option_bind]. rewrite swrap_of_uwrap by done.
  pipelined as s1 Hi1. pipelined as s2 Hi2.
  eexists. split; [done|]. split; [|done]. simpl. issued.
Qed.

Lemma scan_key_ok m b v v2 e n sector :
  bi_buffer b = PLive m → field_at m v v2 e → e_key e = decimal n → 0 ≤ n < 2 ^ 64 →
  scan_key b v sector = Some n.
Proof.
  intros Hb Hf He Hn. unfold scan_key. rewrite (field_key m b Hb v v2 e Hf).
  cbn [mbind option_bind]. rewrite He. by apply scan_into_decimal.
Qed.

Lemma dir_element_ok : array_body_ok fst (λ _, tt) (dir_cmds id) (dir_element id).
Proof.
  intros m b v v2 e [s sector] cs a' Hb Hm Hf Hs Hk. simpl in Hs, Hk.
  inversion Hk as [e' n Hn Ee]; subst. unfold dir_element.
  rewrite (scan_key_ok m b v v2 e n sector) by done. cbn [mbind option_bind].
  rewrite (field_block m b Hb Hm v v2 e Hf). unfold andalso.
  pipelined as s1 Hi1. pipelined as s2 Hi2. pipelined as s3 Hi3.
  eexists. split; [done|]. split; [|done]. simpl. issued.
Qed.

Lemma extents_element_ok : array_body_ok fst (λ _, tt) (extent_cmds id) (extents_element id).
Proof.
  intros m b v v2 e [s sector] cs a' Hb Hm Hf Hs Hk. simpl in Hs, Hk.
  inversion Hk as [e' n Hn Ee]; subst. unfold extents_element.
  rewrite (scan_key_ok m b v v2 e n sector) by done. cbn [mbind option_bind]. unfold andalso.
  pipelined as s1 Hi1. pipelined as s2 Hi2. pipelined as s3 Hi3.
  eexists. split; [done|]. split; [|done]. simpl. issued.
Qed.

Lemma set_field_ok m b v v2 e fmt s :
  bi_buffer b = PLive m → zlen m < 2 ^ 63 → field_at m v v2 e → ready s →
  ∃ s', set_field fmt b v id s = Some (s', EXIT_SUCCESS) ∧ issued s [hset fmt id e] s'.
Proof.
  intros Hb Hm Hf Hs. unfold set_field.
  rewrite (field_key m b Hb v v2 e Hf), (field_block m b Hb Hm v v2 e Hf).
  cbn [mbind option_bind]. pipelined as s1 Hi1. by exists s1.
Qed.

Lemma file_element_ok sup fuel :
  (bound < fuel)%nat →
  body_ok fst (λ _, tt) (file_cmds id (block_size sup) bound) (file_element fuel sup id).
Proof.
  intros Hfuel m b v v2 e [s sector] cs a' Hb Hm Hf Hs Hk. simpl in Hs, Hk.
  unfold file_element. rewrite (field_key m b Hb v v2 e Hf). cbn [mbind option_bind].
  destruct Hk as [e n (Ek & k & i & Hik & Ei & ->)|e n (Ek & k & i & Hik & Ei & ->)
    |es cs Hl Hes Hr|es cs c Hl Hes Hr|es cs Hl Hes Hr|path|e Ek].
  - rewrite Ek. key_tests. rewrite (field_u32 m b Hb v v2 e Hf i k) by done.
    cbn [mbind option_bind]. unfold andalso. pipelined as s1 Hi1. pipelined as s2 Hi2.
    do 3 eexists. split; [done|]. split; [|done]. simpl. issued.
  - rewrite Ek. key_tests. rewrite (field_u32 m b Hb v v2 e Hf i k) by done.
    cbn [mbind option_bind]. unfold andalso. pipelined as s1 Hi1. cbn [Z.eqb EXIT_SUCCESS].
    destruct (set_field_ok m b v v2 e REDIS_FILE_SECTOR_INSERT s1) as (s2 & E2 & Hi2);
      [eauto with store..|].
    rewrite E2. do 3 eexists. split; [done|]. split; [|done]. simpl. issued.
  - cbn [e_key e_arr]. key_tests.
    refine (over_array_ok fst (λ _, tt) (dir_cmds id) _ m b v v2 _ es fuel (s, sector) cs tt
      dir_element_ok Hb Hf eq_refl Hl _ Hs Hr). lia.
  - cbn [e_key e_arr]. key_tests.
    destruct (over_array_ok (T := file_loop * Z) (λ t, t.1.1) snd (sector_cmds id (block_size sup)) _ m b v v2 _ es
      fuel (s, sector, 0) cs c (sectors_element_ok (block_size sup)) Hb Hf eq_refl Hl)
      as (v' & v2' & [[s' sector'] c'] & E & Hi & _); [lia|done|done|].
    unfold file_loop in *. rewrite E. cbn [mbind option_bind]. do 3 eexists.
    split; [done|]. by split.
  - cbn [e_key e_arr]. key_tests.
    refine (over_array_ok fst (λ _, tt) (extent_cmds id) _ m b v v2 _ es fuel (s, sector) cs tt
      extents_element_ok Hb Hf eq_refl Hl _ Hs Hr). lia.
  - cbn [e_key e_str]. key_tests. unfold andalso.
    destruct (set_field_ok m b v v2 _ REDIS_FILE_SECTOR_INSERT s Hb Hm Hf Hs) as (s1 & E1 & Hi1).
    rewrite E1. cbn [mbind option_bind Z.eqb EXIT_SUCCESS].
    rewrite (field_block m b Hb Hm v v2 _ Hf). cbn [mbind option_bind].
    pipelined as s2 Hi2. do 3 eexists. split; [done|]. split; [|done]. simpl. issued.
  - rewrite !(streq_other (e_key e) _ _ Ek) by (apply (bool_decide_unpack _); by vm_compute).
    destruct (set_field_ok m b v v2 e REDIS_FILE_SECTOR_INSERT s Hb Hm Hf Hs) as (s1 & E1 & Hi1).
    rewrite E1. do 3 eexists. split; [done|]. by split.
Qed.

(** The commands of a whole document of a file. *)
Lemma deserialize_file_ok sup fuel b s m es pre cs :
  (bound < fuel)%nat → (length es < fuel)%nat →
  dec_rep m b pre (enc_elems es ++ [0]) → ready s →
  runs (file_cmds id (block_size sup) bound) tt es cs tt →
  ∃ b' s', __deserialize_file fuel sup b s id = Some (b', s', EXIT_SUCCESS) ∧
    reusable b' ∧ issued s cs s'.
Proof.
  intros Hfuel Hes Hr Hs Hruns. unfold __deserialize_file.
  destruct (while_elements_ok (T := file_loop) fst (λ _, tt) _ nonzero (file_element fuel sup id) m es
    eq_refl eq_refl (file_element_ok sup fuel Hfuel) fuel b kv_indet kv_indet (s, 0) pre cs tt)
    as (b' & v' & v2' & [s' sector'] & E & _ & Hu & Hi & _); [done..|].
  unfold file_loop in *. rewrite E. cbn [mbind option_bind]. by do 2 eexists.
Qed.
End file.
