(* ===== verification/InspectIndex.v ===== *)
(** * Properties of the loader: the whole stream

    [doc_cmds] says for every kind of document which commands it is turned into
    and how the loader's counters move; [qemu_load_index] issues the commands
    of the stream's documents in order and then the number of files. *)
From S2P Require Import Prelude Words Memory Stdio Bson BsonEncode BsonDecode BsonFields Scan RedisEnv Redis RedisProps StoreView InspectLoad InspectLoadProps.

#[local] Open Scope string_scope.
#[local] Open Scope list_scope.
#[local] Open Scope Z_scope.

(** ** The commands of the other documents *)

(** A document whose field [key] is a sector that gets a pointer, and whose other
    fields go into a hash. *)
Inductive pointer_cmds (key : string) (pointer : Z → elem → list command) (fmt : string)
    (id : Z) : unit → elem → list command → unit → Prop :=
  | pc_pointer e n :
      int_elem key n e → pointer_cmds key pointer fmt id tt e (pointer n e) tt
  | pc_field e :
      e_key e ≠ str_bytes key → pointer_cmds key pointer fmt id tt e [hset fmt id e] tt.

Definition mbr_cmds (id : Z) : unit → elem → list command → unit → Prop :=
  pointer_cmds "sector" (λ n _, [cmd REDIS_MBR_INSERT [AInt n; AInt id]])
    REDIS_MBR_SECTOR_INSERT id.

Definition partition_cmds (id : Z) : unit → elem → list command → unit → Prop :=
  pointer_cmds "superblock_sector" (λ n _, [cmd REDIS_SUPERBLOCK_INSERT [AInt n; AInt id]])
    REDIS_SUPERBLOCK_SECTOR_INSERT id.

Definition bgd_cmds (id : Z) : unit → elem → list command → unit → Prop :=
  pointer_cmds "sector" (λ n _, [cmd REDIS_BGDS_INSERT [AInt n; AInt id];
                                 cmd REDIS_BGDS_SECTOR_INSERT [AInt n; AInt n]])
    REDIS_BGD_SECTOR_INSERT id.

Inductive fs_cmds (id : Z) : unit → elem → list command → unit → Prop :=
  | fs_sector e i :
      e_key e = str_bytes "superblock_sector" → elem_block (e_val e) = le_enc 8 i →
      fs_cmds id tt e [cmd REDIS_SUPERBLOCK_INSERT [AInt (u64 i); AInt id];
                       hset REDIS_SUPERBLOCK_SECTOR_INSERT id e] tt
  | fs_field e :
      e_key e ≠ str_bytes "superblock_sector" →
      fs_cmds id tt e [hset REDIS_SUPERBLOCK_SECTOR_INSERT id e] tt.

Inductive filter_cmds : unit → elem → list command → unit → Prop :=
  | filter_bits e :
      e_key e = str_bytes "bitarray" →
      filter_cmds tt e [cmd REDIS_MD_FILTER_SET [ABin (elem_block (e_val e))]] tt.

(** What [qemu_get_superinfo] reads, one field after the other. *)
Definition super_fields : list string :=
  ["superblock_sector"; "superblock_offset"; "block_size"; "blocks_per_group";
   "inodes_per_group"; "inode_size"].

Definition super_cmd (fs : Z) (field : string) : command :=
  cmd REDIS_SUPERBLOCK_SECTOR_GET [AInt fs; AStr (str_bytes field)].

Definition super_cmds (fs : Z) : list command := super_cmd fs <$> super_fields.

Section documents.
Context `{Malloc} `{RedisServer}.

(** The value of the [k]-th field, after the [k] commands before it. *)
Definition super_value (d : db) (fs : Z) (k : nat) : Z :=
  let cs := super_cmds fs in
  match cs !! k with
  | Some c => overlay 8 indeterminate (reply_bytes 8 (exec (exec_all d (take k cs)) c).2)
  | None => 0
  end.

Definition super_of (d : db) (fs : Z) : super_info :=
  {| superblock_sector := super_value d fs 0; superblock_offset := super_value d fs 1;
     block_size := super_value d fs 2; blocks_per_group := super_value d fs 3;
     inodes_per_group := super_value d fs 4; inode_size := super_value d fs 5 |}.

Definition doc_type (s : string) : elem := e_str "type" (str_bytes s).

(** [doc_cmds bound d σ es cs σ']: with the server's data at [d] and the statics
    at [σ], the document [es] is turned into [cs] and leaves [σ']; [bound] is
    the largest number of elements of a document or an array. *)
Inductive doc_cmds (bound : nat) (d : db) : load_state → list elem → list command →
    load_state → Prop :=
  | dc_file fs bgds files sup es cs :
      (length es ≤ bound)%nat → runs (file_cmds files (block_size sup) bound) tt es cs tt →
      doc_cmds bound d (set_counters fs bgds files sup) (doc_type "file" :: es) cs
        (set_counters fs bgds (u64 (files + 1)) sup)
  | dc_bgd fs bgds files sup es cs :
      (length es ≤ bound)%nat → runs (bgd_cmds bgds) tt es cs tt →
      doc_cmds bound d (set_counters fs bgds files sup) (doc_type "bgd" :: es) cs
        (set_counters fs (u64 (bgds + 1)) files sup)
  | dc_fs fs bgds files sup num n es cs :
      (length es ≤ bound)%nat → int_elem "pte_num" n num → elem_ok num → plain (e_val num) →
      runs (fs_cmds n) tt es cs tt →
      doc_cmds bound d (set_counters fs bgds files sup) (doc_type "fs" :: num :: es)
        (cs ++ super_cmds n)
        (set_counters n bgds files (super_of (exec_all d cs) n))
  | dc_partition fs bgds files sup num n es cs :
      (length es ≤ bound)%nat → int_elem "pte_num" n num → elem_ok num → plain (e_val num) →
      runs (partition_cmds n) tt es cs tt →
      doc_cmds bound d (set_counters fs bgds files sup) (doc_type "partition" :: num :: es) cs
        (set_counters n bgds files sup)
  | dc_mbr σ es cs :
      (length es ≤ bound)%nat → runs (mbr_cmds 0) tt es cs tt →
      doc_cmds bound d σ (doc_type "mbr" :: es) cs σ
  | dc_filter σ es cs :
      (length es ≤ bound)%nat → runs filter_cmds tt es cs tt →
      doc_cmds bound d σ (doc_type "metadata_filter" :: es) cs σ.

(** A stream of documents, each loaded behind the ones before it. *)
Inductive stream_cmds (bound : nat) : db → load_state → list (list elem) → list command →
    load_state → Prop :=
  | sc_nil d σ : stream_cmds bound d σ [] [] σ
  | sc_cons d σ es cs σ1 docs cs' σ' :
      doc_cmds bound d σ es cs σ1 → zlen (enc_doc es) < 2 ^ 31 →
      stream_cmds bound (exec_all d cs) σ1 docs cs' σ' →
      stream_cmds bound d σ (es :: docs) (cs ++ cs') σ'.
End documents.

(** ** Lemmas *)

Section load.
Context `{MallocTotal} `{Connected}.

Definition fields_ok (K : unit → elem → list command → unit → Prop)
    (body : bson_info → bson_kv → kv_store → option (kv_store * Z)) : Prop :=
  ∀ m b v v2 e s cs,
    bi_buffer b = PLive m → zlen m < 2 ^ 63 → field_at m v v2 e → ready s → K tt e cs tt →
    ∃ s', body b v s = Some (s', EXIT_SUCCESS) ∧ issued s cs s'.

Lemma while_fields_ok K body fuel b s m es pre cs :
  fields_ok K body → (length es < fuel)%nat → dec_rep m b pre (enc_elems es ++ [0]) →
  ready s → runs K tt es cs tt →
  ∃ b' s', while_fields body fuel b s = Some (b', s', EXIT_SUCCESS) ∧ reusable b' ∧
    issued s cs s'.
Proof.
  intros Hbody Hfuel Hr Hs Hruns. unfold while_fields.
  edestruct (while_elements_ok (λ s : kv_store, s) (λ _, tt) K nonzero
    (λ b v v2 s, '(s, rc) ← body b v s; Some (v, v2, s, rc)) m es eq_refl eq_refl)
    as (b' & v' & v2' & s' & E & _ & Hu & Hi & _); [|exact Hfuel|exact Hr|exact Hs|exact Hruns|].
  { intros m' b' v v2 e s' cs' [] Hb Hm Hf Hs' Hk.
    destruct (Hbody m' b' v v2 e s' cs' Hb Hm Hf Hs' Hk) as (s2 & E & Hi).
    rewrite E. cbn [mbind option_bind]. by do 3 eexists. }
  rewrite E. cbn [mbind option_bind]. by do 2 eexists.
Qed.

(** The element is the pointer field, or it goes into the hash. *)
Ltac pointer_or_field Hk e :=
  destruct Hk as [e n (Ek & k & i & Hik & Ei & ->)|e Ek];
  [ rewrite Ek; unfold streq at 1; rewrite bool_decide_true by done
  | unfold streq at 1; rewrite bool_decide_false by done ].

Lemma mbr_element_ok id : fields_ok (mbr_cmds id) (mbr_element id).
Proof.
  intros m b v v2 e s cs Hb Hm Hf Hs Hk. unfold mbr_element.
  rewrite (field_key_is m b Hb v v2 e Hf). cbn [mbind option_bind].
  pointer_or_field Hk e.
  - rewrite (field_u32 m b Hb v v2 e Hf i k) by done. cbn [mbind option_bind].
    pipelined as s1 Hi1. by eexists.
  - by eapply set_field_ok.
Qed.

Lemma partition_element_ok id : fields_ok (partition_cmds id) (partition_element id).
Proof.
  intros m b v v2 e s cs Hb Hm Hf Hs Hk. unfold partition_element.
  rewrite (field_key_is m b Hb v v2 e Hf). cbn [mbind option_bind].
  pointer_or_field Hk e.
  - rewrite (field_u32 m b Hb v v2 e Hf i k) by done. cbn [mbind option_bind].
    pipelined as s1 Hi1. by eexists.
  - by eapply set_field_ok.
Qed.

Lemma bgd_element_ok id : fields_ok (bgd_cmds id) (bgd_element id).
Proof.
  intros m b v v2 e s cs Hb Hm Hf Hs Hk. unfold bgd_element.
  rewrite (field_key_is m b Hb v v2 e Hf). cbn [mbind option_bind].
  pointer_or_field Hk e.
  - rewrite (field_u32 m b Hb v v2 e Hf i k) by done. cbn [mbind option_bind]. unfold andalso.
    pipelined as s1 Hi1. pipelined as s2 Hi2. eexists. split; [done|]. issued.
  - by eapply set_field_ok.
Qed.

Lemma fs_element_ok id : fields_ok (fs_cmds id) (fs_element id).
Proof.
  intros m b v v2 e s cs Hb Hm Hf Hs Hk. unfold fs_element.
  rewrite (field_key_is m b Hb v v2 e Hf). cbn [mbind option_bind].
  destruct Hk as [e i Ek Ei|e Ek].
  - rewrite Ek. unfold streq at 1. rewrite bool_decide_true by done. rewrite Hb.
    cbn [deref mbind option_bind]. unfold kv_le.
    pose proof (fa_size _ _ _ _ Hf) as Hz. pose proof (fa_data _ _ _ _ Hf) as Hd.
    rewrite Ei, length_le_enc in Hz. rewrite Ei, Hz in Hd. rewrite Hd by done.
    cbn [mbind option_bind]. rewrite le_dec_enc_u with (w := 64) by done. unfold andalso.
    pipelined as s1 Hi1. cbn [Z.eqb EXIT_SUCCESS].
    destruct (set_field_ok id m b v v2 e REDIS_SUPERBLOCK_SECTOR_INSERT s1) as (s2 & E2 & Hi2);
      [eauto with store..|]. rewrite E2. eexists. split; [done|]. issued.
  - unfold streq at 1. rewrite bool_decide_false by done. cbn [andalso succeed mbind option_bind].
    by eapply set_field_ok.
Qed.

Lemma bitarray_element_ok : fields_ok filter_cmds bitarray_element.
Proof.
  intros m b v v2 e s cs Hb Hm Hf Hs Hk. unfold bitarray_element.
  rewrite (field_key_is m b Hb v v2 e Hf). cbn [mbind option_bind].
  destruct Hk as [e Ek]. rewrite Ek. unfold streq at 1. rewrite bool_decide_true by done.
  rewrite (field_block m b Hb Hm v v2 e Hf). cbn [mbind option_bind].
  pipelined as s1 Hi1. by eexists.
Qed.

Lemma get_field_len_ok s fmt id field n old :
  ready s →
  let c := cmd fmt [AInt id; AStr (str_bytes field)] in
  let d := reply_bytes (Z.of_nat n) (exec (applied s) c).2 in
  ∃ s', GET_FIELD_len s fmt id field n old = Some (s', overlay n old d, zlen d) ∧ issued s [c] s'.
Proof.
  intros Hr c d. unfold GET_FIELD_len.
  destruct (hash_get_issued s fmt id (str_bytes field) (Z.of_nat n) Hr) as (s' & E & Hi).
  rewrite E. by exists s'.
Qed.

Lemma get_field_ok s fmt id field n old :
  ready s →
  let c := cmd fmt [AInt id; AStr (str_bytes field)] in
  ∃ s', GET_FIELD s fmt id field n old
        = Some (s', overlay n old (reply_bytes (Z.of_nat n) (exec (applied s) c).2)) ∧
    issued s [c] s'.
Proof.
  intros Hr c. unfold GET_FIELD.
  destruct (get_field_len_ok s fmt id field n old Hr) as (s' & E & Hi).
  rewrite E. by exists s'.
Qed.

Lemma get_superinfo_ok s fs :
  ready s →
  ∃ s', qemu_get_superinfo s fs = Some (s', super_of (applied s) fs, EXIT_SUCCESS) ∧
    issued s (super_cmds fs) s'.
Proof.
  intros Hr. unfold qemu_get_superinfo.
  assert (∀ s1 field k cs, issued s cs s1 → cs = take k (super_cmds fs) →
    super_cmds fs !! k = Some (super_cmd fs field) →
    ∃ s', GET_FIELD s1 REDIS_SUPERBLOCK_SECTOR_GET fs field 8 indeterminate
          = Some (s', super_value (applied s) fs k) ∧
      issued s (take (S k) (super_cmds fs)) s') as Hget.
  { intros s1 field k cs Hi -> Hk.
    destruct (get_field_ok s1 REDIS_SUPERBLOCK_SECTOR_GET fs field 8 indeterminate)
      as (s' & E & Hi'); [eauto with store|].
    exists s'. split.
    - rewrite E. unfold super_value. rewrite Hk. destruct Hi as [_ ->]. done.
    - erewrite take_S_r by exact Hk. by eapply issued_trans. }
  destruct (Hget s "superblock_sector" 0%nat []) as (s1 & -> & Hi1);
    [by apply issued_refl|done|done|]. cbn [mbind option_bind].
  destruct (Hget s1 "superblock_offset" 1%nat _ Hi1) as (s2 & -> & Hi2); [done..|].
  cbn [mbind option_bind].
  destruct (Hget s2 "block_size" 2%nat _ Hi2) as (s3 & -> & Hi3); [done..|].
  cbn [mbind option_bind].
  destruct (Hget s3 "blocks_per_group" 3%nat _ Hi3) as (s4 & -> & Hi4); [done..|].
  cbn [mbind option_bind].
  destruct (Hget s4 "inodes_per_group" 4%nat _ Hi4) as (s5 & -> & Hi5); [done..|].
  cbn [mbind option_bind].
  destruct (Hget s5 "inode_size" 5%nat _ Hi5) as (s6 & -> & Hi6); [done..|].
  cbn [mbind option_bind]. eexists. split; [done|]. exact Hi6.
Qed.

Lemma deserialize_fs_ok fuel b s m es pre cs id old :
  (length es < fuel)%nat → dec_rep m b pre (enc_elems es ++ [0]) → ready s →
  runs (fs_cmds id) tt es cs tt →
  ∃ b' s', __deserialize_fs fuel b s id old
      = Some (b', s', super_of (exec_all (applied s) cs) id, EXIT_SUCCESS) ∧
    reusable b' ∧ issued s (cs ++ super_cmds id) s'.
Proof.
  intros Hfuel Hr Hs Hruns. unfold __deserialize_fs.
  destruct (while_fields_ok _ _ fuel b s m es pre cs (fs_element_ok id) Hfuel Hr Hs Hruns)
    as (b' & s1 & E & Hu & Hi).
  rewrite E. cbn [mbind option_bind negb Z.eqb EXIT_SUCCESS].
  destruct (flush_issued s1) as (s2 & E2 & Hi2 & _); [eauto with store|]. rewrite E2.
  destruct (get_superinfo_ok s2 id) as (s3 & E3 & Hi3); [eauto with store|].
  rewrite E3. cbn [mbind option_bind].
  assert (applied s2 = exec_all (applied s) cs) as ->.
  { destruct Hi2 as [_ E']. rewrite E'. by destruct Hi as [_ ->]. }
  do 2 eexists. split; [done|]. split; [done|]. eapply issued_trans; [exact Hi|].
  exact (issued_trans _ _ _ _ _ Hi2 Hi3).
Qed.

Lemma read_pte_num_ok b v v2 m pre e n rest :
  dec_rep m b pre (enc_elem e ++ rest) → elem_ok e → plain (e_val e) → int_elem "pte_num" n e →
  ∃ b', read_pte_num b v v2 = Some (b', Some n) ∧ dec_rep m b' (pre ++ enc_elem e) rest.
Proof.
  intros Hr He Hp (Ek & k & i & Hik & Ei & ->). unfold read_pte_num.
  destruct (deserialize_field m b v v2 pre e rest Hr He Hp) as (b1 & v1 & v21 & E & Hr1 & Hf).
  rewrite E. cbn [mbind option_bind negb Z.eqb].
  pose proof (dr_buffer _ _ _ _ Hr1) as Hb1.
  rewrite (field_key_is m b1 Hb1 v1 v21 e Hf). cbn [mbind option_bind].
  rewrite Ek. unfold streq. rewrite bool_decide_true by done.
  rewrite (field_u32 m b1 Hb1 v1 v21 e Hf i k) by done. cbn [mbind option_bind]. by eexists.
Qed.

(** The field [type], before the loader looks at it. *)
Lemma load_document_type b m ty rest :
  dec_rep m b [] (enc_elem (doc_type ty) ++ rest) → key_ok ty = true →
  zlen (str_bytes ty) < 2 ^ 31 - 1 →
  ∃ b1 v1, bson_deserialize b kv_indet kv_indet = Some (b1, v1, kv_indet, 1) ∧
    dec_rep m b1 (enc_elem (doc_type ty)) rest ∧
    kv_key_is b1 v1 "type" = Some true ∧ kv_cstr m (kv_data v1) = Some (str_bytes ty).
Proof.
  intros Hr Hk Hl.
  destruct (bson_deserialize_cstr m b kv_indet kv_indet [] (str_bytes "type") (str_bytes ty) rest)
    as (b1 & v1 & E & Hr1 & Hkey & Hd); [exact Hr|by apply key_ok_Forall|done|
    by apply key_ok_Forall|].
  exists b1, v1. split; [exact E|]. split; [exact Hr1|]. split; [|exact Hd].
  unfold kv_key_is. rewrite (dr_buffer _ _ _ _ Hr1). cbn [deref mbind option_bind].
  rewrite Hkey. cbn [mbind option_bind]. unfold streq. by rewrite bool_decide_true.
Qed.

(** Every kind of document. *)
Lemma load_document_ok bound fuel s σ es cs σ' b m :
  (bound < fuel)%nat → dec_rep m b [] (enc_elems es ++ [0]) → ready s →
  doc_cmds bound (applied s) σ es cs σ' →
  ∃ b' s', qemu_load_document fuel s b true σ = Some (b', s', σ', EXIT_SUCCESS) ∧
    reusable b' ∧ issued s cs s'.
Proof.
  intros Hfuel Hr Hs Hdoc. unfold qemu_load_document.
  destruct Hdoc as [fs bgds files sup es cs Hl Hruns|fs bgds files sup es cs Hl Hruns
    |fs bgds files sup num n es cs Hl Hn Hok Hp Hruns
    |fs bgds files sup num n es cs Hl Hn Hok Hp Hruns|[fs bgds files sup] es cs Hl Hruns
    |[fs bgds files sup] es cs Hl Hruns];
    rewrite enc_elems_cons, <-app_assoc in Hr;
    (destruct (load_document_type b m _ _ Hr) as (b1 & v1 & E & Hr1 & Ht & Hd); [done..|]);
    rewrite E; cbn [mbind option_bind negb Z.eqb]; rewrite Ht; cbn [mbind option_bind negb];
    rewrite (dr_buffer _ _ _ _ Hr1); cbn [deref mbind option_bind]; rewrite Hd;
    cbn [mbind option_bind set_counters]; key_tests.
  - destruct (deserialize_file_ok files bound sup fuel b1 s m es _ cs
      ltac:(lia) ltac:(lia) Hr1 Hs Hruns) as (b' & s' & E' & Hu & Hi).
    rewrite E'. cbn [mbind option_bind]. by do 2 eexists.
  - destruct (while_fields_ok _ _ fuel b1 s m es _ cs (bgd_element_ok bgds) ltac:(lia) Hr1 Hs Hruns) as
      (b' & s' & E' & Hu & Hi).
    unfold __deserialize_bgd. rewrite E'. cbn [mbind option_bind]. by do 2 eexists.
  - rewrite enc_elems_cons, <-app_assoc in Hr1.
    destruct (read_pte_num_ok b1 v1 kv_indet m _ num n _ Hr1 Hok Hp Hn) as (b2 & E2 & Hr2).
    rewrite E2. cbn [mbind option_bind].
    destruct (deserialize_fs_ok fuel b2 s m es _ cs n sup ltac:(lia) Hr2 Hs Hruns)
      as (b' & s' & E' & Hu & Hi).
    rewrite E'. cbn [mbind option_bind]. by do 2 eexists.
  - rewrite enc_elems_cons, <-app_assoc in Hr1.
    destruct (read_pte_num_ok b1 v1 kv_indet m _ num n _ Hr1 Hok Hp Hn) as (b2 & E2 & Hr2).
    rewrite E2. cbn [mbind option_bind].
    destruct (while_fields_ok _ _ fuel b2 s m es _ cs (partition_element_ok n) ltac:(lia) Hr2 Hs Hruns) as
      (b' & s' & E' & Hu & Hi).
    unfold __deserialize_partition. rewrite E'. cbn [mbind option_bind]. by do 2 eexists.
  - destruct (while_fields_ok _ _ fuel b1 s m es _ cs (mbr_element_ok 0) ltac:(lia) Hr1 Hs Hruns) as
      (b' & s' & E' & Hu & Hi).
    unfold __deserialize_mbr. rewrite E'. cbn [mbind option_bind]. by do 2 eexists.
  - destruct (while_fields_ok _ _ fuel b1 s m es _ cs bitarray_element_ok ltac:(lia) Hr1 Hs Hruns) as
      (b' & s' & E' & Hu & Hi).
    unfold __deserialize_bitarray. rewrite E'. cbn [mbind option_bind]. by do 2 eexists.
Qed.

Lemma bson_readf_end b f :
  f_pos f = zlen (f_data f) →
  ∃ b' f', bson_readf b f = Some (b', f', 0) ∧ bi_buffer b' = bi_buffer b.
Proof.
  intros Hp. unfold bson_readf, fread. rewrite Hp, Nat2Z.id, drop_all. simpl.
  by do 2 eexists.
Qed.

Lemma live_not_dangling b : reusable b → ∃ p, cfree (bi_buffer b) = Some p.
Proof. unfold reusable. destruct (bi_buffer b); [by eexists..|done]. Qed.

Lemma load_index_loop_ok bound docs : ∀ fuel doc_fuel b f pre s σ cs σ',
  (length docs < fuel)%nat → (bound < doc_fuel)%nat → reusable b →
  f_data f = pre ++ concat (map enc_doc docs) → f_pos f = zlen pre → ready s →
  stream_cmds bound (applied s) σ docs cs σ' →
  ∃ b' s', load_index_loop fuel doc_fuel b f s σ (file_counter σ)
      = Some (b', s', σ', file_counter σ') ∧ reusable b' ∧ issued s cs s'.
Proof.
  induction docs as [|es docs IH];
    intros fuel doc_fuel b f pre s σ cs σ' Hfuel Hdf Hu Hd Hp Hs Hst;
    (destruct fuel as [|fuel]; [simpl in Hfuel; lia|]); cbn [load_index_loop];
    inversion Hst as [|? ? ? ? σ1 ? cs' ? Hdoc Hl Hrest]; subst.
  { destruct (bson_readf_end b f) as (b' & f' & E & Eb).
    { rewrite Hd, Hp. simpl. by rewrite app_nil_r. }
    rewrite E. cbn [mbind option_bind Z.eqb]. exists b', s. split; [done|].
    split; [|by apply issued_refl]. revert E. unfold bson_readf. cbn [fread].
    assert (f_pos f = zlen (f_data f)) as -> by (rewrite Hd, Hp; simpl; by rewrite app_nil_r).
    rewrite Nat2Z.id, drop_all. simpl. intros [= <- _]. exact Hu. }
  simpl in Hd.
  destruct (bson_readf_ok b es f pre (concat (map enc_doc docs)) Hu Hd Hp)
    as (b1 & f1 & m & E & Hr & Hd1 & Hp1); [by rewrite <-length_enc_doc|].
  rewrite E. cbn [mbind option_bind Z.eqb].
  destruct (load_document_ok bound doc_fuel s σ es _ σ1 b1 m Hdf Hr Hs Hdoc)
    as (b2 & s2 & E2 & Hu2 & Hi2).
  rewrite E2. cbn [mbind option_bind Z.eqb EXIT_SUCCESS].
  destruct (IH fuel doc_fuel b2 f1 (pre ++ enc_doc es) s2 σ1 cs' σ') as (b3 & s3 & E3 & Hu3 & Hi3).
  - simpl in Hfuel. lia.
  - done.
  - done.
  - rewrite Hd1, Hd. by rewrite app_assoc.
  - rewrite Hp1, Hp. len.
  - eauto with store.
  - by destruct Hi2 as [_ ->].
  - exists b3, s3. split; [exact E3|]. split; [done|]. by eapply issued_trans.
Qed.

End load.

(** ** Properties *)

(** C3: loading the crawler's stream issues, for every document in order, the
    commands of its fields, with the files and the block groups numbered in the
    order they come, the file system's geometry read back from the store for
    the files behind it, and at the end the number of files; [fuel] above the
    number of documents and [doc_fuel] above the number of elements of each
    are enough. *)
Theorem load_index_refines `{MallocTotal} `{Connected} bound fuel doc_fuel f s σ docs cs σ' :
  (length docs < fuel)%nat → (bound < doc_fuel)%nat →
  f_data f = concat (map enc_doc docs) → f_pos f = 0 → ready s → file_counter σ = 0 →
  stream_cmds bound (applied s) σ docs cs σ' →
  ∃ s', qemu_load_index fuel doc_fuel f s σ = Some (s', σ', EXIT_SUCCESS) ∧
    issued s (cs ++ [cmd REDIS_FCOUNTER_SET [AInt (file_counter σ')]]) s'.
Proof.
  intros Hfuel Hdf Hd Hp Hs H0' Hst. unfold qemu_load_index.
  destruct bson_init_reusable as (b & -> & Hu). cbn [mbind option_bind].
  destruct (load_index_loop_ok bound docs fuel doc_fuel b f [] s σ cs σ') as
    (b1 & s1 & E1 & Hu1 & Hi1); [done..|].
  rewrite H0' in E1. rewrite E1. cbn [mbind option_bind].
  destruct (flushed_issued s1 (cmd REDIS_FCOUNTER_SET [AInt (file_counter σ')]))
    as (s2 & E2 & Hi2 & _); [eauto with store|].
  unfold redis_set_fcounter. rewrite E2.
  destruct (flush_issued s2) as (s3 & E3 & Hi3 & _); [eauto with store|]. rewrite E3.
  destruct (live_not_dangling b1 Hu1) as [p Ep]. unfold bson_cleanup. rewrite Ep.
  cbn [mbind option_bind]. eexists. split; [done|].
  eapply issued_trans; [exact Hi1|]. exact (issued_trans _ _ _ _ _ Hi2 Hi3).
Qed.

Definition witness_docs : list (list elem) :=
  [[doc_type "mbr"; e_bool "gpt" true; e_int32 "sector" 0];
   [doc_type "file"; e_int64 "inode_sector" 2080; e_str "path" (str_bytes "/a")]].

Definition witness_cmds : list command :=
  [hset REDIS_MBR_SECTOR_INSERT 0 (e_bool "gpt" true); cmd REDIS_MBR_INSERT [AInt 0; AInt 0];
   cmd REDIS_FILES_INSERT [AInt 2080; AInt 0]; cmd REDIS_FILES_SECTOR_INSERT [AInt 2080; AInt 2080];
   hset REDIS_FILE_SECTOR_INSERT 0 (e_str "path" (str_bytes "/a"));
   cmd REDIS_PATH_SET [ABin (str_bytes "/a"); AInt 0]].

Lemma load_index_refines_witness :
  ∃ s', qemu_load_index 3 5 (file_of (concat (map enc_doc witness_docs))) (witness_store [])
          initial_load = Some (s', set_counters 0 0 1 initial_super, EXIT_SUCCESS) ∧
        issued (witness_store []) (witness_cmds ++ [cmd REDIS_FCOUNTER_SET [AInt 1]]) s'.
Proof.
  apply (load_index_refines 4 3 5 _ _ initial_load witness_docs).
  - simpl. lia.
  - lia.
  - done.
  - done.
  - split; [done|by vm_compute].
  - done.
  - eapply (sc_cons _ _ _ _ (take 2 witness_cmds) initial_load _ (drop 2 witness_cmds)).
    + apply dc_mbr; [simpl; lia|].
      eapply (runs_cons _ _ _ [_] tt _ [_]); [by apply e_bool_ok|done|by apply pc_field|].
      eapply (runs_cons _ _ _ [_] tt _ []); [by apply e_int32_ok|done| |constructor].
      apply (pc_pointer _ (λ n _, [cmd REDIS_MBR_INSERT [AInt n; AInt 0]]) _ _ _ 0).
      split; [done|]. by exists 4%nat, 0.
    + by vm_compute.
    + eapply (sc_cons _ _ _ _ (drop 2 witness_cmds) _ [] []); [|by vm_compute|constructor].
      apply (dc_file _ _ 0 0 0); [simpl; lia|].
      eapply (runs_cons _ _ _ [_; _] tt _ [_; _]); [by apply e_int64_ok|done| |].
      * apply (fc_inode_sector _ _ _ _ 2080). split; [done|]. exists 8%nat, 2080.
        split; [lia|done].
      * eapply (runs_cons _ _ _ [_; _] tt _ []); [|done|apply fc_path|constructor].
        apply e_str_ok; [done|by vm_compute].
Defined.
