(* ===== verification/InspectEmitProps.v ===== *)
(** * Properties of the published updates *)
From S2P Require Import Prelude Words Memory Stdio Bson BsonEncode BsonDecode BsonFields Scan RedisEnv Redis RedisProps StoreView InspectLoad InspectLoadProps InspectIndex InspectEmit.

#[local] Open Scope string_scope.
#[local] Open Scope list_scope.
#[local] Open Scope Z_scope.

(** The text [REDIS_DATA_INSERT] stores for a sector. *)
Definition data_text (start end_ file : Z) : list Z :=
  str_bytes "start" ++ COLON :: decimal start ++ COLON :: str_bytes "end" ++ COLON ::
  decimal end_ ++ COLON :: str_bytes "file" ++ COLON :: decimal file.

(** The channel of a path. *)
Definition channel_of (host vmname path : list Z) : list Z :=
  host ++ COLON :: vmname ++ COLON :: path.

Lemma token_of_string s : bool_decide (is_token (str_bytes s)) = true → is_token (str_bytes s).
Proof. by intros ?%bool_decide_eq_true. Qed.

Lemma data_tokens start end_ file :
  tokens (data_text start end_ file) =
  [str_bytes "start"; decimal start; str_bytes "end"; decimal end_; str_bytes "file";
   decimal file].
Proof.
  unfold data_text.
  rewrite tokens_cons by (apply (bool_decide_unpack _); by vm_compute).
  rewrite tokens_cons by apply decimal_token.
  rewrite tokens_cons by (apply (bool_decide_unpack _); by vm_compute).
  rewrite tokens_cons by apply decimal_token.
  rewrite tokens_cons by (apply (bool_decide_unpack _); by vm_compute).
  by rewrite tokens_one by apply decimal_token.
Qed.

Lemma serialize_fields_value `{Malloc} fills : ∀ b v b' v',
  serialize_fields b v fills = Some (b', v') → v' = foldl (λ v f, f v) v fills.
Proof.
  induction fills as [|f fills IH]; intros b v b' v' E; simpl in *; [by simplify_eq|].
  destruct (bson_serialize b (f v)) as [[b1 rc]|]; simpl in E; [|done]. by eapply IH.
Qed.

Section emit.
Context `{MallocTotal} `{Connected} `{Host}.

Lemma data_pointer_ok start end_ file :
  0 ≤ start < 2 ^ 64 → 0 ≤ end_ < 2 ^ 64 → 0 ≤ file < 2 ^ 64 →
  data_pointer (data_text start end_ file) = Some (Some (start, end_, file)).
Proof.
  intros Hs He Hf. unfold data_pointer, scan_token. rewrite !data_tokens. cbn [lookup list_lookup].
  rewrite scan_into_decimal by done. cbn [mbind option_bind].
  rewrite scan_into_decimal by done. cbn [mbind option_bind].
  by rewrite scan_into_decimal by done.
Qed.

Lemma construct_channel_name_ok host vmname path :
  gethostname HOST_NAME_MAX = Some host → zlen vmname ≤ VM_NAME_MAX → zlen path ≤ PATH_MAX →
  construct_channel_name vmname path = Some (Some (channel_of host vmname path)).
Proof.
  intros Eh Hv Hp. unfold construct_channel_name.
  destruct (malloc_total (HOST_NAME_MAX + VM_NAME_MAX + PATH_MAX + 3)) as [m Em]; [done|].
  rewrite Em, Eh. apply malloc_length in Em. rewrite Em.
  destruct (gethostname_spec _ _ Eh) as [_ Hh].
  unfold HOST_NAME_MAX, VM_NAME_MAX, PATH_MAX in *.
  rewrite (proj2 (Z.leb_le _ _)); [done|]. autorewrite with len. simpl. len.
Qed.

Lemma publish_document_ok s channel b es failure :
  ready s → enc_rep b (enc_elems es) → zlen (enc_elems es) + 5 ≤ max_doc →
  ∃ b' s', bson_finalize b = Some (b', EXIT_SUCCESS) ∧
    publish_document s (Some channel) b' failure = Some (s', EXIT_SUCCESS) ∧
    issued s [cmd REDIS_PUBLISH [AStr channel; ABin (enc_doc es)]] s'.
Proof.
  intros Hs Hr Hl.
  destruct (bson_finalize_ok b es Hr Hl) as (b1 & E1 & (rest & Hb & _ & _ & Hp)).
  destruct (publish_issued s channel (enc_doc es) Hs) as (s' & E & Hi).
  exists b1, s'. split; [exact E1|]. split; [|exact Hi].
  unfold publish_document. rewrite Hb, Hp. cbn [deref mbind option_bind].
  rewrite (mem_read_app [] (enc_doc es) rest) by done. cbn [mbind option_bind].
  rewrite E. cbn [negb Z.eqb EXIT_SUCCESS]. unfold bson_cleanup. rewrite Hb. done.
Qed.

(** The fields, the end of the document and its publication. *)
Lemma publish_fields_ok s channel fills es failure :
  ready s → fields_encode kv_indet fills es → zlen (enc_elems es) + 5 ≤ max_doc →
  ∃ b b1 v1 b2 s', bson_init = Some b ∧ serialize_fields b kv_indet fills = Some (b1, v1) ∧
    bson_finalize b1 = Some (b2, EXIT_SUCCESS) ∧
    publish_document s (Some channel) b2 failure = Some (s', EXIT_SUCCESS) ∧
    issued s [cmd REDIS_PUBLISH [AStr channel; ABin (enc_doc es)]] s'.
Proof.
  intros Hs Hf Hl. destruct bson_init_rep as (b & E & Hr).
  destruct (serialize_fields_ok kv_indet fills es b [] Hf Hr) as (b1 & v1 & E1 & Hr1).
  { simpl. lia. }
  destruct (publish_document_ok s channel b1 es failure Hs Hr1 Hl) as (b2 & s' & E2 & E3 & Hi).
  by exists b, b1, v1, b2, s'.
Qed.

(** ** Updates of fields *)

(** The value of a field of [n] bytes as the encoder writes it. *)
Definition update_elem (key : string) (btype : Z) (n : nat) (z : Z) : elem :=
  if btype =? BSON_INT64 then e_int64 key z
  else if btype =? BSON_INT32 then e_int32 key z
  else e_bool key (negb (z =? 0)).

Definition field_ok (btype : Z) (n : nat) : Prop :=
  (btype = BSON_INT64 ∧ n = 8%nat) ∨ (btype = BSON_INT32 ∧ n = 4%nat) ∨
  (btype = BSON_BOOLEAN ∧ n = 1%nat).

Definition update_elems (fname : string) (btype : Z) (n : nat) (old new write_counter : Z) :
    list elem :=
  [e_str "type" (str_bytes "metadata"); e_int64 "transaction" write_counter;
   e_str "field" (str_bytes fname); update_elem "old" btype n old;
   update_elem "new" btype n new].

Definition publish (channel : list Z) (es : list elem) : command :=
  cmd REDIS_PUBLISH [AStr channel; ABin (enc_doc es)].

Lemma encodes_value key v btype n z :
  key_ok key = true → field_ok btype n → (n = 1%nat → 0 ≤ z ≤ 1) →
  kv_encodes (fill_value btype key (le_enc n z) v) (update_elem key btype n z).
Proof.
  intros Hk Hok Hz. unfold update_elem.
  destruct Hok as [[-> ->]|[[-> ->]|[-> ->]]]; cbn [Z.eqb BSON_INT64 BSON_INT32 BSON_BOOLEAN];
    cbv iota; (apply kv_encodes_intro; [done|done|done|]); simpl.
  - split; [by rewrite length_le_enc|]. exists []. by rewrite app_nil_r.
  - split; [by rewrite length_le_enc|]. exists []. by rewrite app_nil_r.
  - exists (z `mod` 256), []. split; [done|]. rewrite Z.mod_small by (specialize (Hz eq_refl); lia).
    by destruct (z =? 0).
Qed.

Lemma update_elem_length key btype n z :
  (length (enc_elem (update_elem key btype n z)) ≤ 10 + String.length key)%nat.
Proof.
  unfold update_elem. destruct (btype =? BSON_INT64); [|destruct (btype =? BSON_INT32)];
    autorewrite with dsize; lia.
Qed.

(** [type] is always [metadata]. *)
Lemma field_update_ok s fname channel btype n old new write_counter :
  ready s → field_ok btype n → (n = 1%nat → 0 ≤ old ≤ 1 ∧ 0 ≤ new ≤ 1) →
  zlen (str_bytes fname) < 1000 →
  ∃ s', __emit_field_update s fname "metadata" (Some channel) btype (le_enc n old)
          (le_enc n new) write_counter true = Some (s', EXIT_SUCCESS) ∧
    issued s [publish channel (update_elems fname btype n old new write_counter)] s'.
Proof.
  intros Hs Hok Hb Hl. unfold __emit_field_update.
  destruct (publish_fields_ok s channel
    (update_fields fname "metadata" btype (le_enc n old) (le_enc n new) write_counter)
    (update_elems fname btype n old new write_counter) EXIT_FAILURE Hs) as
    (b & b1 & v1 & b2 & s' & E & E1 & E2 & E3 & Hi).
  - unfold update_fields, update_elems.
    apply fields_cons; [apply encodes_str; [done|done|by vm_compute]|].
    apply fields_cons; [by apply encodes_int64|].
    apply fields_cons; [apply encodes_str; [done|done|lia]|].
    apply fields_cons; [apply encodes_value; [done|done|intros E; by destruct (Hb E)]|].
    apply fields_cons; [apply encodes_value; [done|done|intros E; by destruct (Hb E)]|done].
  - pose proof (update_elem_length "old" btype n old).
    pose proof (update_elem_length "new" btype n new).
    unfold update_elems. revert Hl. autorewrite with dsize. unfold max_doc. simpl in *. lia.
  - rewrite E. rewrite E1. cbn [mbind option_bind]. rewrite E2. cbn [mbind option_bind].
    rewrite E3. by exists s'.
Qed.

Definition compare_cmds (channel : list Z) (write_counter : Z) (fname : string) (btype : Z)
    (n : nat) (old new : Z) : list command :=
  if old =? new then [] else [publish channel (update_elems fname btype n old new write_counter)].

Definition set_field_cmds (fmt : string) (id : Z) (field : string) (n : nat) (old new : Z) :
    list command :=
  if new =? old then [] else [cmd fmt [AInt id; AStr (str_bytes field); ABin (le_enc n new)]].

(** An update is published exactly when the values differ, *)
Lemma compare_ok s channel write_counter fname btype n old new :
  ready s → field_ok btype n → (n = 1%nat → 0 ≤ old ≤ 1 ∧ 0 ≤ new ≤ 1) →
  zlen (str_bytes fname) < 1000 →
  ∃ s', DIRECT_FIELD_COMPARE s (Some channel) write_counter fname "metadata" btype n old new
        = Some s' ∧ issued s (compare_cmds channel write_counter fname btype n old new) s'.
Proof.
  intros Hs Hok Hb Hl. unfold DIRECT_FIELD_COMPARE, compare_cmds.
  destruct (old =? new); [exists s; split; [done|by apply issued_refl]|].
  destruct (field_update_ok s fname channel btype n old new write_counter Hs Hok Hb Hl)
    as (s' & E & Hi). rewrite E. cbn [mbind option_bind]. by exists s'.
Qed.

(** and so is the value stored. *)
Lemma set_len_ok s fmt id field n old new :
  ready s → ∃ s', SET_FIELD_len s fmt id field n old new = Some (s', Z.of_nat n) ∧
                  issued s (set_field_cmds fmt id field n old new) s'.
Proof.
  intros Hs. unfold SET_FIELD_len, set_field_cmds.
  destruct (new =? old); [exists s; split; [done|by apply issued_refl]|].
  pipelined as s1 Hi. by exists s1.
Qed.

Lemma set_ok s fmt id field n old new :
  ready s → ∃ s', SET_FIELD s fmt id field n old new = Some s' ∧
                  issued s (set_field_cmds fmt id field n old new) s'.
Proof.
  intros Hs. unfold SET_FIELD.
  destruct (set_len_ok s fmt id field n old new Hs) as (s' & -> & Hi). by exists s'.
Qed.

(** ** Writes to data *)

Definition data_elems (write_counter start end_ : Z) (d : list Z) : list elem :=
  [e_str "type" (str_bytes "data"); e_int64 "transaction" write_counter;
   e_int64 "start" start; e_int64 "end" end_; e_bin "write" (u8 indeterminate) d].

Definition file_field (field : string) (file : Z) : command :=
  cmd REDIS_FILE_SECTOR_GET [AInt file; AStr (str_bytes field)].

Lemma reply_bytes_fits cap d : 0 < zlen d ≤ cap → reply_bytes cap (RString d) = d.
Proof.
  intros Hd. unfold reply_bytes.
  by rewrite (proj2 (Z.ltb_lt _ _)), (proj2 (Z.leb_le _ _)) by lia.
Qed.

Lemma overlay_full n old z : 0 ≤ z < 2 ^ (8 * Z.of_nat n) → overlay n old (le_enc n z) = z.
Proof.
  intros Hz. unfold overlay. rewrite length_le_enc, drop_ge by (rewrite length_le_enc; lia).
  rewrite app_nil_r. by apply le_dec_enc_small.
Qed.

Lemma path_string_ok path :
  Forall (λ c, c ≠ 0) path → zlen path < PATH_MAX → path_string path = Some path.
Proof.
  intros Hp Hl. unfold path_string. rewrite (proj2 (Z.ltb_lt _ _)) by lia.
  by apply (cstr_at_app [] path [] 0).
Qed.

(** What the store knows of a file: path and size, the first asked for first. *)
Record known_file (d : db) (file : Z) (path : list Z) (fsize : Z) : Prop := {
  kf_path : (exec d (file_field "path" file)).2 = RString path;
  kf_chars : Forall (λ c, c ≠ 0) path ∧ 0 < zlen path < PATH_MAX;
  kf_size : (exec (exec d (file_field "path" file)).1 (file_field "size" file)).2
            = RString (le_enc 8 fsize);
  kf_range : 0 ≤ fsize < 2 ^ 64;
}.

(** The commands for a write of [d] to the bytes from [start] on: the last block
    of a file is kept for when the file grows, any other is forgotten. *)
Definition data_cmds (channel : list Z) (write_counter start end_ file fsize write_len sector : Z)
    (d : list Z) : list command :=
  [file_field "path" file; file_field "size" file] ++
  (if fsize - start <=? write_len
   then [cmd REDIS_ENQUEUE_WRITE [AInt sector; AInt REDIS_DEFAULT_TIMEOUT; ABin d]] else []) ++
  (if end_ <? fsize then [cmd REDIS_DEL_WRITE [AInt sector]] else []) ++
  [publish channel (data_elems write_counter start end_ d)].

Lemma emit_file_bytes_ok write s host vmname write_counter start end_ file path fsize write_len
    sector :
  ready s → gethostname HOST_NAME_MAX = Some host → zlen vmname ≤ VM_NAME_MAX →
  0 ≤ start ≤ fsize → 0 ≤ end_ < 2 ^ 64 → 0 ≤ file < 2 ^ 64 →
  known_file (applied s) file path fsize →
  0 ≤ write_len → let n := Z.min write_len (fsize - start) in n ≤ zlen write → n < 2 ^ 29 →
  ∃ s', __emit_file_bytes write s vmname write_counter (data_text start end_ file) write_len sector
        = Some (s', EXIT_SUCCESS) ∧
    issued s (data_cmds (channel_of host vmname path) write_counter start end_ file fsize
                write_len sector (take (Z.to_nat n) write)) s'.
Proof.
  intros Hs Hh Hv Hst He Hf Hfile Hwl n Hn Hn29. destruct Hfile as [Kp [Kc Kl] Ks Kr].
  unfold __emit_file_bytes. rewrite data_pointer_ok by lia. cbn [mbind option_bind].
  destruct (hash_get_issued s REDIS_FILE_SECTOR_GET file (str_bytes "path") PATH_MAX Hs)
    as (s1 & E1 & Hi1).
  rewrite E1. cbn [mbind option_bind negb Z.eqb EXIT_SUCCESS].
  unfold file_field in Kp, Ks. rewrite Kp, reply_bytes_fits by lia.
  rewrite path_string_ok by (done || lia). cbn [mbind option_bind].
  destruct (hash_get_issued s1 REDIS_FILE_SECTOR_GET file (str_bytes "size") 8)
    as (s2 & E2 & Hi2); [eauto with store|].
  rewrite E2. cbn [mbind option_bind negb Z.eqb EXIT_SUCCESS].
  destruct Hi1 as [Hr1 Ea1]. simpl in Ea1. rewrite Ea1, Ks.
  rewrite reply_bytes_fits by (rewrite length_le_enc; lia). rewrite overlay_full by done.
  rewrite (construct_channel_name_ok host) by (done || lia). cbn [mbind option_bind].
  destruct bson_init_rep as (b & -> & Hr). cbn [mbind option_bind].
  match goal with |- context [serialize_fields b kv_indet ?fs] =>
    assert (∃ b1 v1, serialize_fields b kv_indet fs = Some (b1, v1) ∧
      enc_rep b1 ([] ++ enc_elems (take 3 (data_elems write_counter start end_ []))))
      as (b1 & v1 & Eb1 & Hb1); [apply serialize_fields_ok; [|exact Hr|]|] end.
  { apply (fields_cons _ _ _ (e_str "type" (str_bytes "data")));
      [by apply encodes_str|]. apply fields_cons; [by apply encodes_int64|].
    apply fields_cons; [by apply encodes_int64|done]. }
  { unfold max_doc, data_elems. cbn [take]. autorewrite with dsize. simpl. lia. }
  rewrite Eb1. cbn [mbind option_bind]. apply serialize_fields_value in Eb1 as Ev. cbn in Ev.
  rewrite (uwrap_small 64 (fsize - start)) by lia.
  assert ((if fsize - start <=? write_len then fsize - start else write_len) = n) as ->.
  { unfold n. case_test; lia. }
  assert (zlen (take (Z.to_nat n) write) = n) as Hlen.
  { rewrite length_take. lia. }
  assert (∃ s3, (if fsize - start <=? write_len then
       d ← mem_read write 0 n; redis_enqueue_pipelined s2 sector d
     else Some (s2, EXIT_SUCCESS)) = Some (s3, EXIT_SUCCESS) ∧
    issued s2 (if fsize - start <=? write_len
      then [cmd REDIS_ENQUEUE_WRITE [AInt sector; AInt REDIS_DEFAULT_TIMEOUT;
                                     ABin (take (Z.to_nat n) write)]] else []) s3)
    as (s3 & E3 & Hi3).
  { destruct (fsize - start <=? write_len).
    - rewrite mem_read_prefix by lia. cbn [mbind option_bind]. pipelined as s3 Hi. by exists s3.
    - exists s2. split; [done|]. apply issued_refl. eauto with store. }
  rewrite E3. cbn [mbind option_bind].
  assert (∃ s4, (if end_ <? fsize then redis_delqueue_pipelined s3 sector
                 else Some (s3, EXIT_SUCCESS)) = Some (s4, EXIT_SUCCESS) ∧
    issued s3 (if end_ <? fsize then [cmd REDIS_DEL_WRITE [AInt sector]] else []) s4)
    as (s4 & E4 & Hi4).
  { destruct (end_ <? fsize).
    - pipelined as s4 Hi. by exists s4.
    - exists s3. split; [done|]. apply issued_refl. eauto with store. }
  rewrite E4. cbn [mbind option_bind].
  match goal with |- context [serialize_fields b1 v1 ?fs] =>
    assert (∃ b2 v2, serialize_fields b1 v1 fs = Some (b2, v2) ∧
      enc_rep b2 (([] ++ enc_elems (take 3 (data_elems write_counter start end_ []))) ++
        enc_elems (drop 3 (data_elems write_counter start end_ (take (Z.to_nat n) write)))))
      as (b2 & v2 & Eb2 & Hb2); [apply serialize_fields_ok; [|exact Hb1|]|] end.
  { apply (fields_cons _ _ _ (e_int64 "end" end_)); [by apply encodes_int64|].
    apply (fields_cons _ _ _ (e_bin "write" (u8 indeterminate) (take (Z.to_nat n) write)));
      [|done].
    apply kv_encodes_intro; [done|done|done|]. simpl. rewrite Ev. split; [done|].
    split; [rewrite swrap_small by lia; by rewrite Hlen|].
    exists (drop (Z.to_nat n) write). by rewrite take_drop. }
  { unfold max_doc, data_elems. cbn [take drop app]. autorewrite with dsize.
    simpl String.length. simpl length. lia. }
  rewrite Eb2. cbn [mbind option_bind]. rewrite app_nil_l, <-enc_elems_app in Hb2.
  destruct (publish_document_ok s4 (channel_of host vmname path) b2
    (data_elems write_counter start end_ (take (Z.to_nat n) write)) (-1))
    as (b3 & s5 & E5 & E6 & Hi5); [eauto with store|exact Hb2| |].
  { unfold max_doc, data_elems. autorewrite with dsize. simpl. lia. }
  rewrite E5. cbn [mbind option_bind]. rewrite E6. exists s5. split; [done|].
  unfold data_cmds. eapply issued_cons; [by split|]. eapply issued_cons; [exact Hi2|].
  eapply issued_trans; [exact Hi3|]. eapply issued_trans; [exact Hi4|]. exact Hi5.
Qed.
End emit.
