(* ===== verification/Ext4.v ===== *)
(** * src/gray-crawler/ext4/ext4.c: the ext4 file system

    Superblock, block group descriptors and their cache, inodes and their
    cache, blocks, the block map of an inode and the extent tree; each struct
    is its bytes ([Struct]). The walk over directories, with the documents of
    the files, is in [Ext4Files]. The messages are not modelled. *)
From S2P Require Import Prelude Words Memory Struct Stdio Bitarray Bson BsonEncode BsonDecode BsonFields PartTable.

(** ** Definitions *)

Definition ext4_superblock : layout :=
  [("s_inodes_count", 4%nat); ("s_blocks_count_lo", 4%nat); ("s_r_blocks_count_lo", 4%nat);
   ("s_free_blocks_count_lo", 4%nat); ("s_free_inodes_count", 4%nat);
   ("s_first_data_block", 4%nat); ("s_log_block_size", 4%nat);
   ("s_log_cluster_size", 4%nat); ("s_blocks_per_group", 4%nat);
   ("s_clusters_per_group", 4%nat); ("s_inodes_per_group", 4%nat); ("s_mtime", 4%nat);
   ("s_wtime", 4%nat); ("s_mnt_count", 2%nat); ("s_max_mnt_count", 2%nat);
   ("s_magic", 2%nat); ("s_state", 2%nat); ("s_errors", 2%nat);
   ("s_minor_rev_level", 2%nat); ("s_lastcheck", 4%nat); ("s_checkinterval", 4%nat);
   ("s_creator_os", 4%nat); ("s_rev_level", 4%nat); ("s_def_resuid", 2%nat);
   ("s_def_resgid", 2%nat); ("s_first_ino", 4%nat); ("s_inode_size", 2%nat);
   ("s_block_group_nr", 2%nat); ("s_feature_compat", 4%nat); ("s_feature_incompat", 4%nat);
   ("s_feature_ro_compat", 4%nat); ("s_uuid", 16%nat); ("s_volume_name", 16%nat);
   ("s_last_mounted", 64%nat); ("s_algorithm_usage_bitmap", 4%nat);
   ("s_prealloc_blocks", 1%nat); ("s_prealloc_dir_blocks", 1%nat);
   ("s_reserved_gdt_blocks", 2%nat); ("s_journal_uuid", 16%nat); ("s_journal_inum", 4%nat);
   ("s_journal_dev", 4%nat); ("s_last_orphan", 4%nat); ("s_hash_seed", 16%nat);
   ("s_def_hash_version", 1%nat); ("s_jnl_backup_type", 1%nat); ("s_desc_size", 2%nat);
   ("s_default_mount_opts", 4%nat); ("s_first_meta_bg", 4%nat); ("s_mkfs_time", 4%nat);
   ("s_jnl_blocks", 68%nat); ("s_blocks_count_hi", 4%nat); ("s_r_blocks_count_hi", 4%nat);
   ("s_free_blocks_count_hi", 4%nat); ("s_min_extra_isize", 2%nat);
   ("s_want_extra_isize", 2%nat); ("s_flags", 4%nat); ("s_raid_stride", 2%nat);
   ("s_mmp_update_interval", 2%nat); ("s_mmp_block", 8%nat);
   ("s_raid_stripe_width", 4%nat); ("s_log_groups_per_flex", 1%nat);
   ("s_checksum_type", 1%nat); ("s_reserved_pad", 2%nat); ("s_kbytes_written", 8%nat);
   ("s_snapshot_inum", 4%nat); ("s_snapshot_id", 4%nat);
   ("s_snapshot_r_blocks_count", 8%nat); ("s_snapshot_list", 4%nat);
   ("s_error_count", 4%nat); ("s_first_error_time", 4%nat); ("s_first_error_ino", 4%nat);
   ("s_first_error_block", 8%nat); ("s_first_error_func", 32%nat);
   ("s_first_error_line", 4%nat); ("s_last_error_time", 4%nat);
   ("s_last_error_ino", 4%nat); ("s_last_error_line", 4%nat);
   ("s_last_error_block", 8%nat); ("s_last_error_func", 32%nat); ("s_mount_opts", 64%nat);
   ("s_usr_quota_inum", 4%nat); ("s_grp_quota_inum", 4%nat);
   ("s_overhead_clusters", 4%nat); ("s_reserved", 432%nat); ("s_checksum", 4%nat)].

Definition ext4_block_group_descriptor : layout :=
  [("bg_block_bitmap_lo", 4%nat); ("bg_inode_bitmap_lo", 4%nat);
   ("bg_inode_table_lo", 4%nat); ("bg_free_blocks_count_lo", 2%nat);
   ("bg_free_inodes_count_lo", 2%nat); ("bg_used_dirs_count_lo", 2%nat);
   ("bg_flags", 2%nat); ("bg_exclude_bitmap_lo", 4%nat);
   ("bg_block_bitmap_csum_lo", 2%nat); ("bg_inode_bitmap_csum_lo", 2%nat);
   ("bg_itable_unused_lo", 2%nat); ("bg_checksum", 2%nat)].

Definition ext4_inode : layout :=
  [("i_mode", 2%nat); ("i_uid", 2%nat); ("i_size_lo", 4%nat); ("i_atime", 4%nat);
   ("i_ctime", 4%nat); ("i_mtime", 4%nat); ("i_dtime", 4%nat); ("i_gid", 2%nat);
   ("i_links_count", 2%nat); ("i_blocks_lo", 4%nat); ("i_flags", 4%nat); ("i_osd1", 4%nat);
   ("i_block", 60%nat); ("i_generation", 4%nat); ("i_file_acl_lo", 4%nat);
   ("i_size_high", 4%nat); ("i_obso_faddr", 4%nat); ("i_osd2", 12%nat);
   ("i_extra_isize", 2%nat); ("i_checksum_hi", 2%nat); ("i_ctime_extra", 4%nat);
   ("i_mtime_extra", 4%nat); ("i_atime_extra", 4%nat); ("i_crtime", 4%nat);
   ("i_crtime_extra", 4%nat); ("i_version_hi", 4%nat)].

Definition ext4_extent_header : layout :=
  [("eh_magic", 2%nat); ("eh_entries", 2%nat); ("eh_max", 2%nat); ("eh_depth", 2%nat);
   ("eh_generation", 4%nat)].

Definition ext4_extent : layout :=
  [("ee_block", 4%nat); ("ee_len", 2%nat); ("ee_start_hi", 2%nat); ("ee_start_lo", 4%nat)].

Definition ext4_extent_idx : layout :=
  [("ei_block", 4%nat); ("ei_leaf_lo", 4%nat); ("ei_leaf_hi", 2%nat);
   ("ei_unused", 2%nat)].

Definition ext4_dir_entry : layout :=
  [("inode", 4%nat); ("rec_len", 2%nat); ("name_len", 1%nat); ("file_type", 1%nat);
   ("name", 255%nat)].

Definition EXT4_SUPERBLOCK_OFFSET : Z := 1024.
Definition EXT3_FEATURE_RO_COMPAT_SUPP : Z := Z.lor 0x0001 (Z.lor 0x0002 0x0004).
Definition EXT3_FEATURE_INCOMPAT_SUPP : Z := Z.lor 0x0002 (Z.lor 0x0004 0x0010).
Definition EXT3_FEATURE_RO_COMPAT_UNSUPPORTED : Z := Z.lnot EXT3_FEATURE_RO_COMPAT_SUPP.
Definition EXT3_FEATURE_INCOMPAT_UNSUPPORTED : Z := Z.lnot EXT3_FEATURE_INCOMPAT_SUPP.

Definition SUPERBLOCK_SIZE : Z := 1024.
Definition BGD_SIZE : Z := 32.
Definition INODE_SIZE : Z := 156.
Definition EXTENT_SIZE : Z := 12.
Definition DIR_ENTRY_SIZE : Z := 263.

Lemma ext4_sizes :
  Z.of_nat (sizeof ext4_superblock) = SUPERBLOCK_SIZE ∧
  Z.of_nat (sizeof ext4_block_group_descriptor) = BGD_SIZE ∧
  Z.of_nat (sizeof ext4_inode) = INODE_SIZE ∧
  Z.of_nat (sizeof ext4_extent_header) = EXTENT_SIZE ∧
  Z.of_nat (sizeof ext4_extent) = EXTENT_SIZE ∧
  Z.of_nat (sizeof ext4_extent_idx) = EXTENT_SIZE ∧
  Z.of_nat (sizeof ext4_dir_entry) = DIR_ENTRY_SIZE.
Proof. by vm_compute. Qed.

(** Members of the superblock, of a descriptor and of an inode. *)
Abbreviation sbf f sb := (fget ext4_superblock f sb).
Abbreviation bgdf f bgd := (fget ext4_block_group_descriptor f bgd).
Abbreviation inodef f inode := (fget ext4_inode f inode).

Definition ext4_s_blocks_count (sb : list Z) : Z :=
  Z.lor (u64 (Z.shiftl (sbf "s_blocks_count_hi" sb) 32)) (sbf "s_blocks_count_lo" sb).

(** A shift by the width of the type or more is undefined. *)
Definition ext4_block_size (sb : list Z) : option Z :=
  if sbf "s_log_block_size" sb <? 64
  then Some (u64 (Z.shiftl 1024 (sbf "s_log_block_size" sb))) else None.

Definition ext4_last_mount_point (sb : list Z) : list Z := drop 136 sb.

Definition ext4_num_block_groups (sb : list Z) : option Z :=
  cdiv (u64 (u64 (ext4_s_blocks_count sb + sbf "s_blocks_per_group" sb) - 1))
       (sbf "s_blocks_per_group" sb).

Definition bgd_table_offset (sb : list Z) (bs : Z) : Z :=
  u64 (u32 (sbf "s_first_data_block" sb + 1) * bs).

Definition ext4_bgd_inode_table (bgd : list Z) : Z :=
  Z.lor (Z.shiftl 0 32) (bgdf "bg_inode_table_lo" bgd).
Definition ext4_bgd_block_bitmap (bgd : list Z) : Z :=
  Z.lor (Z.shiftl 0 32) (bgdf "bg_block_bitmap_lo" bgd).
Definition ext4_bgd_inode_bitmap (bgd : list Z) : Z :=
  Z.lor (Z.shiftl 0 32) (bgdf "bg_inode_bitmap_lo" bgd).

Definition ext4_block_offset (block_num : Z) (sb : list Z) : option Z :=
  bs ← ext4_block_size sb; Some (u64 (bs * block_num)).

Definition ext4_file_size (inode : list Z) : Z :=
  Z.lor (u64 (Z.shiftl (inodef "i_size_high" inode) 32)) (inodef "i_size_lo" inode).

Definition ext4_extent_start (extent : list Z) : Z :=
  Z.lor (u64 (Z.shiftl (fget ext4_extent "ee_start_hi" extent) 48))
        (fget ext4_extent "ee_start_lo" extent).

Definition ext4_extent_index_leaf (idx : list Z) : Z :=
  Z.lor (u64 (Z.shiftl (fget ext4_extent_idx "ei_leaf_hi" idx) 48))
        (fget ext4_extent_idx "ei_leaf_lo" idx).

Definition ext4_cleanup (f : fs) : option fs :=
  b ← cfree (bcache f); i ← cfree (icache f); s ← cfree (fs_info f);
  Some {| fs_pte := fs_pte f; fs_pt_off := fs_pt_off f; icache := i; bcache := b;
          fs_info := s; fs_bits := fs_bits f |}.

Definition ext4_read_block (disk : FILE) (po : Z) (sb : list Z) (block_num : Z)
    (buf : list Z) : option (FILE * list Z * Z) :=
  bs ← ext4_block_size sb;
  offset ← ext4_block_offset block_num sb;
  let '(disk, r) := fseeko disk (u64 (offset + po)) in
  if negb (r =? 0) then Some (disk, buf, -1) else
  let '(disk, d) := fread disk bs in
  buf ← mem_write buf 0 d;
  if negb (zlen d =? bs) then Some (disk, buf, -1) else Some (disk, buf, 0).

Definition ext4_read_bgd (disk : FILE) (po : Z) (sb : list Z) (block_group : Z)
    (bgd : list Z) (bcache : cptr) : option (FILE * list Z * Z) :=
  bs ← ext4_block_size sb;
  let offset := u64 (bgd_table_offset sb bs + u64 (block_group * BGD_SIZE)) in
  if negb (is_null bcache) then
    c ← deref bcache;
    b ← mem_read c (block_group * BGD_SIZE) BGD_SIZE;
    Some (disk, b, 0)
  else
    let '(disk, r) := fseeko disk (u64 (po + offset)) in
    if negb (r =? 0) then Some (disk, bgd, -1) else
    let '(disk, d) := fread disk BGD_SIZE in
    bgd ← mem_write bgd 0 d;
    if negb (zlen d =? BGD_SIZE) then Some (disk, bgd, -1) else Some (disk, bgd, 0).

(** The loop of [ext4_cache_bgds]; a failed read is ignored. [fuel] bounds the
    number of groups. *)
Fixpoint cache_bgds_loop (fuel : nat) (disk : FILE) (po : Z) (sb : list Z)
    (num_block_groups i cachep : Z) (cache : list Z) : option (FILE * list Z) :=
  match fuel with
  | O => None
  | S fuel =>
      if i <? num_block_groups then
        old ← mem_read cache cachep BGD_SIZE;
        '(disk, bgd, _) ← ext4_read_bgd disk po sb i old PNull;
        cache ← mem_write cache cachep bgd;
        cache_bgds_loop fuel disk po sb num_block_groups (u32 (i + 1))
          (cachep + BGD_SIZE) cache
      else Some (disk, cache)
  end.

(** [s_inode_size * s_inodes_per_group]: an [int] times a [uint32_t] *)
Definition inode_table_bytes (sb : list Z) : Z :=
  u32 (sbf "s_inode_size" sb * sbf "s_inodes_per_group" sb).

(** The loop of [ext4_cache_inodes]: [inode_table_size] stays reduced after a
    table that would leave the partition. *)
Fixpoint cache_inodes_loop (fuel : nat) (disk : FILE) (po : Z) (sb : list Z) (bs : Z)
    (num_block_groups i cachep inode_table_size : Z) (bgd : list Z) (bcache : cptr)
    (cache : list Z) : option (FILE * list Z * Z) :=
  match fuel with
  | O => None
  | S fuel =>
      if i <? num_block_groups then
        '(disk, bgd, _) ← ext4_read_bgd disk po sb i bgd bcache;
        let start := u64 (u64 (ext4_bgd_inode_table bgd * bs) + po) in
        let limit := u64 (po + u64 (bs * ext4_s_blocks_count sb)) in
        let size := if limit <=? u64 (start + inode_table_size)
                    then u64 (inode_table_size - u64 (u64 (start + inode_table_size) - limit))
                    else inode_table_size in
        let '(disk, r) := fseeko disk start in
        if negb (r =? 0) then Some (disk, cache, EXIT_FAILURE) else
        let '(disk, d) := fread disk size in
        cache ← mem_write cache cachep d;
        if negb (u64 (s32 (zlen d)) =? size) then Some (disk, cache, EXIT_FAILURE) else
        cache_inodes_loop fuel disk po sb bs num_block_groups (u32 (i + 1))
          (cachep + inode_table_bytes sb) size bgd bcache cache
      else Some (disk, cache, EXIT_SUCCESS)
  end.

(** [static uint32_t i] is passed explicitly; the loop body returns in its
    first iteration. *)
Definition ext4_next_block_group_descriptor (i : Z) (disk : FILE) (po : Z) (sb bgd : list Z)
    (sector s_offset : Z) (bcache : cptr) : option (Z * FILE * list Z * Z * Z * Z) :=
  bs ← ext4_block_size sb;
  let offset := bgd_table_offset sb bs in
  num_block_groups ← ext4_num_block_groups sb;
  if i <? num_block_groups then
    '(disk, bgd, ok) ← (
      if negb (is_null bcache) then
        c ← deref bcache; b ← mem_read c (i * BGD_SIZE) BGD_SIZE; Some (disk, b, true)
      else
        let '(disk, r) := fseeko disk (u64 (u64 (po + offset) + u64 (i * BGD_SIZE))) in
        if negb (r =? 0) then Some (disk, bgd, false) else
        let '(disk, d) := fread disk BGD_SIZE in
        bgd ← mem_write bgd 0 d;
        Some (disk, bgd, zlen d =? BGD_SIZE));
    if negb ok then Some (i, disk, bgd, sector, s_offset, 0) else
    let pos := u64 (u64 (po + offset) + u64 (i * BGD_SIZE)) in
    let sectors_per_block := bs `div` SECTOR_SIZE in
    let sector := u32 (pos `div` SECTOR_SIZE) in
    sector ← cdiv sector sectors_per_block;
    let sector := u32 (u32 sector * sectors_per_block) in
    s_offset ← cmod pos bs;
    Some (u32 (i + 1), disk, bgd, sector, u32 s_offset, sector)
  else Some (i, disk, bgd, sector, s_offset, 0).

Section ext4.
Context `{Malloc}.

Definition ext4_probe (disk : FILE) (f : fs) : option (FILE * fs * Z) :=
  let f := set_fs_info (cmalloc SUPERBLOCK_SIZE) f in
  if is_null (fs_info f) then Some (disk, f, -1) else
  m ← deref (fs_info f);
  if fs_pt_off f =? 0 then Some (disk, f, -1) else
  let '(disk, r) := fseeko disk (fs_pt_off f + EXT4_SUPERBLOCK_OFFSET) in
  if negb (r =? 0) then Some (disk, f, -1) else
  let '(disk, d) := fread disk SUPERBLOCK_SIZE in
  m ← mem_write m 0 d;
  let f := set_fs_info (PLive m) f in
  if negb (zlen d =? SUPERBLOCK_SIZE) then Some (disk, f, -1) else
  if negb (sbf "s_magic" m =? 0xef53) ||
     (Z.land (sbf "s_feature_ro_compat" m) EXT3_FEATURE_RO_COMPAT_UNSUPPORTED =? 0) ||
     (Z.land (sbf "s_feature_incompat" m) EXT3_FEATURE_INCOMPAT_UNSUPPORTED =? 0)
  then Some (disk, f, -1) else Some (disk, f, 0).

Definition ext4_cache_bgds (fuel : nat) (disk : FILE) (po : Z) (sb : list Z) :
    option (FILE * cptr * Z) :=
  num_block_groups ← ext4_num_block_groups sb;
  let cache := cmalloc (u64 (BGD_SIZE * num_block_groups)) in
  if is_null cache then Some (disk, cache, EXIT_FAILURE) else
  m ← deref cache;
  '(disk, m) ← cache_bgds_loop fuel disk po sb num_block_groups 0 0 m;
  Some (disk, PLive m, EXIT_SUCCESS).

Definition ext4_cache_inodes (fuel : nat) (disk : FILE) (po : Z) (sb : list Z)
    (bcache : cptr) : option (FILE * cptr * Z) :=
  num_block_groups ← ext4_num_block_groups sb;
  bs ← ext4_block_size sb;
  let cache := cmalloc (u64 (inode_table_bytes sb * num_block_groups)) in
  if is_null cache then Some (disk, cache, EXIT_FAILURE) else
  m ← deref cache;
  let bgd := replicate 32 (u8 indeterminate) in
  '(disk, m, rc) ← cache_inodes_loop fuel disk po sb bs num_block_groups 0 0
                     (inode_table_bytes sb) bgd bcache m;
  Some (disk, PLive m, rc).

(** Returns the inode, read from the cache, and the document with its first
    four fields. *)
Definition ext4_read_inode_serialized (disk : FILE) (po : Z) (sb : list Z) (inode_num : Z)
    (inode : list Z) (bson : bson_info) (icache bcache : cptr) :
    option (FILE * list Z * bson_info * Z) :=
  block_group ← cdiv (u32 (inode_num - 1)) (sbf "s_inodes_per_group" sb);
  inode_index ← cmod (u32 (inode_num - 1)) (sbf "s_inodes_per_group" sb);
  let inode_offset := u64 (inode_index * sbf "s_inode_size" sb) in
  bs ← ext4_block_size sb;
  let sectors_per_block := bs `div` SECTOR_SIZE in
  let bgd := replicate 32 (u8 indeterminate) in
  '(disk, bgd, r) ← ext4_read_bgd disk po sb (u32 block_group) bgd bcache;
  if negb (r =? 0) then Some (disk, inode, bson, -1) else
  inode_table_offset ← ext4_block_offset (ext4_bgd_inode_table bgd) sb;
  let icache_offset := u64 (u64 (block_group * inode_table_bytes sb) + inode_offset) in
  c ← deref icache;
  inode ← mem_read c icache_offset INODE_SIZE;
  let pos := u64 (u64 (po + inode_table_offset) + inode_offset) in
  sector ← cdiv (pos `div` SECTOR_SIZE) sectors_per_block;
  let sector := u64 (sector * sectors_per_block) in
  offset ← cmod pos bs;
  '(bson, _) ← serialize_fields bson kv_indet
    [fill_str "type" 4 (cstr "file");
     fill_mem BSON_INT64 "inode_sector" (le_enc 8 sector);
     fill_mem BSON_INT64 "inode_offset" (le_enc 8 offset);
     fill_mem BSON_INT32 "inode_num" (le_enc 4 inode_num)];
  Some (disk, inode, bson, 0).

Definition ext4_serialize_fs (sb : list Z) (offset pte_num : Z) (bits : bitarray)
    (mount_point : list Z) (f : FILE) : option (bitarray * FILE * Z) :=
  let bpg := sbf "s_blocks_per_group" sb in
  groups ← cdiv (u64 (ext4_s_blocks_count sb + u32 (bpg - 1))) bpg;
  let num_block_groups := s32 groups in
  let num_files := s32 (u32 (sbf "s_inodes_count" sb - sbf "s_free_inodes_count" sb -
                             sbf "s_first_ino" sb + 2)) in
  block_size ← ext4_block_size sb;
  mount_len ← cstrlen mount_point;
  let sector := Z.quot offset SECTOR_SIZE in
  bit ← cdiv (u64 sector) block_size;
  bits ← bitarray_set_bit bits bit;
  sectors ← bson_init;
  '(f, _) ← write_document
    [fill_str "type" 2 (cstr "fs");
     fill_mem BSON_INT32 "pte_num" (le_enc 4 pte_num);
     fill_str "fs" 4 (cstr "ext4");
     fill_str "mount_point" mount_len mount_point;
     fill_mem BSON_INT32 "num_block_groups" (le_enc 4 num_block_groups);
     fill_mem BSON_INT32 "num_files" (le_enc 4 num_files);
     fill_mem BSON_INT64 "superblock_sector" (le_enc 8 sector);
     fill_mem BSON_INT64 "superblock_offset" (le_enc 8 (SECTOR_SIZE * 2));
     fill_mem BSON_INT64 "block_size" (le_enc 8 block_size);
     fill_mem BSON_INT64 "blocks_per_group" (le_enc 8 bpg);
     fill_mem BSON_INT64 "inodes_per_group" (le_enc 8 (sbf "s_inodes_per_group" sb));
     fill_mem BSON_INT64 "inode_size" (le_enc 8 (sbf "s_inode_size" sb))] f;
  _ ← bson_cleanup sectors;
  Some (bits, f, EXIT_SUCCESS).
End ext4.

(** [for (i = 0; i < sector; i += step) bitarray_set_bit(bits, (start + i) / block_size)] *)
Fixpoint mark_inode_table (fuel : nat) (bits : bitarray) (i sector start step bs : Z) :
    option bitarray :=
  match fuel with
  | O => None
  | S fuel =>
      if i <? sector then
        bit ← cdiv (u64 (start + i)) bs;
        bits ← bitarray_set_bit bits bit;
        mark_inode_table fuel bits (u64 (i + step)) sector start step bs
      else Some bits
  end.

Section ext4_bgds.
Context `{Malloc}.

(** The sector of a block of the descriptor. *)
Definition bgd_sector (block bs offset : Z) : Z :=
  u64 (u64 (block * bs) + offset) `div` SECTOR_SIZE.

Definition ext4_serialize_bgd_sectors (fuel : nat) (b : bson_info) (bgd sb : list Z)
    (bits : bitarray) (offset : Z) : option (bson_info * bitarray * Z) :=
  bs ← ext4_block_size sb;
  let block_bitmap := bgd_sector (ext4_bgd_block_bitmap bgd) bs offset in
  bit ← cdiv block_bitmap bs;
  bits ← bitarray_set_bit bits bit;
  let inode_bitmap := bgd_sector (ext4_bgd_inode_bitmap bgd) bs offset in
  bit ← cdiv inode_bitmap bs;
  bits ← bitarray_set_bit bits bit;
  let inode_table_start := bgd_sector (ext4_bgd_inode_table bgd) bs offset in
  '(b, _) ← serialize_fields b kv_indet
    [fill_mem BSON_INT64 "block_bitmap_sector_start" (le_enc 8 block_bitmap);
     fill_mem BSON_INT64 "inode_bitmap_sector_start" (le_enc 8 inode_bitmap);
     fill_mem BSON_INT64 "inode_table_sector_start" (le_enc 8 inode_table_start)];
  let sector := u64 (u64 (u64 (u64 (ext4_bgd_inode_table bgd * bs) + offset) +
                          sbf "s_inodes_per_group" sb * INODE_SIZE) `div` SECTOR_SIZE - 1) in
  bits ← mark_inode_table fuel bits 0 sector inode_table_start (bs `div` SECTOR_SIZE) bs;
  Some (b, bits, EXIT_SUCCESS).

(** The loop of [ext4_serialize_bgds]; [v_bgd] is never assigned. *)
Fixpoint serialize_bgds_loop (fuel marks : nat) (i : Z) (disk : FILE) (po : Z)
    (sb bgd : list Z) (sector offset : Z) (b : bson_info) (bits : bitarray) (f : FILE)
    (bcache : cptr) : option (Z * FILE * bson_info * bitarray * FILE) :=
  match fuel with
  | O => None
  | S fuel =>
      '(i, disk, bgd, sector, offset, r) ←
        ext4_next_block_group_descriptor i disk po sb bgd sector offset bcache;
      if 0 <? r then
        '(b, _) ← bson_serialize b (fill_str "type" 3 (cstr "bgd") kv_indet);
        '(b, _) ← bson_serialize b kv_indet;
        '(b, _) ← bson_serialize b (fill_mem BSON_INT32 "sector" (le_enc 4 sector) kv_indet);
        '(b, _) ← bson_serialize b (fill_mem BSON_INT32 "offset" (le_enc 4 offset) kv_indet);
        bs ← ext4_block_size sb;
        bit ← cdiv sector bs;
        bits ← bitarray_set_bit bits bit;
        '(b, bits, _) ← ext4_serialize_bgd_sectors marks b bgd sb bits po;
        '(b, _) ← bson_finalize b;
        '(b, f, _) ← bson_writef b f;
        serialize_bgds_loop fuel marks i disk po sb bgd sector offset (bson_reset b) bits f
          bcache
      else Some (i, disk, b, bits, f)
  end.

Definition ext4_serialize_bgds (fuel marks : nat) (i : Z) (disk : FILE) (po : Z)
    (sb : list Z) (bits : bitarray) (f : FILE) (bcache : cptr) :
    option (Z * FILE * bitarray * FILE * Z) :=
  b ← bson_init;
  let bgd := replicate 32 (u8 indeterminate) in
  '(i, disk, b, bits, f) ← serialize_bgds_loop fuel marks i disk po sb bgd 0 0 b bits f bcache;
  _ ← bson_cleanup b;
  Some (i, disk, bits, f, EXIT_SUCCESS).
End ext4_bgds.
