(* ===== verification/Ext4Blocks.v ===== *)
(** * The blocks of a file: src/gray-crawler/ext4/ext4.c, lookup functions

    The block map (direct, indirect, double and triple indirect blocks) and the
    extent tree of an inode: [ext4_read_file_block], [ext4_sector_file_block],
    [ext4_read_extent_block], [ext4_sector_extent_block], and what an abstract
    block map and extent tree say they should find. *)
From S2P Require Import Prelude Words Memory Struct Stdio PartTable Ext4.

(** ** Definitions *)

Definition ext4_sector_from_block (block : Z) (sb : list Z) (po : Z) : option Z :=
  bs ← ext4_block_size sb;
  Some (s64 (u64 (u64 (block * bs) + po) `div` SECTOR_SIZE)).

(** [inode.i_block[i]] *)
Definition i_block (inode : list Z) (i : Z) : option Z :=
  mem_le 4 (fbytes ext4_inode "i_block" inode) (4 * i).

(** [buf[i]] of a [uint32_t*] and of a [uint8_t*] *)
Definition u32_elt (buf : list Z) (i : Z) : option Z := mem_le 4 buf (4 * i).
Definition u8_elt (buf : list Z) (i : Z) : option Z := mem_byte buf i.

(** [ext4_read_block(block, buf)], whose result is ignored, and then [buf[i]]. *)
Definition load_elt (elt : list Z → Z → option Z) (disk : FILE) (po : Z) (sb : list Z)
    (block i : Z) (buf : list Z) : option (FILE * list Z * Z) :=
  '(disk, buf, _) ← ext4_read_block disk po sb block buf;
  e ← elt buf i; Some (disk, buf, e).

(** The last block number of each kind of lookup, from the number of addresses
    of a block. *)
Definition direct_high : Z := 11.
Definition indirect_high (a : Z) : Z := u64 (direct_high + a).
Definition double_high (a : Z) : Z := u64 (indirect_high a + u64 (a * a)).
Definition triple_high (a : Z) : Z := u64 (double_high a + u64 (u64 (a * a) * a)).

Definition ext4_read_file_block (disk : FILE) (po : Z) (sb : list Z) (block_num : Z)
    (inode buf : list Z) : option (FILE * list Z * Z) :=
  bs ← ext4_block_size sb;
  let a := bs `div` 4 in
  let final disk buf block :=
    '(disk, buf, _) ← ext4_read_block disk po sb block buf; Some (disk, buf, 0) in
  if triple_high a <? block_num then Some (disk, buf, -1) else
  if block_num <=? direct_high then
    e ← i_block inode block_num;
    if e =? 0 then Some (disk, buf, 1) else final disk buf e
  else if block_num <=? indirect_high a then
    let n := u64 (block_num - u64 (direct_high + 1)) in
    e ← i_block inode 12;
    if e =? 0 then Some (disk, buf, 1) else
    '(disk, buf, e) ← load_elt u32_elt disk po sb e n buf;
    if e =? 0 then Some (disk, buf, 1) else final disk buf e
  else if block_num <=? double_high a then
    let n := u64 (block_num - u64 (indirect_high a + 1)) in
    e ← i_block inode 13;
    if e =? 0 then Some (disk, buf, 1) else
    '(disk, buf, e) ← load_elt u32_elt disk po sb e (n `div` a) buf;
    if e =? 0 then Some (disk, buf, 1) else
    '(disk, buf, e) ← load_elt u32_elt disk po sb e (n `mod` a) buf;
    if e =? 0 then Some (disk, buf, 1) else final disk buf e
  else
    let n := u64 (block_num - u64 (double_high a + 1)) in
    e ← i_block inode 14;
    if e =? 0 then Some (disk, buf, 1) else
    '(disk, buf, e) ← load_elt u32_elt disk po sb e (n `div` u64 (a * a)) buf;
    if e =? 0 then Some (disk, buf, 1) else
    '(disk, buf, e) ← load_elt u32_elt disk po sb e (n `div` a) buf;
    if e =? 0 then Some (disk, buf, 1) else
    '(disk, buf, e) ← load_elt u32_elt disk po sb e (n `mod` a) buf;
    if e =? 0 then Some (disk, buf, 1) else final disk buf e.

Section sectors.
Context `{Malloc}.

(** [uint8_t buf[block_size]]: an array of indeterminate bytes. *)
Definition local_block (bs : Z) : option (list Z) := malloc bs.

Definition ext4_sector_file_block (disk : FILE) (po : Z) (sb : list Z) (block_num : Z)
    (inode : list Z) : option (FILE * Z) :=
  bs ← ext4_block_size sb;
  let a := bs `div` 4 in
  let final disk block :=
    s ← ext4_sector_from_block block sb po; Some (disk, u64 s) in
  buf ← local_block bs;
  if triple_high a <? block_num then Some (disk, 0) else
  if block_num <=? direct_high then
    e ← i_block inode block_num;
    if e =? 0 then Some (disk, 0) else final disk e
  else if block_num <=? indirect_high a then
    let n := u64 (block_num - u64 (direct_high + 1)) in
    e ← i_block inode 12;
    if e =? 0 then Some (disk, 0) else
    '(disk, buf, e) ← load_elt u8_elt disk po sb e n buf;
    if e =? 0 then Some (disk, 0) else final disk e
  else if block_num <=? double_high a then
    let n := u64 (block_num - u64 (indirect_high a + 1)) in
    e ← i_block inode 13;
    if e =? 0 then Some (disk, 0) else
    '(disk, buf, e) ← load_elt u8_elt disk po sb e (n `div` a) buf;
    if e =? 0 then Some (disk, 0) else
    '(disk, buf, e) ← load_elt u8_elt disk po sb e (n `mod` a) buf;
    if e =? 0 then Some (disk, 0) else final disk e
  else
    let n := u64 (block_num - u64 (double_high a + 1)) in
    e ← i_block inode 14;
    if e =? 0 then Some (disk, 0) else
    '(disk, buf, e) ← load_elt u8_elt disk po sb e (n `div` u64 (a * a)) buf;
    if e =? 0 then Some (disk, 0) else
    '(disk, buf, e) ← load_elt u8_elt disk po sb e (n `div` a) buf;
    if e =? 0 then Some (disk, 0) else
    '(disk, buf, e) ← load_elt u8_elt disk po sb e (n `mod` a) buf;
    if e =? 0 then Some (disk, 0) else final disk e.
End sectors.

(** Members of an extent tree's structs. *)
Abbreviation ehf f hdr := (fget ext4_extent_header f hdr).
Abbreviation eif f idx := (fget ext4_extent_idx f idx).
Abbreviation eef f ext := (fget ext4_extent f ext).

(** The [i]-th entry behind the header in [buf]. *)
Definition extent_entry (buf : list Z) (i : Z) : option (list Z) :=
  mem_read buf (EXTENT_SIZE + EXTENT_SIZE * i) EXTENT_SIZE.

(** [idx.ei_block = (uint32_t) 2 << 31] *)
Definition idx_start (idx : list Z) : list Z :=
  fset ext4_extent_idx "ei_block" (u32 (Z.shiftl 2 31)) idx.

(** [extent.ee_block <= n && n < extent.ee_block + extent.ee_len] *)
Definition extent_covers (e : list Z) (n : Z) : bool :=
  (eef "ee_block" e <=? n) && (n <? u32 (eef "ee_block" e + eef "ee_len" e)).

(** The loop both extent lookups share: the extent of the block, if one is found.
    The header is the one at the start of [buf]: it is read again whenever [buf]
    is. [fuel] bounds the iterations. *)
Fixpoint ext4_extent_search (fuel : nat) (disk : FILE) (po : Z) (sb : list Z)
    (block_num i : Z) (idx buf : list Z) : option (FILE * list Z * option (list Z)) :=
  match fuel with
  | O => None
  | S fuel =>
      hdr ← mem_read buf 0 EXTENT_SIZE;
      if i <? ehf "eh_entries" hdr then
        if negb (ehf "eh_depth" hdr =? 0) then
          idx2 ← extent_entry buf i;
          if ehf "eh_entries" hdr =? 1 then
            '(disk, buf, _) ← ext4_read_block disk po sb (ext4_extent_index_leaf idx2) buf;
            ext4_extent_search fuel disk po sb block_num 0 (idx_start idx) buf
          else if (block_num <? eif "ei_block" idx2) && (eif "ei_block" idx <=? block_num) then
            '(disk, buf, _) ← ext4_read_block disk po sb (ext4_extent_index_leaf idx) buf;
            ext4_extent_search fuel disk po sb block_num 0 (idx_start idx) buf
          else ext4_extent_search fuel disk po sb block_num (i + 1) idx2 buf
        else
          extent ← extent_entry buf i;
          if extent_covers extent block_num then Some (disk, buf, Some extent)
          else ext4_extent_search fuel disk po sb block_num (i + 1) idx buf
      else Some (disk, buf, None)
  end.

Definition ext4_read_extent_block (fuel : nat) (disk : FILE) (po : Z) (sb : list Z)
    (block_num : Z) (inode buf : list Z) : option (FILE * list Z * Z) :=
  bs ← ext4_block_size sb;
  buf ← mem_write buf 0 (fbytes ext4_inode "i_block" inode);
  '(disk, buf, found) ←
    ext4_extent_search fuel disk po sb block_num 0 (idx_start (replicate 12 0)) buf;
  match found with
  | Some extent =>
      let n := u32 (block_num - eef "ee_block" extent) in
      '(disk, buf, _) ← ext4_read_block disk po sb (u64 (ext4_extent_start extent + n)) buf;
      Some (disk, buf, 0)
  | None =>
      buf ← mem_write buf 0 (replicate (Z.to_nat bs) 0);
      Some (disk, buf, 0)
  end.

Definition ext4_sector_extent_block `{Malloc} (fuel : nat) (disk : FILE) (po : Z)
    (sb : list Z) (block_num : Z) (inode : list Z) : option (FILE * Z) :=
  bs ← ext4_block_size sb;
  buf ← local_block bs;
  buf ← mem_write buf 0 (fbytes ext4_inode "i_block" inode);
  '(disk, buf, found) ←
    ext4_extent_search fuel disk po sb block_num 0 (idx_start (replicate 12 0)) buf;
  match found with
  | Some extent =>
      let n := u32 (block_num - eef "ee_block" extent) in
      s ← ext4_sector_from_block (u64 (ext4_extent_start extent + n)) sb po;
      Some (disk, u64 s)
  | None => Some (disk, 0)
  end.

(** [memcpy(dir, buf + position, sizeof(struct ext4_dir_entry))] *)
Definition ext4_read_dir_entry (buf : list Z) (position : Z) : option (list Z * Z) :=
  d ← mem_read buf position DIR_ENTRY_SIZE; Some (d, 0).
