(* ===== verification/Ext4Props.v ===== *)
(** * What the ext4 functions find

    The device is the block store they read; a block map and an extent tree are
    followed on it by definitions that know nothing of buffers and streams, and
    the lookup functions are compared with them. *)
From S2P Require Import Prelude Words Memory Struct Stdio Bitarray PartTable Ext4 Ext4Blocks.

(** ** The blocks of a partition *)

Definition block_of (D : list Z) (po bs n : Z) : list Z :=
  take (Z.to_nat bs) (drop (Z.to_nat (po + bs * n)) D).

Definition block_in (D : list Z) (po bs n : Z) : Prop :=
  0 ≤ n ∧ po + bs * (n + 1) ≤ zlen D.

(** The superblock gives the block size of ext4, and the device can be
    addressed by an [off_t]. *)
Record ext4_device (D : list Z) (po bs : Z) (sb : list Z) : Prop := {
  ed_block_size : ext4_block_size sb = Some bs;
  ed_pow : ∃ k, 10 ≤ k ≤ 16 ∧ bs = 2 ^ k;
  ed_po : 0 ≤ po ≤ zlen D;
  ed_bytes : bytes_ok D;
  ed_len : zlen D < 2 ^ 63;
}.

Lemma bs_bounds D po bs sb : ext4_device D po bs sb → 1024 ≤ bs ≤ 65536.
Proof.
  intros [_ (k & Hk & ->) _ _ _]. change 1024 with (2 ^ 10). change 65536 with (2 ^ 16).
  split; apply Z.pow_le_mono_r; lia.
Qed.

Lemma bs_div4 D po bs sb : ext4_device D po bs sb → bs = 4 * (bs `div` 4).
Proof.
  intros [_ (k & Hk & ->) _ _ _]. replace (2 ^ k) with (4 * 2 ^ (k - 2)).
  - rewrite (Z.mul_comm 4), Z.div_mul by done. lia.
  - change 4 with (2 ^ 2). rewrite <-Z.pow_add_r by lia. f_equal. lia.
Qed.

Section device.
Context (D : list Z) (po bs : Z) (sb : list Z) (Hd : ext4_device D po bs sb).

Lemma length_block_of n : block_in D po bs n → zlen (block_of D po bs n) = bs.
Proof.
  intros [Hn Hl]. pose proof (bs_bounds _ _ _ _ Hd). destruct Hd as [_ _ Hp _ _].
  unfold block_of. rewrite length_take, length_drop. nia.
Qed.

(** [ext4_read_block] fills the buffer with the block. *)
Lemma read_block_ok disk n buf :
  f_data disk = D → block_in D po bs n → zlen buf = bs →
  ∃ disk', f_data disk' = D ∧
    ext4_read_block disk po sb n buf = Some (disk', block_of D po bs n, 0).
Proof.
  intros HD Hn Hb. pose proof (bs_bounds _ _ _ _ Hd).
  pose proof (length_block_of n Hn) as Hl. destruct Hn as [Hn Hi].
  destruct Hd as [Hs _ Hp _ HL].
  unfold ext4_read_block, ext4_block_offset. rewrite Hs. cbn [mbind option_bind].
  rewrite (uwrap_small 64 (bs * n)) by nia.
  rewrite (uwrap_small 64 (bs * n + po)) by nia.
  unfold fseeko. rewrite (swrap_small 64 (bs * n + po)) by nia.
  rewrite (proj2 (Z.ltb_ge _ _)) by nia. cbn [Z.eqb negb].
  unfold fread. cbn [f_data f_pos]. rewrite HD.
  replace (bs * n + po) with (po + bs * n) by lia. fold (block_of D po bs n).
  pose proof (mem_write_app [] buf (block_of D po bs n) [] 0 eq_refl) as W.
  rewrite !app_nil_r in W. cbn [app] in W. rewrite W by lia.
  cbn [mbind option_bind]. rewrite Hl, Z.eqb_refl. cbn [negb].
  eexists. split; [|done]. done.
Qed.

(** ** The block map *)

(** The [k]-th address of a block, and the block a chain of addresses leads to;
    0 is a hole. *)
Definition map_entry (blk : list Z) (k : Z) : Z :=
  le_dec (take 4 (drop (Z.to_nat (4 * k)) blk)).

Fixpoint resolve (addr : Z) (path : list Z) : Z :=
  if addr =? 0 then 0 else
  match path with
  | [] => addr
  | k :: path => resolve (map_entry (block_of D po bs addr) k) path
  end.

(** Every block on the way is inside the device. *)
Fixpoint path_in (addr : Z) (path : list Z) : Prop :=
  addr ≠ 0 → block_in D po bs addr ∧
  match path with
  | [] => True
  | k :: path => path_in (map_entry (block_of D po bs addr) k) path
  end.

(** Where the address of block [n] of a file is: a slot of [i_block] and the
    indices in the indirect blocks behind it. *)
Definition block_path (a n : Z) : Z * list Z :=
  if n <? 12 then (n, [])
  else if n <? 12 + a then (12, [n - 12])
  else if n <? 12 + a + a * a then
    let m := n - 12 - a in (13, [m `div` a; m `mod` a])
  else
    let m := n - 12 - a - a * a in
    (14, [m `div` (a * a); (m `div` a) `mod` a; m `mod` a]).

Definition slot (inode : list Z) (i : Z) : Z := map_entry (fbytes ext4_inode "i_block" inode) i.

Lemma map_entry_read blk k n :
  zlen blk = 4 * n → 0 ≤ k < n → mem_le 4 blk (4 * k) = Some (map_entry blk k).
Proof.
  intros Hl Hk. unfold mem_le, mem_read. rewrite bool_decide_true by lia. done.
Qed.

Lemma length_i_block inode :
  zlen inode = INODE_SIZE → zlen (fbytes ext4_inode "i_block" inode) = 60.
Proof.
  unfold INODE_SIZE. intros Hi. unfold fbytes.
  change (offset_of ext4_inode "i_block") with (Some (40, 60)%nat).
  cbv beta iota. rewrite length_take, length_drop. lia.
Qed.

Lemma i_block_slot inode i :
  zlen inode = INODE_SIZE → 0 ≤ i < 15 → i_block inode i = Some (slot inode i).
Proof.
  intros Hi Hr. apply (map_entry_read _ _ 15); [|done]. by rewrite length_i_block.
Qed.

(** The outcome for the block at [addr]. *)
Definition file_block_result (addr : Z) (r : option (FILE * list Z * Z)) : Prop :=
  ∃ disk' buf', r = Some (disk', buf', if addr =? 0 then 1 else 0) ∧ f_data disk' = D ∧
    (addr ≠ 0 → buf' = block_of D po bs addr).

Lemma chain_end e disk buf :
  f_data disk = D → zlen buf = bs → path_in e [] →
  file_block_result (resolve e [])
    (if e =? 0 then Some (disk, buf, 1) else
     '(disk, buf, _) ← ext4_read_block disk po sb e buf; Some (disk, buf, 0)).
Proof.
  intros HD Hb Hp. unfold resolve. destruct (Z.eqb_spec e 0) as [->|He].
  - by exists disk, buf.
  - destruct (Hp He) as [Hi _]. destruct (read_block_ok disk e buf HD Hi Hb) as (d & Ed & ->).
    exists d, (block_of D po bs e). rewrite (proj2 (Z.eqb_neq _ _)) by done. done.
Qed.

Lemma chain_step e k p disk buf (K : FILE → list Z → Z → option (FILE * list Z * Z)) :
  f_data disk = D → zlen buf = bs → path_in e (k :: p) → 0 ≤ k < bs `div` 4 →
  (∀ disk e', f_data disk = D → path_in e' p → block_in D po bs e →
     file_block_result (resolve e' p) (K disk (block_of D po bs e) e')) →
  file_block_result (resolve e (k :: p))
    (if e =? 0 then Some (disk, buf, 1) else
     '(disk, buf, e) ← load_elt u32_elt disk po sb e k buf; K disk buf e).
Proof.
  intros HD Hb Hp Hk HK. cbn [resolve]. cbn [path_in] in Hp.
  destruct (Z.eqb_spec e 0) as [->|He]; [by exists disk, buf|].
  destruct (Hp He) as [Hi Hp']. unfold load_elt, u32_elt.
  destruct (read_block_ok disk e buf HD Hi Hb) as (d & Ed & ->). cbn [mbind option_bind].
  rewrite (map_entry_read _ _ (bs `div` 4)); [|rewrite length_block_of by done|done].
  - cbn [mbind option_bind]. by apply HK.
  - by eapply bs_div4.
Qed.
End device.

Lemma lookup_ranges a :
  256 ≤ a ≤ 16384 →
  indirect_high a = 11 + a ∧ double_high a = 11 + a + a * a ∧
  triple_high a = 11 + a + a * a + a * a * a.
Proof.
  intros Ha. assert (0 ≤ a * a ≤ 16384 * 16384) by nia.
  assert (0 ≤ a * a * a ≤ 16384 * 16384 * 16384) by nia.
  unfold triple_high, double_high, indirect_high, direct_high.
  rewrite (uwrap_small 64 (11 + a)), (uwrap_small 64 (a * a)), (uwrap_small 64 (a * a * a)) by lia.
  rewrite (uwrap_small 64 (11 + a + a * a)) by lia.
  rewrite (uwrap_small 64 (11 + a + a * a + a * a * a)) by lia. lia.
Qed.

Lemma addresses_bounds D po bs sb : ext4_device D po bs sb → 256 ≤ bs `div` 4 ≤ 16384.
Proof. intros Hd. pose proof (bs_bounds _ _ _ _ Hd). pose proof (bs_div4 _ _ _ _ Hd). lia. Qed.

(** The code's branches. *)
Section branches.
Context (D : list Z) (po bs : Z) (sb inode buf : list Z) (disk : FILE).
Context (Hd : ext4_device D po bs sb) (HD : f_data disk = D) (Hb : zlen buf = bs).
Context (Hi : zlen inode = INODE_SIZE).
Let a := bs `div` 4.

(** Enters the branch that [n] selects. *)
Ltac enter :=
  pose proof (addresses_bounds _ _ _ _ Hd) as Ha; fold a in Ha;
  destruct (lookup_ranges a Ha) as (R1 & R2 & R3);
  assert (0 < a * a ≤ 16384 * 16384) by nia;
  assert (a * a ≤ a * a * a ≤ 16384 * 16384 * 16384) by nia;
  unfold ext4_read_file_block; rewrite (ed_block_size _ _ _ _ Hd);
  cbn [mbind option_bind]; fold a; rewrite R1, R2, R3; unfold direct_high;
  repeat match goal with
  | |- context [if ?x <? ?y then _ else _] => destruct (Z.ltb_spec x y); try lia
  | |- context [if ?x <=? ?y then _ else _] => destruct (Z.leb_spec x y); try lia
  end;
  repeat match goal with |- context [u64 ?x] => rewrite (uwrap_small 64 x) by lia end;
  try (rewrite i_block_slot by (done || lia); cbn [mbind option_bind]).

Lemma read_direct n :
  0 ≤ n < 12 → path_in D po bs (slot inode n) [] →
  file_block_result D po bs (resolve D po bs (slot inode n) [])
    (ext4_read_file_block disk po sb n inode buf).
Proof. intros Hn Hp. enter. by apply chain_end. Qed.

Lemma read_indirect n :
  12 ≤ n < 12 + a → path_in D po bs (slot inode 12) [n - 12] →
  file_block_result D po bs (resolve D po bs (slot inode 12) [n - 12])
    (ext4_read_file_block disk po sb n inode buf).
Proof.
  intros Hn Hp. enter. replace (n - (11 + 1)) with (n - 12) by lia.
  apply chain_step; [done..|fold a; lia|]. intros d' e' HD' Hp' Hbl.
  apply chain_end; [done..|by eapply length_block_of|done].
Qed.

Lemma read_double n :
  12 + a ≤ n < 12 + a + a * a →
  let m := n - 12 - a in
  path_in D po bs (slot inode 13) [m `div` a; m `mod` a] →
  file_block_result D po bs (resolve D po bs (slot inode 13) [m `div` a; m `mod` a])
    (ext4_read_file_block disk po sb n inode buf).
Proof.
  intros Hn m Hp. enter. replace (n - (11 + a + 1)) with m by lia.
  pose proof (Z.mod_pos_bound m a). pose proof (Z.div_lt_upper_bound m a a).
  pose proof (Z.div_pos m a).
  apply chain_step; [done..|fold a; lia|]. intros d' e' HD' Hp' Hbl.
  apply chain_step; [done|done|by eapply length_block_of|done|fold a; lia|].
  intros d2 e2 HD2 Hp2 Hbl2.
  apply chain_end; [done..|by eapply length_block_of|done].
Qed.

Lemma read_triple n :
  let m := n - 12 - a - a * a in
  0 ≤ m < a * a →
  path_in D po bs (slot inode 14) [m `div` (a * a); (m `div` a) `mod` a; m `mod` a] →
  file_block_result D po bs
    (resolve D po bs (slot inode 14) [m `div` (a * a); (m `div` a) `mod` a; m `mod` a])
    (ext4_read_file_block disk po sb n inode buf).
Proof.
  intros m Hn Hp. enter. replace (n - (11 + a + a * a + 1)) with m by lia.
  pose proof (Z.mod_pos_bound m a). pose proof (Z.div_lt_upper_bound m a a).
  pose proof (Z.div_pos m a). rewrite (Z.mod_small (m `div` a)) in * by lia.
  rewrite (Z.div_small m (a * a)) in * by lia.
  apply chain_step; [done..|fold a; lia|]. intros d' e' HD' Hp' Hbl.
  apply chain_step; [done|done|by eapply length_block_of|done|fold a; lia|].
  intros d2 e2 HD2 Hp2 Hbl2.
  apply chain_step; [done|done|by eapply length_block_of|done|fold a; lia|].
  intros d3 e3 HD3 Hp3 Hbl3.
  apply chain_end; [done..|by eapply length_block_of|done].
Qed.

(** The second index of a triply indirect lookup is outside the block. *)
Lemma read_triple_outside n :
  let m := n - 12 - a - a * a in
  a * a ≤ m < a * a * a →
  path_in D po bs (slot inode 14) [m `div` (a * a); (m `div` a) `mod` a; m `mod` a] →
  resolve D po bs (slot inode 14) [m `div` (a * a)] ≠ 0 →
  ext4_read_file_block disk po sb n inode buf = None.
Proof.
  intros m Hn Hp Hr. enter. replace (n - (11 + a + a * a + 1)) with m by lia.
  pose proof (Z.div_lt_upper_bound m (a * a) a ltac:(lia) ltac:(lia)).
  pose proof (Z.div_pos m (a * a) ltac:(lia) ltac:(lia)).
  pose proof (Z.div_le_lower_bound m a a ltac:(lia) ltac:(lia)).
  cbn [path_in] in Hp. destruct (Z.eqb_spec (slot inode 14) 0) as [E|E]; [by rewrite E in Hr|].
  cbn [resolve] in Hr. rewrite (proj2 (Z.eqb_neq _ _) E) in Hr.
  destruct (Hp E) as [Hbl Hp']. unfold load_elt, u32_elt.
  destruct (read_block_ok D po bs sb Hd disk _ buf HD Hbl Hb) as (d & Ed & ->).
  cbn [mbind option_bind].
  rewrite (map_entry_read _ _ a);
    [|rewrite (length_block_of D po bs sb) by done; by eapply bs_div4|lia].
  cbn [mbind option_bind]. revert Hr. case_test; [done|]. intros _.
  destruct (Hp' ltac:(done)) as [Hbl2 _].
  destruct (read_block_ok D po bs sb Hd d (map_entry (block_of D po bs (slot inode 14))
    (m `div` (a * a))) (block_of D po bs (slot inode 14)) Ed Hbl2
    ltac:(by eapply length_block_of)) as (d2 & Ed2 & ->).
  cbn [mbind option_bind]. unfold mem_le.
  rewrite mem_read_oob; [done|]. rewrite (length_block_of D po bs sb) by done.
  pose proof (bs_div4 _ _ _ _ Hd) as E4. fold a in E4. lia.
Qed.

Lemma read_outside n :
  12 + a + a * a + a * a * a ≤ n →
  ext4_read_file_block disk po sb n inode buf = Some (disk, buf, -1).
Proof. intros Hn. enter. done. Qed.
End branches.

(** ** Sectors of blocks *)

(** The sector a block starts at. *)
Definition sector_of (po bs n : Z) : Z := (po + bs * n) `div` SECTOR_SIZE.

Lemma sector_from_block_ok D po bs sb n :
  ext4_device D po bs sb → 0 ≤ n < 2 ^ 40 →
  ext4_sector_from_block n sb po = Some (sector_of po bs n) ∧ 0 ≤ sector_of po bs n < 2 ^ 63.
Proof.
  intros Hd Hn. pose proof (bs_bounds _ _ _ _ Hd). destruct Hd as [Hs _ Hp _ HL].
  assert (0 ≤ bs * n ≤ 65536 * (2 ^ 40 - 1)) as Hm by nia.
  assert (0 ≤ sector_of po bs n < 2 ^ 63) as Hr.
  { unfold sector_of, SECTOR_SIZE. split; [apply Z.div_pos; lia|].
    apply Z.div_lt_upper_bound; lia. }
  split; [|done]. unfold ext4_sector_from_block. rewrite Hs. cbn [mbind option_bind].
  rewrite (Z.mul_comm n bs), (uwrap_small 64 (bs * n)) by lia.
  rewrite (uwrap_small 64 (bs * n + po)) by lia. rewrite (Z.add_comm (bs * n)).
  fold (sector_of po bs n). by rewrite swrap_small by lia.
Qed.

Lemma sector_of_lt D po bs sb m n :
  ext4_device D po bs sb → m < n → sector_of po bs m < sector_of po bs n.
Proof.
  intros Hd Hn. pose proof (bs_bounds _ _ _ _ Hd).
  unfold sector_of, SECTOR_SIZE.
  assert ((po + bs * m) `div` 512 + 1 ≤ (po + bs * n) `div` 512); [|lia].
  rewrite <-(Z.div_add _ 1) by done. apply Z.div_le_mono; [done|]. nia.
Qed.

Lemma map_entry_range blk k : bytes_ok blk → 0 ≤ map_entry blk k < 2 ^ 32.
Proof.
  intros Hb. unfold map_entry. pose proof (le_dec_range (take 4 (drop (Z.to_nat (4 * k)) blk))
    (Forall_take_drop _ _ _ _ Hb)) as [H1 H2].
  split; [done|]. eapply Z.lt_le_trans; [exact H2|]. apply Z.pow_le_mono_r; len.
Qed.

Lemma slot_range inode i : bytes_ok inode → 0 ≤ slot inode i < 2 ^ 32.
Proof. intros Hb. by apply map_entry_range, Forall_take_drop. Qed.

Lemma block_of_bytes D po bs n : bytes_ok D → bytes_ok (block_of D po bs n).
Proof. intros. by apply Forall_take_drop. Qed.

(** ** Properties *)

(** C12: [ext4_read_file_block] follows the block map of the inode: for every
    block up to the doubly indirect ones, and for the first [a * a] triply
    indirect ones, it reports a hole (1) or fills the buffer with the block the
    map leads to; a block behind the last triply indirect one is refused. Any
    later triply indirect block makes it read outside its buffer: the index into
    the second block is [n / a] where it should be [(n / a) mod a]. *)
Theorem ext4_read_file_block_spec D po bs sb disk inode buf n :
  ext4_device D po bs sb → f_data disk = D → zlen buf = bs → zlen inode = INODE_SIZE →
  let a := bs `div` 4 in
  let p := block_path a n in
  0 ≤ n → path_in D po bs (slot inode p.1) p.2 →
  (n < 12 + a + a * a + a * a →
     file_block_result D po bs (resolve D po bs (slot inode p.1) p.2)
       (ext4_read_file_block disk po sb n inode buf)) ∧
  (12 + a + a * a + a * a ≤ n < 12 + a + a * a + a * a * a →
     resolve D po bs (slot inode p.1) (take 1 p.2) ≠ 0 →
     ext4_read_file_block disk po sb n inode buf = None) ∧
  (12 + a + a * a + a * a * a ≤ n →
     ext4_read_file_block disk po sb n inode buf = Some (disk, buf, -1)).
Proof.
  intros Hd HD Hb Hi a p Hn. unfold p, block_path.
  pose proof (addresses_bounds _ _ _ _ Hd) as Ha. fold a in Ha.
  assert (0 < a * a) by nia. assert (a * a ≤ a * a * a) by nia.
  case_test; [|case_test; [|case_test]]; cbn [fst snd take]; intros Hp;
    (split; [intros Hr|split; [intros Hr Hnz|intros Hr]]); try (exfalso; lia);
    try (eapply read_outside; done || lia).
  - by apply read_direct.
  - by apply read_indirect.
  - by apply read_double.
  - apply read_triple; [done..| |done]. fold a. lia.
  - eapply read_triple_outside; [done..| |done|done]. fold a. lia.
Qed.

(** A device of four blocks of 1024 bytes; block 1 is an indirect block whose
    first address is 2 and whose second is 0x103. *)
Definition witness_device : list Z :=
  replicate 1024 0 ++ ([2; 0; 0; 0; 3; 1; 0; 0] ++ replicate 1016 0) ++ replicate 1024 7 ++
  replicate 1024 9.

Definition witness_sb : list Z := replicate 1024 0.

(** [i_block[0] = 3], [i_block[12] = 1] *)
Definition witness_inode : list Z :=
  replicate 40 0 ++ [3; 0; 0; 0] ++ replicate 44 0 ++ [1; 0; 0; 0] ++ replicate 64 0.

Lemma witness_device_ok : ext4_device witness_device 0 1024 witness_sb.
Proof.
  split; [by vm_compute|by exists 10|split; [done|]; unfold witness_device; len|
    apply (bool_decide_unpack _); by vm_compute|unfold witness_device; len].
Qed.

Lemma ext4_read_file_block_spec_witness :
  let disk := file_of witness_device in
  file_block_result witness_device 0 1024 2
    (ext4_read_file_block disk 0 witness_sb 12 witness_inode witness_sb) ∧
  file_block_result witness_device 0 1024 3
    (ext4_read_file_block disk 0 witness_sb 0 witness_inode witness_sb).
Proof.
  intros disk. split.
  - destruct (ext4_read_file_block_spec witness_device 0 1024 witness_sb disk witness_inode
      witness_sb 12) as [Hr _]; [apply witness_device_ok|done|done|done|done| |].
    + vm_compute. intros _. split; [by split|]. intros _. split; [by split|done].
    + by apply Hr.
  - destruct (ext4_read_file_block_spec witness_device 0 1024 witness_sb disk witness_inode
      witness_sb 0) as [Hr _]; [apply witness_device_ok|done|done|done|done| |].
    + vm_compute. intros _. split; [by split|done].
    + by apply Hr.
Defined.

(** [ext4_sector_file_block] gives the sector of a direct block; for a
    singly indirect one it takes a byte of the indirect block for the address,
    so that every block whose address is 256 or more is recorded at a sector
    that is not its own. *)
Theorem ext4_sector_file_block_spec `{MallocTotal} D po bs sb disk inode n :
  ext4_device D po bs sb → f_data disk = D → zlen inode = INODE_SIZE → bytes_ok inode →
  let addr := map_entry (block_of D po bs (slot inode 12)) (n - 12) in
  (0 ≤ n < 12 → ext4_sector_file_block disk po sb n inode
     = Some (disk, if slot inode n =? 0 then 0 else sector_of po bs (slot inode n))) ∧
  (12 ≤ n < 12 + bs `div` 4 → slot inode 12 ≠ 0 → block_in D po bs (slot inode 12) →
   256 ≤ addr →
   ∃ disk' s, ext4_sector_file_block disk po sb n inode = Some (disk', s) ∧
              s ≠ sector_of po bs addr).
Proof.
  intros Hd HD Hi Hib addr. set (a := bs `div` 4).
  pose proof (addresses_bounds _ _ _ _ Hd) as Ha. fold a in Ha.
  destruct (lookup_ranges a Ha) as (R1 & R2 & R3).
  assert (0 < a * a) by nia. assert (a * a ≤ a * a * a) by nia.
  pose proof (bs_bounds _ _ _ _ Hd) as Hbs. pose proof (bs_div4 _ _ _ _ Hd) as E4.
  destruct (malloc_total bs) as [buf Eb]; [lia|]. pose proof (malloc_length _ _ Eb) as Hb.
  unfold ext4_sector_file_block, local_block. rewrite (ed_block_size _ _ _ _ Hd).
  cbn [mbind option_bind]. rewrite Eb. cbn [mbind option_bind]. fold a. rewrite R1, R3. unfold direct_high. split.
  - intros Hn. do 2 case_test. rewrite i_block_slot by (done || lia). cbn [mbind option_bind].
    case_test; [done|].
    destruct (sector_from_block_ok D po bs sb (slot inode n) Hd) as [-> Hs].
    { pose proof (slot_range inode n Hib). lia. }
    cbn [mbind option_bind]. by rewrite uwrap_small by lia.
  - intros Hn Hnz Hin Hge. do 3 case_test.
    rewrite i_block_slot by (done || lia). cbn [mbind option_bind].
    rewrite (proj2 (Z.eqb_neq _ _)) by done.
    rewrite (uwrap_small 64 (11 + 1)), (uwrap_small 64 (n - (11 + 1))) by lia.
    replace (n - (11 + 1)) with (n - 12) by lia. unfold load_elt, u8_elt.
    destruct (read_block_ok D po bs sb Hd disk _ buf HD Hin Hb) as (d & Ed & ->).
    cbn [mbind option_bind].
    destruct (mem_byte_Some (block_of D po bs (slot inode 12)) (n - 12)) as (e & -> & Ee).
    { erewrite length_block_of by done. lia. }
    assert (is_byte e) as He by (eapply Forall_lookup_1; [|exact Ee];
      apply block_of_bytes; by destruct Hd).
    unfold is_byte in He. cbn [mbind option_bind]. clearbody addr.
    pose proof (sector_of_lt D po bs sb 0 addr Hd ltac:(lia)).
    destruct (sector_from_block_ok D po bs sb 0 Hd ltac:(lia)) as [_ Hs0].
    case_test; [do 2 eexists; split; [done|lia]|].
    destruct (sector_from_block_ok D po bs sb e Hd ltac:(lia)) as [-> Hs].
    cbn [mbind option_bind]. rewrite uwrap_small by lia. do 2 eexists. split; [done|].
    pose proof (sector_of_lt D po bs sb e addr Hd ltac:(lia)). lia.
Qed.

Lemma ext4_sector_file_block_spec_witness :
  let disk := file_of witness_device in
  ext4_sector_file_block disk 0 witness_sb 0 witness_inode = Some (disk, 6) ∧
  ∃ disk' s, ext4_sector_file_block disk 0 witness_sb 13 witness_inode = Some (disk', s) ∧
    s ≠ sector_of 0 1024 259.
Proof.
  intros disk.
  assert (bytes_ok witness_inode) as Hb by (apply (bool_decide_unpack _); by vm_compute).
  split.
  - destruct (ext4_sector_file_block_spec witness_device 0 1024 witness_sb disk witness_inode 0)
      as [E _]; [apply witness_device_ok|done|done|done|]. by apply E.
  - destruct (ext4_sector_file_block_spec witness_device 0 1024 witness_sb disk witness_inode 13)
      as [_ E]; [apply witness_device_ok|done|done|done|].
    apply E; [done|by vm_compute|split; [by vm_compute|by vm_compute]|by vm_compute].
Defined.
