(* ===== verification/Ext4Extents.v ===== *)
(** * Extent trees: what the search of src/gray-crawler/ext4/ext4.c finds

    [extent_path] follows an extent tree on the blocks of a device; the search
    loop of the two extent lookups is compared with it. [path_loops] are the
    paths on which it does not end. *)
From S2P Require Import Prelude Words Memory Struct Stdio PartTable Ext4 Ext4Blocks Ext4Props.

(** ** Extent trees *)

(** A node is the 60 bytes of [i_block] or a block: a header and its entries. *)
Definition node_entries (node : list Z) : Z := ehf "eh_entries" (take 12 node).
Definition node_depth (node : list Z) : Z := ehf "eh_depth" (take 12 node).
Definition entry_at (node : list Z) (i : nat) : list Z := take 12 (drop (12 + 12 * i) node).
Definition entries_of (node : list Z) : list (list Z) :=
  entry_at node <$> seq 0 (Z.to_nat (node_entries node)).

Record node_ok (node : list Z) : Prop := {
  no_room : 12 + 12 * node_entries node ≤ zlen node;
  no_bytes : bytes_ok node;
}.

(** [n] is one of the file's blocks the extent maps. *)
Definition covers (n : Z) (e : list Z) : bool :=
  (eef "ee_block" e <=? n) && (n <? eef "ee_block" e + eef "ee_len" e).

Definition key (node : list Z) (i : nat) : Z := eif "ei_block" (entry_at node i).

Section path.
Context (D : list Z) (po bs : Z).

(** The child [node] names in its [i]-th entry, at an address of 32 bits. *)
Definition child (node : list Z) (i : nat) (c : list Z) : Prop :=
  let e := entry_at node i in
  eif "ei_leaf_hi" e = 0 ∧ block_in D po bs (eif "ei_leaf_lo" e) ∧
  c = block_of D po bs (eif "ei_leaf_lo" e).

Definition several (node : list Z) : Prop := node_depth node ≠ 0 ∧ 1 < node_entries node.

(** The path of block [n] from [node] to a leaf, with the extent it has there.
    [lost] tells whether it leaves some node of several children through the
    last one. [a] is the address the search keeps in [idx]: that of the child it
    has chosen last by its key, 0 at first. A block below the first key of a
    node of several children has no place in the tree; the search goes on in the
    block at [a]. *)
Inductive extent_path (n : Z) : Z → list Z → option (list Z) → bool → Prop :=
  | path_leaf a node :
      node_ok node → node_depth node = 0 →
      Forall (λ e, eef "ee_block" e + eef "ee_len" e < 2 ^ 32) (entries_of node) →
      extent_path n a node (List.find (covers n) (entries_of node)) false
  | path_only a node c r lost :
      node_ok node → node_depth node ≠ 0 → node_entries node = 1 →
      child node 0 c → extent_path n a c r lost →
      extent_path n a node r lost
  | path_inner a node i c r lost :
      node_ok node → node_depth node ≠ 0 → Z.of_nat (S i) < node_entries node →
      (∀ j, (j ≤ i)%nat → key node j ≤ n) → n < key node (S i) →
      child node i c → extent_path n (eif "ei_leaf_lo" (entry_at node i)) c r lost →
      extent_path n a node r lost
  | path_last a node i c r lost :
      node_ok node → node_depth node ≠ 0 → Z.of_nat (S (S i)) = node_entries node →
      (∀ j, (j ≤ S i)%nat → key node j ≤ n) →
      child node (S i) c →
      extent_path n (eif "ei_leaf_lo" (entry_at node (S i))) c r lost →
      extent_path n a node r true
  | path_below a node r lost :
      node_ok node → several node → n < key node 0 → block_in D po bs a →
      extent_path n a (block_of D po bs a) r lost →
      extent_path n a node r lost.

(** The paths that come to a node of several children, chosen by its key, with a
    block below its first key: the node at [a] is that node itself. *)
Inductive path_loops (n : Z) : Z → list Z → Prop :=
  | loops_here a :
      node_ok (block_of D po bs a) → several (block_of D po bs a) →
      n < key (block_of D po bs a) 0 → block_in D po bs a →
      path_loops n a (block_of D po bs a)
  | loops_only a node c :
      node_ok node → node_depth node ≠ 0 → node_entries node = 1 →
      child node 0 c → path_loops n a c → path_loops n a node
  | loops_inner a node i c :
      node_ok node → node_depth node ≠ 0 → Z.of_nat (S i) < node_entries node →
      (∀ j, (j ≤ i)%nat → key node j ≤ n) → n < key node (S i) →
      child node i c → path_loops n (eif "ei_leaf_lo" (entry_at node i)) c →
      path_loops n a node
  | loops_below a node :
      node_ok node → several node → n < key node 0 → block_in D po bs a →
      path_loops n a (block_of D po bs a) → path_loops n a node.
End path.

(** ** Reading a node from a buffer *)

Lemma hdr_read node junk :
  node_ok node → 0 ≤ node_entries node → mem_read (node ++ junk) 0 EXTENT_SIZE = Some (take 12 node).
Proof.
  intros [Hr _] He. unfold EXTENT_SIZE. rewrite mem_read_prefix by len.
  change (Z.to_nat 12) with 12%nat. by rewrite take_app_le by lia.
Qed.

Lemma node_entries_nonneg node : node_ok node → 0 ≤ node_entries node.
Proof. intros [_ Hb]. apply fget_nonneg. by apply Forall_take. Qed.

Lemma entry_read node junk i :
  node_ok node → Z.of_nat i < node_entries node →
  extent_entry (node ++ junk) (Z.of_nat i) = Some (entry_at node i).
Proof.
  intros [Hr _] Hi. unfold extent_entry, EXTENT_SIZE, entry_at, mem_read.
  rewrite bool_decide_true by len. f_equal.
  replace (Z.to_nat (12 + 12 * Z.of_nat i)) with (12 + 12 * i)%nat by lia.
  change (Z.to_nat 12) with 12%nat.
  rewrite drop_app_le by lia. rewrite take_app_le by len. done.
Qed.

Lemma entry_at_bytes node i : node_ok node → bytes_ok (entry_at node i).
Proof. intros [_ Hb]. by apply Forall_take_drop. Qed.

(** ** The search *)

Section search.
Context (D : list Z) (po bs : Z) (sb : list Z) (Hd : ext4_device D po bs sb).
Context (n : Z) (Hn : 0 ≤ n < 2 ^ 32).

Lemma index_leaf_lo e : eif "ei_leaf_hi" e = 0 → ext4_extent_index_leaf e = eif "ei_leaf_lo" e.
Proof. intros E. unfold ext4_extent_index_leaf. by rewrite E. Qed.

Lemma extent_start_lo e : eef "ee_start_hi" e = 0 → ext4_extent_start e = eef "ee_start_lo" e.
Proof. intros E. unfold ext4_extent_start. by rewrite E. Qed.

(** One iteration, with the header read from the node. *)
Ltac iterate :=
  rewrite ?Nat.add_succ_l;
  match goal with
  | |- context [ext4_extent_search (S ?f)] =>
      let F := fresh "F" in
      remember f as F; cbn [ext4_extent_search]; subst F
  end;
  rewrite hdr_read by (done || by apply node_entries_nonneg); cbn [mbind option_bind];
  repeat match goal with
  | |- context [ehf "eh_entries" (take 12 ?m)] => fold (node_entries m)
  | |- context [ehf "eh_depth" (take 12 ?m)] => fold (node_depth m)
  end.

(** Entries whose key is not above [n] are passed over. *)
Lemma search_skip node junk disk idx fuel j :
  node_ok node → node_depth node ≠ 0 → 1 < node_entries node →
  Z.of_nat j ≤ node_entries node → (∀ k, (k < j)%nat → key node k ≤ n) →
  ext4_extent_search (j + fuel) disk po sb n 0 idx (node ++ junk) =
  ext4_extent_search fuel disk po sb n (Z.of_nat j)
    (match j with O => idx | S j => entry_at node j end) (node ++ junk).
Proof.
  intros Hok Hdep He. revert fuel. induction j as [|j IH]; intros fuel Hj Hk; [done|].
  rewrite Nat.add_succ_comm, IH by (lia || auto with lia).
  iterate. rewrite (proj2 (Z.ltb_lt _ _)) by lia.
  rewrite (proj2 (Z.eqb_neq (node_depth node) 0)) by done. cbn [negb].
  rewrite entry_read by (done || lia). cbn [mbind option_bind].
  rewrite (proj2 (Z.eqb_neq (node_entries node) 1)) by lia.
  fold (key node j). rewrite (proj2 (Z.ltb_ge n (key node j))) by (apply Hk; lia).
  cbn [andb]. f_equal. lia.
Qed.

(** The entries of a leaf are tried in order. *)
Lemma search_leaf node junk disk idx i fuel :
  node_ok node → node_depth node = 0 →
  Forall (λ e, eef "ee_block" e + eef "ee_len" e < 2 ^ 32) (entries_of node) →
  let m := Z.to_nat (node_entries node) in
  (i ≤ m)%nat →
  ext4_extent_search (S (m - i) + fuel) disk po sb n (Z.of_nat i) idx (node ++ junk) =
  Some (disk, node ++ junk, List.find (covers n) (entry_at node <$> seq i (m - i))).
Proof.
  intros Hok Hdep Hw m Him. pose proof (node_entries_nonneg _ Hok).
  remember (m - i)%nat as c eqn:Ec. revert i Him Ec. induction c as [|c IH]; intros i Him Ec; iterate.
  { by rewrite (proj2 (Z.ltb_ge _ _)) by lia. }
  rewrite (proj2 (Z.ltb_lt _ _)), Hdep by lia. cbn [Z.eqb negb].
  rewrite entry_read by (done || lia). cbn [mbind option_bind].
  assert (extent_covers (entry_at node i) n = covers n (entry_at node i)) as ->.
  { unfold extent_covers, covers. f_equal. f_equal. apply uwrap_small.
    pose proof (fget_nonneg ext4_extent "ee_block" _ (entry_at_bytes node i Hok)).
    pose proof (fget_nonneg ext4_extent "ee_len" _ (entry_at_bytes node i Hok)).
    split; [lia|]. apply (Forall_lookup_1 (λ e, eef "ee_block" e + eef "ee_len" e < 2 ^ 32)
      (entries_of node) i); [done|].
    unfold entries_of. by rewrite list_lookup_fmap, lookup_seq_lt by lia. }
  cbn [seq fmap list_fmap List.find].
  destruct (covers n (entry_at node i)); [done|].
  replace (Z.of_nat i + 1) with (Z.of_nat (S i)) by lia. apply IH; lia.
Qed.

Lemma child_ok node i c disk buf :
  child D po bs node i c → f_data disk = D → zlen buf = bs →
  zlen c = bs ∧ ∃ disk', f_data disk' = D ∧
    ext4_read_block disk po sb (ext4_extent_index_leaf (entry_at node i)) buf
    = Some (disk', c, 0).
Proof.
  intros (Eh & Hin & ->) HD Hb. rewrite index_leaf_lo by done.
  split; [by eapply length_block_of|]. by apply read_block_ok.
Qed.

(** [idx] at the start of a node. *)
Record names (idx : list Z) (a : Z) : Prop := {
  nm_len : zlen idx = 12;
  nm_hi : eif "ei_leaf_hi" idx = 0;
  nm_lo : eif "ei_leaf_lo" idx = a;
  nm_block : eif "ei_block" idx = 0;
}.

Lemma idx_start_drop idx : zlen idx = 12 → idx_start idx = [0; 0; 0; 0] ++ drop 4 idx.
Proof. intros Hl. do 4 (destruct idx as [|? idx]; [by cbn in Hl|]). by destruct idx. Qed.

Lemma names_start idx a :
  zlen idx = 12 → eif "ei_leaf_hi" idx = 0 → eif "ei_leaf_lo" idx = a → names (idx_start idx) a.
Proof.
  intros Hl Hh Ha. rewrite idx_start_drop by done.
  do 12 (destruct idx as [|? idx]; [by cbn in Hl|]).
  destruct idx; [|cbn in Hl; lia]. split; done.
Qed.

Lemma names_again idx a : names idx a → names (idx_start idx) a.
Proof. intros []. by apply names_start. Qed.

Lemma names_first : names (idx_start (replicate 12 0)) 0.
Proof. by split. Qed.

Lemma names_entry node i :
  node_ok node → Z.of_nat i < node_entries node → eif "ei_leaf_hi" (entry_at node i) = 0 →
  names (idx_start (entry_at node i)) (eif "ei_leaf_lo" (entry_at node i)).
Proof.
  intros [Hr _] Hi Hh. apply names_start; [|done|done]. unfold entry_at. len.
Qed.

(** The steps of the search that go on in another block. *)
Lemma step_only node c junk disk idx :
  node_ok node → node_depth node ≠ 0 → node_entries node = 1 → child D po bs node 0 c →
  f_data disk = D → zlen (node ++ junk) = bs →
  ∃ disk', f_data disk' = D ∧ ∀ fuel,
    ext4_extent_search (S fuel) disk po sb n 0 idx (node ++ junk)
    = ext4_extent_search fuel disk' po sb n 0 (idx_start idx) c.
Proof.
  intros Hok Hdep He Hc HD Hb.
  destruct (child_ok _ _ _ disk _ Hc HD Hb) as (Hl & d & Ed & Er).
  exists d. split; [done|]. intros fuel. cbn [ext4_extent_search Nat.add].
  rewrite hdr_read by (done || lia). cbn [mbind option_bind].
  fold (node_entries node) (node_depth node). rewrite He. cbn [Z.ltb Z.compare Z.eqb Pos.eqb].
  rewrite (proj2 (Z.eqb_neq _ _)) by done. cbn [negb].
  pose proof (entry_read node junk 0 Hok ltac:(lia)) as E0.
  change (Z.of_nat 0) with 0 in E0. rewrite E0. cbn [mbind option_bind]. by rewrite Er.
Qed.

Lemma step_inner node i c junk disk idx :
  node_ok node → node_depth node ≠ 0 → Z.of_nat (S i) < node_entries node →
  (∀ j, (j ≤ i)%nat → key node j ≤ n) → n < key node (S i) → child D po bs node i c →
  f_data disk = D → zlen (node ++ junk) = bs →
  ∃ disk', f_data disk' = D ∧ ∀ fuel,
    ext4_extent_search (S i + S fuel) disk po sb n 0 idx (node ++ junk)
    = ext4_extent_search fuel disk' po sb n 0 (idx_start (entry_at node i)) c.
Proof.
  intros Hok Hdep He Hk Hkn Hc HD Hb.
  destruct (child_ok _ _ _ disk _ Hc HD Hb) as (Hl & d & Ed & Er).
  exists d. split; [done|]. intros fuel.
  rewrite search_skip by (done || lia || (intros; apply Hk; lia)).
  iterate. rewrite (proj2 (Z.ltb_lt _ _)) by lia.
  rewrite (proj2 (Z.eqb_neq (node_depth node) 0)) by done. cbn [negb].
  rewrite entry_read by (done || lia). cbn [mbind option_bind].
  rewrite (proj2 (Z.eqb_neq (node_entries node) 1)) by lia.
  fold (key node (S i)) (key node i).
  rewrite (proj2 (Z.ltb_lt n _)), (proj2 (Z.leb_le _ n)) by (done || (apply Hk; lia)).
  cbn [andb]. by rewrite Er.
Qed.

Lemma step_below node a junk disk idx :
  node_ok node → several node → n < key node 0 → block_in D po bs a → names idx a →
  f_data disk = D → zlen (node ++ junk) = bs →
  ∃ disk', f_data disk' = D ∧ ∀ fuel,
    ext4_extent_search (S fuel) disk po sb n 0 idx (node ++ junk)
    = ext4_extent_search fuel disk' po sb n 0 (idx_start idx) (block_of D po bs a).
Proof.
  intros Hok [Hdep He] Hk Hin [Hl Hh Ha Hz] HD Hb.
  destruct (read_block_ok D po bs sb Hd disk a (node ++ junk) HD Hin Hb) as (d & Ed & Er).
  exists d. split; [done|]. intros fuel. iterate. rewrite (proj2 (Z.ltb_lt _ _)) by lia.
  rewrite (proj2 (Z.eqb_neq (node_depth node) 0)) by done. cbn [negb].
  pose proof (entry_read node junk 0 Hok ltac:(lia)) as E0.
  change (Z.of_nat 0) with 0 in E0. rewrite E0. cbn [mbind option_bind].
  rewrite (proj2 (Z.eqb_neq (node_entries node) 1)) by lia. fold (key node 0).
  rewrite Hz, (proj2 (Z.ltb_lt n _)), (proj2 (Z.leb_le _ n)) by (done || lia).
  cbn [andb]. rewrite index_leaf_lo, Ha by done. by rewrite Er.
Qed.

(** The search from [node] ends, with the extent of the path unless it is lost. *)
Definition search_ends (a : Z) (node : list Z) (r : option (list Z)) : Prop :=
  ∀ disk idx junk, f_data disk = D → zlen (node ++ junk) = bs → names idx a →
  ∃ fuel0, ∀ fuel, ∃ disk' buf', f_data disk' = D ∧ zlen buf' = bs ∧
    ext4_extent_search (fuel0 + fuel) disk po sb n 0 idx (node ++ junk) = Some (disk', buf', r).

(** One step that goes on in the block [c]. *)
Lemma search_into a c r disk disk' idx idx' buf k :
  search_ends a c r → f_data disk' = D → zlen c = bs → names idx' a →
  (∀ fuel, ext4_extent_search (k + fuel) disk po sb n 0 idx buf
           = ext4_extent_search fuel disk' po sb n 0 idx' c) →
  ∃ fuel0, ∀ fuel, ∃ disk' buf', f_data disk' = D ∧ zlen buf' = bs ∧
    ext4_extent_search (fuel0 + fuel) disk po sb n 0 idx buf = Some (disk', buf', r).
Proof.
  intros Hs HD Hc Hn' E. destruct (Hs disk' idx' [] HD) as [f0 Hf];
    [by rewrite app_nil_r|done|].
  rewrite app_nil_r in Hf. exists (k + f0)%nat. intros fuel. rewrite <-Nat.add_assoc, E. apply Hf.
Qed.

Lemma length_child node i c : child D po bs node i c → zlen c = bs.
Proof. intros (_ & Hin & ->). by eapply length_block_of. Qed.

Lemma search_last a node i :
  node_ok node → node_depth node ≠ 0 → Z.of_nat (S (S i)) = node_entries node →
  (∀ j, (j ≤ S i)%nat → key node j ≤ n) → search_ends a node None.
Proof.
  intros Hok Hdep He Hk disk idx junk HD Hb _.
  exists (S (S i) + 1)%nat. intros fuel. rewrite <-Nat.add_assoc.
  rewrite search_skip by (done || lia || (intros; apply Hk; lia)).
  iterate. rewrite (proj2 (Z.ltb_ge _ _)) by lia.
  by exists disk, (node ++ junk).
Qed.

Lemma search_path a node r lost :
  extent_path D po bs n a node r lost → search_ends a node (if lost then None else r).
Proof.
  induction 1 as [a node Hok Hdep Hw|a node c r lost Hok Hdep He Hc _ IH
    |a node i c r lost Hok Hdep He Hk Hkn Hc _ IH| |a node r lost Hok Hs Hk Hin _ IH].
  - intros disk idx junk HD Hb _. exists (S (Z.to_nat (node_entries node))). intros fuel.
    exists disk, (node ++ junk). split; [done|]. split; [done|].
    pose proof (search_leaf node junk disk idx 0 fuel Hok Hdep Hw ltac:(lia)) as E.
    rewrite Nat.sub_0_r in E. exact E.
  - intros disk idx junk HD Hb Hi.
    destruct (step_only node c junk disk idx) as (d & Ed & E); [done..|].
    eapply (search_into a c _ disk d _ (idx_start idx) _ 1);
      [done..|by eapply length_child|by apply names_again|exact E].
  - intros disk idx junk HD Hb Hi.
    destruct (step_inner node i c junk disk idx) as (d & Ed & E); [done..|].
    eapply (search_into _ c _ disk d _ (idx_start (entry_at node i)) _ (S i + 1));
      [done..|by eapply length_child|apply names_entry; [done|lia|apply Hc]|].
    intros fuel. rewrite <-Nat.add_assoc. apply E.
  - by eapply search_last.
  - intros disk idx junk HD Hb Hi.
    destruct (step_below node a junk disk idx) as (d & Ed & E); [done..|].
    eapply (search_into a (block_of D po bs a) _ disk d _ (idx_start idx) _ 1);
      [done..|by eapply length_block_of|by apply names_again|exact E].
Qed.

(** On the other paths there is no end. *)
Lemma search_loops a node :
  path_loops D po bs n a node →
  ∀ fuel disk idx junk, f_data disk = D → zlen (node ++ junk) = bs → names idx a →
  ext4_extent_search fuel disk po sb n 0 idx (node ++ junk) = None.
Proof.
  induction 1 as [a Hok Hs Hk Hin|a node c Hok Hdep He Hc _ IH
    |a node i c Hok Hdep He Hk Hkn Hc _ IH|a node Hok Hs Hk Hin _ IH].
  - induction fuel as [|fuel IH]; intros disk idx junk HD Hb Hi; [done|].
    destruct (step_below (block_of D po bs a) a junk disk idx) as (d & Ed & E); [done..|].
    rewrite E. rewrite <-(app_nil_r (block_of D po bs a)).
    apply IH; [done|rewrite app_nil_r; by eapply length_block_of|by apply names_again].
  - intros [|fuel] disk idx junk HD Hb Hi; [done|].
    destruct (step_only node c junk disk idx) as (d & Ed & E); [done..|].
    rewrite E, <-(app_nil_r c).
    apply IH; [done|rewrite app_nil_r; by eapply length_child|by apply names_again].
  - intros fuel disk idx junk HD Hb Hi.
    destruct (decide (fuel ≤ S i)%nat) as [Hf|Hf].
    { rewrite <-(Nat.add_0_r fuel).
      by rewrite search_skip by (done || lia || (intros; apply Hk; lia)). }
    destruct (step_inner node i c junk disk idx) as (d & Ed & E); [done..|].
    replace fuel with (S i + S (fuel - S (S i)))%nat by lia. rewrite E, <-(app_nil_r c).
    apply IH; [done|rewrite app_nil_r; by eapply length_child|
      apply names_entry; [done|lia|apply Hc]].
  - intros [|fuel] disk idx junk HD Hb Hi; [done|].
    destruct (step_below node a junk disk idx) as (d & Ed & E); [done..|].
    rewrite E, <-(app_nil_r (block_of D po bs a)).
    apply IH; [done|rewrite app_nil_r; by eapply length_block_of|by apply names_again].
Qed.

(** The extent of a path maps the block. *)
Lemma path_extent a node r lost e :
  extent_path D po bs n a node r lost → r = Some e → covers n e = true ∧ bytes_ok e.
Proof.
  intros Hp. revert e. induction Hp as [a node Hok Hdep Hw| | | |]; [|done..].
  intros e [Hin Hc]%find_some. split; [done|]. unfold entries_of in Hin.
  apply in_map_iff in Hin as (i & <- & _). by apply entry_at_bytes.
Qed.

(** Reading the block an extent gives. *)
Lemma extent_address e :
  covers n e = true → bytes_ok e → eef "ee_start_hi" e = 0 →
  let addr := eef "ee_start_lo" e + (n - eef "ee_block" e) in
  u64 (ext4_extent_start e + u32 (n - eef "ee_block" e)) = addr ∧ 0 ≤ addr < 2 ^ 40.
Proof.
  unfold covers. intros [Hl _]%andb_prop Hb He. apply Z.leb_le in Hl.
  rewrite extent_start_lo by done.
  pose proof (fget_range ext4_extent "ee_start_lo" e 8 4 Hb eq_refl) as Hs.
  change (8 * Z.of_nat 4) with 32 in Hs.
  pose proof (fget_nonneg ext4_extent "ee_block" e Hb).
  rewrite (uwrap_small 32) by lia. split; [apply uwrap_small; lia|lia].
Qed.

(** The root of the tree in the buffer of the search. *)
Lemma root_written inode buf :
  zlen inode = INODE_SIZE → zlen buf = bs →
  mem_write buf 0 (fbytes ext4_inode "i_block" inode)
  = Some (fbytes ext4_inode "i_block" inode ++ drop 60 buf) ∧
  zlen (fbytes ext4_inode "i_block" inode ++ drop 60 buf) = bs.
Proof.
  intros Hi Hb. pose proof (length_i_block inode Hi) as Hl.
  pose proof (bs_bounds _ _ _ _ Hd). split; [|len].
  pose proof (mem_write_app [] (take 60 buf) (fbytes ext4_inode "i_block" inode) (drop 60 buf)
    0 eq_refl) as W.
  cbn [app] in W. rewrite take_drop in W. apply W. len.
Qed.
End search.

(** ** Properties *)

(** C11: the extent lookups end on every path of a tree, with the block the path
    gives: the data of the extent that maps the block (zeros for a hole) and its
    sector. Every block that is reached through the last child of a node with
    several children is lost: it reads as zeros, at sector 0. A block below the
    first key of a node of several children, a hole by the tree, is looked up in
    another block instead: in block 0 of the volume where no child has been
    chosen by its key yet, and otherwise in the child chosen last, where the
    lookups never end if that is the node itself. *)
Theorem ext4_extent_block_spec `{MallocTotal} D po bs sb disk inode buf n :
  ext4_device D po bs sb → f_data disk = D → zlen buf = bs → zlen inode = INODE_SIZE →
  0 ≤ n < 2 ^ 32 →
  let root := fbytes ext4_inode "i_block" inode in
  let data fuel := ext4_read_extent_block fuel disk po sb n inode buf in
  let sector fuel := ext4_sector_extent_block fuel disk po sb n inode in
  (∀ r lost, extent_path D po bs n 0 root r lost →
   ∃ fuel0, ∀ fuel,
   match (if lost then None else r) with
   | Some e =>
       let addr := eef "ee_start_lo" e + (n - eef "ee_block" e) in
       eef "ee_start_hi" e = 0 → block_in D po bs addr →
       (∃ d, data (fuel0 + fuel)%nat = Some (d, block_of D po bs addr, 0)) ∧
       (∃ d, sector (fuel0 + fuel)%nat = Some (d, sector_of po bs addr))
   | None =>
       (∃ d, data (fuel0 + fuel)%nat = Some (d, replicate (Z.to_nat bs) 0, 0)) ∧
       (∃ d, sector (fuel0 + fuel)%nat = Some (d, 0))
   end) ∧
  (path_loops D po bs n 0 root → ∀ fuel, data fuel = None ∧ sector fuel = None).
Proof.
  intros Hd HD Hb Hi Hn root data sector. pose proof (bs_bounds _ _ _ _ Hd) as Hbs.
  destruct (malloc_total bs) as [m Em]; [lia|]. pose proof (malloc_length _ _ Em) as Hm.
  destruct (root_written D po bs sb Hd inode buf Hi Hb) as [W1 L1].
  destruct (root_written D po bs sb Hd inode m Hi Hm) as [W2 L2].
  unfold data, sector, ext4_read_extent_block, ext4_sector_extent_block, local_block.
  rewrite (ed_block_size _ _ _ _ Hd). cbn [mbind option_bind].
  rewrite Em. cbn [mbind option_bind]. rewrite W1, W2. cbn [mbind option_bind]. split.
  2: { intros Hp fuel.
    by rewrite !(search_loops D po bs sb Hd n Hn 0 root Hp) by (done || apply names_first). }
  intros r lost Hp. pose proof (search_path D po bs sb Hd n Hn 0 _ _ _ Hp) as Hs.
  destruct (Hs disk _ _ HD L1 names_first) as [f1 H1].
  destruct (Hs disk _ _ HD L2 names_first) as [f2 H2].
  exists (f1 + f2)%nat. intros fuel.
  destruct (H1 (f2 + fuel)%nat) as (d1 & b1 & Ed1 & Hl1 & E1).
  destruct (H2 (f1 + fuel)%nat) as (d2 & b2 & Ed2 & Hl2 & E2).
  rewrite Nat.add_assoc in E1. rewrite Nat.add_assoc, (Nat.add_comm f2) in E2.
  fold root. rewrite E1, E2. cbn [mbind option_bind].
  destruct (if lost then None else r) as [e|] eqn:Er.
  - set (addr := eef "ee_start_lo" e + (n - eef "ee_block" e)). intros He Hin.
    destruct (path_extent D po bs n 0 _ _ _ e Hp) as [Hc Hbe]; [by destruct lost|].
    destruct (extent_address n Hn e Hc Hbe He) as [Ea Ha].
    fold addr in Ea, Ha. rewrite Ea.
    destruct (read_block_ok D po bs sb Hd d1 addr b1 Ed1 Hin Hl1) as (d & _ & ->).
    destruct (sector_from_block_ok D po bs sb addr Hd Ha) as [-> Hs0].
    cbn [mbind option_bind]. rewrite uwrap_small by lia. eauto.
  - pose proof (mem_write_app [] b1 (replicate (Z.to_nat bs) 0) [] 0 eq_refl) as W.
    cbn [app] in W. rewrite !app_nil_r in W. rewrite W by len. cbn [mbind option_bind]. eauto.
Qed.

(** An inode with an index root of two children: block 1 holds the extents of
    the blocks below 8, block 0 those from 8 on. *)
Definition witness_leaf : list Z :=
  [0x0a; 0xf3; 1; 0; 4; 0; 0; 0; 0; 0; 0; 0] ++ [0; 0; 0; 0; 8; 0; 0; 0; 2; 0; 0; 0].

Definition witness_extent_device : list Z :=
  replicate 1024 0 ++ (witness_leaf ++ replicate 1000 0) ++ replicate 1024 7 ++
  replicate 1024 9.

Definition witness_extent_inode : list Z :=
  replicate 40 0 ++ [0x0a; 0xf3; 2; 0; 4; 0; 1; 0; 0; 0; 0; 0] ++
  [0; 0; 0; 0; 1; 0; 0; 0; 0; 0; 0; 0] ++ [8; 0; 0; 0; 0; 0; 0; 0; 0; 0; 0; 0] ++
  replicate 80 0.

Lemma witness_extent_device_ok : ext4_device witness_extent_device 0 1024 witness_sb.
Proof.
  split; [by vm_compute|by exists 10|split; [done|]; unfold witness_extent_device, witness_leaf; len|
    apply (bool_decide_unpack _); by vm_compute|unfold witness_extent_device, witness_leaf; len].
Qed.

(** The tree's block 1 with two children, for the blocks from 4 and from 6 on:
    the blocks below 4 have no place. *)
Definition witness_gap_device : list Z :=
  replicate 1024 0 ++
  ([0x0a; 0xf3; 2; 0; 4; 0; 1; 0; 0; 0; 0; 0] ++ [4; 0; 0; 0; 2; 0; 0; 0; 0; 0; 0; 0] ++
   [6; 0; 0; 0; 2; 0; 0; 0; 0; 0; 0; 0] ++ replicate 988 0) ++
  (witness_leaf ++ replicate 1000 0).

Definition witness_gap_node : list Z := block_of witness_gap_device 0 1024 1.

Lemma witness_gap_device_ok : ext4_device witness_gap_device 0 1024 witness_sb.
Proof.
  split; [by vm_compute|by exists 10|split; by vm_compute|
    apply (bool_decide_unpack _); by vm_compute|by vm_compute].
Qed.

Ltac closed_node :=
  split; [by vm_compute|apply (bool_decide_unpack _); by vm_compute].

Lemma ext4_extent_block_spec_witness :
  (∃ fuel d, ext4_read_extent_block fuel (file_of witness_extent_device) 0 witness_sb 1
     witness_extent_inode witness_sb = Some (d, replicate 1024 9, 0)) ∧
  (∀ fuel, ext4_read_extent_block fuel (file_of witness_gap_device) 0 witness_sb 1
     witness_extent_inode witness_sb = None).
Proof.
  split.
  - destruct (ext4_extent_block_spec witness_extent_device 0 1024 witness_sb
      (file_of witness_extent_device) witness_extent_inode witness_sb 1) as [Hf _];
      [apply witness_extent_device_ok|done|done|done|lia|].
    destruct (Hf (Some (entry_at witness_leaf 0)) false) as [f0 Hf0].
    + eapply (path_inner _ _ _ _ _ _ 0).
      * closed_node.
      * by vm_compute.
      * by vm_compute.
      * intros j Hj. assert (j = 0%nat) as -> by lia. by vm_compute.
      * by vm_compute.
      * split; [by vm_compute|]. split; [split; by vm_compute|reflexivity].
      * eapply eq_rect with (P := λ r, extent_path witness_extent_device 0 1024 1 _ _ r false).
        -- apply path_leaf; [closed_node|by vm_compute|].
           apply (bool_decide_unpack _). by vm_compute.
        -- by vm_compute.
    + destruct (Hf0 0%nat) as [[d E] _]; [by vm_compute|split; by vm_compute|].
      exists (f0 + 0)%nat, d. rewrite E. f_equal.
  - destruct (ext4_extent_block_spec witness_gap_device 0 1024 witness_sb
      (file_of witness_gap_device) witness_extent_inode witness_sb 1) as [_ Hloop];
      [apply witness_gap_device_ok|done|done|done|lia|].
    intros fuel. apply Hloop. eapply (loops_inner _ _ _ _ _ _ 0).
    + closed_node.
    + by vm_compute.
    + by vm_compute.
    + intros j Hj. assert (j = 0%nat) as -> by lia. by vm_compute.
    + by vm_compute.
    + split; [by vm_compute|]. split; [split; by vm_compute|reflexivity].
    + change (eif "ei_leaf_lo" _) with 1.
      apply (loops_here witness_gap_device 0 1024 1 1);
        [closed_node|split; by vm_compute|by vm_compute|split; by vm_compute].
Defined.
