(* ===== verification/Ext4Groups.v ===== *)
(** * Probing an ext4 file system and caching its block groups *)
From S2P Require Import Prelude Words Memory Struct Stdio Bitarray PartTable Ext4 Ext4Blocks Ext4Props.

(** ** The table of block group descriptors *)

Section groups.
Context (D : list Z) (po bs : Z) (sb : list Z) (Hd : ext4_device D po bs sb).

(** Where the table starts on the device, and its [g]-th descriptor. *)
Definition table_start : Z := po + u32 (sbf "s_first_data_block" sb + 1) * bs.
Definition descriptor (g : Z) : list Z :=
  take 32 (drop (Z.to_nat (table_start + BGD_SIZE * g)) D).
Definition descriptors (g : nat) : list Z :=
  concat ((λ i, descriptor (Z.of_nat i)) <$> seq 0 g).

Lemma length_descriptor g :
  0 ≤ g → table_start + BGD_SIZE * (g + 1) ≤ zlen D → length (descriptor g) = 32%nat.
Proof.
  intros Hg Hl. unfold descriptor, BGD_SIZE in *. pose proof (bs_bounds _ _ _ _ Hd).
  pose proof (uwrap_range 32 (sbf "s_first_data_block" sb + 1) ltac:(lia)).
  destruct Hd as [_ _ Hp _ _].
  assert (0 ≤ table_start) by (unfold table_start; nia). len.
Qed.

Lemma length_descriptors g :
  table_start + BGD_SIZE * Z.of_nat g ≤ zlen D → length (descriptors g) = (32 * g)%nat.
Proof.
  unfold BGD_SIZE. induction g as [|g IH]; intros Hl; [done|].
  unfold descriptors in *. rewrite seq_S, fmap_app, concat_app, length_app, IH by lia.
  simpl. rewrite app_nil_r, length_descriptor; unfold BGD_SIZE; lia.
Qed.

Lemma descriptors_S g : descriptors (S g) = descriptors g ++ descriptor (Z.of_nat g).
Proof.
  unfold descriptors. rewrite seq_S, fmap_app, concat_app. simpl. by rewrite app_nil_r.
Qed.

Lemma descriptors_app g h : ∃ r, descriptors (g + h) = descriptors g ++ r.
Proof.
  unfold descriptors. rewrite seq_app, fmap_app, concat_app. by eexists.
Qed.

(** Reading a descriptor from the disk. *)
Lemma read_bgd_disk disk g bgd :
  f_data disk = D → zlen bgd = BGD_SIZE → 0 ≤ g < 2 ^ 32 →
  table_start + BGD_SIZE * (g + 1) ≤ zlen D →
  ∃ disk', f_data disk' = D ∧
    ext4_read_bgd disk po sb g bgd PNull = Some (disk', descriptor g, 0).
Proof.
  intros HD Hb Hg Hl. pose proof (length_descriptor g ltac:(lia) Hl) as Hlen.
  unfold ext4_read_bgd. pose proof (bs_bounds _ _ _ _ Hd).
  pose proof (uwrap_range 32 (sbf "s_first_data_block" sb + 1) ltac:(lia)) as Hu.
  destruct Hd as [Hs _ Hp _ HL]. rewrite Hs. cbn [mbind option_bind is_null negb].
  unfold bgd_table_offset. unfold table_start, BGD_SIZE in *.
  set (fb := u32 (sbf "s_first_data_block" sb + 1)) in *.
  assert (0 ≤ fb * bs ≤ 2 ^ 32 * 65536) by nia.
  rewrite (uwrap_small 64 (fb * bs)), (uwrap_small 64 (g * 32)) by lia.
  rewrite (uwrap_small 64 (fb * bs + g * 32)) by lia.
  rewrite (uwrap_small 64 (po + (fb * bs + g * 32))) by lia.
  unfold fseeko. rewrite (swrap_small 64) by lia.
  rewrite (proj2 (Z.ltb_ge _ _)) by lia. cbn [Z.eqb negb]. unfold fread. cbn [f_data f_pos].
  rewrite HD. change (Z.to_nat 32) with 32%nat.
  replace (po + (fb * bs + g * 32)) with (table_start + BGD_SIZE * g)
    by (unfold table_start, BGD_SIZE; fold fb; lia).
  fold (descriptor g).
  pose proof (mem_write_app [] bgd (descriptor g) [] 0 eq_refl) as W.
  cbn [app] in W. rewrite !app_nil_r in W. rewrite W by lia. cbn [mbind option_bind].
  rewrite Hlen. eexists. split; [|done]. done.
Qed.

(** The loop fills the cache with the descriptors, one after the other. *)
Lemma cache_bgds_loop_ok groups k disk rest fuel :
  let i := (groups - k)%nat in
  (k ≤ groups)%nat → Z.of_nat groups < 2 ^ 32 → f_data disk = D →
  table_start + BGD_SIZE * Z.of_nat groups ≤ zlen D → length rest = (32 * k)%nat →
  ∃ disk', f_data disk' = D ∧
    cache_bgds_loop (S k + fuel) disk po sb (Z.of_nat groups) (Z.of_nat i)
      (BGD_SIZE * Z.of_nat i) (descriptors i ++ rest) = Some (disk', descriptors groups).
Proof.
  revert disk rest. induction k as [|k IH]; intros disk rest i Hk Hg HD Hl Hr;
    rewrite Nat.add_succ_l; match goal with |- context [S ?f] => remember f as F eqn:EF end;
    cbn [cache_bgds_loop].
  { destruct rest; [|done]. rewrite (proj2 (Z.ltb_ge _ _)) by lia. exists disk.
    rewrite app_nil_r. unfold i. by rewrite Nat.sub_0_r. }
  assert (i + S k = groups)%nat as Hi by (unfold i; lia). clearbody i.
  rewrite (proj2 (Z.ltb_lt _ _)) by lia.
  pose proof (length_descriptors i) as Hld. unfold BGD_SIZE in *.
  rewrite <-(take_drop 32 rest).
  rewrite mem_read_app by len. cbn [mbind option_bind].
  destruct (read_bgd_disk disk (Z.of_nat i) (take 32 rest) HD) as (d & Ed & ->);
    [unfold BGD_SIZE; len|lia|unfold BGD_SIZE; lia|].
  cbn [mbind option_bind].
  rewrite mem_write_app; [|len|rewrite length_descriptor by (unfold BGD_SIZE; lia); len].
  cbn [mbind option_bind]. rewrite uwrap_small by lia.
  destruct (IH d (drop 32 rest)) as (d' & Ed' & E); [lia..|done|lia|len|].
  exists d'. split; [done|]. replace (groups - k)%nat with (S i) in E by lia.
  rewrite descriptors_S, <-app_assoc in E. rewrite <-E, EF. f_equal; lia.
Qed.
End groups.

(** ** Features *)

(** [z] has a feature bit that the mask [supp] does not list. *)
Definition feature_beyond (supp z : Z) : Prop :=
  ∃ i, 0 ≤ i ∧ Z.testbit z i = true ∧ Z.testbit supp i = false.

Lemma feature_beyond_land supp z :
  0 ≤ z → feature_beyond supp z ↔ Z.land z (Z.lnot supp) ≠ 0.
Proof.
  intros Hz. split.
  - intros (i & Hi & Ht & Hs) E. assert (Z.testbit (Z.land z (Z.lnot supp)) i = true) as Hb.
    { by rewrite Z.land_spec, Z.lnot_spec, Ht, Hs. }
    by rewrite E, Z.bits_0 in Hb.
  - intros Hne. assert (0 ≤ Z.land z (Z.lnot supp)) as Hnn by (apply Z.land_nonneg; by left).
    pose proof (Z.bit_log2 (Z.land z (Z.lnot supp)) ltac:(lia)) as Hb.
    pose proof (Z.log2_nonneg (Z.land z (Z.lnot supp))).
    rewrite Z.land_spec, Z.lnot_spec in Hb by done. apply andb_prop in Hb as [H1 H2].
    eexists. split; [done|]. split; [exact H1|]. by apply negb_true_iff.
Qed.

(** ** Properties *)

(** C30: [ext4_cache_bgds] terminates after one round per block group, and the
    cache stands for the table on the disk: for every group of the partition
    [ext4_read_bgd] gives the same descriptor from the cache as from the disk. *)
Theorem ext4_cache_bgds_spec `{MallocTotal} D po bs sb disk groups :
  ext4_device D po bs sb → f_data disk = D →
  ext4_num_block_groups sb = Some (Z.of_nat groups) → Z.of_nat groups < 2 ^ 32 →
  table_start po bs sb + BGD_SIZE * Z.of_nat groups ≤ zlen D →
  ∃ disk' c, ext4_cache_bgds (S groups) disk po sb = Some (disk', PLive c, EXIT_SUCCESS) ∧
    ∀ g d bgd, 0 ≤ g < Z.of_nat groups → f_data d = D → zlen bgd = BGD_SIZE →
    ∃ d', ext4_read_bgd d po sb g bgd (PLive c) = Some (d, descriptor D po bs sb g, 0) ∧
          ext4_read_bgd d po sb g bgd PNull = Some (d', descriptor D po bs sb g, 0).
Proof.
  intros Hd HD Hg Hlt Hl. unfold ext4_cache_bgds. rewrite Hg. cbn [mbind option_bind].
  unfold BGD_SIZE in *. rewrite (uwrap_small 64) by lia.
  destruct (cmalloc_live (32 * Z.of_nat groups)) as (m & -> & Hm); [lia|].
  cbn [is_null deref mbind option_bind].
  destruct (cache_bgds_loop_ok D po bs sb Hd groups groups disk m 0) as (d & Ed & E);
    [lia|lia|done|done|lia|].
  rewrite Nat.sub_diag, Nat.add_0_r in E. change (BGD_SIZE * Z.of_nat 0) with 0 in E.
  change (Z.of_nat 0) with 0 in E. cbn [descriptors seq fmap list_fmap concat app] in E.
  rewrite E. cbn [mbind option_bind].
  exists d, (descriptors D po bs sb groups). split; [done|].
  intros g d1 bgd Hr HD1 Hb.
  destruct (read_bgd_disk D po bs sb Hd d1 g bgd HD1 Hb) as (d2 & Ed2 & E2);
    [lia|unfold BGD_SIZE; lia|].
  exists d2. split; [|done]. unfold ext4_read_bgd.
  rewrite (ed_block_size _ _ _ _ Hd). cbn [mbind option_bind is_null negb deref].
  destruct (descriptors_app D po bs sb (S (Z.to_nat g)) (groups - S (Z.to_nat g))) as [r Er].
  replace (S (Z.to_nat g) + (groups - S (Z.to_nat g)))%nat with groups in Er by lia.
  rewrite Er, descriptors_S, <-app_assoc, Z2Nat.id by lia.
  pose proof (length_descriptors D po bs sb Hd (Z.to_nat g) ltac:(unfold BGD_SIZE; lia)).
  pose proof (length_descriptor D po bs sb Hd g ltac:(lia) ltac:(unfold BGD_SIZE; lia)) as Hlen.
  rewrite mem_read_app; [done| |]; unfold BGD_SIZE; lia.
Qed.

(** Eight blocks in groups of four; the table is in block 1. *)
Definition witness_groups_sb : list Z :=
  replicate 4 0 ++ [8; 0; 0; 0] ++ replicate 24 0 ++ [4; 0; 0; 0] ++ replicate 988 0.

Definition witness_groups_device : list Z :=
  replicate 1024 0 ++ replicate 32 1 ++ replicate 32 2 ++ replicate 960 0.

Lemma witness_groups_device_ok : ext4_device witness_groups_device 0 1024 witness_groups_sb.
Proof.
  split; [by vm_compute|by exists 10|split; [done|]; unfold witness_groups_device; len|
    apply (bool_decide_unpack _); by vm_compute|unfold witness_groups_device; len].
Qed.

Lemma ext4_cache_bgds_spec_witness :
  ∃ disk' c, ext4_cache_bgds 3 (file_of witness_groups_device) 0 witness_groups_sb
             = Some (disk', PLive c, EXIT_SUCCESS) ∧
    ext4_read_bgd (file_of witness_groups_device) 0 witness_groups_sb 1 (replicate 32 0)
      (PLive c) = Some (file_of witness_groups_device, replicate 32 2, 0).
Proof.
  destruct (ext4_cache_bgds_spec witness_groups_device 0 1024 witness_groups_sb
    (file_of witness_groups_device) 2) as (d & c & E & Hc);
    [apply witness_groups_device_ok|done|by vm_compute|lia|by vm_compute|].
  exists d, c. split; [exact E|].
  destruct (Hc 1 (file_of witness_groups_device) (replicate 32 0)) as (_ & E1 & _);
    [lia|done|done|].
  rewrite E1. by vm_compute.
Defined.

(** [ext4_probe] reads the superblock 1024 bytes into the partition and
    accepts it exactly when it has the magic number, a read-only-compatible and
    an incompatible feature bit that ext3 does not know; a partition at offset 0
    is refused and a short read too. *)
Theorem ext4_probe_spec `{MallocTotal} disk f pre rest :
  bytes_ok rest → fs_pt_off f + 1024 < 2 ^ 63 →
  f_data disk = pre ++ rest → zlen pre = fs_pt_off f + 1024 →
  (zlen rest < 1024 ∨ fs_pt_off f = 0 →
     ∃ disk' f', ext4_probe disk f = Some (disk', f', -1)) ∧
  (∀ s r, rest = s ++ r → zlen s = 1024 → 0 < fs_pt_off f →
     ∃ disk' rc, ext4_probe disk f = Some (disk', set_fs_info (PLive s) f, rc) ∧
       (rc = 0 ∨ rc = -1) ∧
       (rc = 0 ↔ sbf "s_magic" s = 0xef53 ∧
                 feature_beyond EXT3_FEATURE_RO_COMPAT_SUPP (sbf "s_feature_ro_compat" s) ∧
                 feature_beyond EXT3_FEATURE_INCOMPAT_SUPP (sbf "s_feature_incompat" s))).
Proof.
  intros Hb Hr Ed Ep. unfold ext4_probe. change SUPERBLOCK_SIZE with 1024.
  destruct (cmalloc_live 1024) as (m & Em & Hm); [lia|]. rewrite Em.
  cbn [fs_info set_fs_info is_null deref mbind option_bind fs_pt_off].
  unfold fseeko, EXT4_SUPERBLOCK_OFFSET.
  rewrite (swrap_small 64 (fs_pt_off f + 1024)) by lia.
  rewrite (proj2 (Z.ltb_ge (fs_pt_off f + 1024) 0)) by lia. cbn [Z.eqb negb]. unfold fread.
  cbn [f_data f_pos]. rewrite Ed, <-Ep, Nat2Z.id, drop_app_length. split.
  - intros Hor. destruct (Z.eqb_spec (fs_pt_off f) 0); [by eauto|].
    destruct Hor as [Hs|?]; [|done]. rewrite take_ge by lia.
    destruct (mem_write_is_Some m 0 rest) as [m' ->]; [lia..|]. cbn [mbind option_bind].
    rewrite (proj2 (Z.eqb_neq (zlen rest) 1024)) by lia. cbn [negb]. by eauto.
  - intros s r -> Hs Hp. rewrite (proj2 (Z.eqb_neq (fs_pt_off f) 0)) by lia.
    rewrite (take_app_exact s r) by lia.
    pose proof (mem_write_app [] m s [] 0 eq_refl) as W.
    cbn [app] in W. rewrite !app_nil_r in W. rewrite W by lia. cbn [mbind option_bind].
    rewrite Hs, Z.eqb_refl. cbn [negb].
    apply Forall_app in Hb as [Hb _].
    pose proof (feature_beyond_land EXT3_FEATURE_RO_COMPAT_SUPP (sbf "s_feature_ro_compat" s)
      ltac:(by apply fget_nonneg)) as F1.
    pose proof (feature_beyond_land EXT3_FEATURE_INCOMPAT_SUPP (sbf "s_feature_incompat" s)
      ltac:(by apply fget_nonneg)) as F2.
    fold EXT3_FEATURE_RO_COMPAT_UNSUPPORTED in F1. fold EXT3_FEATURE_INCOMPAT_UNSUPPORTED in F2.
    repeat case_test; cbn [negb orb]; do 2 eexists; (split; [reflexivity|split; [by auto|]]);
      split; intros; try discriminate; tauto.
Qed.

Definition witness_ext4_sb : list Z :=
  replicate 56 0 ++ [0x53; 0xef] ++ replicate 38 0 ++ [0x42; 0; 0; 0] ++ [0x13; 0; 0; 0] ++
  replicate 920 0.

Definition witness_fs : fs :=
  {| fs_pte := 0; fs_pt_off := 512; icache := PNull; bcache := PNull; fs_info := PNull;
     fs_bits := {| ba_array := []; ba_len := 0 |} |}.

Lemma ext4_probe_spec_witness :
  ∃ disk', ext4_probe (file_of (replicate 1536 0 ++ witness_ext4_sb)) witness_fs
           = Some (disk', set_fs_info (PLive witness_ext4_sb) witness_fs, 0).
Proof.
  destruct (ext4_probe_spec (file_of (replicate 1536 0 ++ witness_ext4_sb)) witness_fs
    (replicate 1536 0) witness_ext4_sb) as [_ Hp].
  - apply (bool_decide_unpack _). by vm_compute.
  - done.
  - done.
  - by vm_compute.
  - destruct (Hp witness_ext4_sb []) as (d & rc & E & _ & Hrc);
      [by rewrite app_nil_r|by vm_compute|done|].
    exists d. rewrite E. do 2 f_equal. apply Hrc.
    split; [by vm_compute|]. split; [exists 4|exists 6]; repeat split; by vm_compute.
Defined.
