(* ===== verification/Ext4Files.v ===== *)
(** * The documents of an ext4 file system's files: src/gray-crawler/ext4/ext4.c

    The sectors of a file, as its extent tree or its block map gives them
    ([ext4_serialize_file_extent_sectors], [ext4_serialize_file_block_sectors],
    [ext4_serialize_file_sectors]), the walk over the directory tree
    ([ext4_serialize_tree]) and [ext4_serialize]. [k] bounds the rounds of
    every loop, the fuel of the walk the depth of the tree. *)
From S2P Require Import Prelude Words Memory Struct Stdio Bitarray Bson BsonEncode BsonDecode BsonFields PartTable Ext4 Ext4Blocks.

(** ** Definitions *)

(** What the sector functions work on: the disk, the metadata filter, and the
    arrays under construction; [data] and [extents] may be null. *)
Record sink := {
  sk_disk : FILE; sk_bits : bitarray;
  sk_sectors : bson_info; sk_data : option bson_info; sk_extents : option bson_info;
}.

Definition set_disk (d : FILE) (s : sink) : sink :=
  {| sk_disk := d; sk_bits := sk_bits s; sk_sectors := sk_sectors s; sk_data := sk_data s;
     sk_extents := sk_extents s |}.

Section ext4_files.
Context `{Malloc}.
Variable k : nat.

(** [bitarray_set_bit(bits, sector / block_size)] *)
Definition mark_sector (sector bs : Z) (s : sink) : option sink :=
  bit ← cdiv sector bs;
  b ← bitarray_set_bit (sk_bits s) bit;
  Some {| sk_disk := sk_disk s; sk_bits := b; sk_sectors := sk_sectors s;
          sk_data := sk_data s; sk_extents := sk_extents s |}.

Definition put_sector (v : bson_kv) (s : sink) : option sink :=
  '(b, _) ← bson_serialize (sk_sectors s) v;
  Some {| sk_disk := sk_disk s; sk_bits := sk_bits s; sk_sectors := b;
          sk_data := sk_data s; sk_extents := sk_extents s |}.

Definition put_data (v : bson_kv) (s : sink) : option sink :=
  b ← sk_data s; '(b, _) ← bson_serialize b v;
  Some {| sk_disk := sk_disk s; sk_bits := sk_bits s; sk_sectors := sk_sectors s;
          sk_data := Some b; sk_extents := sk_extents s |}.

Definition put_extent (v : bson_kv) (s : sink) : option sink :=
  b ← sk_extents s; '(b, _) ← bson_serialize b v;
  Some {| sk_disk := sk_disk s; sk_bits := sk_bits s; sk_sectors := sk_sectors s;
          sk_data := sk_data s; sk_extents := Some b |}.

(** Reads a block into [buf]; the result of [ext4_read_block] is ignored. *)
Definition read_into (po : Z) (sb : list Z) (block : Z) (buf : list Z) (s : sink) :
    option (sink * list Z) :=
  '(disk, buf, _) ← ext4_read_block (sk_disk s) po sb block buf; Some (set_disk disk s, buf).

(** [leaf * sectors_per_block + partition_offset / SECTOR_SIZE] *)
Definition leaf_sector (leaf spb po : Z) : Z := u64 (u64 (leaf * spb) + Z.quot po SECTOR_SIZE).

(** An index node that is read is itself an extent of the file. *)
Definition save_index (save_extents : bool) (block_num : Z) (idx : list Z) (spb po bs : Z)
    (s : sink) : option sink :=
  if save_extents && (block_num =? eif "ei_block" idx) then
    let sector := leaf_sector (ext4_extent_index_leaf idx) spb po in
    s ← mark_sector sector bs s;
    put_extent (fill_count BSON_INT64 sector (le_enc 8 sector) kv_indet) s
  else Some s.

Fixpoint extent_sectors_loop (fuel : nat) (po : Z) (sb : list Z) (bs block_num : Z)
    (save_data save_extents : bool) (i : Z) (idx buf : list Z) (s : sink) :
    option (sink * Z) :=
  match fuel with
  | O => None
  | S fuel =>
      let spb := bs `div` SECTOR_SIZE in
      hdr ← mem_read buf 0 EXTENT_SIZE;
      if i <? ehf "eh_entries" hdr then
        if negb (ehf "eh_depth" hdr =? 0) then
          idx2 ← extent_entry buf i;
          if ehf "eh_entries" hdr =? 1 then
            '(s, buf) ← read_into po sb (ext4_extent_index_leaf idx2) buf s;
            s ← save_index save_extents block_num idx2 spb po bs s;
            extent_sectors_loop fuel po sb bs block_num save_data save_extents 0
              (idx_start idx) buf s
          else if (block_num <? eif "ei_block" idx2) && (eif "ei_block" idx <=? block_num) then
            '(s, buf) ← read_into po sb (ext4_extent_index_leaf idx) buf s;
            s ← save_index save_extents block_num idx spb po bs s;
            extent_sectors_loop fuel po sb bs block_num save_data save_extents 0
              (idx_start idx) buf s
          else extent_sectors_loop fuel po sb bs block_num save_data save_extents (i + 1)
                 idx2 buf s
        else
          extent ← extent_entry buf i;
          if extent_covers extent block_num then
            let n := u32 (block_num - eef "ee_block" extent) in
            let block := u64 (ext4_extent_start extent + n) in
            let sector := u64 (u64 (block * bs) + po) `div` SECTOR_SIZE in
            s ← put_sector (fill_count BSON_INT32 (u32 (n + eef "ee_block" extent))
                              (le_enc 8 sector) kv_indet) s;
            if save_data then
              s ← mark_sector sector bs s;
              '(s, buf) ← read_into po sb block buf s;
              s ← put_data (fill_count_bin sector bs buf kv_indet) s;
              Some (s, 0)
            else Some (s, 0)
          else extent_sectors_loop fuel po sb bs block_num save_data save_extents (i + 1)
                 idx buf s
      else Some (s, -1)
  end.

Definition ext4_serialize_file_extent_sectors (po : Z) (sb : list Z) (block_num : Z)
    (inode : list Z) (save_data save_extents : bool) (s : sink) : option (sink * Z) :=
  bs ← ext4_block_size sb;
  buf ← local_block bs;
  buf ← mem_write buf 0 (fbytes ext4_inode "i_block" inode);
  extent_sectors_loop k po sb bs block_num save_data save_extents 0
    (idx_start (replicate 12 0)) buf s.

(** ** The block map at 32 bits *)

Definition indirect_high32 (a : Z) : Z := u32 (11 + a).
Definition double_high32 (a : Z) : Z := u32 (indirect_high32 a + u32 (a * a)).
Definition triple_high32 (a : Z) : Z := u32 (double_high32 a + u32 (u32 (a * a) * a)).

(** [(block * ext4_block_size(superblock) + partition_offset) / SECTOR_SIZE] in a
    [uint32_t] *)
Definition sector32 (block bs64 po : Z) : Z :=
  u32 (u64 (u64 (block * bs64) + po) `div` SECTOR_SIZE).

(** [(uint32_t) (block * sectors_per_block + partition_offset / SECTOR_SIZE)] *)
Definition slot_sector (block spb po : Z) : Z := u32 (u32 (block * spb) + Z.quot po SECTOR_SIZE).

(** The address block in [buf], at [sector], is an extent of the file. *)
Definition save_block (cond : bool) (sector bs bs64 : Z) (buf : list Z) (s : sink) :
    option sink :=
  if cond then
    s ← mark_sector sector bs s;
    put_extent (fill_count_bin sector bs64 buf kv_indet) s
  else Some s.

(** The end of every branch: the sector of the block, and its data. *)
Definition put_block (po : Z) (sb : list Z) (count block bs bs64 : Z) (data_save : bool)
    (buf : list Z) (s : sink) : option (sink * Z) :=
  let sector := sector32 block bs64 po in
  s ← put_sector (fill_count BSON_INT32 (u32 count) (le_enc 4 sector) kv_indet) s;
  if data_save then
    s ← mark_sector sector bs s;
    '(s, buf) ← read_into po sb block buf s;
    s ← put_data (fill_count_bin (u32 count) bs64 buf kv_indet) s;
    Some (s, 0)
  else Some (s, 0).

(** One branch per level of the map: [bs64] is the size of a block and [bs] the
    same in 32 bits, [n] the block's number in the level's range, that starts at
    [low]; 1 is the end of the file. *)
Section levels.
Variables (po : Z) (sb inode : list Z) (bs64 : Z) (data_save save_extents : bool).
Let bs := u32 bs64.
Let a := bs `div` 4.
Let spb := bs `div` SECTOR_SIZE.

Definition direct_sectors (n : Z) (buf : list Z) (s : sink) : option (sink * Z) :=
  e ← i_block inode n;
  if e =? 0 then Some (s, 1) else
  put_block po sb (n * spb) e bs bs64 data_save buf s.

Definition indirect_sectors (low n : Z) (buf : list Z) (s : sink) : option (sink * Z) :=
  e ← i_block inode 12;
  if e =? 0 then Some (s, 1) else
  '(s, buf) ← read_into po sb e buf s;
  s ← save_block (save_extents && (n =? 0)) (slot_sector e spb po) bs bs64 buf s;
  e ← u32_elt buf n;
  if e =? 0 then Some (s, 1) else
  put_block po sb (u32 (n + low) * spb) e bs bs64 data_save buf s.

Definition double_sectors (low n : Z) (buf : list Z) (s : sink) : option (sink * Z) :=
  e ← i_block inode 13;
  if e =? 0 then Some (s, 1) else
  '(s, buf) ← read_into po sb e buf s;
  e1 ← u32_elt buf (n `div` a);
  if e1 =? 0 then Some (s, 1) else
  s ← save_block (save_extents && (n `div` a =? 0)) (slot_sector e spb po) bs bs64 buf s;
  '(s, buf) ← read_into po sb e1 buf s;
  e2 ← u32_elt buf (n `mod` a);
  if e2 =? 0 then Some (s, 1) else
  s ← save_block (save_extents && (n `mod` a =? 0)) (sector32 e1 bs64 po) bs bs64 buf s;
  put_block po sb (u32 (n + low) * spb) e2 bs bs64 data_save buf s.

Definition triple_sectors (low n : Z) (buf : list Z) (s : sink) : option (sink * Z) :=
  e ← i_block inode 14;
  if e =? 0 then Some (s, 1) else
  '(s, buf) ← read_into po sb e buf s;
  i1 ← cdiv n (u32 (a * a));
  e1 ← u32_elt buf i1;
  if e1 =? 0 then Some (s, 1) else
  s ← save_block (save_extents && (i1 =? 0)) (slot_sector e spb po) bs bs64 buf s;
  '(s, buf) ← read_into po sb e1 buf s;
  e2 ← u32_elt buf (n `div` a);
  if e2 =? 0 then Some (s, 1) else
  s ← save_block (save_extents && (n `div` a =? 0)) (sector32 e1 bs64 po) bs bs64 buf s;
  '(s, buf) ← read_into po sb e2 buf s;
  e3 ← u32_elt buf (n `mod` a);
  if e3 =? 0 then Some (s, 1) else
  s ← save_block (save_extents && (n `mod` a =? 0)) (sector32 e2 bs64 po) bs bs64 buf s;
  put_block po sb (u32 (n + low) * spb) e3 bs bs64 data_save buf s.
End levels.

Definition ext4_serialize_file_block_sectors (po : Z) (sb : list Z) (block_num : Z)
    (inode : list Z) (data_save save_extents : bool) (s : sink) : option (sink * Z) :=
  bs64 ← ext4_block_size sb;
  let a := u32 bs64 `div` 4 in
  buf ← local_block (4 * a);
  if triple_high32 a <? block_num then Some (s, -1) else
  if block_num <=? 11 then
    direct_sectors po sb inode bs64 data_save block_num buf s
  else if block_num <=? indirect_high32 a then
    indirect_sectors po sb inode bs64 data_save save_extents 12 (u32 (block_num - 12)) buf s
  else if block_num <=? double_high32 a then
    let low := u32 (indirect_high32 a + 1) in
    double_sectors po sb inode bs64 data_save save_extents low (u32 (block_num - low)) buf s
  else
    let low := u32 (double_high32 a + 1) in
    triple_sectors po sb inode bs64 data_save save_extents low (u32 (block_num - low)) buf s.

(** ** The sectors of a file *)

(** [while (num_blocks)]: a failed block is skipped; [None] inside is [exit(1)]
    at a premature end of the block map. *)
Fixpoint file_sectors_loop (fuel : nat) (po : Z) (sb inode : list Z)
    (save_data save_extents : bool) (num_blocks count : Z) (s : sink) :
    option (option sink) :=
  match fuel with
  | O => None
  | S fuel =>
      if num_blocks =? 0 then Some (Some s) else
      '(s, ret_check) ←
        (if negb (Z.land (inodef "i_flags" inode) 0x80000 =? 0)
         then ext4_serialize_file_extent_sectors po sb (u32 count) inode save_data
                save_extents s
         else ext4_serialize_file_block_sectors po sb (u32 count) inode save_data
                save_extents s);
      if 0 <? ret_check then Some None else
      file_sectors_loop fuel po sb inode save_data save_extents (num_blocks - 1)
        (u64 (count + 1)) s
  end.

(** The blocks a file of [size] bytes has. *)
Definition num_blocks (size bs : Z) : option Z :=
  if size =? 0 then Some 0 else
  q ← cdiv size bs;
  Some (if size `mod` bs =? 0 then q else u64 (q + 1)).

Definition is_symlink (inode : list Z) : bool :=
  Z.land (inodef "i_mode" inode) 0xa000 =? 0xa000.
Definition is_file (inode : list Z) : bool :=
  Z.land (inodef "i_mode" inode) 0x8000 =? 0x8000.
Definition is_dir (inode : list Z) : bool :=
  Z.land (inodef "i_mode" inode) 0x4000 =? 0x4000.

(** The state outside the document under construction. *)
Record walk := { wk_disk : FILE; wk_bits : bitarray; wk_out : FILE }.

(** [bson_init()] where the flag is set, else a null pointer. *)
Definition init_if (flag : bool) : option (option bson_info) :=
  if flag then b ← bson_init; Some (Some b) else Some None.

Definition close_if (flag : bool) (key : string) (b : bson_info) (doc : option bson_info) :
    option bson_info :=
  if flag then doc ← doc; close_array key b doc else Some b.

(** [None] inside is [exit(1)]. *)
Definition ext4_serialize_file_sectors (po : Z) (sb inode : list Z) (serialized : bson_info)
    (save_data save_extents : bool) (w : walk) : option (option (walk * bson_info)) :=
  bs ← ext4_block_size sb;
  n ← num_blocks (ext4_file_size inode) bs;
  sectors ← bson_init;
  data ← init_if save_data;
  extents ← init_if save_extents;
  let s := {| sk_disk := wk_disk w; sk_bits := wk_bits w; sk_sectors := sectors;
              sk_data := data; sk_extents := extents |} in
  r ← (if is_symlink inode then Some (Some s)
       else file_sectors_loop k po sb inode save_data save_extents n 0 s);
  match r with
  | None => Some None
  | Some s =>
      b ← close_array "sectors" serialized (sk_sectors s);
      b ← close_if save_data "data" b (sk_data s);
      b ← close_if save_extents "extents" b (sk_extents s);
      Some (Some ({| wk_disk := sk_disk s; wk_bits := sk_bits s; wk_out := wk_out w |}, b))
  end.

(** ** The directory tree *)

(** A call returns, or has ended the process with the output written so far. *)
Inductive outcome (A : Type) :=
  | Returned (a : A)
  | Exited (code : Z) (out : FILE).
#[global] Arguments Returned {A} a.
#[global] Arguments Exited {A} code out.

(** The fields every inode's document has after the first four. *)
Definition inode_fields (prefix inode : list Z) : list (bson_kv → bson_kv) :=
  [fill_str "path" (zlen prefix) (prefix ++ [0]);
   fill_mem BSON_BOOLEAN "is_dir" [if is_dir inode then 1 else 0];
   fill_mem BSON_INT64 "size" (le_enc 8 (ext4_file_size inode));
   fill_mem BSON_INT64 "mode" (le_enc 8 (inodef "i_mode" inode));
   fill_mem BSON_INT64 "link_count" (le_enc 8 (inodef "i_links_count" inode));
   fill_mem BSON_INT64 "uid" (le_enc 8 (inodef "i_uid" inode));
   fill_mem BSON_INT64 "gid" (le_enc 8 (inodef "i_gid" inode));
   fill_mem BSON_INT64 "atime" (le_enc 8 (inodef "i_atime" inode));
   fill_mem BSON_INT64 "mtime" (le_enc 8 (inodef "i_mtime" inode));
   fill_mem BSON_INT64 "ctime" (le_enc 8 (inodef "i_ctime" inode))].

(** Finalizes, writes and frees a document. *)
Definition end_document (b : bson_info) (w : walk) : option walk :=
  '(f, _) ← finish_document b (wk_out w);
  Some {| wk_disk := wk_disk w; wk_bits := wk_bits w; wk_out := f |}.

(** The memory [link_name] is read from: the inode from [i_block] on, the first
    block of the file, or still [ctime]. *)
Definition link_data (po : Z) (sb inode buf : list Z) (w : walk) : option (walk * list Z) :=
  let fsize := ext4_file_size inode in
  if fsize <? 60 then Some (w, drop 40 inode)
  else if fsize <? 4096 then
    '(disk, buf, _) ← ext4_read_extent_block k (wk_disk w) po sb 0 inode buf;
    Some ({| wk_disk := disk; wk_bits := wk_bits w; wk_out := wk_out w |}, buf)
  else Some (w, le_enc 8 (inodef "i_ctime" inode)).

(** The [path] of a directory entry, a [char[8192]]. *)
Definition child_path (prefix name : list Z) : option (list Z) :=
  let path := prefix ++ (if 1 <? zlen prefix then str_bytes "/" else []) ++ name in
  if zlen path <? 8192 then Some path else None.

(** A directory entry in a buffer. *)
Abbreviation def_ f dir := (fget ext4_dir_entry f dir).

(** [dir.name[dir.name_len] = 0] and the C string it makes. *)
Definition entry_name (dir : list Z) : option (list Z) :=
  d ← mem_write dir (8 + def_ "name_len" dir) [0]; cstr_at d 8.

Definition dot_name (name : list Z) : bool :=
  streq name (str_bytes ".") || streq name (str_bytes "..").

Section directory.
Variable rec : list Z → list Z → bson_info → walk → option (outcome (walk * Z)).

(** The entries of a block from [position] on. The inner result is the new
    [dentries], or the value the caller returns. *)
Fixpoint entries_loop (fuel : nat) (po : Z) (sb prefix buf : list Z) (bs sector position : Z)
    (icache bcache : cptr) (dentries : bson_info) (w : walk) :
    option (outcome (walk * (bson_info + Z))) :=
  match fuel with
  | O => None
  | S fuel =>
      if position <? bs then
        _ ← child_path prefix [];
        '(dir, _) ← ext4_read_dir_entry buf position;
        let next := u64 (position + def_ "rec_len" dir) in
        if def_ "inode" dir =? 0
        then entries_loop fuel po sb prefix buf bs sector next icache bcache dentries w
        else
        let name_len := def_ "name_len" dir in
        '(dentries, _) ← bson_serialize dentries
          (fill_count_bin sector (8 + name_len)
             (le_enc 8 (def_ "inode" dir) ++ take (Z.to_nat name_len) (drop 8 dir)) kv_indet);
        bson2 ← bson_init;
        '(disk, child, bson2, r) ←
          ext4_read_inode_serialized (wk_disk w) po sb (def_ "inode" dir) [] bson2 icache bcache;
        let w := {| wk_disk := disk; wk_bits := wk_bits w; wk_out := wk_out w |} in
        if negb (r =? 0) then Some (Returned (w, inr (-1))) else
        name ← entry_name dir;
        path ← child_path prefix name;
        if dot_name name
        then entries_loop fuel po sb prefix buf bs sector next icache bcache dentries w
        else
          o ← rec child path bson2 w;
          match o with
          | Exited c f => Some (Exited c f)
          | Returned (w, _) =>
              entries_loop fuel po sb prefix buf bs sector next icache bcache dentries w
          end
      else Some (Returned (w, inl dentries))
  end.

(** [for (i = 0; i < num_blocks; i++)] *)
Fixpoint blocks_loop (fuel : nat) (po : Z) (sb inode prefix buf : list Z) (bs i n : Z)
    (icache bcache : cptr) (dentries : bson_info) (w : walk) :
    option (outcome (walk * (bson_info + Z))) :=
  match fuel with
  | O => None
  | S fuel =>
      if i <? n then
        let extents := negb (Z.land (inodef "i_flags" inode) 0x80000 =? 0) in
        '(disk, buf, ret_check) ←
          (if extents then ext4_read_extent_block k (wk_disk w) po sb (u32 i) inode buf
           else ext4_read_file_block (wk_disk w) po sb i inode buf);
        '(disk, sector) ←
          (if extents then ext4_sector_extent_block k disk po sb (u32 i) inode
           else ext4_sector_file_block disk po sb i inode);
        let w := {| wk_disk := disk; wk_bits := wk_bits w; wk_out := wk_out w |} in
        if ret_check <? 0
        then blocks_loop fuel po sb inode prefix buf bs (u64 (i + 1)) n icache bcache dentries w
        else if 0 <? ret_check then Some (Returned (w, inr 0)) else
        o ← entries_loop k po sb prefix buf bs sector 0 icache bcache dentries w;
        match o with
        | Exited c f => Some (Exited c f)
        | Returned (w, inr rc) => Some (Returned (w, inr rc))
        | Returned (w, inl dentries) =>
            blocks_loop fuel po sb inode prefix buf bs (u64 (i + 1)) n icache bcache dentries w
        end
      else Some (Returned (w, inl dentries))
  end.
End directory.

(** The branches of [ext4_serialize_tree]: the fields of a document, and the
    sectors of what it describes. [None] inside is [exit(1)]. *)
Section branches.
Variables (po : Z) (sb inode prefix : list Z).

Definition fields_and_sectors (b : bson_info) (w : walk) : option (option (walk * bson_info)) :=
  '(b, _) ← serialize_fields b kv_indet (inode_fields prefix inode);
  ext4_serialize_file_sectors po sb inode b false true w.

(** The ends of the first two branches. *)
Definition finish_branch (w : walk) (r : option (walk * bson_info)) :
    option (outcome (walk * Z)) :=
  match r with
  | None => Some (Exited 1 (wk_out w))
  | Some (w, b) => w ← end_document b w; Some (Returned (w, 0))
  end.

Definition serialize_symlink (buf : list Z) (b : bson_info) (w : walk) :
    option (outcome (walk * Z)) :=
  '(b, v) ← serialize_fields b kv_indet (inode_fields prefix inode);
  '(w, m) ← link_data po sb inode buf w;
  '(b, _) ← bson_serialize b (fill_str "link_name" (ext4_file_size inode) m v);
  r ← ext4_serialize_file_sectors po sb inode b false true w;
  finish_branch w r.

Definition serialize_file (b : bson_info) (w : walk) : option (outcome (walk * Z)) :=
  r ← fields_and_sectors b w; finish_branch w r.

(** What is neither has no fields of its own. *)
Definition serialize_dir_fields (b : bson_info) (w : walk) :
    option (option (walk * bson_info)) :=
  if is_dir inode then fields_and_sectors b w else Some (Some (w, b)).

(** Behind the branches: the entries of every block, each with its subtree. *)
Definition serialize_entries
    (rec : list Z → list Z → bson_info → walk → option (outcome (walk * Z)))
    (bs : Z) (icache bcache : cptr) (buf : list Z) (b : bson_info) (w : walk) :
    option (outcome (walk * Z)) :=
  n ← num_blocks (ext4_file_size inode) bs;
  dentries ← bson_init;
  o ← blocks_loop rec k po sb inode prefix buf bs 0 n icache bcache dentries w;
  match o with
  | Exited c f => Some (Exited c f)
  | Returned (w, inr rc) => Some (Returned (w, rc))
  | Returned (w, inl dentries) =>
      b ← close_array "files" b dentries;
      w ← end_document b w;
      Some (Returned (w, 0))
  end.
End branches.

(** [fuel] bounds the depth of the tree. *)
Fixpoint ext4_serialize_tree (fuel : nat) (po : Z) (sb : list Z) (icache bcache : cptr)
    (inode prefix : list Z) (b : bson_info) (w : walk) : option (outcome (walk * Z)) :=
  match fuel with
  | O => None
  | S fuel =>
      bs ← ext4_block_size sb;
      buf ← local_block bs;
      if is_symlink inode then serialize_symlink po sb inode prefix buf b w
      else if is_file inode then serialize_file po sb inode prefix b w
      else
        r ← serialize_dir_fields po sb inode prefix b w;
        match r with
        | None => Some (Exited 1 (wk_out w))
        | Some (w, b) =>
            serialize_entries po sb inode prefix (ext4_serialize_tree fuel po sb icache bcache)
              bs icache bcache buf b w
        end
  end.

(** [ext4_serialize_fs_tree] and [ext4_serialize_journal] differ in the inode
    they start from. [mount] is the memory behind the [char*]. *)
Definition serialize_from (fuel : nat) (inode_num : Z) (po : Z) (sb mount : list Z)
    (icache bcache : cptr) (w : walk) : option (outcome (walk * Z)) :=
  n ← cstrlen mount;
  let p := cmalloc (u64 (n + 1)) in
  if is_null p then Some (Returned (w, -1)) else
  buf ← deref p;
  src ← mem_read mount 0 n;
  buf ← mem_write buf 0 src;
  buf ← mem_write buf (n + 1) [0];
  b ← bson_init;
  '(disk, root, b, r) ←
    ext4_read_inode_serialized (wk_disk w) po sb inode_num [] b icache bcache;
  let w := {| wk_disk := disk; wk_bits := wk_bits w; wk_out := wk_out w |} in
  if negb (r =? 0) then Some (Returned (w, -1)) else
  prefix ← cstr_at buf 0;
  o ← ext4_serialize_tree fuel po sb icache bcache root prefix b w;
  Some match o with
       | Exited c f => Exited c f
       | Returned (w, r) => Returned (w, if negb (r =? 0) then -1 else 0)
       end.

Definition ext4_serialize_fs_tree (fuel : nat) := serialize_from fuel 2.
Definition ext4_serialize_journal (fuel : nat) := serialize_from fuel 8.

(** [i] is the static counter of [ext4_next_block_group_descriptor]. *)
Definition ext4_serialize (fuel : nat) (i : Z) (disk : FILE) (f : fs) (out : FILE) :
    option (outcome (Z * FILE * fs * FILE * Z)) :=
  sb ← deref (fs_info f);
  let po := fs_pt_off f in
  '(bits, out, r) ← ext4_serialize_fs sb po (s32 (fs_pte f)) (fs_bits f)
                      (ext4_last_mount_point sb) out;
  let result i disk bcache icache bits out rc :=
    Some (Returned (i, disk, {| fs_pte := fs_pte f; fs_pt_off := po; icache := icache;
      bcache := bcache; fs_info := fs_info f; fs_bits := bits |}, out, rc)) in
  if negb (r =? 0) then result i disk (bcache f) (icache f) bits out (-1) else
  '(disk, bc, r) ← ext4_cache_bgds k disk po sb;
  if negb (r =? 0) then result i disk (bcache f) (icache f) bits out (-1) else
  '(disk, ic, r) ← ext4_cache_inodes k disk po sb bc;
  if negb (r =? 0) then result i disk (bcache f) (icache f) bits out (-1) else
  '(i, disk, bits, out, r) ← ext4_serialize_bgds k k i disk po sb bits out bc;
  if negb (r =? 0) then result i disk (bcache f) (icache f) bits out EXIT_FAILURE else
  let w := {| wk_disk := disk; wk_bits := bits; wk_out := out |} in
  o ← ext4_serialize_fs_tree fuel po sb (ext4_last_mount_point sb) ic bc w;
  match o with
  | Exited c f => Some (Exited c f)
  | Returned (w, _) =>
      o ← ext4_serialize_journal fuel po sb (cstr "journal") ic bc w;
      match o with
      | Exited c f => Some (Exited c f)
      | Returned (w, _) => result i (wk_disk w) bc ic (wk_bits w) (wk_out w) 0
      end
  end.
End ext4_files.
