(* ===== verification/Ext4Walk.v ===== *)
(** * The documents of regular files, and the start of the walk

    What [ext4_serialize_tree] writes for a regular file whose extents are in
    its inode, against the blocks the inode maps; and what becomes of the two
    functions that start a walk. *)
From S2P Require Import Prelude Words Memory Struct Stdio Bitarray Bson BsonEncode BsonDecode BsonFields PartTable Ext4 Ext4Blocks Ext4Props Ext4Extents Ext4Files.

(** ** The abstract document *)

(** The element of block [n] in the array of sectors, if an extent maps it. *)
Definition sector_elem (po bs : Z) (inode : list Z) (n : Z) : list elem :=
  match List.find (covers n) (entries_of (fbytes ext4_inode "i_block" inode)) with
  | Some e =>
      [{| e_key := decimal n;
          e_val := VInt32 (le_enc 4
            (sector_of po bs (eef "ee_start_lo" e + (n - eef "ee_block" e)))) |}]
  | None => []
  end.

(** The elements of the blocks [i], ..., [i + n - 1]. *)
Fixpoint sector_elems (po bs : Z) (inode : list Z) (i : Z) (n : nat) : list elem :=
  match n with
  | O => []
  | S n => sector_elem po bs inode i ++ sector_elems po bs inode (i + 1) n
  end.

Definition inode_elems (prefix inode : list Z) : list elem :=
  [e_str "path" prefix; e_bool "is_dir" (is_dir inode);
   e_int64 "size" (ext4_file_size inode); e_int64 "mode" (inodef "i_mode" inode);
   e_int64 "link_count" (inodef "i_links_count" inode);
   e_int64 "uid" (inodef "i_uid" inode); e_int64 "gid" (inodef "i_gid" inode);
   e_int64 "atime" (inodef "i_atime" inode); e_int64 "mtime" (inodef "i_mtime" inode);
   e_int64 "ctime" (inodef "i_ctime" inode)].

(** The extents of the file are in the inode, below block [2^32]. *)
Record leaf_inode (inode : list Z) : Prop := {
  li_length : zlen inode = INODE_SIZE;
  li_flag : Z.land (inodef "i_flags" inode) 0x80000 ≠ 0;
  li_root : node_ok (fbytes ext4_inode "i_block" inode);
  li_depth : node_depth (fbytes ext4_inode "i_block" inode) = 0;
  li_extents : Forall (λ e, eef "ee_block" e + eef "ee_len" e < 2 ^ 32 ∧ eef "ee_start_hi" e = 0)
                 (entries_of (fbytes ext4_inode "i_block" inode));
}.

(** ** Lemmas *)

Section walk.
Context `{MallocTotal}.
Context (k : nat) (D : list Z) (po bs : Z) (sb : list Z) (Hd : ext4_device D po bs sb).
Context (inode : list Z) (Hi : leaf_inode inode).
Let root := fbytes ext4_inode "i_block" inode.

Lemma put_sector_ok s c v e :
  enc_rep (sk_sectors s) c → kv_encodes v e → zlen c + zlen (enc_elem e) ≤ max_doc →
  ∃ b, put_sector v s = Some ({| sk_disk := sk_disk s; sk_bits := sk_bits s; sk_sectors := b;
         sk_data := sk_data s; sk_extents := sk_extents s |}) ∧ enc_rep b (c ++ enc_elem e).
Proof.
  intros Hr He Hl. destruct (serialize_element_appends v e He _ c Hr Hl) as (b & E & Hb).
  exists b. split; [|done]. unfold put_sector, bson_serialize. by rewrite E.
Qed.

Lemma root_entries : (Z.to_nat (node_entries root) ≤ 4)%nat.
Proof.
  pose proof (no_room _ (li_root _ Hi)) as Hr. pose proof (length_i_block inode (li_length _ Hi)) as Hl.
  fold root in Hr, Hl. lia.
Qed.

(** The loop over a leaf: the sector of the first extent that maps [n]. *)
Lemma extent_sectors_leaf n junk idx fuel s c i :
  0 ≤ n < 2 ^ 32 → enc_rep (sk_sectors s) c →
  zlen c + zlen (enc_elems (sector_elem po bs inode n)) ≤ max_doc →
  let m := Z.to_nat (node_entries root) in
  (i ≤ m)%nat →
  List.find (covers n) (entries_of root) = List.find (covers n) (entry_at root <$> seq i (m - i)) →
  ∃ b r, extent_sectors_loop (S (m - i) + fuel) po sb bs n false true (Z.of_nat i) idx
           (root ++ junk) s
    = Some ({| sk_disk := sk_disk s; sk_bits := sk_bits s; sk_sectors := b;
               sk_data := sk_data s; sk_extents := sk_extents s |}, r) ∧ r ≤ 0 ∧
    enc_rep b (c ++ enc_elems (sector_elem po bs inode n)).
Proof.
  intros Hn Hr Hl m Him Hf. pose proof (li_root _ Hi) as Hok. fold root in Hok.
  pose proof (li_depth _ Hi) as Hdep. fold root in Hdep.
  pose proof (node_entries_nonneg _ Hok).
  unfold sector_elem in *. fold root in Hl |- *. rewrite Hf in *. clear Hf.
  remember (m - i)%nat as x eqn:Ex. revert i Him Ex Hl.
  induction x as [|x IH]; intros i Him Ex Hl; rewrite Nat.add_succ_l;
    match goal with |- context [extent_sectors_loop (S ?f)] => remember f as F eqn:EF end;
    cbn [extent_sectors_loop]; rewrite hdr_read by done; cbn [mbind option_bind];
    fold (node_entries root) (node_depth root).
  { rewrite (proj2 (Z.ltb_ge _ _)) by lia. exists (sk_sectors s), (-1).
    cbn [seq fmap list_fmap List.find]. rewrite app_nil_r. split; [by destruct s|done]. }
  rewrite (proj2 (Z.ltb_lt _ _)), Hdep by lia. cbn [Z.eqb negb].
  rewrite entry_read by (done || lia). cbn [mbind option_bind].
  assert (eef "ee_block" (entry_at root i) + eef "ee_len" (entry_at root i) < 2 ^ 32 ∧
          eef "ee_start_hi" (entry_at root i) = 0) as [Hw Hhi].
  { apply (Forall_lookup_1 (λ e, eef "ee_block" e + eef "ee_len" e < 2 ^ 32 ∧
      eef "ee_start_hi" e = 0) (entries_of root) i); [apply (li_extents _ Hi)|].
    unfold entries_of. by rewrite list_lookup_fmap, lookup_seq_lt by lia. }
  pose proof (entry_at_bytes root i Hok) as Hb.
  assert (extent_covers (entry_at root i) n = covers n (entry_at root i)) as ->.
  { unfold extent_covers, covers. do 2 f_equal. apply uwrap_small.
    pose proof (fget_nonneg ext4_extent "ee_block" _ Hb).
    pose proof (fget_nonneg ext4_extent "ee_len" _ Hb). lia. }
  cbn [seq fmap list_fmap List.find] in Hl |- *.
  destruct (covers n (entry_at root i)) eqn:Hc; cycle 1.
  { replace (Z.of_nat i + 1) with (Z.of_nat (S i)) by lia. subst F. apply IH; [lia..|done]. }
  destruct (extent_address n Hn _ Hc Hb Hhi) as [Ea Har].
  unfold covers in Hc. apply andb_prop in Hc as [Hc _]. apply Z.leb_le in Hc.
  pose proof (fget_nonneg ext4_extent "ee_block" _ Hb).
  set (addr := eef "ee_start_lo" (entry_at root i) + (n - eef "ee_block" (entry_at root i))) in *.
  rewrite Ea.
  destruct (sector_from_block_ok D po bs sb addr Hd Har) as [Es Hs].
  rewrite (uwrap_small 32 (n - _)) by lia. rewrite (uwrap_small 32) by lia.
  replace (n - eef "ee_block" (entry_at root i) + eef "ee_block" (entry_at root i)) with n by lia.
  assert (u64 (u64 (addr * bs) + po) `div` SECTOR_SIZE = sector_of po bs addr) as ->.
  { unfold sector_of. pose proof (bs_bounds _ _ _ _ Hd). destruct Hd as [_ _ Hp _ HL].
    assert (0 ≤ addr * bs ≤ 2 ^ 40 * 65536) by nia.
    rewrite (uwrap_small 64 (addr * bs)) by lia. rewrite uwrap_small by lia. f_equal. lia. }
  destruct (put_sector_ok s c (fill_count BSON_INT32 n (le_enc 8 (sector_of po bs addr)) kv_indet)
    _ Hr (encodes_count _ _ _)) as (b & -> & Hb').
  { revert Hl. rewrite enc_elems_cons, app_nil_r. done. }
  cbn [mbind option_bind]. exists b, 0. split; [done|]. split; [done|].
  by rewrite enc_elems_cons, app_nil_r.
Qed.

Lemma file_extent_sectors_ok n s c :
  (5 < k)%nat → 0 ≤ n < 2 ^ 32 → enc_rep (sk_sectors s) c →
  zlen c + zlen (enc_elems (sector_elem po bs inode n)) ≤ max_doc →
  ∃ b r, ext4_serialize_file_extent_sectors k po sb n inode false true s
    = Some ({| sk_disk := sk_disk s; sk_bits := sk_bits s; sk_sectors := b;
               sk_data := sk_data s; sk_extents := sk_extents s |}, r) ∧ r ≤ 0 ∧
    enc_rep b (c ++ enc_elems (sector_elem po bs inode n)).
Proof.
  intros Hk Hn Hr Hl. pose proof (bs_bounds _ _ _ _ Hd) as Hbs. pose proof root_entries as He.
  unfold ext4_serialize_file_extent_sectors, local_block. rewrite (ed_block_size _ _ _ _ Hd).
  cbn [mbind option_bind]. destruct (malloc_total bs) as [m Em]; [lia|]. rewrite Em.
  cbn [mbind option_bind].
  destruct (root_written D po bs sb Hd inode m (li_length _ Hi) (malloc_length _ _ Em))
    as [W _]. rewrite W. cbn [mbind option_bind].
  destruct (extent_sectors_leaf n (drop 60 m) (idx_start (replicate 12 0))
    (k - S (Z.to_nat (node_entries root))) s c 0 Hn Hr Hl) as (b & r & E & Hb); [lia| |].
  { by rewrite Nat.sub_0_r. }
  rewrite Nat.sub_0_r in E. change (Z.of_nat 0) with 0 in E.
  replace (S (Z.to_nat (node_entries root)) + (k - S (Z.to_nat (node_entries root))))%nat
    with k in E by lia.
  exists b, r. by split.
Qed.

(** The loop over the blocks of the file. *)
Lemma file_sectors_loop_ok n fuel i s c :
  (5 < k)%nat → 0 ≤ i → i + Z.of_nat n ≤ 2 ^ 32 → enc_rep (sk_sectors s) c →
  zlen c + zlen (enc_elems (sector_elems po bs inode i n)) ≤ max_doc →
  ∃ b, file_sectors_loop k (S n + fuel) po sb inode false true (Z.of_nat n) i s
    = Some (Some {| sk_disk := sk_disk s; sk_bits := sk_bits s; sk_sectors := b;
               sk_data := sk_data s; sk_extents := sk_extents s |}) ∧
    enc_rep b (c ++ enc_elems (sector_elems po bs inode i n)).
Proof.
  intros Hk. revert i s c. induction n as [|n IH]; intros i s c H0i Hin Hr Hl;
    rewrite Nat.add_succ_l;
    match goal with |- context [file_sectors_loop k (S ?f)] => remember f as F eqn:EF end;
    cbn [file_sectors_loop].
  { exists (sk_sectors s). cbn [sector_elems]. rewrite app_nil_r. split; [|done].
    rewrite (proj2 (Z.eqb_eq _ 0)) by lia. by destruct s. }
  cbn [sector_elems] in Hl |- *. rewrite enc_elems_app in *.
  rewrite (proj2 (Z.eqb_neq _ 0)) by lia.
  rewrite (proj2 (Z.eqb_neq _ 0) (li_flag _ Hi)). cbn [negb].
  rewrite (uwrap_small 32) by lia. autorewrite with len in Hl.
  destruct (file_extent_sectors_ok i s c Hk ltac:(lia) Hr ltac:(lia)) as (b & r & -> & Hr0 & Hb).
  cbn [mbind option_bind]. rewrite (proj2 (Z.ltb_ge _ _)) by lia.
  rewrite (uwrap_small 64) by lia.
  replace (Z.of_nat (S n) - 1) with (Z.of_nat n) by lia. subst F.
  destruct (IH (i + 1) {| sk_disk := sk_disk s; sk_bits := sk_bits s; sk_sectors := b;
    sk_data := sk_data s; sk_extents := sk_extents s |} _ ltac:(lia) ltac:(lia) Hb)
    as (b' & E & Hb'); [len|].
  exists b'. split; [exact E|]. by rewrite app_assoc.
Qed.

(** The file's two arrays, behind the fields [c] of its document. *)
Lemma file_sectors_ok n w b c :
  let arrays := [e_arr "sectors" (enc_doc (sector_elems po bs inode 0 n));
                 e_arr "extents" (enc_doc [])] in
  (5 < k)%nat → (n < k)%nat → Z.of_nat n ≤ 2 ^ 32 → is_symlink inode = false →
  num_blocks (ext4_file_size inode) bs = Some (Z.of_nat n) →
  enc_rep b c → zlen c + zlen (enc_elems arrays) ≤ max_doc →
  ∃ b', ext4_serialize_file_sectors k po sb inode b false true w = Some (Some (w, b')) ∧
        enc_rep b' (c ++ enc_elems arrays).
Proof.
  intros arrays Hk Hnk Hn Hsym Hnb Hr Hl. unfold ext4_serialize_file_sectors.
  rewrite (ed_block_size _ _ _ _ Hd). cbn [mbind option_bind]. rewrite Hnb.
  cbn [mbind option_bind]. destruct bson_init_rep as (s0 & E0 & Hs0). rewrite E0.
  cbn [mbind option_bind init_if]. rewrite E0. cbn [mbind option_bind]. rewrite Hsym.
  assert (length (enc_doc (sector_elems po bs inode 0 n))
    = (5 + length (enc_elems (sector_elems po bs inode 0 n)))%nat) as Hld by (unfold enc_doc; len).
  unfold arrays in *. rewrite enc_elems_cons, length_app, length_e_arr in Hl.
  destruct (file_sectors_loop_ok n (k - S n) 0 {| sk_disk := wk_disk w; sk_bits := wk_bits w;
    sk_sectors := s0; sk_data := None; sk_extents := Some s0 |} [] Hk ltac:(lia) ltac:(lia) Hs0)
    as (s1 & E1 & Hs1); [simpl length; lia|].
  replace (S n + (k - S n))%nat with k in E1 by lia. rewrite E1. cbn [mbind option_bind].
  cbn [sk_sectors sk_data sk_extents sk_disk sk_bits close_if].
  destruct (close_array_ok "sectors" b c s1 _ eq_refl Hr Hs1) as (b1 & -> & Hb1).
  { rewrite length_e_arr. lia. }
  cbn [mbind option_bind].
  destruct (close_array_ok "extents" b1 _ s0 [] eq_refl Hb1 Hs0) as (b2 & -> & Hb2).
  { rewrite length_app, length_e_arr. rewrite enc_elems_cons, app_nil_r in Hl. lia. }
  cbn [mbind option_bind]. exists b2. split; [by destruct w|].
  rewrite !enc_elems_cons, app_nil_r. by rewrite app_assoc.
Qed.
End walk.

Lemma inode_fields_encode `{Malloc} prefix inode :
  zlen prefix < 2 ^ 31 →
  fields_encode kv_indet (inode_fields prefix inode) (inode_elems prefix inode).
Proof. intros Hp. unfold inode_fields, inode_elems. encode_fields. done. Qed.

(** ** Properties *)

(** C13: for a regular file whose extents are in its inode, [ext4_serialize_tree]
    appends one document: the fields already begun, the inode's fields, and an
    array with the sector of every block an extent maps, under the block's
    number; it returns 0 and leaves the disk, the filter and the position of
    every stream but the output's as they are. [k] rounds per loop are enough
    when [k] is larger than the number of blocks. *)
Theorem ext4_file_document `{MallocTotal} k depth po bs sb ic bc inode prefix b es w n :
  ext4_device (f_data (wk_disk w)) po bs sb → leaf_inode inode →
  is_symlink inode = false → is_file inode = true →
  num_blocks (ext4_file_size inode) bs = Some (Z.of_nat n) →
  (5 < k)%nat → (n < k)%nat → Z.of_nat n ≤ 2 ^ 32 →
  enc_rep b (enc_elems es) → at_end (wk_out w) →
  let doc := es ++ inode_elems prefix inode ++
    [e_arr "sectors" (enc_doc (sector_elems po bs inode 0 n)); e_arr "extents" (enc_doc [])] in
  zlen (enc_doc doc) ≤ max_doc →
  ext4_serialize_tree k (S depth) po sb ic bc inode prefix b w
  = Some (Returned ({| wk_disk := wk_disk w; wk_bits := wk_bits w;
                       wk_out := append (wk_out w) (enc_doc doc) |}, 0)).
Proof.
  intros Hd Hi Hsym Hfile Hnb Hk Hnk Hn Hr Hout doc Hl. cbn [ext4_serialize_tree].
  pose proof (bs_bounds _ _ _ _ Hd) as Hbs. rewrite (ed_block_size _ _ _ _ Hd).
  cbn [mbind option_bind]. unfold local_block.
  destruct (malloc_total bs) as [m Em]; [lia|]. rewrite Em. cbn [mbind option_bind].
  rewrite Hsym, Hfile. unfold serialize_file, fields_and_sectors.
  assert (zlen (enc_elems doc) + 5 ≤ max_doc) as Hld by (revert Hl; unfold enc_doc; len).
  pose proof Hld as Hdoc. unfold doc in Hld. rewrite !enc_elems_app, !length_app in Hld.
  assert (zlen prefix < 2 ^ 31) as Hp.
  { revert Hld. unfold inode_elems. rewrite enc_elems_cons, length_app, length_e_str.
    unfold max_doc. lia. }
  destruct (serialize_fields_ok kv_indet (inode_fields prefix inode) (inode_elems prefix inode)
    b _ (inode_fields_encode _ _ Hp) Hr) as (b1 & v1 & E1 & Hr1); [lia|].
  rewrite E1. cbn [mbind option_bind].
  destruct (file_sectors_ok k _ po bs sb Hd inode Hi n w b1 _ Hk Hnk Hn Hsym Hnb Hr1)
    as (b2 & -> & Hr2); [len|].
  cbn [mbind option_bind finish_branch]. unfold end_document. rewrite <-!enc_elems_app in Hr2.
  rewrite <-app_assoc in Hr2.
  by rewrite (finish_document_ok b2 doc (wk_out w) Hr2).
Qed.

(** 1500 bytes in blocks 2 and 3 of [witness_device]. *)
Definition witness_file_inode : list Z :=
  [0x80; 0x81; 0; 0] ++ [0xdc; 5; 0; 0] ++ replicate 24 0 ++ [0; 0; 8; 0] ++ replicate 4 0 ++
  witness_leaf ++ replicate 92 0.

Definition witness_walk : walk :=
  {| wk_disk := file_of witness_device; wk_bits := {| ba_array := []; ba_len := 0 |};
     wk_out := file_of [] |}.

Lemma witness_file_inode_ok : leaf_inode witness_file_inode.
Proof.
  split; [by vm_compute|by vm_compute| |by vm_compute|].
  - split; [by vm_compute|apply (bool_decide_unpack _); by vm_compute].
  - apply (bool_decide_unpack _). by vm_compute.
Qed.

Lemma ext4_file_document_witness :
  ∃ b, bson_init = Some b ∧
    ext4_serialize_tree 6 1 0 witness_sb PNull PNull witness_file_inode (str_bytes "/a") b
      witness_walk
    = Some (Returned ({| wk_disk := wk_disk witness_walk; wk_bits := wk_bits witness_walk;
        wk_out := append (file_of [])
          (enc_doc (inode_elems (str_bytes "/a") witness_file_inode ++
            [e_arr "sectors" (enc_doc
               [{| e_key := str_bytes "0"; e_val := VInt32 (le_enc 4 4) |};
                {| e_key := str_bytes "1"; e_val := VInt32 (le_enc 4 6) |}]);
             e_arr "extents" (enc_doc [])])) |}, 0)).
Proof.
  destruct bson_init_rep as (b & E & Hr). exists b. split; [done|].
  rewrite (ext4_file_document 6 0 0 1024 witness_sb PNull PNull witness_file_inode
    (str_bytes "/a") b [] witness_walk 2).
  - do 4 f_equal.
  - apply witness_device_ok.
  - apply witness_file_inode_ok.
  - by vm_compute.
  - by vm_compute.
  - by vm_compute.
  - lia.
  - lia.
  - lia.
  - exact Hr.
  - done.
  - by vm_compute.
Defined.

(** Every walk starts by copying the mount point into a block of
    [strlen + 1] bytes and writing its terminator one byte behind that block:
    when the allocation succeeds, [ext4_serialize_fs_tree] and
    [ext4_serialize_journal] have no defined outcome, whatever the disk holds. *)
Theorem ext4_mount_overflow `{Malloc} k fuel po sb mount ic bc w n :
  cstrlen mount = Some n → n < 2 ^ 63 →
  (∀ m, malloc (n + 1) = Some m →
     ext4_serialize_fs_tree k fuel po sb mount ic bc w = None ∧
     ext4_serialize_journal k fuel po sb mount ic bc w = None) ∧
  (malloc (n + 1) = None →
     ext4_serialize_fs_tree k fuel po sb mount ic bc w = Some (Returned (w, -1)) ∧
     ext4_serialize_journal k fuel po sb mount ic bc w = Some (Returned (w, -1))).
Proof.
  intros Hn Hlt.
  assert (∀ num, serialize_from k fuel num po sb mount ic bc w =
    match malloc (n + 1) with None => Some (Returned (w, -1)) | Some _ => None end) as Hs.
  { intros num. pose proof (cstrlen_bounds _ _ Hn) as Hb.
    unfold serialize_from. rewrite Hn. cbn [mbind option_bind].
    rewrite uwrap_small by lia. unfold cmalloc.
    destruct (malloc (n + 1)) as [m|] eqn:Em; [|done]. apply malloc_length in Em.
    cbn [is_null deref mbind option_bind]. rewrite mem_read_prefix by lia.
    cbn [mbind option_bind].
    destruct (mem_write m 0 (take (Z.to_nat n) mount)) as [m'|] eqn:Ew; [|done].
    apply mem_write_length in Ew. cbn [mbind option_bind].
    unfold mem_write. rewrite bool_decide_false; [done|]. rewrite length_cons, length_nil. lia. }
  unfold ext4_serialize_fs_tree, ext4_serialize_journal. rewrite !Hs.
  split; [intros m ->; by split|intros ->; by split].
Qed.

Lemma ext4_mount_overflow_witness :
  ext4_serialize_fs_tree 5 5 0 witness_sb (cstr "/") PNull PNull witness_walk = None.
Proof.
  destruct (ext4_mount_overflow 5 5 0 witness_sb (cstr "/") PNull PNull witness_walk 1)
    as [Hm _]; [done|lia|].
  by apply (Hm [0; 0]).
Defined.
