(* ===== verification/Ntfs.v ===== *)
(** * src/gray-crawler/ntfs/ntfs.c, include/ntfs.h: records and attributes

    The structs of the volume, the boot file and what is computed from it, the
    update sequences that protect records, the search for an attribute, and the
    runs of clusters that hold the data of a non-resident one. Documents and
    the walk over directories are in NtfsFiles. A record under inspection is the
    memory [data], of which [offset] is read and advanced; a read outside it is
    undefined. Printing is in [NtfsPrint]; here, only what a printer reads. *)
From S2P Require Import Prelude Words Memory Struct Stdio Bitarray Bson BsonEncode BsonDecode BsonFields Util PartTable.

(** ** How a call ends

    It returns; or the process ends in [exit] or in a failed [assert]; or its
    behaviour is undefined (or the fuel of the model is used up). *)
Inductive ending :=
  | Exit (code : Z)
  | Abort.

Inductive run (A : Type) :=
  | Done (a : A)
  | Ended (e : ending)
  | Undefined.
#[global] Arguments Done {A} a.
#[global] Arguments Ended {A} e.
#[global] Arguments Undefined {A}.

#[export] Instance run_bind : MBind run := λ A B f m,
  match m with
  | Done a => f a
  | Ended e => Ended e
  | Undefined => Undefined
  end.

Definition lift {A} (o : option A) : run A :=
  match o with Some a => Done a | None => Undefined end.

(** ** Layouts *)

Definition ntfs_boot_file : layout :=
  [("jump", 3%nat); ("sys_id", 8%nat); ("bytes_per_sector", 2%nat);
   ("sectors_per_cluster", 1%nat); ("unused", 7%nat); ("media", 1%nat); ("unused2", 2%nat);
   ("sectors_per_track", 2%nat); ("number_of_heads", 2%nat); ("unused3", 8%nat);
   ("signature", 4%nat); ("sectors_in_volume", 8%nat); ("lcn_mft", 8%nat);
   ("lcn_mftmirr", 8%nat); ("clusters_per_mft_record", 4%nat);
   ("clusters_per_index_record", 4%nat); ("volume_serial", 4%nat)].

Definition ntfs_standard_attribute_header : layout :=
  [("attribute_type", 4%nat); ("length", 4%nat); ("non_resident_flag", 1%nat);
   ("name_length", 1%nat); ("name_offset", 2%nat); ("flags", 2%nat); ("attribute_id", 2%nat);
   ("length_of_attribute", 4%nat); ("offset_of_attribute", 2%nat); ("indexed_flag", 1%nat);
   ("padding", 1%nat)].

Definition ntfs_non_resident_header : layout :=
  [("last_vcn", 8%nat); ("data_run_offset", 2%nat); ("compression_size", 2%nat);
   ("padding", 4%nat); ("allocated_size", 8%nat); ("real_size", 8%nat);
   ("initialized_size", 8%nat)].

Definition ntfs_file_record : layout :=
  [("magic", 4%nat); ("offset_update_seq", 2%nat); ("size_usn", 2%nat); ("lsn", 8%nat);
   ("seq_num", 2%nat); ("hard_link_count", 2%nat); ("offset_first_attribute", 2%nat);
   ("flags", 2%nat); ("real_size", 4%nat); ("allocated_size", 4%nat); ("file_ref_base", 8%nat);
   ("next_attr_id", 2%nat); ("align", 2%nat); ("rec_num", 4%nat); ("usn_num", 2%nat)].

Definition ntfs_file_name : layout :=
  [("parent_ref", 8%nat); ("c_time", 8%nat); ("a_time", 8%nat); ("m_time", 8%nat);
   ("r_time", 8%nat); ("allocated_size", 8%nat); ("real_size", 8%nat); ("flags", 4%nat);
   ("reparse", 4%nat); ("name_len", 1%nat); ("fnamespace", 1%nat)].

Definition ntfs_file_reference : layout := [("record_number", 6%nat); ("seq_num", 2%nat)].

Definition ntfs_index_root : layout :=
  [("attribute_type", 4%nat); ("collation_rule", 4%nat); ("index_alloc_entry_size", 4%nat);
   ("clusters_per_index_record", 1%nat); ("padding", 3%nat)].

Definition ntfs_index_header : layout :=
  [("first_entry_offset", 4%nat); ("total_size", 4%nat); ("allocated_size", 4%nat);
   ("flags", 4%nat)].

Definition ntfs_index_entry : layout :=
  [("ref", 8%nat); ("length", 2%nat); ("stream_length", 2%nat); ("flags", 1%nat);
   ("padding", 3%nat)].

Definition ntfs_index_record_header : layout :=
  [("magic", 4%nat); ("update_seq_offset", 2%nat); ("size_usn", 2%nat); ("log_seq_num", 8%nat);
   ("index_vcn", 8%nat); ("offset_to_index_entries", 4%nat); ("size_of_index_entries", 4%nat);
   ("allocated_size_of_index_entries", 4%nat); ("is_leaf", 1%nat); ("padding", 3%nat);
   ("usn_num", 2%nat)].

Definition ntfs_index_record_entry : layout :=
  [("ref", 8%nat); ("size", 2%nat); ("file_name_offset", 2%nat); ("flags", 2%nat);
   ("padding", 2%nat); ("parent", 8%nat); ("c_time", 8%nat); ("m_time", 8%nat);
   ("a_time", 8%nat); ("r_time", 8%nat); ("file_allocated_size", 8%nat);
   ("file_real_size", 8%nat); ("file_flags", 4%nat); ("ea_reparse", 4%nat);
   ("filename_length", 1%nat); ("filename_namespace", 1%nat)].

(** [struct ntfs_update_sequence]; [data] is a block of its own. *)
Record ntfs_update_sequence := { usn_num : Z; usn_size : Z; usn_data : list Z }.

Definition BOOT_SIZE : Z := 76.
Definition SAH_SIZE : Z := 24.
Definition NRH_SIZE : Z := 40.
Definition RECORD_SIZE : Z := 50.
Definition FILE_NAME_SIZE : Z := 66.
Definition IRH_SIZE : Z := 42.
Definition IRE_SIZE : Z := 82.

Lemma ntfs_sizes :
  Z.of_nat (sizeof ntfs_boot_file) = BOOT_SIZE ∧
  Z.of_nat (sizeof ntfs_standard_attribute_header) = SAH_SIZE ∧
  Z.of_nat (sizeof ntfs_non_resident_header) = NRH_SIZE ∧
  Z.of_nat (sizeof ntfs_file_record) = RECORD_SIZE ∧
  Z.of_nat (sizeof ntfs_file_name) = FILE_NAME_SIZE ∧
  Z.of_nat (sizeof ntfs_index_record_header) = IRH_SIZE ∧
  Z.of_nat (sizeof ntfs_index_record_entry) = IRE_SIZE.
Proof. by vm_compute. Qed.

(** Members of the boot file, of an attribute's header and of a record's. *)
Abbreviation bootf_ f b := (fget ntfs_boot_file f b).
Abbreviation sahf f s := (fget ntfs_standard_attribute_header f s).
Abbreviation recf f r := (fget ntfs_file_record f r).
Abbreviation iref f e := (fget ntfs_index_record_entry f e).

(** [enum NTFS_ATTRIBUTE_TYPE], those that are looked for. *)
Definition NTFS_FILE_NAME : Z := 0x30.
Definition NTFS_DATA : Z := 0x80.
Definition NTFS_INDEX_ROOT : Z := 0x90.
Definition NTFS_INDEX_ALLOCATION : Z := 0xA0.

(** ** The boot file *)

Definition ntfs_lcn_to_offset (bootf : list Z) (partition_offset lcn : Z) : Z :=
  let bytes_per_cluster := bootf_ "bytes_per_sector" bootf * bootf_ "sectors_per_cluster" bootf in
  u64 (u64 (lcn * bytes_per_cluster) + partition_offset).

Definition ntfs_get_reference_int (ref : list Z) : Z :=
  le_dec (fbytes ntfs_file_reference "record_number" ref).

Definition ntfs_cluster_size (bootf : list Z) : Z :=
  bootf_ "bytes_per_sector" bootf * bootf_ "sectors_per_cluster" bootf.

(** The arithmetic is that of [int]; what it cannot represent is undefined. *)
Definition int_ok (z : Z) : option Z :=
  if bool_decide (- 2 ^ 31 ≤ z < 2 ^ 31) then Some z else None.

Definition ntfs_file_record_size (bootf : list Z) : option Z :=
  let clusters := s32 (bootf_ "clusters_per_mft_record" bootf) in
  if 0 <? clusters then
    n ← int_ok (clusters * bootf_ "sectors_per_cluster" bootf);
    int_ok (n * bootf_ "bytes_per_sector" bootf)
  else
    let n := -1 * (clusters + 1) in
    if bool_decide (0 ≤ n < 32) then int_ok (Z.shiftl 2 n) else None.

(** A member whose first byte has its top bit set is sign-extended. *)
Definition extend_clusters (f : string) (bootf : list Z) : option (list Z) :=
  let v := bootf_ f bootf in
  if top_bit_set (u8 v) then
    bits ← highest_set_bit v;
    r ← sign_extend v bits;
    Some (fset ntfs_boot_file f r bootf)
  else Some bootf.

Section ntfs.
Context `{Malloc}.

Definition ntfs_probe (disk : FILE) (f : fs) : option (FILE * fs * Z) :=
  let f := set_fs_info (cmalloc BOOT_SIZE) f in
  if is_null (fs_info f) then Some (disk, f, -1) else
  m ← deref (fs_info f);
  let '(disk, r) := fseeko disk (fs_pt_off f) in
  if negb (r =? 0) then Some (disk, f, -1) else
  let '(disk, d) := fread disk BOOT_SIZE in
  m ← mem_write m 0 d;
  let f := set_fs_info (PLive m) f in
  if negb (zlen d =? BOOT_SIZE) then Some (disk, f, -1) else
  if negb (streq (take 4 (fbytes ntfs_boot_file "sys_id" m)) (str_bytes "NTFS"))
  then Some (disk, f, -1) else
  m ← extend_clusters "clusters_per_mft_record" m;
  m ← extend_clusters "clusters_per_index_record" m;
  Some (disk, set_fs_info (PLive m) f, 0).

Definition ntfs_cleanup (f : fs) : option (fs * Z) :=
  if is_null (fs_info f) then Some (f, 0) else
  p ← cfree (fs_info f); Some (set_fs_info p f, 0).

(** ** Records *)

Definition ntfs_read_file_record_header (data : list Z) (offset : Z) : option (Z * list Z) :=
  rec ← mem_read data offset RECORD_SIZE; Some (u64 (offset + RECORD_SIZE), rec).

(** The number of bytes is computed in [int] and converted to [size_t]. *)
Definition ntfs_read_update_sequence (data : list Z) (offset size_usn usn : Z) :
    option (Z * ntfs_update_sequence) :=
  let n := 2 * size_usn - 2 in
  buf ← malloc (u64 n);
  d ← mem_read data offset (u64 n);
  buf ← mem_write buf 0 d;
  Some (u64 (offset + n), {| usn_num := usn; usn_size := u16 n; usn_data := buf |}).

(** One more round than the block has bytes is enough: every round reads the
    block 512 bytes further. *)
Fixpoint fixup_loop (fuel : nat) (data : list Z) (data_len : Z) (seq : ntfs_update_sequence)
    (data_counter seq_counter : Z) : option (list Z * Z) :=
  match fuel with
  | O => None
  | S fuel =>
      if data_counter <? data_len then
        if seq_counter <? usn_size seq then
          w ← mem_le 2 data data_counter;
          if negb (w =? usn_num seq) then Some (data, EXIT_FAILURE) else
          d ← mem_read (usn_data seq) seq_counter 2;
          data ← mem_write data data_counter d;
          fixup_loop fuel data data_len seq (data_counter + 512) (seq_counter + 2)
        else Some (data, EXIT_SUCCESS)
      else Some (data, EXIT_SUCCESS)
  end.

Definition ntfs_fixup_data (data : list Z) (data_len : Z) (seq : ntfs_update_sequence) :
    option (list Z * Z) :=
  fixup_loop (S (length data)) data data_len seq 510 0.

(** ** Attributes *)

Definition ntfs_read_attribute_header (data : list Z) (offset : Z) : option (Z * list Z) :=
  sah ← mem_read data offset SAH_SIZE; Some (u64 (offset + SAH_SIZE), sah).

Definition ntfs_read_non_resident_attribute_header (data : list Z) (offset : Z) :
    option (Z * list Z) :=
  nrh ← mem_read data offset NRH_SIZE; Some (u64 (offset + NRH_SIZE), nrh).

(** What is copied to the caller for an attribute of the type looked for. *)
Definition found_attribute (data : list Z) (offset : Z) (sah : list Z) (type : Z) :
    option (option (list Z)) :=
  if type =? NTFS_FILE_NAME then
    d ← mem_read data (u64 (offset + sahf "offset_of_attribute" sah - SAH_SIZE)) FILE_NAME_SIZE;
    Some (Some d)
  else if (type =? NTFS_INDEX_ALLOCATION) || (type =? NTFS_INDEX_ROOT) || (type =? NTFS_DATA)
  then Some (Some sah)
  else Some None.

(** The attributes from [offset] on; [Some] inside is what is found. *)
Fixpoint attribute_loop (fuel : nat) (data : list Z) (offset type : Z) :
    option (Z * option (list Z)) :=
  match fuel with
  | O => None
  | S fuel =>
      '(offset, sah) ← ntfs_read_attribute_header data offset;
      if sahf "attribute_type" sah =? type then
        r ← found_attribute data offset sah type; Some (offset, r)
      else
        let offset := u64 (offset + (sahf "length" sah - SAH_SIZE)) in
        end_ ← mem_le 4 data offset;
        if s32 end_ =? -1 then Some (offset, None)
        else attribute_loop fuel data offset type
  end.

(** Returns the attribute on [EXIT_SUCCESS], nothing on [EXIT_FAILURE]. *)
Definition ntfs_get_attribute (fuel : nat) (data : list Z) (offset type : Z) :
    option (Z * option (list Z)) :=
  '(offset, rec) ← ntfs_read_file_record_header data offset;
  if negb (streq (str_bytes "FILE") (fbytes ntfs_file_record "magic" rec))
  then Some (offset, None)
  else attribute_loop fuel data (recf "offset_first_attribute" rec) type.

Definition ntfs_get_size (data sah : list Z) (data_offset : Z) : option (Z * Z) :=
  if negb (sahf "non_resident_flag" sah =? 0) then
    '(data_offset, nrh) ← ntfs_read_non_resident_attribute_header data data_offset;
    Some (data_offset, fget ntfs_non_resident_header "real_size" nrh)
  else Some (data_offset, sahf "length_of_attribute" sah).

(** ** Runs *)

Definition UPPER_NIBBLE (u : Z) : Z := Z.shiftr (Z.land u 0x0f0) 4.
Definition LOWER_NIBBLE (u : Z) : Z := Z.land u 0x0f.

(** [length] and [lcn] are objects of 8 bytes, overwritten from their first
    byte on; the result is 0 at the end of the runs. *)
Definition ntfs_parse_data_run (data : list Z) (offset length lcn : Z) :
    option (Z * Z * Z * Z) :=
  drh ← mem_byte data offset;
  let offset := u64 (offset + 1) in
  if negb (drh =? 0) then
    let offset_size := UPPER_NIBBLE drh in
    let len_size := LOWER_NIBBLE drh in
    d ← mem_read data offset len_size;
    length ← mem_write (le_enc 8 length) 0 d;
    let offset := u64 (offset + len_size) in
    d ← mem_read data offset offset_size;
    lcn ← mem_write (le_enc 8 lcn) 0 d;
    let offset := u64 (offset + offset_size) in
    top ← mem_byte lcn (offset_size - 1);
    lcn ← (if top_bit_set top then
             bits ← highest_set_bit64 (le_dec lcn);
             sign_extend64 (le_dec lcn) bits
           else Some (s64 (le_dec lcn)));
    Some (offset, le_dec length, lcn, 1)
  else Some (offset, length, lcn, 0).
End ntfs.
