(* ===== verification/NtfsFiles.v ===== *)
(** * src/gray-crawler/ntfs/ntfs.c: data, documents and the walk

    The data of an attribute ([ntfs_handle_non_resident_data_attribute] and the
    functions around it), the documents of files, and the walk over the indexes
    of directories. [k] bounds the rounds of every loop, the fuel of the walk
    the depth of the tree. The [iconv] of the C library is a parameter. *)
From S2P Require Import Prelude Words Memory Struct Stdio Bitarray Bson BsonEncode BsonDecode BsonFields Util PartTable Ntfs.

(** [iconv] from UTF-16 to US-ASCII: what it has put into the output buffer when
    it returns, whether it fails or not, and which of the two it is. *)
Class Iconv := {
  iconv_ascii : list Z → list Z;
  iconv_ok : list Z → bool;
  iconv_length l : (length (iconv_ascii l) ≤ length l)%nat;
}.

(** Every unit of two bytes that is an ASCII character, as long as there are. *)
Fixpoint ascii_units (l : list Z) : list Z :=
  match l with
  | c :: h :: l => if (h =? 0) && (c <? 128) then c :: ascii_units l else []
  | _ => []
  end.

Lemma ascii_units_length n : ∀ l, (length l ≤ n)%nat → (length (ascii_units l) ≤ length l)%nat.
Proof.
  induction n as [|n IH]; intros [|c [|h l]] Hl; simpl in *; try lia.
  destruct ((h =? 0) && (c <? 128)); simpl; [|lia]. specialize (IH l ltac:(lia)). lia.
Qed.

#[export] Instance iconv_units : Iconv | 100 :=
  {| iconv_ascii := ascii_units;
     iconv_ok l := 2 * zlen (ascii_units l) =? zlen l;
     iconv_length l := ascii_units_length _ l (le_n _) |}.

Section ntfs_files.
Context `{Malloc} `{Iconv}.
Variable k : nat.

(** ** The data of an attribute *)

Section data.
Context (bootf : list Z) (partition_offset : Z).

(** An element per 4096 bytes of the run: its sector. *)
Fixpoint run_sectors (fuel : nat) (i n run_lcn_bytes sector_counter : Z) (sectors : bson_info) :
    option (bson_info * Z) :=
  match fuel with
  | O => None
  | S fuel =>
      if i <? n then
        let value1data := s32 (u64 (u64 (Z.quot run_lcn_bytes 512) + i)) in
        '(sectors, _) ← bson_serialize sectors
          (fill_count BSON_INT32 (u32 sector_counter) (le_enc 4 value1data) kv_indet);
        run_sectors fuel (u64 (i + 8)) n run_lcn_bytes (s32 (sector_counter + 1)) sectors
      else Some (sectors, sector_counter)
  end.

(** The disk, the stream that is filled, if one is, the position in it and what
    is left of the attribute's data. *)
Record copy := { cp_disk : FILE; cp_stream : option cptr; cp_position : Z; cp_left : Z }.

(** [n] bytes of the run, which are read and copied if there is a stream. *)
Definition copy_step (n : Z) (c : copy) : run copy :=
  match cp_stream c with
  | None => Done {| cp_disk := cp_disk c; cp_stream := None; cp_position := cp_position c;
                    cp_left := u64 (cp_left c - n) |}
  | Some p =>
      let '(disk, d) := fread (cp_disk c) n in
      if (n =? 0) || negb (zlen d =? n) then Ended (Exit 1) else
      m ← lift (deref p);
      m ← lift (mem_write m (cp_position c) d);
      Done {| cp_disk := disk; cp_stream := Some (PLive m);
              cp_position := u64 (cp_position c + 4096); cp_left := u64 (cp_left c - n) |}
  end.

Fixpoint copy_run (fuel : nat) (run_length_bytes : Z) (c : copy) : run copy :=
  match fuel with
  | O => Undefined
  | S fuel =>
      if run_length_bytes =? 0 then Done c else
      let run_length_bytes :=
        if cp_left c <? run_length_bytes then cp_left c else run_length_bytes in
      let n := if 4096 <=? run_length_bytes then 4096 else run_length_bytes in
      c ← copy_step n c;
      copy_run fuel (run_length_bytes - n) c
  end.

(** The runs from [offset] on. An address that overflows is undefined. *)
Fixpoint runs_loop (fuel : nat) (save : bool) (data : list Z) (offset prev_lcn : Z)
    (sector_counter : Z) (sectors : bson_info) (c : copy) : run (Z * bson_info * copy) :=
  match fuel with
  | O => Undefined
  | S fuel =>
      '(offset, run_length, run_lcn, more) ← lift (ntfs_parse_data_run data offset 0 0);
      if (more =? 0) || (cp_left c =? 0) then Done (offset, sectors, c) else
      let run_length_bytes :=
        u64 (u64 (run_length * bootf_ "bytes_per_sector" bootf) *
             bootf_ "sectors_per_cluster" bootf) in
      let lcn := prev_lcn + run_lcn in
      if bool_decide (¬ - 2 ^ 63 ≤ lcn < 2 ^ 63) then Undefined else
      let run_lcn_bytes := s64 (ntfs_lcn_to_offset bootf partition_offset (u64 lcn)) in
      if negb (0 <=? lcn) || negb (lcn <? 26214400) then Ended Abort else
      '(sectors, sector_counter) ←
        (if save then lift (run_sectors k 0 (run_length_bytes `div` 512) run_lcn_bytes
                              sector_counter sectors)
         else Done (sectors, sector_counter));
      c ← (match cp_stream c with
           | Some _ =>
               let '(disk, r) := fseeko (cp_disk c) run_lcn_bytes in
               if negb (r =? 0) then Ended (Exit 1) else
               Done {| cp_disk := disk; cp_stream := cp_stream c;
                       cp_position := cp_position c; cp_left := cp_left c |}
           | None => Done c
           end);
      c ← copy_run k run_length_bytes c;
      runs_loop fuel save data offset lcn sector_counter sectors c
  end.

(** What the handlers of data change: the disk, the caller's [*stream] and
    [*stream_len] if there is a stream, and the document if there is one. *)
Record data_state := {
  ds_disk : FILE;
  ds_stream : option (cptr * Z);
  ds_bson : option bson_info;
}.

(** The array "sectors" goes into the document if there is one that is to have
    it; otherwise it is leaked. *)
Definition save_array (save : bool) (sectors : bson_info) (b : option bson_info) :
    option (option bson_info) :=
  if save then b ← b; b ← close_array "sectors" b sectors; Some (Some b) else Some b.

Definition ntfs_handle_non_resident_data_attribute (data : list Z) (offset : Z)
    (save_sectors : bool) (d : data_state) : run (Z * data_state) :=
  let save := match ds_bson d with Some _ => save_sectors | None => false end in
  sectors ← lift bson_init;
  '(offset, nrh) ← lift (ntfs_read_non_resident_attribute_header data offset);
  let nrhf f := fget ntfs_non_resident_header f nrh in
  let real_size := nrhf "real_size" in
  let stream := (λ _, cmalloc real_size) <$> ds_stream d in
  let offset := u64 (offset + (nrhf "data_run_offset" - SAH_SIZE - NRH_SIZE)) in
  '(offset, sectors, c) ← runs_loop k save data offset 0 0 sectors
    {| cp_disk := ds_disk d; cp_stream := stream; cp_position := 0; cp_left := real_size |};
  b ← lift (save_array save sectors (ds_bson d));
  Done (offset, {| ds_disk := cp_disk c; ds_stream := (λ p, (p, real_size)) <$> cp_stream c;
                   ds_bson := b |}).

Definition ntfs_read_attribute_data (data : list Z) (offset : Z) (buf : list Z) (buf_len : Z)
    (sah : list Z) : option (Z * list Z * Z) :=
  let offset := u64 (offset + (sahf "offset_of_attribute" sah - SAH_SIZE)) in
  let n := sahf "length_of_attribute" sah in
  if buf_len <? n then Some (offset, buf, EXIT_FAILURE) else
  d ← mem_read data offset n;
  buf ← mem_write buf 0 d;
  Some (u64 (offset + n), buf, EXIT_SUCCESS).

(** A resident attribute has no sectors: the array has the element -1. *)
Definition ntfs_handle_resident_data_attribute (data : list Z) (offset : Z) (buf : list Z)
    (buf_len : Z) (sah : list Z) (save_sectors : bool) (b : option bson_info) :
    option (Z * list Z * option bson_info) :=
  let save := match b with Some _ => save_sectors | None => false end in
  sectors ← bson_init;
  '(offset, buf, _) ← ntfs_read_attribute_data data offset buf buf_len sah;
  '(sectors, _) ←
    (if save then bson_serialize sectors (fill_count BSON_INT32 0 (le_enc 4 (-1)) kv_indet)
     else Some (sectors, 0));
  b ← save_array save sectors b;
  Some (offset, buf, b).

(** With a stream, the resident data goes not to [*stream] but to [stream]
    itself, a pointer of 8 bytes. *)
Definition ntfs_dispatch_data_attribute (data : list Z) (offset : Z) (sah : list Z)
    (save_sectors : bool) (d : data_state) : run (Z * data_state * Z) :=
  let type := sahf "attribute_type" sah in
  let flag bit := negb (Z.land (sahf "flags" sah) bit =? 0) in
  if negb (type =? NTFS_DATA) && negb (type =? NTFS_INDEX_ALLOCATION)
  then Done (offset, d, EXIT_FAILURE) else
  if flag 0x0001 then Done (offset, d, EXIT_FAILURE) else
  if flag 0x4000 then Done (offset, d, EXIT_FAILURE) else
  if flag 0x8000 then Done (offset, d, EXIT_FAILURE) else
  if negb (sahf "non_resident_flag" sah =? 0) then
    '(offset, d) ← ntfs_handle_non_resident_data_attribute data offset save_sectors d;
    Done (offset, d, EXIT_SUCCESS)
  else
    '(offset, buf, b) ← lift (ntfs_handle_resident_data_attribute data offset
      (replicate 4096 (u8 indeterminate)) 4096 sah save_sectors (ds_bson d));
    stream ← (match ds_stream d with
              | Some _ =>
                  let p := cmalloc 4096 in
                  _ ← lift (mem_write (replicate 8 0) 0 buf);
                  Done (Some (p, 4096))
              | None => Done None
              end);
    Done (offset, {| ds_disk := ds_disk d; ds_stream := stream; ds_bson := b |}, EXIT_SUCCESS).

(** ** Records *)

(** The fixups of a record, whose result is ignored, as both callers do them. *)
Definition fixup_record (data : list Z) : option (list Z * list Z) :=
  '(offset, rec) ← ntfs_read_file_record_header data 0;
  '(_, seq) ← ntfs_read_update_sequence data offset (recf "size_usn" rec) (recf "usn_num" rec);
  size ← ntfs_file_record_size bootf;
  '(data, _) ← ntfs_fixup_data data (u64 size) seq;
  Some (data, rec).

(** The data is read into a new block; the one allocated first is leaked. *)
Definition ntfs_read_file_data (disk : FILE) (data : list Z) (buf : cptr) :
    run (FILE * list Z * cptr * Z) :=
  '(data, _) ← lift (fixup_record data);
  '(offset, attr) ← lift (ntfs_get_attribute k data 0 NTFS_DATA);
  match attr with
  | None => Done (disk, data, buf, EXIT_FAILURE)
  | Some sah =>
      '(_, fsize) ← lift (ntfs_get_size data sah offset);
      let buf := cmalloc fsize in
      if is_null buf then Done (disk, data, buf, EXIT_FAILURE) else
      '(offset, attr) ← lift (ntfs_get_attribute k data 0 NTFS_DATA);
      match attr with
      | None => Done (disk, data, buf, EXIT_FAILURE)
      | Some sah =>
          '(_, d, rc) ← ntfs_dispatch_data_attribute data offset sah false
            {| ds_disk := disk; ds_stream := Some (buf, u64 indeterminate); ds_bson := None |};
          let buf := match ds_stream d with Some (p, _) => p | None => buf end in
          Done (ds_disk d, data, buf, if negb (rc =? 0) then EXIT_FAILURE else EXIT_SUCCESS)
      end
  end.

(** The records from 16 on are taken from the table in memory, [mft], the others
    from the disk; record 0 describes the table, and has it read. *)
Definition ntfs_read_file_record (disk : FILE) (record_num : Z) (mft : cptr) (buf : list Z)
    (bson : bson_info) : run (FILE * cptr * list Z * bson_info * Z) :=
  record_size ← lift (ntfs_file_record_size bootf);
  let offset := s64 (u64 (ntfs_lcn_to_offset bootf partition_offset (bootf_ "lcn_mft" bootf) +
                          u64 (record_num * u64 record_size))) in
  let cluster := bootf_ "bytes_per_sector" bootf * bootf_ "sectors_per_cluster" bootf in
  if cluster =? 0 then Undefined else
  '(bson, _) ← lift (serialize_fields bson kv_indet
    [fill_str "type" 4 (cstr "file");
     fill_mem BSON_INT64 "inode_sector" (le_enc 8 (Z.quot offset 512));
     fill_mem BSON_INT64 "inode_offset" (le_enc 8 (Z.rem offset cluster));
     fill_mem BSON_INT32 "inode_num" (le_enc 4 (s32 record_num))]);
  let finish disk mft buf :=
    if negb (streq (take 4 buf) (str_bytes "FILE")) then Done (disk, mft, buf, bson, 0)
    else Done (disk, mft, buf, bson, record_size) in
  if record_num <? 16 then
    let '(disk, r) := fseeko disk offset in
    if negb (r =? 0) then Done (disk, mft, buf, bson, 0) else
    let '(disk, d) := fread disk (u64 record_size) in
    buf ← lift (mem_write buf 0 d);
    if negb (zlen d =? u64 record_size) then Done (disk, mft, buf, bson, 0) else
    if record_num =? 0 then
      '(disk, buf, mft, rc) ← ntfs_read_file_data disk buf mft;
      if negb (rc =? 0) then Done (disk, mft, buf, bson, 0) else finish disk mft buf
    else finish disk mft buf
  else
    m ← lift (deref mft);
    d ← lift (mem_read m (u64 (record_num * u64 record_size)) (u64 record_size));
    buf ← lift (mem_write buf 0 d);
    finish disk mft buf.

(** ** The root of an index: it is read, and printed *)

Definition ntfs_read_index_header (data : list Z) (offset : Z) : option Z :=
  hdr ← mem_read data offset 16;
  Some (u64 (offset + fget ntfs_index_header "first_entry_offset" hdr)).

(** [Some None] is [EXIT_FAILURE]: an entry without length. *)
Definition ntfs_read_index_entry (data : list Z) (offset : Z) : option (option (list Z)) :=
  entry ← mem_read data offset 16;
  Some (if fget ntfs_index_entry "length" entry =? 0 then None else Some entry).

(** The printer reads the VCN at the end of the entry. *)
Definition ntfs_print_index_entry (data : list Z) (offset : Z) (entry : list Z) : option unit :=
  if negb (Z.land (fget ntfs_index_entry "flags" entry) 0x1 =? 0) then
    _ ← mem_read data (offset + (fget ntfs_index_entry "length" entry - 8)) 8; Some tt
  else Some tt.

Fixpoint ntfs_read_index_entries (fuel : nat) (data : list Z) (offset : Z) : option Z :=
  match fuel with
  | O => None
  | S fuel =>
      e ← ntfs_read_index_entry data offset;
      match e with
      | None => Some offset
      | Some entry =>
          _ ← ntfs_print_index_entry data offset entry;
          let offset := u64 (offset + fget ntfs_index_entry "length" entry) in
          if negb (Z.land (fget ntfs_index_entry "flags" entry) 0x02 =? 0) then Some offset
          else ntfs_read_index_entries fuel data offset
      end
  end.

Definition ntfs_dispatch_index_root_attribute (data : list Z) (offset : Z) (sah : list Z) :
    option (Z * Z) :=
  if negb (sahf "attribute_type" sah =? NTFS_INDEX_ROOT) then Some (offset, EXIT_FAILURE) else
  let offset := u64 (offset + (sahf "offset_of_attribute" sah - SAH_SIZE)) in
  _ ← mem_read data offset 16;
  offset ← ntfs_read_index_header data (u64 (offset + 16));
  offset ← ntfs_read_index_entries k data offset;
  Some (offset, 0).

(** ** The records of an index *)

(** The disk, the output, and the static [sector] that numbers the records. *)
Record ntfs_walk := { nw_disk : FILE; nw_out : FILE; nw_sector : Z }.

Definition set_walk_disk (d : FILE) (w : ntfs_walk) : ntfs_walk :=
  {| nw_disk := d; nw_out := nw_out w; nw_sector := nw_sector w |}.

Definition set_walk_out (f : FILE) (w : ntfs_walk) : ntfs_walk :=
  {| nw_disk := nw_disk w; nw_out := f; nw_sector := nw_sector w |}.

Definition NTFS_F_DIRECTORY : Z := 0x10000000.

(** [name] has 32767 bytes. *)
Definition in_name (s : list Z) : option (list Z) :=
  if zlen s <? 32767 then Some s else None.

(** [utf16_fname] is [inlen] bytes at [offset]. The message about a failed
    conversion prints eight bytes, however long the name is. *)
Definition ntfs_utf16_to_char (stream : list Z) (offset inlen : Z) (char_fname : list Z) :
    option (list Z * Z) :=
  utf16_fname ← mem_read stream offset inlen;
  char_fname ← mem_write char_fname 0 (iconv_ascii utf16_fname);
  if iconv_ok utf16_fname then Some (char_fname, EXIT_SUCCESS)
  else _ ← mem_read stream offset 8; Some (char_fname, -1).

(** The name of an entry in [current_fname], 512 bytes; the result of the
    conversion is ignored. *)
Definition entry_fname (stream : list Z) (offset : Z) (ire : list Z) (current_fname : cptr) :
    option (list Z) :=
  m ← deref current_fname;
  m ← mem_write m 0 (replicate 512 0);
  '(m, _) ← ntfs_utf16_to_char stream offset (iref "filename_length" ire * 2) m;
  cstr_at m 0.

Section index.
(** [ntfs_serialize_file_record] on a record and its path. *)
Variable rec : list Z → list Z → bson_info → ntfs_walk → run (ntfs_walk * Z).
Context (mft : cptr) (prefix : list Z) (current_fname : cptr).

(** Any memory of the size of a record; it is overwritten before it is read. *)
Definition record_buffer : option (list Z) :=
  size ← ntfs_file_record_size bootf; Some (replicate (Z.to_nat size) (u8 indeterminate)).

(** An entry with a name: its element in [datas] and its file. The result is the
    new [datas], nothing when the caller returns [EXIT_FAILURE]. *)
Definition index_file (count : Z) (stream : list Z) (offset : Z) (ire : list Z)
    (datas : bson_info) (w : ntfs_walk) : run (ntfs_walk * option bson_info) :=
  let ref := ntfs_get_reference_int (fbytes ntfs_index_record_entry "ref" ire) in
  fname ← lift (entry_fname stream offset ire current_fname);
  name ← lift (in_name (prefix ++ fname));
  '(datas, _) ← lift (bson_serialize datas
    (fill_count_bin count (8 + zlen fname) (le_enc 8 ref ++ fname) kv_indet));
  name ← lift (if negb (Z.land (iref "file_flags" ire) NTFS_F_DIRECTORY =? 0)
               then in_name (name ++ str_bytes "/") else Some name);
  if ref =? 0 then Done (w, Some datas) else
  bson2 ← lift bson_init;
  buf ← lift record_buffer;
  '(disk, _, file_record, bson2, r) ← ntfs_read_file_record (nw_disk w) ref mft buf bson2;
  let w := set_walk_disk disk w in
  if r =? 0 then Done (w, None) else
  '(w, _) ← rec file_record name bson2 w;
  Done (w, Some datas).

(** The entries of a record from [offset] on; [flags] are those of the last. *)
Fixpoint index_entries (fuel : nat) (count : Z) (stream : list Z) (offset flags : Z)
    (datas : bson_info) (w : ntfs_walk) : run (ntfs_walk * option bson_info) :=
  match fuel with
  | O => Undefined
  | S fuel =>
      if negb (Z.land flags 0x02 =? 0) then Done (w, Some datas) else
      ire ← lift (mem_read stream offset IRE_SIZE);
      let here := u64 (offset + IRE_SIZE) in
      let next := u64 (here + (iref "size" ire - IRE_SIZE)) in
      let ref := ntfs_get_reference_int (fbytes ntfs_index_record_entry "ref" ire) in
      let parent := ntfs_get_reference_int (fbytes ntfs_index_record_entry "parent" ire) in
      if (ref <? 15) || (parent =? ref)
      then index_entries fuel count stream next (iref "flags" ire) datas w
      else
        '(w, r) ← index_file count stream here ire datas w;
        match r with
        | None => Done (w, None)
        | Some datas => index_entries fuel count stream next (iref "flags" ire) datas w
        end
  end.

(** The records, 4096 bytes apart; [seq] is the last update sequence. The inner
    result is nothing when the caller returns [EXIT_FAILURE]. *)
Fixpoint index_records (fuel : nat) (stream : list Z) (stream_len : Z)
    (sectors datas : bson_info) (seq : option ntfs_update_sequence) (w : ntfs_walk) :
    run (ntfs_walk * option (bson_info * bson_info * option ntfs_update_sequence)) :=
  match fuel with
  | O => Undefined
  | S fuel =>
      if negb (0 <? stream_len) then Done (w, Some (sectors, datas, seq)) else
      irh ← lift (mem_read stream 0 IRH_SIZE);
      let irhf f := fget ntfs_index_record_header f irh in
      let next stream := index_records fuel (drop 4096 stream) (u64 (stream_len - 4096)) in
      if negb (streq (fbytes ntfs_index_record_header "magic" irh) (str_bytes "INDX"))
      then next stream sectors datas seq w else
      '(_, s) ← lift (ntfs_read_update_sequence stream IRH_SIZE (irhf "size_usn")
                        (irhf "usn_num"));
      '(stream, rc) ← lift (ntfs_fixup_data stream
                              (u32 (irhf "allocated_size_of_index_entries" + 0x18)) s);
      if negb (rc =? 0) then next stream sectors datas (Some s) w else
      let count := nw_sector w in
      '(sectors, _) ← lift (bson_serialize sectors
        (fill_count BSON_INT32 count (le_enc 4 count) kv_indet));
      let w := {| nw_disk := nw_disk w; nw_out := nw_out w; nw_sector := u32 (count + 1) |} in
      '(w, r) ← index_entries k count stream (u32 (irhf "offset_to_index_entries" + 0x18)) 0
                  datas w;
      match r with
      | None => Done (w, None)
      | Some datas => next stream sectors datas (Some s) w
      end
  end.

(** At the end the directory's document is written. [seq.data] is freed, which
    is undefined when no record had an update sequence. *)
Definition finish_index (bson sectors datas : bson_info) (seq : option ntfs_update_sequence)
    (w : ntfs_walk) : run (ntfs_walk * Z) :=
  bson ← lift (close_array "sectors" bson sectors);
  bson ← lift (close_array "files" bson datas);
  '(f, _) ← lift (finish_document bson (nw_out w));
  _ ← lift seq;
  Done (set_walk_out f w, EXIT_SUCCESS).

Definition ntfs_dispatch_index_allocation_attribute (data : list Z) (offset : Z) (sah : list Z)
    (bson : bson_info) (w : ntfs_walk) : run (ntfs_walk * Z) :=
  sectors ← lift bson_init;
  datas ← lift bson_init;
  '(_, d, rc) ← ntfs_dispatch_data_attribute data offset sah false
    {| ds_disk := nw_disk w; ds_stream := Some (PNull, 0); ds_bson := Some bson |};
  let w := set_walk_disk (ds_disk d) w in
  if negb (rc =? 0) then Done (w, EXIT_FAILURE) else
  '(p, stream_len) ← lift (ds_stream d);
  bson ← lift (ds_bson d);
  stream ← lift (deref p);
  '(w, r) ← index_records k stream stream_len sectors datas None w;
  match r with
  | None => Done (w, EXIT_FAILURE)
  | Some (sectors, datas, seq) => finish_index bson sectors datas seq w
  end.
End index.
End data.

(** ** The document of a record *)

Definition NTFS_FILETIME_TO_UNIX : Z := (369 * 365 + 89) * 24 * 3600 * 10000000.

Definition S_IFDIR : Z := 0x4000.
Definition S_IFREG : Z := 0x8000.

Definition record_is_dir (rec : list Z) : bool := Z.land (recf "flags" rec) 0x02 =? 0x02.

Definition record_mode (rec fdata : list Z) : Z :=
  Z.lor (if record_is_dir rec then Z.lor S_IFDIR 0x49 else S_IFREG)
        (if negb (Z.land (fget ntfs_file_name "flags" fdata) 0x0001 =? 0) then 0x124 else 0x1ff).

(** All three times are the access time. *)
Definition record_time (fdata : list Z) : Z :=
  u64 (fget ntfs_file_name "a_time" fdata - NTFS_FILETIME_TO_UNIX) `div` 10000000.

Definition path_size (prefix : list Z) (is_dir : bool) : Z :=
  if (1 <? zlen prefix) && is_dir then zlen prefix - 1 else zlen prefix.

Definition record_fields (prefix rec fdata : list Z) (fsize : Z) :
    list (bson_kv → bson_kv) :=
  let is_dir := record_is_dir rec in
  [fill_str "path" (path_size prefix is_dir) (prefix ++ [0]);
   fill_mem BSON_BOOLEAN "is_dir" [if is_dir then 1 else 0];
   fill_mem BSON_INT64 "size" (le_enc 8 fsize);
   fill_mem BSON_INT64 "mode" (le_enc 8 (record_mode rec fdata));
   fill_mem BSON_INT64 "link_count" (le_enc 8 (recf "hard_link_count" rec));
   fill_mem BSON_INT64 "uid" (le_enc 8 0);
   fill_mem BSON_INT64 "gid" (le_enc 8 0);
   fill_mem BSON_INT64 "atime" (le_enc 8 (record_time fdata));
   fill_mem BSON_INT64 "mtime" (le_enc 8 (record_time fdata));
   fill_mem BSON_INT64 "ctime" (le_enc 8 (record_time fdata))].

(** The end of a file's document: its sectors. *)
Definition serialize_record_data (bootf : list Z) (partition_offset : Z) (data : list Z)
    (bson : bson_info) (w : ntfs_walk) : run (ntfs_walk * Z) :=
  '(offset, sah) ← lift (ntfs_get_attribute k data 0 NTFS_DATA);
  match sah with
  | None => Done (w, EXIT_FAILURE)
  | Some sah =>
      '(_, d, _) ← ntfs_dispatch_data_attribute bootf partition_offset data offset sah
        true {| ds_disk := nw_disk w; ds_stream := None; ds_bson := Some bson |};
      bson ← lift (ds_bson d);
      '(f, _) ← lift (finish_document bson (nw_out w));
      Done (set_walk_out f (set_walk_disk (ds_disk d) w), EXIT_SUCCESS)
  end.

(** The end of a directory's document: its entries, each of which [rec] walks. *)
Definition serialize_record_index (bootf : list Z) (partition_offset : Z)
    (rec : list Z → list Z → bson_info → ntfs_walk → run (ntfs_walk * Z))
    (mft : cptr) (prefix data : list Z) (bson : bson_info) (w : ntfs_walk) :
    run (ntfs_walk * Z) :=
  '(offset, sah) ← lift (ntfs_get_attribute k data 0 NTFS_INDEX_ROOT);
  _ ← (match sah with
       | Some sah =>
           '(_, _) ← lift (ntfs_dispatch_index_root_attribute data offset sah);
           Done tt
       | None => Done tt
       end);
  '(offset, sah) ← lift (ntfs_get_attribute k data 0 NTFS_INDEX_ALLOCATION);
  match sah with
  | Some sah =>
      let current_fname := cmalloc 512 in
      '(w, _) ← ntfs_dispatch_index_allocation_attribute bootf partition_offset rec mft prefix
        current_fname data offset sah bson w;
      Done (w, EXIT_SUCCESS)
  | None => Done (w, EXIT_SUCCESS)
  end.

(** The size of a directory is that of whatever attribute header is on the stack.
    A file whose data is not found leaves no document, and neither does a
    directory without an allocated index. *)
Fixpoint ntfs_serialize_file_record (fuel : nat) (bootf : list Z) (partition_offset : Z)
    (mft : cptr) (data prefix : list Z) (bson : bson_info) (w : ntfs_walk) : run (ntfs_walk * Z) :=
  match fuel with
  | O => Undefined
  | S fuel =>
      '(data, rec) ← lift (fixup_record bootf data);
      let is_dir := record_is_dir rec in
      let attribute type := lift (ntfs_get_attribute k data 0 type) in
      '(_, fdata) ← attribute NTFS_FILE_NAME;
      let fdata := default (replicate (Z.to_nat FILE_NAME_SIZE) (u8 indeterminate)) fdata in
      '(offset, sah) ← (if is_dir
        then Done (0, Some (replicate (Z.to_nat SAH_SIZE) (u8 indeterminate)))
        else attribute NTFS_DATA);
      match sah with
      | None => Done (w, EXIT_FAILURE)
      | Some sah =>
          '(_, fsize) ← lift (ntfs_get_size data sah offset);
          '(bson, _) ← lift (serialize_fields bson kv_indet
                               (record_fields prefix rec fdata fsize));
          if negb is_dir then
            serialize_record_data bootf partition_offset data bson w
          else
            serialize_record_index bootf partition_offset
              (ntfs_serialize_file_record fuel bootf partition_offset mft) mft prefix data bson w
      end
  end.

(** ** The file system *)

(** [partition_offset] has been divided when the remainder is taken. *)
Definition ntfs_serialize_fs (bootf : list Z) (partition_offset pte_num : Z)
    (mount_point : list Z) (f : FILE) : option (FILE * Z) :=
  let block_size := bootf_ "bytes_per_sector" bootf in
  let blocks_per_group := bootf_ "sectors_per_cluster" bootf in
  size ← ntfs_file_record_size bootf;
  let inode_size := u64 size in
  inodes_per_group ← cdiv (blocks_per_group * block_size) inode_size;
  mount_len ← cstrlen mount_point;
  let sector := Z.quot partition_offset SECTOR_SIZE in
  sectors ← bson_init;
  '(f, _) ← write_document
    [fill_str "type" 2 (cstr "fs");
     fill_mem BSON_INT32 "pte_num" (le_enc 4 pte_num);
     fill_str "fs" 4 (cstr "ntfs");
     fill_str "mount_point" mount_len mount_point;
     fill_mem BSON_INT32 "num_block_groups" (le_enc 4 0);
     fill_mem BSON_INT32 "num_files" (le_enc 4 (-1));
     fill_mem BSON_INT64 "superblock_sector" (le_enc 8 sector);
     fill_mem BSON_INT64 "superblock_offset" (le_enc 8 (Z.rem sector SECTOR_SIZE));
     fill_mem BSON_INT64 "block_size" (le_enc 8 block_size);
     fill_mem BSON_INT64 "blocks_per_group" (le_enc 8 blocks_per_group);
     fill_mem BSON_INT64 "inodes_per_group" (le_enc 8 inodes_per_group);
     fill_mem BSON_INT64 "inode_size" (le_enc 8 inode_size)] f;
  _ ← bson_cleanup sectors;
  Some (f, EXIT_SUCCESS).

(** Records 0, the file table, and 5, the root directory, into one document. *)
Definition ntfs_serialize_fs_tree (fuel : nat) (bootf : list Z) (partition_offset : Z)
    (mount_point : list Z) (w : ntfs_walk) : run (ntfs_walk * Z) :=
  data ← lift (record_buffer bootf);
  bson ← lift bson_init;
  '(disk, mft, data, bson, r) ←
    ntfs_read_file_record bootf partition_offset (nw_disk w) 0 PNull data bson;
  let w := set_walk_disk disk w in
  if r =? 0 then Done (w, EXIT_FAILURE) else
  '(disk, mft, data, bson, r) ←
    ntfs_read_file_record bootf partition_offset (nw_disk w) 5 mft data bson;
  let w := set_walk_disk disk w in
  if r =? 0 then Done (w, EXIT_FAILURE) else
  '(w, _) ← ntfs_serialize_file_record fuel bootf partition_offset mft data mount_point bson w;
  _ ← lift (cfree mft);
  Done (w, EXIT_SUCCESS).

Definition ntfs_serialize (fuel : nat) (f : fs) (w : ntfs_walk) : run (ntfs_walk * Z) :=
  bootf ← lift (deref (fs_info f));
  '(out, rc) ← lift (ntfs_serialize_fs bootf (fs_pt_off f) (fs_pte f) (cstr "/") (nw_out w));
  let w := set_walk_out out w in
  if negb (rc =? 0) then Done (w, -1) else
  '(w, _) ← ntfs_serialize_fs_tree fuel bootf (fs_pt_off f) (str_bytes "/") w;
  Done (w, 0).
End ntfs_files.
