(* ===== verification/NtfsPrint.v ===== *)
(** * Printing what is found on an NTFS volume

    The [ntfs_print_*] functions of src/gray-crawler/ntfs/ntfs.c, as the texts
    they print about the structures [Ntfs] and [NtfsFiles] read. The two upper
    bytes of [ref], which [memcpy] leaves as they were, and the upper half of
    the [uint64_t] that [%lx] takes for a [uint32_t] are arguments. *)
From S2P Require Import Prelude Words Memory Struct Text Util Hexdump PartTable Ntfs NtfsFiles.

(** ** Definitions *)

(** A line [label: value] *)
Definition labelled (color : std_stream → list Z → output) (label : string) (value : list Z) : output :=
  color Stdout (str_bytes label ++ value ++ [NL]).

(** [%.4s]: at most four characters, up to a zero. *)
Fixpoint until_zero (n : nat) (s : list Z) : list Z :=
  match n, s with
  | S n, c :: s => if c =? 0 then [] else c :: until_zero n s
  | _, _ => []
  end.

Definition ntfs_print_index_record_header (irh : list Z) : output * Z :=
  let get f := fget ntfs_index_record_header f irh in
  let field label f := labelled fprintf_yellow label (decimal (get f)) in
  (labelled fprintf_light_blue "irh->magic: "
     (until_zero 4 (fbytes ntfs_index_record_header "magic" irh)) ++
   field "irh->update_seq_offset: " "update_seq_offset" ++
   field "irh->size_update_seq: " "size_usn" ++
   field "irh->log_seq_num: " "log_seq_num" ++
   field "irh->index_vcn: " "index_vcn" ++
   field "irh->offset_to_index_entries: " "offset_to_index_entries" ++
   field "irh->size_of_index_entries: " "size_of_index_entries" ++
   field "irh->allocated_size_of_index_entries: " "allocated_size_of_index_entries" ++
   labelled fprintf_yellow "irh->is_leaf: 0x" (hex_digits 16 (get "is_leaf")) ++
   labelled fprintf_yellow "irh->usn: [0x" (hex_digits 16 (get "usn_num") ++ str_bytes "]"),
   EXIT_SUCCESS).

(** [ref] after [memcpy(&ref, record_number, 6)] *)
Definition copied_ref (ref junk : list Z) : Z :=
  le_dec (fbytes ntfs_file_reference "record_number" ref ++ junk).

Definition ntfs_print_index_record_entry (junk : list Z) (high : Z) (ire : list Z) : output * Z :=
  let field label f := labelled fprintf_yellow label (decimal (iref f ire)) in
  (labelled fprintf_light_blue "ire->ref: "
     (decimal (copied_ref (fbytes ntfs_index_record_entry "ref" ire) junk)) ++
   field "ire->size: " "size" ++
   field "ire->file_name_offset: " "file_name_offset" ++
   field "ire->flags: " "flags" ++
   field "ire->c_time: " "c_time" ++
   field "ire->m_time: " "m_time" ++
   field "ire->a_time: " "a_time" ++
   field "ire->file_allocated_size: " "file_allocated_size" ++
   field "ire->file_real_size: " "file_real_size" ++
   labelled fprintf_yellow "ire->file_flags: 0x"
     (hex_digits 16 (u64 (2 ^ 32 * high + iref "file_flags" ire))) ++
   field "ire->filename_length: " "filename_length" ++
   field "ire->filename_namespace: " "filename_namespace", EXIT_SUCCESS).

Definition ntfs_print_non_resident_header (header : list Z) : output * Z :=
  let field label f :=
    labelled fprintf_yellow label (decimal (fget ntfs_non_resident_header f header)) in
  (field "non_resident.last_vcn: " "last_vcn" ++
   field "non_resident.data_run_offset: " "data_run_offset" ++
   field "non_resident.compression_size: " "compression_size" ++
   field "non_resident.allocated_size: " "allocated_size" ++
   field "non_resident.real_size: " "real_size" ++
   field "non_resident.initialized_size: " "initialized_size", EXIT_SUCCESS).

Definition ntfs_print_data_run_header (packed_sizes : Z) : output * Z :=
  (labelled fprintf_light_yellow "data_run.raw: " (hex_digits 16 packed_sizes) ++
   labelled fprintf_yellow "data_run.offset_size: " (decimal (UPPER_NIBBLE packed_sizes)) ++
   labelled fprintf_yellow "data_run.length_size: " (decimal (LOWER_NIBBLE packed_sizes)),
   EXIT_SUCCESS).

(** [for (i = 0; i < seq->usn_size; i++)] *)
Fixpoint print_sequence_loop (n : nat) (data : list Z) (i : Z) : option output :=
  match n with
  | O => Some []
  | S n =>
      b ← mem_byte data i;
      o ← print_sequence_loop n data (i + 1);
      Some (fprintf_light_yellow Stdout (SP :: fmt_x 2 b ++ [SP]) ++ o)
  end.

Definition ntfs_print_update_sequence (seq : ntfs_update_sequence) : option (output * Z) :=
  bytes ← print_sequence_loop (Z.to_nat (usn_size seq)) (usn_data seq) 0;
  Some (labelled fprintf_yellow "seq.usn_num: " (fmt_x 4 (usn_num seq)) ++
        labelled fprintf_yellow "seq.usn_size: " (decimal (usn_size seq)) ++
        fprintf_yellow Stdout (str_bytes "seq.data: ") ++ bytes ++ fprintf Stdout [NL],
        EXIT_SUCCESS).

Definition ntfs_print_index_root (root : list Z) : output * Z :=
  let get f := fget ntfs_index_root f root in
  (labelled fprintf_yellow "root.attribute_type: 0x" (hex_digits 16 (get "attribute_type")) ++
   labelled fprintf_yellow "root.collation_rule: " (decimal (get "collation_rule")) ++
   labelled fprintf_yellow "root.index_alloc_entry_size: " (decimal (get "index_alloc_entry_size")) ++
   labelled fprintf_yellow "root.clusters_per_index_record: "
     (decimal (get "clusters_per_index_record")), EXIT_SUCCESS).

(** [%hhu] prints the low byte of [flags]. *)
Definition ntfs_print_index_header (hdr : list Z) : output * Z :=
  let get f := fget ntfs_index_header f hdr in
  (labelled fprintf_yellow "hdr.first_entry_offset: " (decimal (get "first_entry_offset")) ++
   labelled fprintf_yellow "hdr.total_size: " (decimal (get "total_size")) ++
   labelled fprintf_yellow "hdr.allocated_size: " (decimal (get "allocated_size")) ++
   labelled fprintf_yellow "hdr.flags: " (decimal (u8 (get "flags"))), EXIT_SUCCESS).

(** The text of [ntfs_print_index_entry]; what it reads, and hence whether it
    has a result, is [NtfsFiles.ntfs_print_index_entry]. *)
Definition index_entry_text (junk : list Z) (data : list Z) (offset : Z) (entry : list Z) :
    option output :=
  let get f := fget ntfs_index_entry f entry in
  let ref := fbytes ntfs_index_entry "ref" entry in
  '(dump, _) ← hexdump (Some (fbytes ntfs_file_reference "record_number" ref)) 6;
  vcn ← (if negb (Z.land (get "flags") 0x1 =? 0) then
           v ← mem_le 8 data (offset + (get "length" - 8));
           Some (labelled fprintf_yellow "entry.vcn: " (decimal v))
         else Some []);
  Some (fprintf Stdout dump ++
        labelled fprintf_yellow "entry.file_reference: 0x" (hex_digits 16 (copied_ref ref junk)) ++
        labelled fprintf_yellow "entry.length: " (decimal (get "length")) ++
        labelled fprintf_yellow "entry.stream_length: " (decimal (get "stream_length")) ++
        labelled fprintf_yellow "entry.flags: " (decimal (get "flags")) ++ vcn).

(** ** Facts *)

(** The dump of an update sequence, a byte at a time. *)
Definition sequence_text (d : list Z) : output :=
  concat (map (λ b, fprintf_light_yellow Stdout (SP :: fmt_x 2 b ++ [SP])) d).

Lemma print_sequence_loop_text d : ∀ pre post,
  print_sequence_loop (length d) (pre ++ d ++ post) (zlen pre) = Some (sequence_text d).
Proof.
  induction d as [|b d IH]; intros pre post; [done|]. cbn [length print_sequence_loop].
  rewrite (mem_byte_app pre b (d ++ post)) by done. cbn [mbind option_bind].
  specialize (IH (pre ++ [b]) post). rewrite <-app_assoc in IH. cbn [app] in IH.
  replace (zlen pre + 1) with (zlen (pre ++ [b])) by (len; simpl; lia).
  change ((b :: d) ++ post) with (b :: d ++ post). rewrite IH. done.
Qed.

Section print.
Context `{Malloc}.

(** An update sequence that was read is printed as it is on the disk, byte
    for byte, without leaving its block; of a sequence of more than 64 KiB, only
    the bytes its [uint16_t] size counts. *)
Theorem ntfs_update_sequence_printed data offset size_usn usn offset' seq :
  0 < size_usn < 2 ^ 16 →
  ntfs_read_update_sequence data offset size_usn usn = Some (offset', seq) →
  ∃ d, mem_read data offset (2 * size_usn - 2) = Some d ∧
    ntfs_print_update_sequence seq =
      Some (labelled fprintf_yellow "seq.usn_num: " (fmt_x 4 usn) ++
            labelled fprintf_yellow "seq.usn_size: " (decimal (u16 (2 * size_usn - 2))) ++
            fprintf_yellow Stdout (str_bytes "seq.data: ") ++
            sequence_text (take (Z.to_nat (u16 (2 * size_usn - 2))) d) ++ fprintf Stdout [NL],
            EXIT_SUCCESS).
Proof.
  intros Hn E. unfold ntfs_read_update_sequence in E.
  set (n := 2 * size_usn - 2) in *.
  assert (u64 n = n) as Hu by (apply uwrap_small; lia). rewrite Hu in E.
  bind_inv E. bind_inv E. bind_inv E. injection E as <- <-.
  pose proof (malloc_length _ _ E0) as L0. pose proof (mem_read_length _ _ _ _ E1) as L1.
  assert (x1 = x0) as ->.
  { revert E2. unfold mem_write. case_test; intros; simplify_eq. cbn [take app Z.to_nat].
    rewrite drop_ge by lia. by rewrite app_nil_r. }
  exists x0. split; [done|]. unfold ntfs_print_update_sequence. cbn [usn_size usn_num usn_data].
  set (w := Z.to_nat (u16 n)).
  assert (0 ≤ u16 n ≤ n) as Hw.
  { unfold u16, uwrap. pose proof (Z.mod_pos_bound n (2 ^ 16)). split; [lia|].
    apply Z.mod_le; lia. }
  pose proof (print_sequence_loop_text (take w x0) [] (drop w x0)) as P.
  cbn [app] in P. rewrite take_drop, length_take_le in P by (unfold w; lia).
  change (zlen []) with 0 in P. rewrite P. done.
Qed.

(** What the printer of an index entry reads decides whether it has a text. *)
Lemma index_entry_text_reads junk data offset entry : length entry = 16%nat →
  is_Some (index_entry_text junk data offset entry) ↔
  is_Some (ntfs_print_index_entry data offset entry).
Proof.
  intros He. unfold index_entry_text, ntfs_print_index_entry. cbv zeta.
  set (ref := fbytes ntfs_file_reference _ _).
  assert (length ref = 6%nat) as Hr.
  { unfold ref, fbytes. cbn -[take drop]. rewrite !length_take, !length_drop, !length_take, !length_drop, He.
    reflexivity. }
  destruct ref as [|b0 [|b1 [|b2 [|b3 [|b4 [|b5 [|? ?]]]]]]]; try discriminate.
  match goal with |- context [hexdump (Some ?r) 6] =>
    assert (∃ o, hexdump (Some r) 6 = Some o) as [[o rc] ->] by (eexists; reflexivity) end.
  cbn [mbind option_bind]. case_test; cbn [negb]; [split; by eexists|].
  unfold mem_le. change (Z.of_nat 8) with 8. destruct (mem_read data _ 8); cbn; split; by intros [? ?]; eauto.
Qed.
End print.

Lemma ntfs_update_sequence_printed_witness : ∃ d,
  mem_read [1; 2; 3; 4] 0 4 = Some d ∧
  @ntfs_print_update_sequence {| usn_num := 7; usn_size := 4; usn_data := [1; 2; 3; 4] |} =
    Some (labelled fprintf_yellow "seq.usn_num: " (fmt_x 4 7) ++
          labelled fprintf_yellow "seq.usn_size: " (decimal 4) ++
          fprintf_yellow Stdout (str_bytes "seq.data: ") ++
          sequence_text (take 4 d) ++ fprintf Stdout [NL], EXIT_SUCCESS).
Proof.
  apply (ntfs_update_sequence_printed [1; 2; 3; 4] 0 3 7 4
           {| usn_num := 7; usn_size := 4; usn_data := [1; 2; 3; 4] |}); [lia|reflexivity].
Defined.
