(* ===== verification/NtfsProps.v ===== *)
(** * Properties of NTFS records: runs, fixups, attributes, sizes *)
From S2P Require Import Prelude Words Memory Struct Stdio Util Bitarray PartTable Ntfs.

(** ** Bytes *)

Lemma top_bit_byte t : 0 ≤ t < 256 → top_bit_set t = (128 <=? t).
Proof.
  intros Ht.
  assert (Forall (λ t, top_bit_set t = (128 <=? t)) (seqZ 0 256)) as HF
    by (apply (bool_decide_unpack _); by vm_compute).
  rewrite Forall_forall in HF. apply HF, list_elem_of_In, elem_of_seqZ. lia.
Qed.

Lemma le_dec_app a b : le_dec (a ++ b) = le_dec a + 2 ^ (8 * zlen a) * le_dec b.
Proof.
  induction a as [|x a IH]; [simpl; lia|].
  cbn [app le_dec length]. rewrite IH, pow256_S. lia.
Qed.

Lemma le_enc_zero n : le_enc n 0 = replicate n 0.
Proof.
  rewrite <-(le_dec_zeros n) at 1. apply le_enc_dec; [|by rewrite length_replicate].
  apply Forall_replicate. unfold is_byte. lia.
Qed.

(** The bytes of a number over an object of 8 zero bytes. *)
Lemma write_low n z :
  (n ≤ 8)%nat → mem_write (le_enc 8 0) 0 (le_enc n z) = Some (le_enc n z ++ replicate (8 - n) 0).
Proof.
  intros Hn. unfold mem_write. rewrite bool_decide_true by len.
  rewrite le_enc_zero, length_le_enc. cbn [take Z.to_nat app Nat.add].
  by rewrite drop_replicate.
Qed.

Lemma le_dec_low n z m : le_dec (le_enc n z ++ replicate m 0) = uwrap (8 * Z.of_nat n) z.
Proof. rewrite le_dec_app, le_dec_zeros, le_dec_enc. unfold uwrap. lia. Qed.

(** The last byte of a number in [S n] bytes. *)
Lemma top_byte n z r :
  mem_byte (le_enc (S n) z ++ r) (Z.of_nat (S n) - 1)
  = Some ((z `div` 2 ^ (8 * Z.of_nat n)) `mod` 256).
Proof.
  rewrite <-Nat.add_1_r, le_enc_app, <-app_assoc.
  replace (Z.of_nat (n + 1) - 1) with (Z.of_nat n) by lia.
  assert (∀ b, le_enc 1 b = [b `mod` 256]) as -> by (by intros b; vm_compute le_enc).
  simpl app at 2. apply mem_byte_app. len.
Qed.

(** ** Data runs *)

(** A run: the sizes of its two numbers, how many clusters it has and how far it
    is from the one before. *)
Record data_run := { dr_len_size : nat; dr_lcn_size : nat; dr_length : Z; dr_lcn : Z }.

Definition enc_run (r : data_run) : list Z :=
  [16 * Z.of_nat (dr_lcn_size r) + Z.of_nat (dr_len_size r)] ++
  le_enc (dr_len_size r) (dr_length r) ++ le_enc (dr_lcn_size r) (dr_lcn r).

Record run_ok (r : data_run) : Prop := {
  ro_len_size : (dr_len_size r ≤ 8)%nat;
  ro_lcn_size : (1 ≤ dr_lcn_size r ≤ 8)%nat;
  ro_length : 0 ≤ dr_length r < 2 ^ (8 * Z.of_nat (dr_len_size r));
  ro_lcn : - 2 ^ (8 * Z.of_nat (dr_lcn_size r) - 1) ≤ dr_lcn r
           < 2 ^ (8 * Z.of_nat (dr_lcn_size r) - 1);
}.

(** The distance that is read: undefined for negative numbers of more than four
    bytes, wrong for those whose second bit is not a copy of the sign. *)
Definition lcn_read (r : data_run) : option Z :=
  if 0 <=? dr_lcn r then Some (dr_lcn r)
  else if (4 <? dr_lcn_size r)%nat then None
  else if dr_lcn r <? - 2 ^ (8 * Z.of_nat (dr_lcn_size r) - 2)
       then Some (dr_lcn r + 2 ^ (8 * Z.of_nat (dr_lcn_size r) - 1))
       else Some (dr_lcn r).

Lemma nibbles a b :
  (a < 16)%nat → (b < 16)%nat →
  UPPER_NIBBLE (16 * Z.of_nat a + Z.of_nat b) = Z.of_nat a ∧
  LOWER_NIBBLE (16 * Z.of_nat a + Z.of_nat b) = Z.of_nat b.
Proof.
  intros Ha Hb.
  assert (Forall (λ a, Forall (λ b, UPPER_NIBBLE (16 * a + b) = a ∧ LOWER_NIBBLE (16 * a + b) = b)
    (seqZ 0 16)) (seqZ 0 16)) as HF by (apply (bool_decide_unpack _); by vm_compute).
  rewrite Forall_forall in HF. specialize (HF (Z.of_nat a)). rewrite Forall_forall in HF.
  apply HF; apply list_elem_of_In, elem_of_seqZ; lia.
Qed.

(** The distance from its bytes. *)
Lemma lcn_read_ok r m :
  run_ok r → m = le_enc (dr_lcn_size r) (dr_lcn r) ++ replicate (8 - dr_lcn_size r) 0 →
  (top ← mem_byte m (Z.of_nat (dr_lcn_size r) - 1);
   if top_bit_set top then
     bits ← highest_set_bit64 (le_dec m); sign_extend64 (le_dec m) bits
   else Some (s64 (le_dec m))) = lcn_read r.
Proof.
  intros [_ Hs _ Hl] ->. destruct r as [ls n len lcn]. cbn [dr_lcn_size dr_lcn] in *.
  unfold lcn_read. cbn [dr_lcn_size dr_lcn].
  destruct n as [|n]; [lia|]. rewrite top_byte. cbn [mbind option_bind].
  rewrite top_bit_byte by (apply Z.mod_pos_bound; lia). rewrite le_dec_low.
  set (q := 2 ^ (8 * Z.of_nat n)) in *.
  assert (2 ^ (8 * Z.of_nat (S n) - 1) = 128 * q) as E1.
  { unfold q. replace (8 * Z.of_nat (S n) - 1) with (7 + 8 * Z.of_nat n) by lia.
    rewrite Z.pow_add_r by lia. lia. }
  assert (2 ^ (8 * Z.of_nat (S n) - 2) = 64 * q) as E2.
  { unfold q. replace (8 * Z.of_nat (S n) - 2) with (6 + 8 * Z.of_nat n) by lia.
    rewrite Z.pow_add_r by lia. lia. }
  assert (2 ^ (8 * Z.of_nat (S n)) = 256 * q) as E3 by (unfold q; by rewrite pow256_S).
  assert (0 < q) by (apply Z.pow_pos_nonneg; lia).
  rewrite E1, E2 in *. unfold uwrap. rewrite E3.
  destruct (Z.leb_spec 0 lcn) as [Hpos|Hneg].
  - assert (0 ≤ lcn `div` q < 128) by (split; [apply Z.div_pos; lia|apply Z.div_lt_upper_bound; lia]).
    rewrite (Z.mod_small (lcn `div` q)), (proj2 (Z.leb_gt _ _)), (Z.mod_small lcn) by lia.
    rewrite swrap_small; [done|lia|].
    assert (q ≤ 2 ^ 56) by (apply Z.pow_le_mono_r; lia). lia.
  - assert (lcn `mod` (256 * q) = lcn + 256 * q) as Em
      by (symmetry; apply Z.mod_unique_pos with (-1); lia).
    assert (-128 ≤ lcn `div` q < 0) as Hd.
    { split; [apply Z.div_le_lower_bound; lia|apply Z.div_lt_upper_bound; lia]. }
    assert ((lcn `div` q) `mod` 256 = lcn `div` q + 256) as ->
      by (symmetry; apply Z.mod_unique_pos with (-1); lia).
    rewrite (proj2 (Z.leb_le _ _)) by lia. rewrite Em, highest_set_bit64_log2.
    cbn [mbind option_bind].
    assert (q ≤ 2 ^ 56) by (apply Z.pow_le_mono_r; lia).
    rewrite (uwrap_small 64) by lia.
    assert (Z.log2 (lcn + 256 * q) = 8 * Z.of_nat (S n) - 1) as ->.
    { apply Z.log2_unique; [lia|]. rewrite E1. unfold Z.succ.
      replace (8 * Z.of_nat (S n) - 1 + 1) with (8 * Z.of_nat (S n)) by lia. rewrite E3. lia. }
    destruct (Nat.ltb_spec 4 (S n)).
    + unfold sign_extend64. rewrite (uwrap_small 64) by lia.
      assert (shl1U (8 * Z.of_nat (S n) - 1 - 1) = None) as ->; [|done].
      unfold shl1U. case_test. done.
    + rewrite sign_extend64_swrap by lia. unfold swrap.
      replace (8 * Z.of_nat (S n) - 1 - 1) with (8 * Z.of_nat (S n) - 2) by lia.
      rewrite E1, E2.
      assert ((lcn + 256 * q) `mod` (128 * q) = lcn + 128 * q) as ->
        by (symmetry; apply Z.mod_unique_pos with 1; lia).
      destruct (Z.ltb_spec lcn (- (64 * q))).
      * by rewrite (proj2 (Z.ltb_lt _ _)) by lia.
      * rewrite (proj2 (Z.ltb_ge _ _)) by lia. f_equal. lia.
Qed.

Lemma parse_run_ok pre r post :
  run_ok r → zlen (pre ++ enc_run r) < 2 ^ 64 →
  ntfs_parse_data_run (pre ++ enc_run r ++ post) (zlen pre) 0 0
  = ('lcn ← lcn_read r; Some (zlen (pre ++ enc_run r), dr_length r, lcn, 1)).
Proof.
  intros Hr Hl. pose proof Hr as [Hls Hns Hlen _].
  assert (zlen (pre ++ enc_run r)
    = zlen pre + 1 + Z.of_nat (dr_len_size r) + Z.of_nat (dr_lcn_size r)) as El
    by (unfold enc_run; len).
  rewrite El in *. unfold ntfs_parse_data_run, enc_run. rewrite <-!app_assoc.
  cbn [app]. rewrite mem_byte_app by done. cbn [mbind option_bind].
  rewrite (proj2 (Z.eqb_neq _ _)) by lia. cbn [negb].
  destruct (nibbles (dr_lcn_size r) (dr_len_size r)) as [-> ->]; [lia..|].
  rewrite (uwrap_small 64 (zlen pre + 1)) by lia. rewrite cons_middle, app_assoc.
  rewrite (mem_read_app _ (le_enc (dr_len_size r) _) _ (zlen pre + 1)) by len.
  cbn [mbind option_bind]. rewrite write_low by lia. cbn [mbind option_bind].
  rewrite (uwrap_small 64 (zlen pre + 1 + _)) by lia. rewrite (app_assoc (pre ++ [_])).
  rewrite (mem_read_app _ (le_enc (dr_lcn_size r) _)) by len.
  cbn [mbind option_bind]. rewrite write_low by lia. cbn [mbind option_bind].
  pose proof (lcn_read_ok r _ Hr eq_refl) as E.
  destruct (mem_byte _ _) as [top|]; cbn [mbind option_bind] in *; [|by rewrite <-E].
  rewrite E, le_dec_low. destruct (lcn_read r) as [lcn|]; [|done]. cbn [mbind option_bind].
  by rewrite (uwrap_small 64), (uwrap_small (8 * _)) by lia.
Qed.

(** ** Fixups *)

(** A sector as it is on the disk: its last two bytes are in the update sequence,
    and in their place is the number of the sequence. *)
Definition protect (usn : Z) (sector : list Z) : list Z := take 510 sector ++ le_enc 2 usn.

Definition tails (sectors : list (list Z)) : list Z := concat (drop 510 <$> sectors).

Lemma length_protect usn sector : length sector = 512%nat → length (protect usn sector) = 512%nat.
Proof. intros. unfold protect. len. Qed.

Lemma length_tails sectors :
  Forall (λ s, length s = 512%nat) sectors → length (tails sectors) = (2 * length sectors)%nat.
Proof.
  unfold tails. induction 1 as [|s ss Hs _ IH]; [done|]. cbn [fmap list_fmap concat length] in *.
  rewrite length_app, IH. len.
Qed.

Lemma length_sectors (sectors : list (list Z)) :
  Forall (λ s, length s = 512%nat) sectors →
  length (concat sectors) = (512 * length sectors)%nat.
Proof.
  induction 1 as [|s ss Hs _ IH]; [done|]. cbn [concat length]. rewrite length_app, IH. lia.
Qed.

Section fixup.
Context (usn : Z) (Hu : 0 ≤ usn < 2 ^ 16).

(** A round over a protected sector puts its two bytes back. *)
Lemma fixup_round fuel pre s post data_len stail rest seq :
  length s = 512%nat → usn_num seq = usn → usn_data seq = stail ++ drop 510 s ++ rest →
  zlen pre + 510 < data_len → zlen stail < usn_size seq →
  fixup_loop (S fuel) (pre ++ protect usn s ++ post) data_len seq (zlen pre + 510) (zlen stail)
  = fixup_loop fuel ((pre ++ s) ++ post) data_len seq (zlen (pre ++ s) + 510) (zlen stail + 2).
Proof.
  intros Hs Hn Ed Hl Hsz. cbn [fixup_loop]. rewrite !(proj2 (Z.ltb_lt _ _)) by lia.
  unfold protect. rewrite <-!app_assoc, (app_assoc pre).
  assert (zlen pre + 510 = zlen (pre ++ take 510 s)) as Ep by len. rewrite Ep.
  rewrite (mem_le_app 2) by done. cbn [mbind option_bind].
  change (2 ^ (8 * Z.of_nat 2)) with (2 ^ 16). rewrite Z.mod_small, Hn, Z.eqb_refl by done.
  cbn [negb]. rewrite Ed, (mem_read_app stail) by len. cbn [mbind option_bind].
  rewrite (mem_write_app (pre ++ take 510 s)) by len. cbn [mbind option_bind].
  f_equal; [|len]. rewrite <-!app_assoc. f_equal. rewrite app_assoc. by rewrite take_drop.
Qed.

Lemma fixup_ok ss : ∀ fuel pre post data_len stail seq,
  Forall (λ s, length s = 512%nat) ss → usn_num seq = usn →
  usn_data seq = stail ++ tails ss → usn_size seq = zlen (usn_data seq) →
  data_len = zlen pre + 512 * zlen ss → (length ss < fuel)%nat →
  fixup_loop fuel (pre ++ concat (protect usn <$> ss) ++ post) data_len seq (zlen pre + 510)
    (zlen stail) = Some (pre ++ concat ss ++ post, EXIT_SUCCESS).
Proof.
  induction ss as [|s ss IH]; intros fuel pre post data_len stail seq Hss Hn Ed Hsz Hl Hf;
    destruct fuel as [|fuel]; try (simpl in Hf; lia).
  - cbn [fixup_loop length Z.of_nat] in *. by rewrite (proj2 (Z.ltb_ge _ _)) by lia.
  - apply Forall_cons_1 in Hss as [Hs Hss]. cbn [fmap list_fmap concat length] in *.
    unfold tails in Ed. cbn [fmap list_fmap concat] in Ed. fold (tails ss) in Ed.
    pose proof (length_tails ss Hss) as Ht.
    rewrite <-!app_assoc, (fixup_round fuel pre s _ data_len stail (tails ss) seq) by
      (try done; rewrite ?Hsz, ?Ed; len).
    replace (zlen stail + 2) with (zlen (stail ++ drop 510 s)) by len.
    rewrite (IH fuel (pre ++ s)); [by rewrite <-!app_assoc|done..| |done| |lia].
    + by rewrite <-app_assoc.
    + len.
Qed.

(** A sector that does not end in the number: the sectors in front of it are
    done, and nothing else is changed. *)
Lemma fixup_corrupt ss : ∀ fuel pre s post data_len stail rest seq,
  Forall (λ s, length s = 512%nat) ss → length s = 512%nat → usn_num seq = usn →
  usn_data seq = stail ++ tails ss ++ rest → usn_size seq = zlen (usn_data seq) →
  zlen pre + 512 * (zlen ss + 1) ≤ data_len → (2 ≤ length rest)%nat →
  le_dec (drop 510 s) ≠ usn → (length ss < fuel)%nat →
  fixup_loop fuel (pre ++ concat (protect usn <$> ss) ++ s ++ post) data_len seq (zlen pre + 510)
    (zlen stail) = Some (pre ++ concat ss ++ s ++ post, EXIT_FAILURE).
Proof.
  induction ss as [|s1 ss IH]; intros fuel pre s post data_len stail rest seq Hss Hs Hn Ed Hsz Hl
    Hr Hbad Hf; destruct fuel as [|fuel]; try (simpl in Hf; lia).
  - cbn [fixup_loop fmap list_fmap concat app length] in *.
    rewrite !(proj2 (Z.ltb_lt _ _)) by (rewrite ?Hsz, ?Ed; len).
    assert (mem_le 2 (pre ++ s ++ post) (zlen pre + 510) = Some (le_dec (drop 510 s))) as ->.
    { unfold mem_le. rewrite <-(take_drop 510 s) at 1. rewrite <-app_assoc, (app_assoc pre).
      rewrite (mem_read_app _ (drop 510 s)); [done|len|len]. }
    cbn [mbind option_bind]. rewrite Hn, (proj2 (Z.eqb_neq _ _)) by done. done.
  - apply Forall_cons_1 in Hss as [Hs1 Hss]. cbn [fmap list_fmap concat length] in *.
    unfold tails in Ed. cbn [fmap list_fmap concat] in Ed. fold (tails ss) in Ed.
    rewrite <-app_assoc in Ed.
    rewrite <-!app_assoc, (fixup_round fuel pre s1 _ data_len stail (tails ss ++ rest) seq) by
      (try done; rewrite ?Hsz, ?Ed; len).
    replace (zlen stail + 2) with (zlen (stail ++ drop 510 s1)) by len.
    rewrite (IH fuel (pre ++ s1) s post data_len _ rest); [by rewrite <-!app_assoc|done..| |done| | | |lia];
      [|len|done|done].
    by rewrite <-app_assoc.
Qed.
End fixup.

(** ** The search for an attribute *)

(** An attribute: a header that gives its length, and what follows. *)
Record attr_ok (a : list Z) : Prop := {
  ao_length : 24 ≤ zlen a < 2 ^ 32;
  ao_size : sahf "length" (take 24 a) = zlen a;
  ao_type : sahf "attribute_type" (take 24 a) ≠ 0xffffffff;
  ao_bytes : bytes_ok a;
}.

Definition attr_type (a : list Z) : Z := sahf "attribute_type" (take 24 a).

(** The marker behind the last attribute. *)
Definition end_marker : list Z := le_enc 4 0xffffffff.

Lemma length_end_marker : length end_marker = 4%nat.
Proof. done. Qed.

#[export] Hint Rewrite length_end_marker : len.

Lemma attr_type_bytes a rest :
  attr_ok a → le_dec (take 4 (a ++ rest)) = attr_type a ∧ 0 ≤ attr_type a < 2 ^ 32.
Proof.
  intros [Hl _ _ Hb]. rewrite take_app_le by lia.
  assert (attr_type a = le_dec (take 4 a)) as ->.
  { transitivity (le_dec (take 4 (take 24 a))); [done|]. by rewrite take_take. }
  split; [done|]. pose proof (le_dec_range (take 4 a) (Forall_take _ _ _ Hb)) as Hr.
  by replace (8 * zlen (take 4 a)) with 32 in Hr by len.
Qed.

Lemma attribute_step fuel pre a rest type :
  attr_ok a → attr_type a ≠ type → 4 ≤ zlen rest → zlen (pre ++ a ++ rest) < 2 ^ 63 →
  attribute_loop (S fuel) (pre ++ a ++ rest) (zlen pre) type =
  if s32 (le_dec (take 4 rest)) =? -1 then Some (zlen (pre ++ a), None)
  else attribute_loop fuel (pre ++ a ++ rest) (zlen (pre ++ a)) type.
Proof.
  intros [Hl Hs _ _] Ht Hr Hb. cbn [attribute_loop]. unfold ntfs_read_attribute_header, SAH_SIZE.
  rewrite !length_app in Hb.
  assert (mem_read (pre ++ a ++ rest) (zlen pre) 24 = Some (take 24 a)) as ->.
  { rewrite <-(take_drop 24 a) at 1. rewrite <-app_assoc. apply mem_read_app; len. }
  cbn [mbind option_bind]. fold (attr_type a). rewrite (proj2 (Z.eqb_neq _ _) Ht), Hs.
  rewrite (uwrap_small 64 (zlen pre + 24)), uwrap_small by lia.
  replace (zlen pre + 24 + (zlen a - 24)) with (zlen (pre ++ a)) by len.
  assert (mem_le 4 (pre ++ a ++ rest) (zlen (pre ++ a)) = Some (le_dec (take 4 rest))) as ->.
  { unfold mem_le. rewrite app_assoc, <-(take_drop 4 rest) at 1.
    rewrite (mem_read_app (pre ++ a)); [done|done|len]. }
  done.
Qed.

Lemma s32_marker t : 0 ≤ t < 2 ^ 32 → (s32 t =? -1) = (t =? 0xffffffff).
Proof.
  intros Ht. unfold swrap. rewrite Z.mod_small by done.
  destruct (Z.ltb_spec t (2 ^ (32 - 1))); repeat case_test; done.
Qed.

(** The attributes in front of the first of the type. *)
Lemma attribute_found attrs : ∀ fuel pre a rest type,
  Forall attr_ok attrs → Forall (λ a, attr_type a ≠ type) attrs → attr_ok a → attr_type a = type →
  (length attrs < fuel)%nat → zlen (pre ++ concat attrs ++ a ++ rest) < 2 ^ 63 →
  let data := pre ++ concat attrs ++ a ++ rest in
  let offset := zlen (pre ++ concat attrs) + 24 in
  attribute_loop fuel data (zlen pre) type
  = ('r ← found_attribute data offset (take 24 a) type; Some (offset, r)).
Proof.
  induction attrs as [|b attrs IH]; intros fuel pre a rest type Hok Hne Ha Ht Hf Hl data offset;
    destruct fuel as [|fuel]; try (simpl in Hf; lia).
  - subst data offset. cbn [concat app] in *. rewrite app_nil_r. cbn [attribute_loop].
    unfold ntfs_read_attribute_header, SAH_SIZE.
    assert (mem_read (pre ++ a ++ rest) (zlen pre) 24 = Some (take 24 a)) as ->.
    { destruct Ha as [Hla _ _ _]. rewrite <-(take_drop 24 a) at 1. rewrite <-app_assoc.
      apply mem_read_app; len. }
    cbn [mbind option_bind]. fold (attr_type a). rewrite Ht, Z.eqb_refl.
    destruct Ha as [Hla _ _ _]. rewrite !length_app in Hl. by rewrite uwrap_small by lia.
  - apply Forall_cons_1 in Hok as [Hb Hok]. apply Forall_cons_1 in Hne as [Hbt Hne].
    cbn [concat] in *. subst data. rewrite <-app_assoc in *.
    assert (∃ c post, attr_ok c ∧ concat attrs ++ a ++ rest = c ++ post) as (c & post & Hc & Ec).
    { destruct attrs as [|c attrs]; [by exists a, rest|]. apply Forall_cons_1 in Hok as [Hc _].
      exists c, (concat attrs ++ a ++ rest). split; [done|]. cbn [concat]. by rewrite <-app_assoc. }
    rewrite attribute_step; [|done..| |done].
    2: { rewrite Ec, length_app. destruct Hc as [Hcl _ _ _]. lia. }
    rewrite Ec at 1. destruct (attr_type_bytes c post Hc) as [-> Hr]. rewrite s32_marker by done.
    rewrite (proj2 (Z.eqb_neq _ _)) by (by destruct Hc).
    rewrite app_assoc. rewrite IH; [|done..|simpl in Hf; lia|by rewrite <-app_assoc].
    subst offset. by rewrite <-!app_assoc.
Qed.

Lemma attribute_missing attrs : ∀ fuel pre a rest type,
  Forall attr_ok (a :: attrs) → Forall (λ a, attr_type a ≠ type) (a :: attrs) →
  (length attrs < fuel)%nat → zlen (pre ++ concat (a :: attrs) ++ end_marker ++ rest) < 2 ^ 63 →
  attribute_loop fuel (pre ++ concat (a :: attrs) ++ end_marker ++ rest) (zlen pre) type
  = Some (zlen (pre ++ concat (a :: attrs)), None).
Proof.
  induction attrs as [|b attrs IH]; intros fuel pre a rest type Hok Hne Hf Hl;
    destruct fuel as [|fuel]; try (simpl in Hf; lia);
    apply Forall_cons_1 in Hok as [Ha Hok]; apply Forall_cons_1 in Hne as [Hat Hne].
  - cbn [concat] in *. rewrite app_nil_r in *. rewrite attribute_step; [|done..|by len|done].
    by rewrite take_app_exact by done.
  - remember (b :: attrs) as bs eqn:Ebs. cbn [concat] in *. rewrite <-app_assoc in *.
    rewrite attribute_step; [|done..|len|done].
    assert (concat bs ++ end_marker ++ rest = b ++ concat attrs ++ end_marker ++ rest) as Ec
      by (subst bs; cbn [concat]; by rewrite <-app_assoc).
    rewrite Ec at 1. assert (attr_ok b) as Hb by (subst bs; by apply Forall_cons_1 in Hok as [? _]).
    destruct (attr_type_bytes b (concat attrs ++ end_marker ++ rest) Hb) as [-> Hr].
    rewrite s32_marker by done. rewrite (proj2 (Z.eqb_neq _ _)) by (by destruct Hb).
    rewrite app_assoc. subst bs. cbn [concat] in *.
    rewrite IH; [|done..|simpl in Hf; lia|by rewrite <-app_assoc]. by rewrite <-app_assoc.
Qed.

(** An attribute of length 0 is met again and again. *)
Lemma attribute_stuck fuel : ∀ pre a rest type,
  24 ≤ zlen a → sahf "length" (take 24 a) = 0 → attr_type a ≠ type →
  le_dec (take 4 a) ≠ 0xffffffff → bytes_ok a → zlen (pre ++ a ++ rest) < 2 ^ 63 →
  attribute_loop fuel (pre ++ a ++ rest) (zlen pre) type = None.
Proof.
  induction fuel as [|fuel IH]; intros pre a rest type Hl Hs Ht Hm Hb Hz; [done|].
  cbn [attribute_loop]. unfold ntfs_read_attribute_header, SAH_SIZE.
  rewrite !length_app in Hz.
  assert (mem_read (pre ++ a ++ rest) (zlen pre) 24 = Some (take 24 a)) as ->.
  { rewrite <-(take_drop 24 a) at 1. rewrite <-app_assoc. apply mem_read_app; len. }
  cbn [mbind option_bind]. fold (attr_type a). rewrite (proj2 (Z.eqb_neq _ _) Ht), Hs.
  rewrite (uwrap_small 64 (zlen pre + 24)), uwrap_small by lia.
  replace (zlen pre + 24 + (0 - 24)) with (zlen pre) by lia.
  assert (mem_le 4 (pre ++ a ++ rest) (zlen pre) = Some (le_dec (take 4 a))) as ->.
  { unfold mem_le. rewrite <-(take_drop 4 a) at 1. rewrite <-app_assoc.
    rewrite mem_read_app; [done|done|len]. }
  cbn [mbind option_bind]. pose proof (le_dec_range (take 4 a) (Forall_take _ _ _ Hb)) as Hr.
  replace (8 * zlen (take 4 a)) with 32 in Hr by len.
  rewrite s32_marker, (proj2 (Z.eqb_neq _ _) Hm) by done. apply IH; [done..|]. len.
Qed.

(** The header of a record in front of its attributes. *)
Record record_ok (rec gap : list Z) : Prop := {
  rk_length : zlen rec = RECORD_SIZE;
  rk_magic : fbytes ntfs_file_record "magic" rec = str_bytes "FILE";
  rk_first : recf "offset_first_attribute" rec = zlen (rec ++ gap);
}.

Lemma get_attribute_header fuel rec gap attrs type :
  record_ok rec gap →
  ntfs_get_attribute fuel (rec ++ gap ++ attrs) 0 type
  = attribute_loop fuel ((rec ++ gap) ++ attrs) (zlen (rec ++ gap)) type.
Proof.
  intros [Hl Hm Hf]. unfold ntfs_get_attribute, ntfs_read_file_record_header.
  unfold RECORD_SIZE in *. rewrite mem_read_prefix, take_app_exact by len. cbn [mbind option_bind].
  rewrite Hm, Hf. unfold streq. rewrite bool_decide_true by done. cbn [negb].
  by rewrite <-app_assoc.
Qed.

(** ** The boot file *)

Lemma record_size_shift bootf n :
  s32 (bootf_ "clusters_per_mft_record" bootf) = - n → 1 ≤ n ≤ 30 →
  ntfs_file_record_size bootf = Some (2 ^ n).
Proof.
  intros E Hn. unfold ntfs_file_record_size. rewrite E, (proj2 (Z.ltb_ge _ _)) by lia.
  replace (-1 * (- n + 1)) with (n - 1) by lia. rewrite bool_decide_true by lia.
  rewrite Z.shiftl_mul_pow2 by lia.
  replace (2 * 2 ^ (n - 1)) with (2 ^ n).
  - unfold int_ok. rewrite bool_decide_true; [done|].
    assert (0 < 2 ^ n) by (apply Z.pow_pos_nonneg; lia).
    assert (2 ^ n ≤ 2 ^ 30) by (apply Z.pow_le_mono_r; lia). lia.
  - rewrite <-Z.pow_succ_r by lia. f_equal. lia.
Qed.

(** The value of a byte after the extension. *)
Definition clusters_read (v : Z) : Z :=
  if v <? 128 then v else if v <? 192 then v - 128 else v - 256.

Lemma extend_clusters_byte f bootf o :
  offset_of ntfs_boot_file f = Some (o, 4%nat) → zlen bootf = BOOT_SIZE →
  0 ≤ bootf_ f bootf < 256 →
  ∃ m, extend_clusters f bootf = Some m ∧ zlen m = BOOT_SIZE ∧
    s32 (bootf_ f m) = clusters_read (bootf_ f bootf) ∧
    (∀ g p n, offset_of ntfs_boot_file g = Some (p, n) → (p + n ≤ o ∨ o + 4 ≤ p)%nat →
       bootf_ g m = bootf_ g bootf).
Proof.
  intros Eo Hl Hv. set (v := bootf_ f bootf) in *. unfold extend_clusters. fold v.
  rewrite uwrap_small, top_bit_byte by lia. unfold clusters_read.
  destruct (Z.leb_spec 128 v); cycle 1.
  { exists bootf. split; [done|]. split; [done|]. fold v.
    rewrite (proj2 (Z.ltb_lt v 128)) by lia. split; [|done]. apply swrap_small; lia. }
  rewrite (proj2 (Z.ltb_ge v 128)) by lia.
  rewrite highest_set_bit_log2, uwrap_small by lia. cbn [mbind option_bind].
  assert (Z.log2 v = 7) as -> by (apply Z.log2_unique; lia).
  assert (sign_extend v 7 = Some (if v <? 192 then v - 128 else v - 256)) as ->.
  { assert (Forall (λ v, sign_extend v 7 = Some (if v <? 192 then v - 128 else v - 256))
      (seqZ 128 128)) as HF by (apply (bool_decide_unpack _); by vm_compute).
    rewrite Forall_forall in HF. apply HF, list_elem_of_In, elem_of_seqZ. lia. }
  cbn [mbind option_bind]. eexists. split; [done|].
  pose proof (offset_of_bound _ _ _ _ Eo) as Hb. unfold BOOT_SIZE in *.
  change (sizeof ntfs_boot_file) with 76%nat in Hb.
  split; [unfold fset; rewrite Eo; len|]. split.
  - rewrite (fget_fset_eq _ _ _ _ _ _ Eo) by (change (sizeof ntfs_boot_file) with 76%nat; lia).
    transitivity (s32 (u32 (if v <? 192 then v - 128 else v - 256))); [done|].
    apply swrap_uwrap; [lia|]. destruct (Z.ltb_spec v 192); lia.
  - intros g p n Eg Hd. unfold fget, fset, fbytes. rewrite Eo, Eg.
    pose proof (offset_of_bound _ _ _ _ Eg) as Hg.
    change (sizeof ntfs_boot_file) with 76%nat in Hg. f_equal.
    destruct Hd as [Hd|Hd].
    + rewrite drop_app_le, take_app_le by len. rewrite skipn_firstn_comm, take_take.
      f_equal. lia.
    + rewrite drop_app_ge by len. rewrite drop_app_ge by len.
      rewrite drop_drop. do 2 f_equal. len.
Qed.

(** ** Properties *)

(** C27: a data run that an encoder writes is read back, with the position
    behind it, as long as its distance is not negative, or is negative, of at
    most four bytes and its two highest bits are equal. A negative distance of
    more than four bytes shifts by the width of the type or more; one of at most
    four bytes whose second bit is clear comes out too large by the sign bit,
    because the sign is extended from the index of the highest bit instead of
    the number of bits. *)
Theorem ntfs_data_run_spec pre r post :
  run_ok r → zlen (pre ++ enc_run r) < 2 ^ 64 →
  ntfs_parse_data_run (pre ++ enc_run r ++ post) (zlen pre) 0 0 =
  if (dr_lcn r <? 0) && (4 <? dr_lcn_size r)%nat then None
  else Some (zlen (pre ++ enc_run r), dr_length r,
             if dr_lcn r <? - 2 ^ (8 * Z.of_nat (dr_lcn_size r) - 2)
             then dr_lcn r + 2 ^ (8 * Z.of_nat (dr_lcn_size r) - 1) else dr_lcn r, 1).
Proof.
  intros Hr Hl. rewrite (parse_run_ok pre r post Hr Hl). unfold lcn_read.
  assert (0 < 2 ^ (8 * Z.of_nat (dr_lcn_size r) - 2)).
  { apply Z.pow_pos_nonneg; [lia|]. destruct Hr. lia. }
  destruct (Z.leb_spec 0 (dr_lcn r)).
  - rewrite !(proj2 (Z.ltb_ge _ _)) by lia. done.
  - rewrite (proj2 (Z.ltb_lt (dr_lcn r) 0)) by lia. cbn [andb].
    destruct (4 <? dr_lcn_size r)%nat; [done|]. by destruct (dr_lcn r <? _).
Qed.

Lemma ntfs_data_run_spec_witness :
  ntfs_parse_data_run [0x11; 5; 0xf0] 0 0 0 = Some (3, 5, -16, 1) ∧
  ntfs_parse_data_run [0x11; 5; 0x80] 0 0 0 = Some (3, 5, 0, 1).
Proof.
  split.
  - apply (ntfs_data_run_spec []
      {| dr_len_size := 1; dr_lcn_size := 1; dr_length := 5; dr_lcn := -16 |} []);
      [split; vm_compute; intuition (lia || congruence)|done].
  - apply (ntfs_data_run_spec []
      {| dr_len_size := 1; dr_lcn_size := 1; dr_length := 5; dr_lcn := -128 |} []);
      [split; vm_compute; intuition (lia || congruence)|done].
Defined.

(** C26: fixups undo the protection of sectors: whatever the sectors hold, the
    last two bytes of each are put back from the update sequence; and a sector
    that does not end in the number of the sequence, wherever it is in the record
    and whatever follows it, is an error: the sectors in front of it are done and
    the rest is as it was. *)
Theorem ntfs_fixup_roundtrip usn ss rest :
  0 ≤ usn < 2 ^ 16 → Forall (λ s, length s = 512%nat) ss →
  (∀ seq, usn_num seq = usn → usn_data seq = tails ss → usn_size seq = zlen (tails ss) →
     ntfs_fixup_data (concat (protect usn <$> ss) ++ rest) (512 * zlen ss) seq
     = Some (concat ss ++ rest, EXIT_SUCCESS)) ∧
  (∀ seq s more data_len, length s = 512%nat → 512 * (zlen ss + 1) ≤ data_len →
     le_dec (drop 510 s) ≠ usn → (2 ≤ length more)%nat →
     usn_num seq = usn → usn_data seq = tails ss ++ more → usn_size seq = zlen (tails ss ++ more) →
     ntfs_fixup_data (concat (protect usn <$> ss) ++ s ++ rest) data_len seq
     = Some (concat ss ++ s ++ rest, EXIT_FAILURE)).
Proof.
  intros Hu Hss.
  assert (length ss ≤ length (concat (protect usn <$> ss)))%nat as Hlen.
  { rewrite length_sectors, length_fmap; [lia|]. apply Forall_fmap.
    apply (Forall_impl (P := λ s, length s = 512%nat)); [|done]. intros s. apply length_protect. }
  unfold ntfs_fixup_data. split.
  - intros seq Hn Hd Hsz.
    apply (fixup_ok usn Hu ss _ [] rest _ []); try done; [by rewrite Hsz, Hd|].
    rewrite length_app. lia.
  - intros seq s more data_len Hs Hl Hbad Hm Hn Hd Hsz.
    apply (fixup_corrupt usn Hu ss _ [] s rest _ [] more); try done; [by rewrite Hsz, Hd|].
    rewrite length_app. lia.
Qed.

(** One sector; and three, of which the second is bad. *)
Lemma ntfs_fixup_roundtrip_witness :
  let good := replicate 510 7 ++ [5; 0] in
  let bad := replicate 510 7 ++ [6; 0] in
  ntfs_fixup_data good 512 {| usn_num := 5; usn_size := 2; usn_data := [8; 9] |}
  = Some (replicate 510 7 ++ [8; 9], EXIT_SUCCESS) ∧
  ntfs_fixup_data (good ++ bad ++ good) 1536
    {| usn_num := 5; usn_size := 6; usn_data := [8; 9; 1; 2; 3; 4] |}
  = Some ((replicate 510 7 ++ [8; 9]) ++ bad ++ good, EXIT_FAILURE).
Proof.
  intros good bad. split.
  - destruct (ntfs_fixup_roundtrip 5 [replicate 510 7 ++ [8; 9]] []) as [E _].
    + lia.
    + by repeat constructor.
    + specialize (E {| usn_num := 5; usn_size := 2; usn_data := [8; 9] |}).
      rewrite !app_nil_r in E. by apply E.
  - destruct (ntfs_fixup_roundtrip 5 [replicate 510 7 ++ [8; 9]] good) as [_ E].
    + lia.
    + by repeat constructor.
    + apply (E {| usn_num := 5; usn_size := 6; usn_data := [8; 9; 1; 2; 3; 4] |} bad [1; 2; 3; 4]
        1536); try done. simpl. lia.
Defined.

(** C28: on a record whose attributes carry their lengths, [ntfs_get_attribute]
    finds the first attribute of the type it is asked for, behind whose header
    the offset is left; without one it fails at the end marker, in as many
    rounds as there are attributes. *)
Theorem ntfs_get_attribute_spec rec gap attrs rest fuel type :
  record_ok rec gap → Forall attr_ok attrs → (length attrs < fuel)%nat →
  let data := rec ++ gap ++ concat attrs ++ end_marker ++ rest in
  zlen data < 2 ^ 63 →
  (∀ pre a post, attrs = pre ++ a :: post → Forall (λ a, attr_type a ≠ type) pre →
     attr_type a = type →
     let offset := zlen (rec ++ gap ++ concat pre) + 24 in
     ntfs_get_attribute fuel data 0 type
     = ('r ← found_attribute data offset (take 24 a) type; Some (offset, r))) ∧
  (attrs ≠ [] → Forall (λ a, attr_type a ≠ type) attrs →
     ntfs_get_attribute fuel data 0 type = Some (zlen (rec ++ gap ++ concat attrs), None)).
Proof.
  intros Hr Hok Hf data Hl. subst data.
  assert (zlen ((rec ++ gap) ++ concat attrs ++ end_marker ++ rest) < 2 ^ 63) as Hl'
    by (by rewrite <-app_assoc).
  split.
  - intros pre a post -> Hne Ht offset. rewrite get_attribute_header by done.
    apply Forall_app in Hok as [Hpre Hok]. apply Forall_cons_1 in Hok as [Ha _].
    rewrite length_app in Hf.
    assert (concat (pre ++ a :: post) ++ end_marker ++ rest
      = concat pre ++ a ++ concat post ++ end_marker ++ rest) as Ec
      by (rewrite concat_app; cbn [concat]; by rewrite <-!app_assoc).
    rewrite Ec in *.
    rewrite (attribute_found pre fuel (rec ++ gap) a); [|done..|simpl in Hf; lia|done].
    subst offset. by rewrite <-!app_assoc.
  - intros Hn Hne. rewrite get_attribute_header by done. destruct attrs as [|a attrs]; [done|].
    rewrite attribute_missing; [|done..|simpl in Hf; lia|done]. by rewrite <-app_assoc.
Qed.

(** A record of one attribute of type 0x80, of 24 bytes and no data. *)
Definition witness_record : list Z :=
  struct_enc ntfs_file_record
    [0x454c4946; 48; 1; 0; 0; 1; 50; 0; 0; 0; 0; 0; 0; 0; 7].

Definition witness_attr : list Z :=
  struct_enc ntfs_standard_attribute_header [0x80; 24; 0; 0; 0; 0; 0; 0; 24; 0; 0].

Lemma witness_record_ok : record_ok witness_record [].
Proof. split; by vm_compute. Qed.

Lemma witness_attr_ok : attr_ok witness_attr.
Proof.
  split; [split; by vm_compute|by vm_compute|by vm_compute|apply (bool_decide_unpack _); by vm_compute].
Qed.

Lemma ntfs_get_attribute_spec_witness :
  ntfs_get_attribute 2 (witness_record ++ witness_attr ++ end_marker) 0 NTFS_DATA
  = Some (74, Some witness_attr) ∧
  ntfs_get_attribute 2 (witness_record ++ witness_attr ++ end_marker) 0 NTFS_INDEX_ROOT
  = Some (74, None).
Proof.
  split.
  - destruct (ntfs_get_attribute_spec witness_record [] [witness_attr] [] 2 NTFS_DATA) as [E _].
    + apply witness_record_ok.
    + constructor; [apply witness_attr_ok|done].
    + simpl. lia.
    + by vm_compute.
    + specialize (E [] witness_attr [] eq_refl (Forall_nil_2 _) ltac:(by vm_compute)). exact E.
  - destruct (ntfs_get_attribute_spec witness_record [] [witness_attr] [] 2 NTFS_INDEX_ROOT)
      as [_ E].
    + apply witness_record_ok.
    + constructor; [apply witness_attr_ok|done].
    + simpl. lia.
    + by vm_compute.
    + apply E; [done|]. constructor; [by vm_compute|done].
Defined.

(** An attribute of length 0, of another type than the one looked for, is
    met again and again: no number of rounds ends the search. *)
Theorem ntfs_get_attribute_hang fuel rec gap a rest type :
  record_ok rec gap → 24 ≤ zlen a → sahf "length" (take 24 a) = 0 → attr_type a ≠ type →
  le_dec (take 4 a) ≠ 0xffffffff → bytes_ok a → zlen (rec ++ gap ++ a ++ rest) < 2 ^ 63 →
  ntfs_get_attribute fuel (rec ++ gap ++ a ++ rest) 0 type = None.
Proof.
  intros Hr Hl Hs Ht Hm Hb Hz. rewrite get_attribute_header by done.
  apply attribute_stuck; try done. by rewrite <-app_assoc.
Qed.

Lemma ntfs_get_attribute_hang_witness :
  ntfs_get_attribute 1000 (witness_record ++ [] ++ replicate 24 0 ++ []) 0 NTFS_DATA = None.
Proof.
  apply ntfs_get_attribute_hang;
    [apply witness_record_ok|by vm_compute..|apply (bool_decide_unpack _); by vm_compute|by vm_compute].
Defined.

(** [ntfs_probe] accepts a partition whose boot file says so and keeps the
    boot file, the two cluster counts extended from their bytes: as they are
    below 128; minus 256 from 192 on, so that the size of a record is the power
    of two the format means; but minus 128 between, which makes a huge record
    one of a few clusters. Anything else is refused. *)
Theorem ntfs_probe_spec `{MallocTotal} disk f :
  0 ≤ fs_pt_off f < 2 ^ 62 → fs_pt_off f + BOOT_SIZE ≤ zlen (f_data disk) →
  let boot := take 76 (drop (Z.to_nat (fs_pt_off f)) (f_data disk)) in
  let id := take 4 (fbytes ntfs_boot_file "sys_id" boot) in
  let mft := bootf_ "clusters_per_mft_record" boot in
  let index := bootf_ "clusters_per_index_record" boot in
  ∃ disk', f_data disk' = f_data disk ∧
    (id ≠ str_bytes "NTFS" → ∃ f', ntfs_probe disk f = Some (disk', f', -1)) ∧
    (id = str_bytes "NTFS" → 0 ≤ mft < 256 → 0 ≤ index < 256 →
     ∃ m, ntfs_probe disk f = Some (disk', set_fs_info (PLive m) f, 0) ∧
       s32 (bootf_ "clusters_per_mft_record" m) = clusters_read mft ∧
       s32 (bootf_ "clusters_per_index_record" m) = clusters_read index ∧
       (∀ n, 1 ≤ n ≤ 30 → mft = 256 - n → ntfs_file_record_size m = Some (2 ^ n))).
Proof.
  intros Hp Hl boot id mft index. unfold BOOT_SIZE in *.
  assert (zlen boot = 76) as Hb by (subst boot; len).
  destruct (cmalloc_live BOOT_SIZE) as (b & Eb & Hbl); [by unfold BOOT_SIZE|].
  unfold ntfs_probe, fseeko, BOOT_SIZE in *. cbn [fs_pt_off set_fs_info fs_info].
  rewrite (swrap_small 64 (fs_pt_off f)), (proj2 (Z.ltb_ge (fs_pt_off f) 0)), Eb by lia.
  cbn [is_null deref mbind option_bind Z.eqb negb].
  change (fread _ 76) with
    ({| f_data := f_data disk; f_pos := fs_pt_off f + zlen boot; f_space := f_space disk;
        f_error := f_error disk |}, boot).
  cbv iota beta. assert (mem_write b 0 boot = Some boot) as ->.
  { unfold mem_write. rewrite bool_decide_true by lia.
    rewrite drop_ge by lia. cbn [Z.to_nat take app]. by rewrite app_nil_r. }
  cbn [mbind option_bind]. rewrite Hb. cbn [Z.eqb Pos.eqb negb]. unfold streq. fold id.
  eexists. split; [|split].
  2: { intros Hid. rewrite bool_decide_false by done. cbn [negb]. eexists. reflexivity. }
  { done. }
  intros Hid Hm Hi. rewrite bool_decide_true by done. cbn [negb].
  destruct (extend_clusters_byte "clusters_per_mft_record" boot 64 eq_refl Hb Hm)
    as (m1 & -> & Hl1 & E1 & Ho1). cbn [mbind option_bind].
  assert (bootf_ "clusters_per_index_record" m1 = index) as Ei.
  { apply (Ho1 _ 68%nat 4%nat); [done|lia]. }
  destruct (extend_clusters_byte "clusters_per_index_record" m1 68 eq_refl Hl1)
    as (m2 & -> & _ & E2 & Ho2); [by rewrite Ei|]. cbn [mbind option_bind].
  exists m2. split; [done|]. rewrite Ei in E2.
  assert (s32 (bootf_ "clusters_per_mft_record" m2) = clusters_read mft) as E1'.
  { etransitivity; [|exact E1]. f_equal. apply (Ho2 _ 64%nat 4%nat); [done|lia]. }
  split; [done|]. split; [done|]. intros n Hn En. apply record_size_shift; [|done].
  rewrite E1', En. unfold clusters_read. rewrite !(proj2 (Z.ltb_ge _ _)) by lia. lia.
Qed.

Definition witness_boot : list Z :=
  replicate 3 0 ++ str_bytes "NTFS    " ++ le_enc 2 512 ++ [8] ++ replicate 34 0 ++ le_enc 8 4 ++
  replicate 8 0 ++ le_enc 4 0xf6 ++ le_enc 4 1 ++ replicate 4 0.

Definition ntfs_witness_fs : fs :=
  {| fs_pte := 0; fs_pt_off := 0; icache := PNull; bcache := PNull; fs_info := PNull;
     fs_bits := {| ba_array := []; ba_len := 0 |} |}.

Lemma ntfs_probe_spec_witness :
  ∃ disk m, ntfs_probe (file_of witness_boot) ntfs_witness_fs
            = Some (disk, set_fs_info (PLive m) ntfs_witness_fs, 0) ∧
    ntfs_file_record_size m = Some 1024.
Proof.
  destruct (ntfs_probe_spec (file_of witness_boot) ntfs_witness_fs) as (disk & _ & _ & E).
  - by vm_compute.
  - by vm_compute.
  - destruct E as (m & E & _ & _ & Hs); [by vm_compute..|].
    exists disk, m. split; [exact E|]. apply (Hs 10); by vm_compute.
Defined.
