(* ===== verification/NtfsData.v ===== *)
(** * Properties of NTFS files: the data of an attribute, and its document

    What the handlers of non-resident data make of a list of runs: the bytes of
    the clusters, or the array of their sectors; the document of a file; and
    the file table in memory. *)
From S2P Require Import Prelude Words Memory Struct Stdio Util Bitarray Bson BsonEncode BsonDecode BsonFields PartTable Ntfs NtfsFiles NtfsProps.

(** ** Runs on a device *)

Section runs.
Context (bootf : list Z) (po : Z) (D : list Z).
Let cs := ntfs_cluster_size bootf.

(** Where a cluster is. *)
Definition cluster_at (lcn : Z) : Z := lcn * cs + po.

(** The data of the runs, cut to [L] bytes. *)
Fixpoint runs_data (rs : list data_run) (prev L : Z) : list Z :=
  match rs with
  | [] => []
  | r :: rs =>
      if L =? 0 then [] else
      let lcn := prev + dr_lcn r in
      let n := Z.min L (dr_length r * cs) in
      take (Z.to_nat n) (drop (Z.to_nat (cluster_at lcn)) D) ++ runs_data rs lcn (L - n)
  end.

(** The elements of a run: one per 4096 bytes, by number. *)
Definition run_elem (at_ counter : Z) (j : nat) : elem :=
  {| e_key := decimal (counter + Z.of_nat j);
     e_val := VInt32 (le_enc 4 (at_ `div` 512 + 8 * Z.of_nat j)) |}.

Definition run_blocks (r : data_run) : nat := Z.to_nat ((dr_length r * cs) `div` 4096).

Definition run_elems (r : data_run) (lcn counter : Z) : list elem :=
  run_elem (cluster_at lcn) counter <$> seq 0 (run_blocks r).

Fixpoint runs_elems (rs : list data_run) (prev counter L : Z) : list elem :=
  match rs with
  | [] => []
  | r :: rs =>
      if L =? 0 then [] else
      let lcn := prev + dr_lcn r in
      run_elems r lcn counter ++
      runs_elems rs lcn (counter + Z.of_nat (run_blocks r)) (L - Z.min L (dr_length r * cs))
  end.

(** Clusters of whole blocks of 4096 bytes; the runs can be decoded, are on the
    device and within the bound the code asserts; [k] rounds are enough. *)
Context (k : nat).

Record volume_ok : Prop := {
  vo_cluster : 0 < cs < 2 ^ 24;
  vo_blocks : cs `mod` 4096 = 0;
  vo_offset : 0 ≤ po < 2 ^ 62;
  vo_device : zlen D < 2 ^ 62;
}.

Fixpoint runs_wf (rs : list data_run) (prev : Z) : Prop :=
  match rs with
  | [] => True
  | r :: rs =>
      let lcn := prev + dr_lcn r in
      run_ok r ∧ lcn_read r = Some (dr_lcn r) ∧ 0 ≤ lcn < 26214400 ∧
      cluster_at lcn + dr_length r * cs ≤ zlen D ∧
      dr_length r * cs + 4096 ≤ 4096 * Z.of_nat k ∧ runs_wf rs lcn
  end.

Definition enc_runs (rs : list data_run) : list Z := concat (enc_run <$> rs).

Context `{MallocTotal} (Hv : volume_ok).

Lemma run_bytes r lcn :
  run_ok r → 0 ≤ lcn < 26214400 → cluster_at lcn + dr_length r * cs ≤ zlen D →
  u64 (u64 (dr_length r * bootf_ "bytes_per_sector" bootf) * bootf_ "sectors_per_cluster" bootf)
  = dr_length r * cs ∧
  s64 (ntfs_lcn_to_offset bootf po (u64 lcn)) = cluster_at lcn ∧ 0 ≤ dr_length r * cs < 2 ^ 62 ∧
  0 ≤ cluster_at lcn < 2 ^ 62.
Proof.
  intros [_ _ Hlen _] Hlcn Hd. destruct Hv as [Hcs _ Hp HD]. unfold cluster_at in *.
  assert (0 ≤ lcn * cs ≤ 2 ^ 49) by nia.
  assert (0 ≤ dr_length r * cs) by nia.
  unfold ntfs_lcn_to_offset. fold (ntfs_cluster_size bootf). fold cs.
  rewrite (uwrap_small 64 lcn), (uwrap_small 64 (lcn * cs)) by lia.
  rewrite (uwrap_small 64 (lcn * cs + po)), swrap_small by lia.
  split; [|lia]. unfold cs, ntfs_cluster_size in *.
  set (b := bootf_ "bytes_per_sector" bootf) in *.
  set (s := bootf_ "sectors_per_cluster" bootf) in *.
  assert (0 < b * s) by lia. assert (b ≠ 0) by nia.
  assert (uwrap 64 (uwrap 64 (dr_length r * b) * s) = uwrap 64 (dr_length r * (b * s))) as ->.
  { unfold uwrap. rewrite Z.mul_mod_idemp_l by lia. f_equal. lia. }
  apply uwrap_small. lia.
Qed.

(** One run, from the parsing to the next. *)
Lemma data_runs_step fuel save r rs prev counter sectors c pre post :
  runs_wf (r :: rs) prev → zlen (pre ++ enc_run r) < 2 ^ 64 → cp_left c ≠ 0 →
  let lcn := prev + dr_lcn r in
  let data := pre ++ enc_run r ++ post in
  runs_loop k bootf po (S fuel) save data (zlen pre) prev counter sectors c =
  '(sectors, counter) ←
    (if save then lift (run_sectors k 0 ((dr_length r * cs) `div` 512) (cluster_at lcn) counter
                          sectors)
     else Done (sectors, counter));
  c ← (match cp_stream c with
       | Some _ =>
           let '(disk, q) := fseeko (cp_disk c) (cluster_at lcn) in
           if negb (q =? 0) then Ended (Exit 1) else
           Done {| cp_disk := disk; cp_stream := cp_stream c;
                   cp_position := cp_position c; cp_left := cp_left c |}
       | None => Done c
       end);
  c ← copy_run k (dr_length r * cs) c;
  runs_loop k bootf po fuel save data (zlen (pre ++ enc_run r)) lcn counter sectors c.
Proof.
  intros (Hr & Hread & Hlcn & Hdev & _ & _) Hl Hleft lcn data. subst data.
  cbn [runs_loop]. rewrite parse_run_ok, Hread by done.
  cbn [mbind option_bind lift run_bind]. rewrite (proj2 (Z.eqb_neq _ _) Hleft).
  cbn [Z.eqb orb]. fold lcn.
  destruct (run_bytes r lcn Hr Hlcn Hdev) as (-> & -> & _ & _).
  fold lcn in Hlcn. rewrite bool_decide_false by lia.
  rewrite (proj2 (Z.leb_le 0 lcn)), (proj2 (Z.ltb_lt lcn 26214400)) by lia. done.
Qed.

(** The end: the marker, or nothing left of the data (then one more run is read). *)
Lemma runs_end fuel save prev counter sectors c pre post :
  zlen pre + 1 < 2 ^ 64 →
  runs_loop k bootf po (S fuel) save (pre ++ 0 :: post) (zlen pre) prev counter sectors c
  = Done (zlen pre + 1, sectors, c).
Proof.
  intros Hl. cbn [runs_loop]. unfold ntfs_parse_data_run. rewrite mem_byte_app by done.
  cbn [mbind option_bind Z.eqb negb lift run_bind orb]. by rewrite uwrap_small by lia.
Qed.

Lemma runs_full fuel save r rs prev counter sectors c pre post :
  runs_wf (r :: rs) prev → zlen (pre ++ enc_run r) < 2 ^ 64 → cp_left c = 0 →
  runs_loop k bootf po (S fuel) save (pre ++ enc_run r ++ post) (zlen pre) prev counter sectors c
  = Done (zlen (pre ++ enc_run r), sectors, c).
Proof.
  intros (Hr & Hread & _) Hl Hleft. cbn [runs_loop]. rewrite parse_run_ok, Hread by done.
  cbn [mbind option_bind lift run_bind]. by rewrite Hleft.
Qed.
End runs.

(** ** Copying a run *)

Lemma copy_clip fuel R c :
  (0 < fuel)%nat → 0 < cp_left c < R → copy_run fuel R c = copy_run fuel (cp_left c) c.
Proof.
  intros Hf Hl. destruct fuel as [|fuel]; [lia|]. cbn [copy_run]. rewrite !(proj2 (Z.eqb_neq _ _)) by lia.
  by rewrite (proj2 (Z.ltb_lt _ _)), Z.ltb_irrefl by lia.
Qed.

(** Without a stream the bytes are only counted. *)
Lemma copy_count fuel : ∀ R c,
  cp_stream c = None → 0 ≤ R ≤ cp_left c → cp_left c < 2 ^ 64 →
  R + 4096 ≤ 4096 * Z.of_nat fuel →
  copy_run fuel R c = Done {| cp_disk := cp_disk c; cp_stream := None;
    cp_position := cp_position c; cp_left := cp_left c - R |}.
Proof.
  induction fuel as [|fuel IH]; intros R c Hs HR Hl Hf; [lia|]. cbn [copy_run].
  destruct (Z.eqb_spec R 0) as [->|Hz].
  { rewrite Z.sub_0_r, <-Hs. by destruct c. }
  rewrite (proj2 (Z.ltb_ge _ _)) by lia. unfold copy_step. rewrite Hs.
  cbn [mbind run_bind]. destruct (Z.leb_spec 4096 R).
  - rewrite uwrap_small by lia. rewrite IH; [|done|simpl; lia..]. do 2 f_equal. simpl. lia.
  - rewrite Z.sub_diag, uwrap_small by lia. rewrite IH; [|done|simpl; lia..].
    do 2 f_equal. simpl. lia.
Qed.

(** With one they go to it; behind a run of whole blocks the position is right. *)
Lemma copy_stream D fuel : ∀ R c m old p,
  f_data (cp_disk c) = D → f_pos (cp_disk c) = p → 0 ≤ p → p + R ≤ zlen D →
  cp_stream c = Some (PLive (m ++ old)) → cp_position c = zlen m → R ≤ zlen old →
  0 ≤ R ≤ cp_left c → cp_left c < 2 ^ 64 → zlen (m ++ old) < 2 ^ 62 →
  R + 4096 ≤ 4096 * Z.of_nat fuel →
  let d := take (Z.to_nat R) (drop (Z.to_nat p) D) in
  ∃ disk position, copy_run fuel R c
    = Done {| cp_disk := disk; cp_stream := Some (PLive (m ++ d ++ drop (Z.to_nat R) old));
              cp_position := position; cp_left := cp_left c - R |} ∧
    f_data disk = D ∧ (R `mod` 4096 = 0 → position = zlen (m ++ d)).
Proof.
  induction fuel as [|fuel IH]; intros R c m old p HD Hp Hp0 HpR Hs Hpos Hold HR Hl Hm Hf d;
    [lia|]. cbn [copy_run].
  destruct (Z.eqb_spec R 0) as [->|Hz].
  { exists (cp_disk c), (cp_position c). rewrite Z.sub_0_r. subst d.
    change (take (Z.to_nat 0) _) with (@nil Z). change (drop (Z.to_nat 0) old) with old.
    cbn [app]. rewrite <-Hs, app_nil_r. split; [by destruct c|]. by split. }
  rewrite (proj2 (Z.ltb_ge _ _)) by lia. set (n := if 4096 <=? R then 4096 else R).
  assert (0 < n ≤ R ∧ n ≤ 4096 ∧ (n ≠ 4096 → n = R) ∧ (R < 4096 → n = R)) as (Hn & Hn4 & Hne & HnR)
    by (subst n; case_test; lia).
  unfold copy_step. rewrite Hs. unfold fread. rewrite HD, Hp.
  set (e := take (Z.to_nat n) (drop (Z.to_nat p) D)).
  assert (zlen e = n) as He by (subst e; len).
  rewrite He, Z.eqb_refl, (proj2 (Z.eqb_neq _ _)) by lia. cbn [negb orb deref lift mbind run_bind].
  rewrite Hpos.
  assert (mem_write (m ++ old) (zlen m) e = Some (m ++ e ++ drop (Z.to_nat n) old)) as ->.
  { rewrite <-(take_drop (Z.to_nat n) old) at 1. apply mem_write_app; len. }
  cbn [lift mbind run_bind]. rewrite length_app in Hm. rewrite !uwrap_small by lia.
  assert (take (Z.to_nat R) (drop (Z.to_nat p) D)
    = e ++ take (Z.to_nat (R - n)) (drop (Z.to_nat (p + n)) D)) as Ed.
  { subst e. replace (Z.to_nat R) with (Z.to_nat n + Z.to_nat (R - n))%nat by lia.
    rewrite <-take_take_drop, drop_drop. do 3 f_equal. lia. }
  destruct (decide (n = 4096)) as [E4|E4].
  - destruct (IH (R - n) {| cp_disk := {| f_data := D; f_pos := p + n;
        f_space := f_space (cp_disk c); f_error := f_error (cp_disk c) |};
        cp_stream := Some (PLive (m ++ e ++ drop (Z.to_nat n) old));
        cp_position := zlen m + 4096; cp_left := cp_left c - n |} (m ++ e)
        (drop (Z.to_nat n) old) (p + n)) as (disk & pos & E & HD' & Hpos');
      cbn [cp_disk cp_stream cp_position cp_left f_data f_pos]; try done; try lia; try (by len).
    + by rewrite <-app_assoc.
    + rewrite E. exists disk, pos. cbn [cp_left] in *. subst d. rewrite Ed. split.
      * rewrite drop_drop, <-!app_assoc.
        replace (Z.to_nat n + Z.to_nat (R - n))%nat with (Z.to_nat R) by lia.
        by replace (cp_left c - n - (R - n)) with (cp_left c - R) by lia.
      * split; [done|]. intros Hmod. rewrite <-app_assoc in Hpos'. apply Hpos'.
        rewrite E4. rewrite <-(Z.mod_add _ 1) by lia. by replace (R - 4096 + 1 * 4096) with R by lia.
  - rewrite (Hne E4), Z.sub_diag in *. destruct fuel as [|fuel]; [lia|]. cbn [copy_run Z.eqb].
    do 2 eexists. subst d. rewrite Ed. cbn [Z.to_nat take]. rewrite app_nil_r.
    split; [done|]. split; [done|]. intros Hmod. exfalso. rewrite Z.mod_small in Hmod; lia.
Qed.

(** The run, cut to what is left of the data. *)
Lemma copy_run_stream D fuel R c m old p :
  f_data (cp_disk c) = D → f_pos (cp_disk c) = p → 0 ≤ p → p + R ≤ zlen D →
  cp_stream c = Some (PLive (m ++ old)) → cp_position c = zlen m → cp_left c = zlen old →
  0 ≤ R → cp_left c ≠ 0 → zlen (m ++ old) < 2 ^ 62 → R + 4096 ≤ 4096 * Z.of_nat fuel →
  R `mod` 4096 = 0 →
  let n := Z.min (cp_left c) R in
  let d := take (Z.to_nat n) (drop (Z.to_nat p) D) in
  ∃ disk position, copy_run fuel R c
    = Done {| cp_disk := disk; cp_stream := Some (PLive (m ++ d ++ drop (Z.to_nat n) old));
              cp_position := position; cp_left := cp_left c - n |} ∧
    f_data disk = D ∧ (cp_left c - n ≠ 0 → position = zlen (m ++ d)).
Proof.
  intros HD Hp Hp0 HpR Hs Hpos Hleft HR Hne Hm Hf Hmod n d. subst d n.
  pose proof Hm as Hm'. rewrite length_app in Hm'. destruct (decide (cp_left c < R)) as [Hc|Hc].
  - rewrite copy_clip by lia. rewrite Z.min_l by lia.
    destruct (copy_stream D fuel (cp_left c) c m old p) as (disk & pos & E & HD' & Hp');
      try done; try lia.
    rewrite E. exists disk, pos. split; [done|]. split; [done|]. lia.
  - rewrite Z.min_r by lia.
    destruct (copy_stream D fuel R c m old p) as (disk & pos & E & HD' & Hp'); try done; try lia.
    rewrite E. exists disk, pos. split; [done|]. split; [done|]. intros _. by apply Hp'.
Qed.

(** ** The sectors of a run *)

Lemma le_enc_s32 z : le_enc 4 (s32 z) = le_enc 4 z.
Proof.
  rewrite <-(le_enc_mod 4 (s32 z)), <-(le_enc_mod 4 z). f_equal.
  change (2 ^ (8 * Z.of_nat 4)) with (2 ^ 32). unfold swrap.
  destruct (z `mod` 2 ^ 32 <? 2 ^ (32 - 1)).
  - by apply Z.mod_mod.
  - rewrite <-(Z.mod_add _ 1) by done. replace (z `mod` 2 ^ 32 - 2 ^ 32 + 1 * 2 ^ 32)
      with (z `mod` 2 ^ 32) by lia. by apply Z.mod_mod.
Qed.

Lemma encodes_count4 n z v :
  kv_encodes (fill_count BSON_INT32 n (le_enc 4 z) v)
    {| e_key := decimal n; e_val := VInt32 (le_enc 4 z) |}.
Proof.
  split; [done|]. split; [by exists []|]. split; [apply decimal_nonzero|].
  split; [by rewrite length_le_enc|]. eexists. cbn [kv_data fill_count].
  by rewrite app_nil_r.
Qed.

Lemma run_sectors_ok `{MallocTotal} fuel : ∀ m j at_ counter sectors c,
  0 ≤ at_ < 2 ^ 62 → 0 ≤ counter → counter + Z.of_nat (j + m) < 2 ^ 31 → (m < fuel)%nat →
  enc_rep sectors c → zlen c + zlen (enc_elems (run_elem at_ counter <$> seq j m)) ≤ max_doc →
  ∃ sectors', run_sectors fuel (8 * Z.of_nat j) (8 * Z.of_nat (j + m)) at_
      (counter + Z.of_nat j) sectors = Some (sectors', counter + Z.of_nat (j + m)) ∧
    enc_rep sectors' (c ++ enc_elems (run_elem at_ counter <$> seq j m)).
Proof.
  induction fuel as [|fuel IH]; intros m j at_ counter sectors c Hat Hc0 Hc Hf Hr Hl; [lia|].
  cbn [run_sectors]. destruct m as [|m].
  { rewrite Nat.add_0_r, (proj2 (Z.ltb_ge _ _)) by lia. exists sectors.
    split; [done|]. cbn [seq fmap list_fmap]. by rewrite app_nil_r. }
  rewrite (proj2 (Z.ltb_lt _ _)) by lia. cbn [seq fmap list_fmap] in Hl |- *.
  rewrite enc_elems_cons, length_app in Hl. rewrite Z.quot_div_nonneg by lia.
  assert (0 ≤ at_ `div` 512 < 2 ^ 62) by (split; [apply Z.div_pos|apply Z.div_lt_upper_bound]; lia).
  rewrite (uwrap_small 64 (at_ `div` 512)), (uwrap_small 64 (at_ `div` 512 + _)), le_enc_s32 by lia.
  rewrite (uwrap_small 32), (uwrap_small 64 (8 * _ + 8)) by lia.
  destruct (serialize_element_appends _ _ (encodes_count4 (counter + Z.of_nat j)
    (at_ `div` 512 + 8 * Z.of_nat j) kv_indet) sectors c Hr) as (b & E & Hb).
  { fold (run_elem at_ counter j). lia. }
  unfold bson_serialize. rewrite E. cbn [mbind option_bind].
  rewrite swrap_small by lia.
  replace (8 * Z.of_nat j + 8) with (8 * Z.of_nat (S j)) by lia.
  replace (counter + Z.of_nat j + 1) with (counter + Z.of_nat (S j)) by lia.
  replace (j + S m)%nat with (S j + m)%nat by lia.
  destruct (IH m (S j) at_ counter b _ Hat Hc0 ltac:(lia) ltac:(lia) Hb) as (b' & E' & Hb').
  { rewrite length_app. fold (run_elem at_ counter j). lia. }
  exists b'. split; [exact E'|]. rewrite enc_elems_cons, app_assoc. exact Hb'.
Qed.

(** ** The loops over the runs *)

Section loops.
Context `{MallocTotal} (bootf : list Z) (po : Z) (D : list Z) (k : nat).
Context (Hv : volume_ok bootf po D).
Let cs := ntfs_cluster_size bootf.

Lemma runs_wf_inv r rs prev :
  runs_wf bootf po D k (r :: rs) prev →
  0 ≤ dr_length r * cs < 2 ^ 62 ∧ 0 ≤ cluster_at bootf po (prev + dr_lcn r) < 2 ^ 62 ∧
  cluster_at bootf po (prev + dr_lcn r) + dr_length r * cs ≤ zlen D ∧
  dr_length r * cs + 4096 ≤ 4096 * Z.of_nat k ∧ (dr_length r * cs) `mod` 4096 = 0 ∧
  runs_wf bootf po D k rs (prev + dr_lcn r).
Proof.
  intros (Hr & _ & Hlcn & Hd & Hk & Hw).
  destruct (run_bytes bootf po D Hv r _ Hr Hlcn Hd) as (_ & _ & H1 & H2).
  split_and!; try done; try apply H1; try apply H2.
  subst cs. rewrite Z.mul_mod by lia. rewrite (vo_blocks _ _ _ Hv), Z.mul_0_r. done.
Qed.

Lemma enc_runs_cons r rs post : enc_runs (r :: rs) ++ post = enc_run r ++ enc_runs rs ++ post.
Proof. unfold enc_runs. cbn [fmap list_fmap concat]. by rewrite <-app_assoc. Qed.

(** The stream gets the data of the runs. *)
Lemma runs_stream_ok rs : ∀ fuel prev sectors c m old pre post,
  runs_wf bootf po D k rs prev → (length rs < fuel)%nat →
  zlen (pre ++ enc_runs rs) + 1 < 2 ^ 64 → f_data (cp_disk c) = D →
  cp_stream c = Some (PLive (m ++ old)) → cp_position c = zlen m → cp_left c = zlen old →
  zlen (m ++ old) < 2 ^ 62 →
  let d := runs_data bootf po D rs prev (cp_left c) in
  ∃ offset c', runs_loop k bootf po fuel false (pre ++ enc_runs rs ++ 0 :: post) (zlen pre) prev 0
      sectors c = Done (offset, sectors, c') ∧
    f_data (cp_disk c') = D ∧ cp_stream c' = Some (PLive (m ++ d ++ drop (length d) old)).
Proof.
  induction rs as [|r rs IH]; intros fuel prev sectors c m old pre post Hw Hf Hl HD Hs Hpos Hleft
    Hm d; (destruct fuel as [|fuel]; [lia|]).
  { subst d. cbn [runs_data length app enc_runs fmap list_fmap concat] in *. rewrite app_nil_r in Hl.
    rewrite runs_end by lia. do 2 eexists. split; [done|]. split; [done|]. by rewrite drop_0. }
  rewrite enc_runs_cons in *. subst d. cbn [runs_data].
  pose proof Hl as Hl2. unfold enc_runs in Hl2. cbn [fmap list_fmap concat] in Hl2.
  fold (enc_runs rs) in Hl2. rewrite app_assoc, length_app in Hl2.
  destruct (Z.eqb_spec (cp_left c) 0) as [Hz|Hz].
  { rewrite (runs_full bootf po D k) with (rs := rs) by (done || lia).
    do 2 eexists. split; [done|]. split; [done|]. by rewrite drop_0. }
  rewrite (data_runs_step bootf po D k Hv) with (rs := rs) by (done || lia).
  destruct (runs_wf_inv r rs prev Hw) as (HR & Hat & Hdev & Hk & Hmod & Hw').
  cbn [mbind run_bind]. rewrite Hs. fold cs. unfold fseeko.
  rewrite swrap_small, (proj2 (Z.ltb_ge _ _)) by lia. cbn [Z.eqb negb mbind run_bind].
  set (at_ := cluster_at bootf po (prev + dr_lcn r)) in *. set (R := dr_length r * cs) in *.
  match goal with |- context [copy_run k R ?c] => set (c1 := c) end.
  rewrite length_app in Hm.
  destruct (copy_run_stream D k R c1 m old at_) as (disk & position & Ecopy & HD' & Hpos');
    try done; try (cbn [cp_left c1]; lia); [by rewrite length_app; lia|].
  rewrite Ecopy. cbn [cp_left c1] in *.
  cbn [mbind run_bind]. set (n := Z.min (cp_left c) R) in *.
  set (e := take (Z.to_nat n) (drop (Z.to_nat at_) D)) in *.
  assert (zlen e = n) as He by (subst e; rewrite length_take, length_drop; lia).
  destruct (decide (cp_left c - n = 0)) as [Hn|Hn].
  - (* nothing left: the rest of the runs is not copied *)
    rewrite Hn. destruct rs as [|r' rs].
    + cbn [runs_data app enc_runs fmap list_fmap concat] in *. destruct fuel as [|fuel]; [simpl in Hf; lia|].
      rewrite app_assoc, runs_end by lia. do 2 eexists. split; [done|]. split; [done|].
      rewrite app_nil_r. do 3 f_equal. by replace (Z.to_nat n) with (length e) by lia.
    + destruct fuel as [|fuel]; [simpl in Hf; lia|]. rewrite enc_runs_cons, app_assoc.
      unfold enc_runs in Hl2. cbn [fmap list_fmap concat] in Hl2. rewrite !length_app in Hl2.
      rewrite (runs_full bootf po D k) with (rs := rs) by (done || rewrite !length_app; lia).
      do 2 eexists. split; [done|]. split; [done|]. cbn [cp_stream runs_data Z.eqb].
      rewrite app_nil_r. by replace (Z.to_nat n) with (length e) by lia.
  - rewrite (app_assoc pre).
    destruct (IH fuel (prev + dr_lcn r) sectors
      {| cp_disk := disk; cp_stream := Some (PLive (m ++ e ++ drop (Z.to_nat n) old));
         cp_position := position; cp_left := cp_left c - n |} (m ++ e) (drop (Z.to_nat n) old)
      (pre ++ enc_run r) post) as (offset & c' & E & HD2 & Hs2);
      cbn [cp_disk cp_stream cp_position cp_left]; try done.
    + simpl in Hf. lia.
    + rewrite !length_app in *. lia.
    + by rewrite <-app_assoc.
    + by apply Hpos'.
    + rewrite length_drop. lia.
    + rewrite !length_app, length_drop. lia.
    + rewrite E. exists offset, c'. split; [done|]. split; [done|]. rewrite Hs2.
      cbn [cp_left]. rewrite length_app, drop_drop, <-!app_assoc.
      replace (Z.to_nat n) with (length e) by lia. done.
Qed.

(** The array gets the sectors of the runs, and nothing is read. *)
Lemma runs_sectors_ok rs : ∀ fuel prev counter sectors ec c pre post,
  runs_wf bootf po D k rs prev → (length rs < fuel)%nat →
  zlen (pre ++ enc_runs rs) + 1 < 2 ^ 64 → cp_stream c = None → 0 ≤ cp_left c < 2 ^ 64 →
  let es := runs_elems bootf po rs prev counter (cp_left c) in
  0 ≤ counter → counter + zlen es < 2 ^ 31 → enc_rep sectors ec →
  zlen ec + zlen (enc_elems es) ≤ max_doc →
  ∃ offset sectors' c', runs_loop k bootf po fuel true (pre ++ enc_runs rs ++ 0 :: post) (zlen pre)
      prev counter sectors c = Done (offset, sectors', c') ∧
    enc_rep sectors' (ec ++ enc_elems es) ∧ cp_disk c' = cp_disk c ∧ cp_stream c' = None.
Proof.
  induction rs as [|r rs IH]; intros fuel prev counter sectors ec c pre post Hw Hf Hl Hs Hleft es
    Hc0 Hc Hr Hlen; (destruct fuel as [|fuel]; [lia|]).
  { subst es. cbn [runs_elems app enc_runs fmap list_fmap concat] in *. rewrite app_nil_r in Hl.
    rewrite runs_end by lia. do 3 eexists. split; [done|]. by rewrite app_nil_r. }
  rewrite enc_runs_cons in *. subst es. cbn [runs_elems] in *.
  pose proof Hl as Hl2. unfold enc_runs in Hl2. cbn [fmap list_fmap concat] in Hl2.
  fold (enc_runs rs) in Hl2. rewrite app_assoc, length_app in Hl2.
  destruct (Z.eqb_spec (cp_left c) 0) as [Hz|Hz].
  { rewrite (runs_full bootf po D k) with (rs := rs) by (done || lia).
    do 3 eexists. split; [done|]. by rewrite app_nil_r. }
  rewrite (data_runs_step bootf po D k Hv) with (rs := rs) by (done || lia).
  destruct (runs_wf_inv r rs prev Hw) as (HR & Hat & Hdev & Hk & Hmod & Hw'). fold cs.
  fold cs in Hc, Hlen. set (at_ := cluster_at bootf po (prev + dr_lcn r)) in *.
  set (R := dr_length r * cs) in *.
  assert (Z.of_nat (run_blocks bootf r) = R `div` 4096) as Eb.
  { unfold run_blocks. fold cs R. rewrite Z2Nat.id; [done|]. apply Z.div_pos; lia. }
  assert (R `div` 512 = 8 * Z.of_nat (0 + run_blocks bootf r)) as ->.
  { rewrite Nat.add_0_l, Eb. pose proof (Z.div_mod R 4096 ltac:(lia)) as E. rewrite Hmod in E.
    rewrite E at 1. replace (4096 * R `div` 4096 + 0) with (8 * (R `div` 4096) * 512) by lia.
    apply Z.div_mul. lia. }
  assert (length (run_elems bootf po r (prev + dr_lcn r) counter) = run_blocks bootf r) as El
    by (unfold run_elems; by rewrite length_fmap, length_seq).
  rewrite enc_elems_app, !length_app in *. rewrite El in Hc.
  pose proof (Z.div_mod R 4096 ltac:(lia)) as Ediv. rewrite Hmod in Ediv.
  destruct (run_sectors_ok k (run_blocks bootf r) 0 at_ counter sectors ec) as (s' & E & Hs');
    try done; try lia.
  { fold at_ in Hlen. unfold run_elems in Hlen. fold at_ in Hlen. lia. }
  change (8 * Z.of_nat 0) with 0 in E. rewrite Z.add_0_r in E. rewrite E.
  cbn [lift mbind run_bind]. rewrite Hs. cbn [mbind run_bind].
  assert (copy_run k R c = Done {| cp_disk := cp_disk c; cp_stream := None;
    cp_position := cp_position c; cp_left := cp_left c - Z.min (cp_left c) R |}) as ->.
  { destruct (decide (cp_left c < R)).
    - rewrite copy_clip by lia. rewrite copy_count by (done || lia). by rewrite Z.min_l by lia.
    - rewrite copy_count by (done || lia). by rewrite Z.min_r by lia. }
  cbn [mbind run_bind]. rewrite (app_assoc pre).
  destruct (IH fuel (prev + dr_lcn r) (counter + Z.of_nat (0 + run_blocks bootf r)) s'
    (ec ++ enc_elems (run_elems bootf po r (prev + dr_lcn r) counter))
    {| cp_disk := cp_disk c; cp_stream := None; cp_position := cp_position c;
       cp_left := cp_left c - Z.min (cp_left c) R |} (pre ++ enc_run r) post) as (o & b & c' & E2 & H2 & H3 & H4);
    try exact Hs'; cbn [cp_stream cp_left cp_disk] in *; try done.
  - simpl in Hf. lia.
  - rewrite !length_app in *. lia.
  - lia.
  - lia.
  - rewrite Nat.add_0_l. lia.
  - rewrite Nat.add_0_l, length_app. lia.
  - exists o, b, c'. rewrite Nat.add_0_l in *. rewrite <-length_app, (app_assoc ec). done.
Qed.
End loops.

(** ** The handlers *)

(** A non-resident attribute behind its standard header: its own header, and the
    runs where that says they are. *)
Inductive runs_at (data : list Z) (offset : Z) (rs : list data_run) (L : Z) : Prop :=
  | runs_at_intro pre nrh gap post :
      data = pre ++ nrh ++ gap ++ enc_runs rs ++ 0 :: post → offset = zlen pre →
      zlen nrh = NRH_SIZE → zlen data < 2 ^ 62 →
      fget ntfs_non_resident_header "data_run_offset" nrh = SAH_SIZE + NRH_SIZE + zlen gap →
      fget ntfs_non_resident_header "real_size" nrh = L → 0 ≤ L < 2 ^ 62 →
      runs_at data offset rs L.

(** Neither compressed nor encrypted nor sparse. *)
Definition plain_flags (sah : list Z) : Prop :=
  Z.land (sahf "flags" sah) 0x0001 = 0 ∧ Z.land (sahf "flags" sah) 0x4000 = 0 ∧
  Z.land (sahf "flags" sah) 0x8000 = 0.

Definition data_type (sah : list Z) : Prop :=
  sahf "attribute_type" sah = NTFS_DATA ∨ sahf "attribute_type" sah = NTFS_INDEX_ALLOCATION.

Lemma length_elems es : zlen es ≤ zlen (enc_elems es).
Proof.
  induction es as [|e es IH]; [done|]. rewrite enc_elems_cons, length_app.
  pose proof (length_enc_elem e). cbn [length]. lia.
Qed.

Section handlers.
Context `{MallocTotal} (bootf : list Z) (po : Z) (D : list Z) (k : nat).
Context (Hv : volume_ok bootf po D).

Lemma read_nrh pre nrh rest :
  zlen nrh = NRH_SIZE → zlen (pre ++ nrh ++ rest) < 2 ^ 62 →
  ntfs_read_non_resident_attribute_header (pre ++ nrh ++ rest) (zlen pre)
  = Some (zlen (pre ++ nrh), nrh).
Proof.
  intros Hn Hl. unfold ntfs_read_non_resident_attribute_header.
  rewrite (mem_read_app pre nrh) by done. cbn [mbind option_bind].
  rewrite !length_app in Hl. rewrite uwrap_small by lia. do 2 f_equal. len.
Qed.

Lemma dispatch_plain data offset sah save d :
  data_type sah → plain_flags sah → sahf "non_resident_flag" sah ≠ 0 →
  ntfs_dispatch_data_attribute k bootf po data offset sah save d
  = ('(offset, d) ← ntfs_handle_non_resident_data_attribute k bootf po data offset save d;
     Done (offset, d, EXIT_SUCCESS)).
Proof.
  intros Ht (H1 & H2 & H3) Hn. unfold ntfs_dispatch_data_attribute. rewrite H1, H2, H3.
  rewrite (proj2 (Z.eqb_neq _ _) Hn).
  assert (negb (sahf "attribute_type" sah =? NTFS_DATA) &&
    negb (sahf "attribute_type" sah =? NTFS_INDEX_ALLOCATION) = false) as ->
    by (by destruct Ht as [-> | ->]).
  cbn [Z.eqb negb]. reflexivity.
Qed.

(** With a stream, and no array to fill. *)
Lemma handle_stream data offset rs L d p m :
  runs_at data offset rs L → runs_wf bootf po D k rs 0 → (length rs < k)%nat →
  f_data (ds_disk d) = D → ds_stream d = Some p → malloc L = Some m →
  let bytes := runs_data bootf po D rs 0 L in
  ∃ offset' disk, ntfs_handle_non_resident_data_attribute k bootf po data offset false d
    = Done (offset', {| ds_disk := disk;
                        ds_stream := Some (PLive (bytes ++ drop (length bytes) m), L);
                        ds_bson := ds_bson d |}) ∧ f_data disk = D.
Proof.
  intros [pre nrh gap post -> -> Hn Hs Ho HL HL0] Hw Hk HD Hst Em bytes. subst bytes.
  unfold ntfs_handle_non_resident_data_attribute.
  destruct bson_init_rep as (s0 & -> & _). cbn [lift mbind run_bind].
  rewrite read_nrh by done. cbn [lift mbind run_bind]. rewrite Ho, HL, Hst.
  cbn [fmap option_fmap option_map]. unfold cmalloc. rewrite Em.
  rewrite !length_app in Hs. cbn [length] in Hs. unfold SAH_SIZE, NRH_SIZE in *.
  rewrite length_app, uwrap_small by lia.
  replace (Z.of_nat (length pre + length nrh) + (24 + 40 + zlen gap - 24 - 40))
    with (zlen (pre ++ nrh ++ gap)) by len.
  replace (pre ++ nrh ++ gap ++ enc_runs rs ++ 0 :: post)
    with ((pre ++ nrh ++ gap) ++ enc_runs rs ++ 0 :: post) by (by rewrite <-!app_assoc).
  destruct (runs_stream_ok bootf po D k Hv rs k 0 s0
    {| cp_disk := ds_disk d; cp_stream := Some (PLive m); cp_position := 0; cp_left := L |}
    [] m (pre ++ nrh ++ gap) post Hw Hk) as (o & c & E & Hd & Hst'); try done.
  - rewrite !length_app. lia.
  - cbn [cp_left]. by rewrite (malloc_length _ _ Em).
  - cbn [app]. rewrite (malloc_length _ _ Em). lia.
  - assert (match ds_bson d with Some _ => false | None => false end = false) as ->
      by (by destruct (ds_bson d)).
    rewrite E. cbn [save_array lift mbind run_bind]. rewrite Hst'. by eauto.
Qed.

(** Without one, into a document. *)
Lemma handle_sectors data offset rs L d b c :
  runs_at data offset rs L → runs_wf bootf po D k rs 0 → (length rs < k)%nat →
  ds_stream d = None → ds_bson d = Some b → enc_rep b c →
  let es := [e_arr "sectors" (enc_doc (runs_elems bootf po rs 0 0 L))] in
  zlen c + zlen (enc_elems es) ≤ max_doc →
  ∃ offset' b', ntfs_handle_non_resident_data_attribute k bootf po data offset true d
    = Done (offset', {| ds_disk := ds_disk d; ds_stream := None; ds_bson := Some b' |}) ∧
    enc_rep b' (c ++ enc_elems es).
Proof.
  intros [pre nrh gap post -> -> Hn Hs Ho HL HL0] Hw Hk Hst Hb Hr es Hlen. subst es.
  unfold ntfs_handle_non_resident_data_attribute. rewrite Hb, Hst.
  destruct bson_init_rep as (s0 & -> & Hs0). cbn [lift mbind run_bind].
  rewrite read_nrh by done. cbn [lift mbind run_bind fmap option_fmap option_map].
  rewrite Ho, HL.
  rewrite !length_app in Hs. cbn [length] in Hs. unfold SAH_SIZE, NRH_SIZE in *.
  rewrite length_app, uwrap_small by lia.
  replace (Z.of_nat (length pre + length nrh) + (24 + 40 + zlen gap - 24 - 40))
    with (zlen (pre ++ nrh ++ gap)) by len.
  replace (pre ++ nrh ++ gap ++ enc_runs rs ++ 0 :: post)
    with ((pre ++ nrh ++ gap) ++ enc_runs rs ++ 0 :: post) by (by rewrite <-!app_assoc).
  set (es := runs_elems bootf po rs 0 0 L) in *.
  pose proof (length_elems es) as Hes.
  assert (length (enc_doc es) = (5 + length (enc_elems es))%nat) as Hld by (unfold enc_doc; len).
  rewrite enc_elems_cons, app_nil_r, length_e_arr, Hld in Hlen. unfold max_doc in *.
  assert (zlen ((pre ++ nrh ++ gap) ++ enc_runs rs) + 1 < 2 ^ 64) by (rewrite !length_app; lia).
  destruct (runs_sectors_ok bootf po D k Hv rs k 0 0 s0 []
    {| cp_disk := ds_disk d; cp_stream := None; cp_position := 0; cp_left := L |}
    (pre ++ nrh ++ gap) post Hw Hk) as (o & s1 & c' & E & Hs1 & Hd & Hst'); try done;
    cbn [cp_left]; fold es; unfold max_doc; try lia; [cbn [length]; lia|].
  rewrite E. cbn [mbind run_bind save_array option_bind].
  destruct (close_array_ok "sectors" b c s1 es eq_refl Hr Hs1) as (b' & -> & Hb').
  { rewrite length_e_arr, Hld. unfold max_doc. lia. }
  cbn [lift mbind option_bind run_bind]. rewrite Hst', Hd. exists o, b'. split; [done|].
  by rewrite enc_elems_cons, app_nil_r.
Qed.

(** What a file's data attribute is, with the size and the arrays its document
    gets: runs; data in the record itself, which has no sector; or data of a
    kind that is refused, which leaves no array. *)
Inductive file_data (data : list Z) (offset : Z) (sah : list Z) : Z → list elem → Prop :=
  | fd_runs rs L :
      sahf "non_resident_flag" sah ≠ 0 → plain_flags sah → runs_at data offset rs L →
      runs_wf bootf po D k rs 0 → (length rs < k)%nat →
      file_data data offset sah L [e_arr "sectors" (enc_doc (runs_elems bootf po rs 0 0 L))]
  | fd_resident :
      sahf "non_resident_flag" sah = 0 → plain_flags sah → 0 ≤ sahf "length_of_attribute" sah →
      SAH_SIZE ≤ sahf "offset_of_attribute" sah → 0 ≤ offset →
      offset + sahf "offset_of_attribute" sah - SAH_SIZE + sahf "length_of_attribute" sah
        ≤ zlen data < 2 ^ 62 →
      file_data data offset sah (sahf "length_of_attribute" sah)
        [e_arr "sectors" (enc_doc [{| e_key := decimal 0; e_val := VInt32 (le_enc 4 (-1)) |}])]
  | fd_refused rs L :
      sahf "non_resident_flag" sah ≠ 0 → ¬ plain_flags sah → runs_at data offset rs L →
      file_data data offset sah L [].

Lemma get_size_ok data offset sah L es :
  file_data data offset sah L es → ∃ o, ntfs_get_size data sah offset = Some (o, L).
Proof.
  unfold ntfs_get_size. intros [rs L' Hn _ Hr _ _|Hn _ _ _ _ _|rs L' Hn _ Hr].
  2: { rewrite Hn. by eexists. }
  all: rewrite (proj2 (Z.eqb_neq _ _) Hn); cbn [negb];
    destruct Hr as [pre nrh gap post -> -> Hnl Hs _ HL _]; rewrite read_nrh by done;
    cbn [mbind option_bind]; rewrite HL; by eexists.
Qed.

Lemma resident_ok data offset buf sah b c :
  let size := sahf "length_of_attribute" sah in
  let es := [e_arr "sectors" (enc_doc [{| e_key := decimal 0; e_val := VInt32 (le_enc 4 (-1)) |}])] in
  0 ≤ size → SAH_SIZE ≤ sahf "offset_of_attribute" sah → 0 ≤ offset → zlen buf = 4096 →
  offset + sahf "offset_of_attribute" sah - SAH_SIZE + size ≤ zlen data < 2 ^ 62 →
  enc_rep b c → zlen c + zlen (enc_elems es) ≤ max_doc →
  ∃ offset' buf' b', ntfs_handle_resident_data_attribute data offset buf 4096 sah true (Some b)
    = Some (offset', buf', Some b') ∧ enc_rep b' (c ++ enc_elems es).
Proof.
  intros size es Hsz Ho Hoff Hbuf Hin Hr Hl. unfold ntfs_handle_resident_data_attribute.
  destruct bson_init_rep as (s0 & -> & Hs0). cbn [mbind option_bind].
  assert (∃ o buf' rc, ntfs_read_attribute_data data offset buf 4096 sah = Some (o, buf', rc))
    as (o & buf' & rc & ->).
  { unfold ntfs_read_attribute_data. fold size. rewrite uwrap_small by lia.
    destruct (Z.ltb_spec 4096 size); [by eauto|].
    unfold mem_read. rewrite bool_decide_true by lia. cbn [mbind option_bind].
    destruct (mem_write_is_Some buf 0 (take (Z.to_nat size)
      (drop (Z.to_nat (offset + (sahf "offset_of_attribute" sah - SAH_SIZE))) data))) as [m ->];
      [lia|rewrite length_take, length_drop; lia|]. cbn [mbind option_bind]. by eauto. }
  cbn [mbind option_bind].
  destruct (serialize_element_appends _ _ (encodes_count4 0 (-1) kv_indet) s0 [] Hs0)
    as (s1 & E1 & Hs1); [by vm_compute|].
  unfold bson_serialize. rewrite E1. cbn [mbind option_bind save_array].
  destruct (close_array_ok "sectors" b c s1 [{| e_key := decimal 0; e_val := VInt32 (le_enc 4 (-1)) |}]
    eq_refl Hr) as (b' & -> & Hb').
  - by rewrite enc_elems_cons, app_nil_r.
  - revert Hl. unfold es. by rewrite enc_elems_cons, app_nil_r.
  - cbn [mbind option_bind]. do 3 eexists. split; [done|]. unfold es.
    by rewrite enc_elems_cons, app_nil_r.
Qed.

(** The dispatch, on a document under construction. *)
Lemma dispatch_document data offset sah disk b c L es :
  file_data data offset sah L es → data_type sah → enc_rep b c →
  zlen c + zlen (enc_elems es) ≤ max_doc →
  ∃ offset' b' rc, ntfs_dispatch_data_attribute k bootf po data offset sah true
      {| ds_disk := disk; ds_stream := None; ds_bson := Some b |}
    = Done (offset', {| ds_disk := disk; ds_stream := None; ds_bson := Some b' |}, rc) ∧
    enc_rep b' (c ++ enc_elems es).
Proof.
  intros [rs L' Hn Hp Hra Hw Hk|Hn Hp Hsz Ho Hoff Hin|rs L' Hn Hp Hra] Ht Hr Hl.
  - rewrite dispatch_plain by done.
    destruct (handle_sectors data offset rs L' {| ds_disk := disk; ds_stream := None;
      ds_bson := Some b |} b c Hra Hw Hk eq_refl eq_refl Hr Hl) as (o & b' & -> & Hb').
    cbn [mbind run_bind]. by eauto.
  - destruct Hp as (H1 & H2 & H3). unfold ntfs_dispatch_data_attribute. rewrite H1, H2, H3, Hn.
    assert (negb (sahf "attribute_type" sah =? NTFS_DATA) &&
      negb (sahf "attribute_type" sah =? NTFS_INDEX_ALLOCATION) = false) as ->
      by (by destruct Ht as [-> | ->]).
    cbn [Z.eqb negb ds_bson ds_stream ds_disk].
    destruct (resident_ok data offset (replicate 4096 (u8 indeterminate)) sah b c)
      as (o & buf & b' & -> & Hb'); try done.
    cbn [lift mbind run_bind]. by eauto.
  - exists offset, b, EXIT_FAILURE. split; [|by rewrite app_nil_r].
    unfold ntfs_dispatch_data_attribute. unfold plain_flags in Hp.
    assert (negb (sahf "attribute_type" sah =? NTFS_DATA) &&
      negb (sahf "attribute_type" sah =? NTFS_INDEX_ALLOCATION) = false) as ->
      by (by destruct Ht as [-> | ->]).
    destruct (Z.eqb_spec (Z.land (sahf "flags" sah) 0x0001) 0); [|done].
    destruct (Z.eqb_spec (Z.land (sahf "flags" sah) 0x4000) 0); [|done].
    destruct (Z.eqb_spec (Z.land (sahf "flags" sah) 0x8000) 0); [|done].
    exfalso. apply Hp. by split_and!.
Qed.
End handlers.

Definition record_elems (prefix rec fdata : list Z) (fsize : Z) : list elem :=
  let t := record_time fdata in
  [e_str "path" (take (Z.to_nat (path_size prefix (record_is_dir rec))) prefix);
   e_bool "is_dir" (record_is_dir rec); e_int64 "size" fsize;
   e_int64 "mode" (record_mode rec fdata); e_int64 "link_count" (recf "hard_link_count" rec);
   e_int64 "uid" 0; e_int64 "gid" 0; e_int64 "atime" t; e_int64 "mtime" t; e_int64 "ctime" t].

Lemma record_fields_encode `{Malloc} prefix rec fdata fsize :
  record_is_dir rec = false → zlen prefix < 2 ^ 31 →
  fields_encode kv_indet (record_fields prefix rec fdata fsize)
    (record_elems prefix rec fdata fsize).
Proof.
  intros Hd Hp. unfold record_fields, record_elems. rewrite Hd. unfold path_size.
  rewrite andb_false_r, Nat2Z.id, firstn_all. encode_fields. done.
Qed.

(** The fields a record begins its document with. *)
Definition position_elems (bootf : list Z) (po size record_num : Z) : list elem :=
  let offset := s64 (u64 (ntfs_lcn_to_offset bootf po (bootf_ "lcn_mft" bootf) +
                          u64 (record_num * size))) in
  [e_str "type" (str_bytes "file"); e_int64 "inode_sector" (Z.quot offset 512);
   e_int64 "inode_offset" (Z.rem offset (ntfs_cluster_size bootf));
   e_int32 "inode_num" (s32 record_num)].

(** ** Properties *)

(** C15: the data of a non-resident attribute, read into a stream, is that of
    its runs, one after the other and cut to the attribute's size: when clusters
    are whole blocks of 4096 bytes, the runs can be decoded and lie on the
    device. What the runs do not cover is what [malloc] left. [k] rounds are
    enough when [k] is larger than the number of runs and of the blocks in each. *)
Theorem ntfs_stream_spec `{MallocTotal} bootf po k data offset sah rs L d p :
  volume_ok bootf po (f_data (ds_disk d)) → data_type sah → plain_flags sah →
  sahf "non_resident_flag" sah ≠ 0 → runs_at data offset rs L →
  runs_wf bootf po (f_data (ds_disk d)) k rs 0 → (length rs < k)%nat → ds_stream d = Some p →
  let bytes := runs_data bootf po (f_data (ds_disk d)) rs 0 L in
  ∃ m offset' disk, malloc L = Some m ∧
    ntfs_dispatch_data_attribute k bootf po data offset sah false d
    = Done (offset', {| ds_disk := disk;
                        ds_stream := Some (PLive (bytes ++ drop (length bytes) m), L);
                        ds_bson := ds_bson d |}, EXIT_SUCCESS) ∧
    f_data disk = f_data (ds_disk d).
Proof.
  intros Hv Ht Hp Hn Hr Hw Hk Hst bytes. rewrite dispatch_plain by done.
  assert (0 ≤ L < 2 ^ 62) as HL by (by destruct Hr).
  destruct (malloc_total L) as [m Em]; [lia|].
  destruct (handle_stream bootf po _ k Hv data offset rs L d p m Hr Hw Hk eq_refl Hst Em)
    as (o & disk & -> & Hd).
  exists m, o, disk. split; [done|]. cbn [mbind run_bind]. by split.
Qed.

(** A volume of six clusters of 4096 bytes; an attribute of 5000 bytes in
    cluster 4 and, two back, cluster 2. *)
Definition witness_volume : list Z := fset ntfs_boot_file "clusters_per_mft_record" (-10) witness_boot.
Definition witness_disk : list Z :=
  replicate 4096 0 ++ replicate 4096 1 ++ replicate 4096 2 ++ replicate 4096 3 ++ replicate 4096 4 ++ replicate 4096 5.
Definition witness_runs : list data_run :=
  [{| dr_len_size := 1; dr_lcn_size := 1; dr_length := 1; dr_lcn := 4 |};
   {| dr_len_size := 1; dr_lcn_size := 1; dr_length := 1; dr_lcn := -2 |}].
Definition witness_sah : list Z :=
  struct_enc ntfs_standard_attribute_header [0x80; 71; 1; 0; 0; 0; 0; 0; 0; 0; 0].
Definition witness_nrh : list Z :=
  struct_enc ntfs_non_resident_header [0; 64; 0; 0; 8192; 5000; 5000].
Definition witness_data : list Z := witness_sah ++ witness_nrh ++ enc_runs witness_runs ++ [0].

Lemma witness_volume_ok : volume_ok witness_volume 0 witness_disk.
Proof. split; [split|..]; try split; by vm_compute. Qed.

Lemma witness_runs_wf : runs_wf witness_volume 0 witness_disk 3 witness_runs 0.
Proof.
  cbn [runs_wf witness_runs]. split_and!; try (by vm_compute);
    split; vm_compute; intuition (lia || congruence).
Qed.

Lemma witness_runs_at : runs_at witness_data 24 witness_runs 5000.
Proof. by apply (runs_at_intro _ _ _ _ witness_sah witness_nrh [] []); vm_compute. Qed.

Definition witness_state : data_state :=
  {| ds_disk := file_of witness_disk; ds_stream := Some (PNull, 0); ds_bson := None |}.

Lemma ntfs_stream_spec_witness :
  ∃ o disk, ntfs_dispatch_data_attribute 3 witness_volume 0 witness_data 24 witness_sah false
              witness_state
  = Done (o, {| ds_disk := disk; ds_stream := Some (PLive (replicate 4096 4 ++ replicate 904 2), 5000);
                ds_bson := None |}, EXIT_SUCCESS).
Proof.
  destruct (ntfs_stream_spec witness_volume 0 3 witness_data 24 witness_sah witness_runs 5000
    witness_state (PNull, 0)) as (m & o & disk & Em & E & _).
  - apply witness_volume_ok.
  - left. by vm_compute.
  - by vm_compute.
  - by vm_compute.
  - apply witness_runs_at.
  - apply witness_runs_wf.
  - simpl. lia.
  - done.
  - exists o, disk. rewrite E.
    assert (runs_data witness_volume 0 (f_data (ds_disk witness_state)) witness_runs 0 5000
      = replicate 4096 4 ++ replicate 904 2) as -> by (by vm_compute).
    rewrite drop_ge; [by rewrite app_nil_r|]. pose proof (malloc_length _ _ Em). len.
Defined.

(** C16: for a file, [ntfs_serialize_file_record] appends one document: the
    fields already begun, those of the record and of its name, and an array with
    the sector of every block of 4096 bytes of its runs, by number; for data in
    the record itself the array holds -1, for compressed, encrypted and sparse
    data there is none. All three times are the access time of the name. The
    disk is not read, and the number of index records not changed. *)
Theorem ntfs_file_document `{MallocTotal} `{Iconv} k fuel bootf po D mft record data rec prefix b es w
    o fdata offset sah L arrays :
  volume_ok bootf po D → fixup_record bootf record = Some (data, rec) →
  record_is_dir rec = false →
  ntfs_get_attribute k data 0 NTFS_FILE_NAME = Some (o, Some fdata) →
  ntfs_get_attribute k data 0 NTFS_DATA = Some (offset, Some sah) →
  sahf "attribute_type" sah = NTFS_DATA → file_data bootf po D k data offset sah L arrays →
  enc_rep b (enc_elems es) → at_end (nw_out w) →
  let doc := es ++ record_elems prefix rec fdata L ++ arrays in
  zlen (enc_doc doc) ≤ max_doc →
  ntfs_serialize_file_record k (S fuel) bootf po mft record prefix b w
  = Done (set_walk_out (append (nw_out w) (enc_doc doc)) w, EXIT_SUCCESS).
Proof.
  intros Hv Hfix Hdir Hname Hattr Ht Hfd Hr Hout doc Hl. cbn [ntfs_serialize_file_record].
  rewrite Hfix. cbn [lift mbind run_bind]. rewrite Hname. cbn [lift mbind run_bind].
  change (default _ (Some fdata)) with fdata.
  rewrite Hdir, Hattr. cbn [lift mbind run_bind negb].
  destruct (get_size_ok bootf po D k _ _ _ _ _ Hfd) as [o' ->]. cbn [lift mbind run_bind].
  assert (zlen (enc_elems doc) + 5 ≤ max_doc) as Hld by (revert Hl; unfold enc_doc; len).
  pose proof Hld as Hdoc. unfold doc in Hld. rewrite !enc_elems_app, !length_app in Hld.
  assert (zlen prefix < 2 ^ 31) as Hp.
  { revert Hld. unfold record_elems. rewrite Hdir. unfold path_size.
    rewrite andb_false_r, Nat2Z.id, firstn_all, enc_elems_cons, length_app, length_e_str.
    unfold max_doc. lia. }
  destruct (serialize_fields_ok kv_indet (record_fields prefix rec fdata L)
    (record_elems prefix rec fdata L) b _ (record_fields_encode _ _ _ _ Hdir Hp) Hr)
    as (b1 & v1 & E1 & Hr1); [lia|].
  rewrite E1. cbn [lift mbind run_bind]. unfold serialize_record_data. rewrite Hattr.
  cbn [lift mbind run_bind].
  destruct (dispatch_document bootf po D k Hv data offset sah (nw_disk w) b1 _ L arrays Hfd
    (or_introl Ht) Hr1) as (o2 & b2 & rc & -> & Hr2); [len|].
  cbn [lift mbind run_bind ds_bson ds_disk]. rewrite <-!enc_elems_app, <-app_assoc in Hr2.
  rewrite (finish_document_ok b2 doc (nw_out w) Hr2) by done. cbn [lift mbind run_bind].
  unfold set_walk_out, set_walk_disk. cbn [nw_disk nw_out nw_sector]. by destruct w.
Qed.

(** The file's record: its name, and the data above. *)
Definition witness_name : list Z :=
  struct_enc ntfs_standard_attribute_header [0x30; 90; 0; 0; 0; 0; 0; 66; 24; 0; 0] ++
  struct_enc ntfs_file_name [5; 0; NTFS_FILETIME_TO_UNIX + 30000000; 0; 0; 0; 0; 1; 0; 0; 0].
Definition witness_plain : list Z :=
  struct_enc ntfs_file_record [0x454c4946; 48; 3; 0; 0; 1; 54; 0; 0; 0; 0; 0; 0; 0; 7] ++
  replicate 4 9 ++ witness_name ++ witness_data ++ end_marker.
Definition witness_file_record : list Z :=
  protect 7 (witness_plain ++ replicate (512 - length witness_plain) 9) ++
  protect 7 (replicate 512 9).

Definition ntfs_witness_walk : ntfs_walk :=
  {| nw_disk := file_of witness_disk; nw_out := file_of []; nw_sector := 0 |}.

Lemma ntfs_file_document_witness :
  ∃ b rec fdata, bson_init = Some b ∧ record_time fdata = 3 ∧
    ntfs_serialize_file_record 3 1 witness_volume 0 PNull witness_file_record (str_bytes "/a") b
      ntfs_witness_walk
    = Done (set_walk_out (append (file_of []) (enc_doc (record_elems (str_bytes "/a") rec fdata 5000 ++
        [e_arr "sectors" (enc_doc
          [{| e_key := str_bytes "0"; e_val := VInt32 (le_enc 4 32) |};
           {| e_key := str_bytes "1"; e_val := VInt32 (le_enc 4 16) |}])])))
        ntfs_witness_walk, EXIT_SUCCESS).
Proof.
  destruct bson_init_rep as (b & E & Hr).
  set (data := witness_plain ++ replicate (512 - length witness_plain) 9 ++ replicate 512 9).
  exists b, (take 50 data), (drop 24 witness_name). split; [done|]. split; [by vm_compute|].
  rewrite (ntfs_file_document 3 0 witness_volume 0 witness_disk PNull witness_file_record data
    (take 50 data) (str_bytes "/a") b [] ntfs_witness_walk 78 (drop 24 witness_name) 168 witness_sah
    5000 [e_arr "sectors" (enc_doc (runs_elems witness_volume 0 witness_runs 0 0 5000))]).
  - do 6 f_equal.
  - apply witness_volume_ok.
  - by vm_compute.
  - by vm_compute.
  - by vm_compute.
  - by vm_compute.
  - by vm_compute.
  - apply fd_runs; [by vm_compute|by vm_compute| |apply witness_runs_wf|simpl; lia].
    apply (runs_at_intro _ _ _ _ (take 168 data) witness_nrh []
      (drop (168 + 40 + length (enc_runs witness_runs) + 1) data)); by vm_compute.
  - exact Hr.
  - done.
  - by vm_compute.
Defined.

Lemma resident_buffer `{Malloc} data offset buf n sah save b o buf' b' :
  ntfs_handle_resident_data_attribute data offset buf n sah save b = Some (o, buf', b') →
  length buf' = length buf.
Proof.
  unfold ntfs_handle_resident_data_attribute.
  destruct bson_init as [s|]; [|done]. cbn [mbind option_bind].
  destruct (ntfs_read_attribute_data _ _ _ _ _) as [[[o1 buf1] rc]|] eqn:E; [|done].
  cbn [mbind option_bind]. intros E'.
  assert (buf' = buf1) as ->.
  { apply bind_Some in E' as ([s' ?] & _ & E'). apply bind_Some in E' as (? & _ & E').
    by injection E'. }
  revert E. unfold ntfs_read_attribute_data. case_test; [by intros; simplify_eq|].
  destruct (mem_read _ _ _) as [d|]; [|done]. cbn [mbind option_bind].
  destruct (mem_write buf 0 d) as [m|] eqn:Em; [|done]. cbn [mbind option_bind].
  intros E. injection E as <- <- <-. by eapply mem_write_length.
Qed.

(** A resident attribute cannot be read into a stream: its data is copied
    over the caller's pointer instead of to the memory allocated for it, 4096
    bytes into 8. So a file table or an index that is resident stops the
    crawler. *)
Theorem ntfs_resident_stream `{Malloc} k bootf po data offset sah save d p :
  data_type sah → plain_flags sah → sahf "non_resident_flag" sah = 0 → ds_stream d = Some p →
  ntfs_dispatch_data_attribute k bootf po data offset sah save d = Undefined.
Proof.
  intros Ht (H1 & H2 & H3) Hn Hs. unfold ntfs_dispatch_data_attribute.
  rewrite H1, H2, H3, Hn, Hs.
  assert (negb (sahf "attribute_type" sah =? NTFS_DATA) &&
    negb (sahf "attribute_type" sah =? NTFS_INDEX_ALLOCATION) = false) as ->
    by (by destruct Ht as [-> | ->]).
  cbn [Z.eqb negb].
  destruct (ntfs_handle_resident_data_attribute _ _ _ _ _ _ _) as [[[o buf] b]|] eqn:E; [|done].
  apply resident_buffer in E. rewrite length_replicate in E.
  cbn [lift mbind run_bind]. unfold mem_write. rewrite bool_decide_false; [done|].
  rewrite length_replicate. lia.
Qed.

Lemma ntfs_resident_stream_witness :
  ntfs_dispatch_data_attribute 3 witness_volume 0 (witness_attr ++ [1; 2; 3]) 24 witness_attr false
    witness_state = Undefined.
Proof.
  apply (ntfs_resident_stream 3 witness_volume 0 _ 24 witness_attr false witness_state (PNull, 0));
    [left|..]; by vm_compute.
Defined.

(** From number 16 on a record is the part of the file table in memory that
    its number says, and begins its document with its place on the disk; a part
    without the magic bytes is no record; and a number behind the end of the
    table, which nothing excludes, reads past it. *)
Theorem ntfs_record_in_table `{MallocTotal} bootf po k disk n table buf b c size :
  ntfs_file_record_size bootf = Some size → 0 < size → 0 < ntfs_cluster_size bootf →
  16 ≤ n < 2 ^ 32 → zlen buf = size → enc_rep b c →
  zlen c + zlen (enc_elems (position_elems bootf po size n)) ≤ max_doc → zlen table < 2 ^ 62 →
  let record := take (Z.to_nat size) (drop (Z.to_nat (n * size)) table) in
  let result := ntfs_read_file_record k bootf po disk n (PLive table) buf b in
  (n * size + size ≤ zlen table →
   ∃ b', enc_rep b' (c ++ enc_elems (position_elems bootf po size n)) ∧
     result = Done (disk, PLive table, record, b',
                    if bool_decide (take 4 record = str_bytes "FILE") then size else 0)) ∧
  (zlen table < n * size + size → result = Undefined).
Proof.
  intros Hsz Hs Hc Hn Hbuf Hr Hl Ht record result. subst result.
  assert (size < 2 ^ 31) as Hsz31.
  { revert Hsz. unfold ntfs_file_record_size, int_ok. case_test.
    - intros E. bind_inv E. revert E. case_test; [|done]. intros E. injection E as <-. lia.
    - case_test; [|done]. case_test; [|done]. intros E. injection E as <-. lia. }
  unfold ntfs_read_file_record. rewrite Hsz. cbn [lift mbind run_bind].
  rewrite (uwrap_small 64 size) by lia. assert (0 ≤ n * size < 2 ^ 63) by nia.
  fold (ntfs_cluster_size bootf). rewrite (proj2 (Z.eqb_neq (ntfs_cluster_size bootf) 0)) by lia.
  set (offset := s64 (u64 (ntfs_lcn_to_offset bootf po (bootf_ "lcn_mft" bootf) + u64 (n * size)))).
  destruct (serialize_fields_ok kv_indet
    [fill_str "type" 4 (cstr "file");
     fill_mem BSON_INT64 "inode_sector" (le_enc 8 (Z.quot offset 512));
     fill_mem BSON_INT64 "inode_offset" (le_enc 8 (Z.rem offset (ntfs_cluster_size bootf)));
     fill_mem BSON_INT32 "inode_num" (le_enc 4 (s32 n))]
    (position_elems bootf po size n) b c) as (b' & v' & E & Hb'); [|done|done|].
  { unfold position_elems. fold offset. encode_fields; by vm_compute. }
  rewrite E. cbn [lift mbind run_bind deref]. rewrite (proj2 (Z.ltb_ge n 16)) by lia.
  rewrite (uwrap_small 64 (n * size)) by lia. split; intros Hin.
  - exists b'. split; [done|]. unfold mem_read. rewrite bool_decide_true by lia.
    cbn [lift mbind run_bind]. fold record.
    assert (zlen record = size) as Hrec by (subst record; rewrite length_take, length_drop; lia).
    unfold mem_write. rewrite bool_decide_true by lia.
    cbn [lift mbind run_bind Z.to_nat take app Nat.add]. rewrite drop_ge, app_nil_r by lia.
    change (take (Z.to_nat 0) buf ++ record) with record.
    unfold streq. by case_bool_decide.
  - by rewrite mem_read_oob by lia.
Qed.

Lemma ntfs_record_in_table_witness :
  ∃ b b', bson_init = Some b ∧
    ntfs_read_file_record 3 witness_volume 0 (file_of []) 16
      (PLive (replicate (Z.to_nat 16384) 0 ++ witness_file_record)) (replicate 1024 0) b
    = Done (file_of [], PLive (replicate (Z.to_nat 16384) 0 ++ witness_file_record), witness_file_record, b', 1024).
Proof.
  destruct bson_init_rep as (b & E & Hr). exists b.
  destruct (ntfs_record_in_table witness_volume 0 3 (file_of []) 16
    (replicate (Z.to_nat 16384) 0 ++ witness_file_record) (replicate 1024 0) b [] 1024) as [F _].
  - by vm_compute.
  - lia.
  - by vm_compute.
  - lia.
  - by vm_compute.
  - exact Hr.
  - by vm_compute.
  - by vm_compute.
  - destruct F as (b' & _ & F); [by vm_compute|]. exists b'. split; [done|]. rewrite F.
    by vm_compute.
Defined.

(** With clusters of 512 bytes the position in the stream is wrong behind the
    first run: two runs of a cluster each are not put into their 1024 bytes. *)
Example ntfs_small_clusters :
  runs_loop 9 (fset ntfs_boot_file "sectors_per_cluster" 1 witness_volume) 0 9 false
    (enc_runs witness_runs ++ [0]) 0 0 0
    {| bi_size := 0; bi_f_offset := 0; bi_position := 0; bi_buffer := PNull |}
    {| cp_disk := file_of witness_disk; cp_stream := Some (PLive (replicate 1024 0));
       cp_position := 0; cp_left := 1024 |} = Undefined.
Proof. by vm_compute. Qed.
