(* ===== verification/CrawlLoad.v ===== *)
(** * From the crawler's documents to the store's pointers

    The document [ext4_serialize_tree] writes for a file, loaded by
    [qemu_load_document]: which commands the store gets, and which bytes of the
    file a sector of it is said to hold. *)
From S2P Require Import Prelude Words Memory Struct Stdio Bitarray Bson BsonEncode BsonDecode BsonFields Scan RedisEnv Redis RedisProps StoreView InspectLoad InspectLoadProps InspectIndex PartTable Ext4 Ext4Blocks Ext4Props Ext4Extents Ext4Files Ext4Walk.

#[local] Open Scope string_scope.
#[local] Open Scope list_scope.
#[local] Open Scope Z_scope.

(** ** The crawler's document *)

(** An extent of the inode maps block [n]. *)
Definition mapped (inode : list Z) (n : Z) : bool :=
  match List.find (covers n) (entries_of (fbytes ext4_inode "i_block" inode)) with
  | Some _ => true
  | None => false
  end.

(** The sector of block [n]. *)
Definition file_sector (po bs : Z) (inode : list Z) (n : Z) : Z :=
  match List.find (covers n) (entries_of (fbytes ext4_inode "i_block" inode)) with
  | Some e => sector_of po bs (eef "ee_start_lo" e + (n - eef "ee_block" e))
  | None => 0
  end.

(** The mapped blocks below [n], in order. *)
Definition mapped_blocks (inode : list Z) (i : Z) (n : nat) : list Z :=
  filter (λ k, mapped inode k = true) (seqZ i (Z.of_nat n)).

(** The elements of a regular file behind [type]. *)
Definition file_elems (sector offset num po bs : Z) (prefix inode : list Z) (n : nat) :
    list elem :=
  [e_int64 "inode_sector" sector; e_int64 "inode_offset" offset; e_int32 "inode_num" num] ++
  inode_elems prefix inode ++
  [e_arr "sectors" (enc_doc (sector_elems po bs inode 0 n)); e_arr "extents" (enc_doc [])].

(** ** Its commands *)

(** The [j]-th element of [sectors], for the block [blk]. *)
Definition data_block_cmds (id po bs : Z) (inode : list Z) (j blk : Z) : list command :=
  let n := s32 (file_sector po bs inode blk) in
  [cmd REDIS_FILE_SECTORS_INSERT [AInt id; AInt n];
   cmd REDIS_DATA_INSERT [AInt (u64 n); AInt (j * bs); AInt ((j + 1) * bs); AInt id]].

Fixpoint blocks_cmds (id po bs : Z) (inode : list Z) (j : Z) (blks : list Z) : list command :=
  match blks with
  | [] => []
  | blk :: blks => data_block_cmds id po bs inode j blk ++ blocks_cmds id po bs inode (j + 1) blks
  end.

Definition header_cmds (id sector offset num : Z) (prefix inode : list Z) : list command :=
  let set e := hset REDIS_FILE_SECTOR_INSERT id e in
  [cmd REDIS_FILES_INSERT [AInt (u32 sector); AInt id];
   cmd REDIS_FILES_SECTOR_INSERT [AInt (u32 sector); AInt (u32 sector)];
   set (e_int64 "inode_offset" offset);
   cmd REDIS_INODE_INSERT [AInt (u32 num); AInt id]; set (e_int32 "inode_num" num);
   set (e_str "path" prefix); cmd REDIS_PATH_SET [ABin prefix; AInt id]] ++
  (set <$> drop 1 (inode_elems prefix inode)).

(** ** Lemmas *)

Lemma sector_elem_mapped po bs inode n :
  sector_elem po bs inode n =
  if mapped inode n
  then [{| e_key := decimal n; e_val := VInt32 (le_enc 4 (file_sector po bs inode n)) |}]
  else [].
Proof. unfold sector_elem, mapped, file_sector. by destruct (List.find _ _). Qed.

Lemma sector_elem_ok po bs inode n : Forall (λ e, elem_ok e ∧ plain (e_val e)) (sector_elem po bs inode n).
Proof.
  rewrite sector_elem_mapped. destruct (mapped _ _); [|done]. constructor; [|done].
  split; [|done]. split; [apply decimal_nonzero|]. simpl. by rewrite length_le_enc.
Qed.

Lemma seqZ_S i (n : nat) : seqZ i (Z.of_nat (S n)) = i :: seqZ (i + 1) (Z.of_nat n).
Proof. rewrite seqZ_cons by lia. f_equal. rewrite Z.add_1_r. f_equal. lia. Qed.

Lemma sectors_run id po bs inode n : ∀ i j,
  0 ≤ bs ≤ 65536 → 0 ≤ j → j + Z.of_nat n ≤ 2 ^ 40 →
  ∃ c, runs (sector_cmds id bs) (j * bs) (sector_elems po bs inode i n)
         (blocks_cmds id po bs inode j (mapped_blocks inode i n)) c.
Proof.
  induction n as [|n IH]; intros i j Hbs Hj Hn.
  { exists (j * bs). constructor. }
  unfold mapped_blocks. rewrite seqZ_S, filter_cons. cbn [sector_elems].
  pose proof (sector_elem_ok po bs inode i) as Hok. rewrite sector_elem_mapped in Hok |- *.
  destruct (mapped inode i) eqn:Em.
  - rewrite decide_True by done. destruct (IH (i + 1) (j + 1)) as [c Hc]; [done|lia|lia|].
    exists c. cbn [app blocks_cmds].
    assert (u64 (j * bs + bs) = (j + 1) * bs) as Ec.
    { rewrite uwrap_small; [lia|]. nia. }
    apply Forall_cons_1 in Hok as [[Hok Hpl] _].
    eapply (runs_cons _ _ _ (data_block_cmds id po bs inode j i)); [done..| |exact Hc].
    unfold data_block_cmds. rewrite <-Ec. by constructor.
  - rewrite decide_False by done. apply IH; lia.
Qed.

(** Without holes the [j]-th element is block [j]. *)
Lemma mapped_blocks_full inode i n :
  (∀ k, i ≤ k < i + Z.of_nat n → mapped inode k = true) → mapped_blocks inode i n = seqZ i (Z.of_nat n).
Proof.
  unfold mapped_blocks. revert i. induction n as [|n IH]; intros i Hm; [done|].
  rewrite seqZ_S, filter_cons, decide_True by (apply Hm; lia). f_equal. apply IH.
  intros k Hk. apply Hm. lia.
Qed.

Lemma sector_elems_length po bs inode n : ∀ i, (length (sector_elems po bs inode i n) ≤ n)%nat.
Proof.
  induction n as [|n IH]; intros i; [done|]. cbn [sector_elems]. rewrite length_app.
  specialize (IH (i + 1)). rewrite sector_elem_mapped. destruct (mapped inode i); simpl; lia.
Qed.

Lemma runs_step {A} (K : A → elem → list command → A → Prop) a e cs1 a1 cs2 es cs a' :
  elem_ok e → plain (e_val e) → K a e cs1 a1 → runs K a1 es cs2 a' → cs = cs1 ++ cs2 →
  runs K a (e :: es) cs a'.
Proof. intros He Hp Hk Hr ->. by eapply runs_cons. Qed.

Lemma file_elems_run id sector offset num po bs prefix inode n bound :
  0 ≤ bs ≤ 65536 → Z.of_nat n ≤ 2 ^ 32 → (n ≤ bound)%nat → zlen prefix < 2 ^ 31 - 1 →
  zlen (enc_doc (sector_elems po bs inode 0 n)) < 2 ^ 31 →
  runs (file_cmds id bs bound) tt (file_elems sector offset num po bs prefix inode n)
    (header_cmds id sector offset num prefix inode ++
     blocks_cmds id po bs inode 0 (mapped_blocks inode 0 n)) tt.
Proof.
  intros Hbs Hn Hbound Hp Hl.
  assert (∀ key, bool_decide (str_bytes key ∉ file_keys) = true → ∀ e, e_key e = str_bytes key →
    file_cmds id bs bound tt e [hset REDIS_FILE_SECTOR_INSERT id e] tt) as Hfield.
  { intros key Hk e He. apply fc_field. rewrite He. by apply bool_decide_eq_true in Hk. }
  destruct (sectors_run id po bs inode n 0 0) as [c Hc]; [done|lia|lia|].
  unfold file_elems, header_cmds. cbn [inode_elems app drop fmap list_fmap].
  eapply runs_step; [by apply e_int64_ok|done|eapply (fc_inode_sector _ _ _ _ (u32 sector))| |].
  { split; [done|]. exists 8%nat, sector. by split; [lia|]. }
  2: { cbn [app]. reflexivity. }
  eapply runs_step; [by apply e_int64_ok|done|by apply (Hfield "inode_offset")| |reflexivity].
  eapply runs_step; [by apply e_int32_ok|done|eapply (fc_inode_num _ _ _ _ (u32 num))| |].
  { split; [done|]. by exists 4%nat, num. }
  2: { cbn [app]. reflexivity. }
  eapply runs_step; [by apply e_str_ok|done|apply fc_path| |reflexivity].
  eapply runs_step; [by apply e_bool_ok|done|by apply (Hfield "is_dir")| |reflexivity].
  eapply runs_step; [by apply e_int64_ok|done|by apply (Hfield "size")| |reflexivity].
  eapply runs_step; [by apply e_int64_ok|done|by apply (Hfield "mode")| |reflexivity].
  eapply runs_step; [by apply e_int64_ok|done|by apply (Hfield "link_count")| |reflexivity].
  eapply runs_step; [by apply e_int64_ok|done|by apply (Hfield "uid")| |reflexivity].
  eapply runs_step; [by apply e_int64_ok|done|by apply (Hfield "gid")| |reflexivity].
  eapply runs_step; [by apply e_int64_ok|done|by apply (Hfield "atime")| |reflexivity].
  eapply runs_step; [by apply e_int64_ok|done|by apply (Hfield "mtime")| |reflexivity].
  eapply runs_step; [by apply e_int64_ok|done|by apply (Hfield "ctime")| |reflexivity].
  eapply runs_step; [apply e_arr_ok; [done|by apply enc_doc_self_sized]|done| | |].
  { apply fc_sectors with c; [done| |by rewrite Z.mul_0_l in Hc].
    pose proof (sector_elems_length po bs inode n 0). lia. }
  2: { symmetry. apply app_nil_r. }
  eapply (runs_step _ _ _ [] _ []); [|done|apply fc_extents; [done|simpl; lia|constructor]|constructor|done].
  apply e_arr_ok; [done|by apply enc_doc_self_sized].
Qed.

Lemma crawled_file_load_ok `{MallocTotal} `{Connected} fuel b m s fs bgds id sup sector offset
    num po prefix inode n :
  let bs := block_size sup in
  let doc := doc_type "file" :: file_elems sector offset num po bs prefix inode n in
  0 ≤ bs ≤ 65536 → Z.of_nat n ≤ 2 ^ 32 → zlen (enc_doc doc) < 2 ^ 31 →
  (n < fuel)%nat → (15 < fuel)%nat → dec_rep m b [] (enc_elems doc ++ [0]) → ready s →
  ∃ b' s', qemu_load_document fuel s b true (set_counters fs bgds id sup)
      = Some (b', s', set_counters fs bgds (u64 (id + 1)) sup, EXIT_SUCCESS) ∧
    issued s (header_cmds id sector offset num prefix inode ++
              blocks_cmds id po bs inode 0 (mapped_blocks inode 0 n)) s'.
Proof.
  intros bs doc Hbs Hn Hl Hfuel Hfuel' Hr Hs.
  assert (zlen prefix < 2 ^ 31 - 1 ∧ zlen (enc_doc (sector_elems po bs inode 0 n)) < 2 ^ 31)
    as [Hp Hd].
  { rewrite length_enc_doc in Hl. unfold doc, doc_type, file_elems, inode_elems in Hl.
    cbn [app] in Hl. autorewrite with dsize in Hl. lia. }
  edestruct (load_document_ok (max n 15) fuel s (set_counters fs bgds id sup) doc)
    as (b' & s' & E & _ & Hi); [lia|exact Hr|done| |by exists b', s'].
  apply dc_file; [simpl; lia|]. apply file_elems_run; [done|done|lia|done|done].
Qed.

(** ** Properties *)

(** C14: the document the crawler writes for a regular file is loaded as the
    file's fields and, for the [j]-th block that an extent maps, the pointer
    from the block's sector to the bytes [j * bs] to [(j + 1) * bs] of the file.
    This is where the block is when the file has no holes; a block behind a hole
    gets the offset of an earlier one, since the numbers the crawler wrote as
    keys are not looked at. *)
Theorem crawled_file_loaded `{MallocTotal} `{Connected} fuel b m s fs bgds id sup sector offset
    num po prefix inode n :
  let bs := block_size sup in
  let doc := doc_type "file" :: file_elems sector offset num po bs prefix inode n in
  0 ≤ bs ≤ 65536 → Z.of_nat n ≤ 2 ^ 32 → zlen (enc_doc doc) < 2 ^ 31 →
  (n < fuel)%nat → (15 < fuel)%nat → dec_rep m b [] (enc_elems doc ++ [0]) → ready s →
  (∃ b' s', qemu_load_document fuel s b true (set_counters fs bgds id sup)
      = Some (b', s', set_counters fs bgds (u64 (id + 1)) sup, EXIT_SUCCESS) ∧
    issued s (header_cmds id sector offset num prefix inode ++
              blocks_cmds id po bs inode 0 (mapped_blocks inode 0 n)) s') ∧
  ((∀ k, 0 ≤ k < Z.of_nat n → mapped inode k = true) →
   mapped_blocks inode 0 n = seqZ 0 (Z.of_nat n)).
Proof.
  intros bs doc Hbs Hn Hl Hfuel Hfuel' Hr Hs.
  split; [by eapply crawled_file_load_ok|].
  intros Hm; apply mapped_blocks_full; intros k Hk; apply Hm; lia.
Qed.

(** 1500 bytes of which the first block is a hole: the extent maps block 1 and
    on, from block 2 of the device. *)
Definition holed_inode : list Z :=
  [0x80; 0x81; 0; 0] ++ [0xdc; 5; 0; 0] ++ replicate 24 0 ++ [0; 0; 8; 0] ++ replicate 4 0 ++
  [0x0a; 0xf3; 1; 0; 4; 0; 0; 0; 0; 0; 0; 0] ++ [1; 0; 0; 0; 8; 0; 0; 0; 2; 0; 0; 0] ++
  replicate 92 0.

Definition witness_super : super_info :=
  {| superblock_sector := 2; superblock_offset := 1024; block_size := 1024;
     blocks_per_group := 8192; inodes_per_group := 16; inode_size := 128 |}.

(** Sector 4 is said to hold the bytes from 0; they are those from 1024. *)
Lemma crawled_file_loaded_witness :
  let doc := doc_type "file" :: file_elems 10 128 12 0 1024 (str_bytes "/a") holed_inode 2 in
  ∃ b' s', qemu_load_document 16 (witness_store [])
      (witness_info (enc_elems doc ++ [0]) (zlen (enc_elems doc ++ [0]))) true
      (set_counters 0 0 7 witness_super)
    = Some (b', s', set_counters 0 0 8 witness_super, EXIT_SUCCESS) ∧
    issued (witness_store [])
      (header_cmds 7 10 128 12 (str_bytes "/a") holed_inode ++
       [cmd REDIS_FILE_SECTORS_INSERT [AInt 7; AInt 4];
        cmd REDIS_DATA_INSERT [AInt 4; AInt 0; AInt 1024; AInt 7]]) s'.
Proof.
  intros doc.
  destruct (crawled_file_loaded 16 (witness_info (enc_elems doc ++ [0])
    (zlen (enc_elems doc ++ [0]))) (enc_elems doc ++ [0]) (witness_store []) 0 0 7 witness_super
    10 128 12 0 (str_bytes "/a") holed_inode 2) as [(b' & s' & E & Hi) _].
  - simpl. lia.
  - lia.
  - by vm_compute.
  - lia.
  - lia.
  - split; [done|by exists []; rewrite app_nil_r|done|done|by vm_compute].
  - split; [done|by vm_compute].
  - exists b', s'. split; [exact E|exact Hi].
Defined.
