(* ===== verification/Crawler.v ===== *)
(** * src/gray-crawler/gray-crawler.c: the crawler's main function

    The partition table of the disk is found and documented, then for every
    partition the file systems are tried in order, and the first one found is
    documented; at the end the metadata filter is. The tables of operations are
    those of the source. The static variables of the two file systems are one
    state, [statics]; closing the files and freeing the filter have no
    counterpart. [k] bounds the rounds of the file systems' loops. *)
From S2P Require Import Prelude Words Memory Struct Stdio Bitarray Bson BsonEncode PartTable Mbr Filter Ext4 Ext4Files Ntfs NtfsFiles.

#[local] Open Scope string_scope.
#[local] Open Scope list_scope.
#[local] Open Scope Z_scope.

(** The counters of [ext4_next_block_group_descriptor] and of the index records. *)
Record statics := { st_ext4 : Z; st_ntfs : Z }.

(** What [main] changes: the disk's position, the output and the filter's bits. *)
Record crawl := { cr_disk : FILE; cr_out : FILE; cr_bits : bitarray; cr_statics : statics }.

Definition set_cr_disk (disk : FILE) (c : crawl) : crawl :=
  {| cr_disk := disk; cr_out := cr_out c; cr_bits := cr_bits c; cr_statics := cr_statics c |}.

Definition set_cr_out (out : FILE) (c : crawl) : crawl :=
  {| cr_disk := cr_disk c; cr_out := out; cr_bits := cr_bits c; cr_statics := cr_statics c |}.

(** [struct gray_fs_crawler]: [fs->bits] and the bits of [main] are one object. *)
Record gray_fs_crawler := {
  fs_name : string;
  fc_probe : FILE → fs → option (FILE * fs * Z);
  fc_serialize : fs → crawl → run (fs * crawl * Z);
  fc_cleanup : fs → option fs;
}.

Section crawler.
Context `{Malloc} `{Iconv}.
Variable k : nat.

(** ** The file systems *)

Definition ext4_crawler (fuel : nat) : gray_fs_crawler :=
  {| fs_name := "ext4";
     fc_probe := ext4_probe;
     fc_serialize f c :=
       o ← lift (ext4_serialize k fuel (st_ext4 (cr_statics c)) (cr_disk c) f (cr_out c));
       match o with
       | Exited code _ => Ended (Exit code)
       | Returned (i, disk, f, out, rc) =>
           Done (f, {| cr_disk := disk; cr_out := out; cr_bits := fs_bits f;
                       cr_statics := {| st_ext4 := i; st_ntfs := st_ntfs (cr_statics c) |} |}, rc)
       end;
     fc_cleanup := ext4_cleanup |}.

Definition ntfs_crawler (fuel : nat) : gray_fs_crawler :=
  {| fs_name := "ntfs";
     fc_probe := ntfs_probe;
     fc_serialize f c :=
       '(w, rc) ← ntfs_serialize k fuel f
         {| nw_disk := cr_disk c; nw_out := cr_out c; nw_sector := st_ntfs (cr_statics c) |};
       Done (f, {| cr_disk := nw_disk w; cr_out := nw_out w; cr_bits := cr_bits c;
                   cr_statics := {| st_ext4 := st_ext4 (cr_statics c);
                                    st_ntfs := nw_sector w |} |}, rc);
     fc_cleanup f := '(f, _) ← ntfs_cleanup f; Some f |}.

Definition crawlers (fuel : nat) : list gray_fs_crawler := [ext4_crawler fuel; ntfs_crawler fuel].

(** ** The partitions *)

(** [((struct ext4_superblock* )fsdata.fs_info)->s_last_mounted = "/"], whatever
    file system it is. *)
Definition set_last_mounted (f : fs) : option fs :=
  '(o, _) ← offset_of ext4_superblock "s_last_mounted";
  m ← deref (fs_info f);
  m ← mem_write m (Z.of_nat o) [47];
  m ← mem_write m (Z.of_nat o + 1) [0];
  Some (set_fs_info (PLive m) f).

Section table.
Variable pt_crawler : gray_fs_pt_crawler.

(** After either of the two failures. *)
Definition abandon (fc : gray_fs_crawler) (e : pte) (f : fs) (c : crawl) :
    run (crawl * option Z) :=
  _ ← lift (pc_cleanup_pte pt_crawler e);
  _ ← lift (fc_cleanup fc f);
  Done (c, Some EXIT_FAILURE).

(** The loop over the file systems; [Some EXIT_FAILURE] returns from [main].
    [cleanup_pte] is passed a copy of [e], whose pointer is freed. *)
Fixpoint try_crawlers (fcs : list gray_fs_crawler) (e : pte) (f : fs) (c : crawl) :
    run (crawl * option Z) :=
  match fcs with
  | [] => Done (c, None)
  | fc :: fcs =>
      '(disk, f, rc) ← lift (fc_probe fc (cr_disk c) f);
      let c := set_cr_disk disk c in
      if rc =? 0 then
        f ← lift (set_last_mounted f);
        '(out, rc) ← lift (pc_serialize_pte pt_crawler e (cr_out c));
        let c := set_cr_out out c in
        if negb (rc =? 0) then abandon fc e f c else
        '(f, c, rc) ← fc_serialize fc f c;
        if negb (rc =? 0) then abandon fc e f c else
        _ ← lift (pc_cleanup_pte pt_crawler e);
        _ ← lift (fc_cleanup fc f);
        Done (c, None)
      else
        e ← lift (pc_cleanup_pte pt_crawler e);
        f ← lift (fc_cleanup fc f);
        try_crawlers fcs e f c
  end.

Definition crawl_partition (fcs : list gray_fs_crawler) (e : pte) (c : crawl) :
    run (crawl * option Z) :=
  if 0 <? pt_off e then
    try_crawlers fcs e {| fs_pte := pt_num e; fs_pt_off := pt_off e; icache := PNull;
                          bcache := PNull; fs_info := PNull; fs_bits := cr_bits c |} c
  else Done (c, None).

Fixpoint crawl_partitions (fcs : list gray_fs_crawler) (fuel : nat) (st : pc_static pt_crawler)
    (p : pt) (e : pte) (c : crawl) : run (crawl * option Z) :=
  match fuel with
  | O => Undefined
  | S fuel =>
      '(st, e, more) ← lift (pc_get_next_partition pt_crawler st p e);
      if more : bool then
        '(c, r) ← crawl_partition fcs e c;
        match r with
        | Some rc => Done (c, Some rc)
        | None => crawl_partitions fcs fuel st p e c
        end
      else Done (c, None)
  end.

(** Behind the probe: the table, the partitions, the filter. *)
Definition crawl_disk (fcs : list gray_fs_crawler) (fuel : nat) (p : pt) (c : crawl) :
    run (FILE * Z) :=
  '(bits, out, rc) ← lift (pc_serialize_pt pt_crawler p (cr_bits c) (cr_out c));
  let c := {| cr_disk := cr_disk c; cr_out := out; cr_bits := bits; cr_statics := cr_statics c |} in
  if negb (rc =? 0) then Done (out, EXIT_FAILURE) else
  '(c, r) ← crawl_partitions fcs fuel (pc_init pt_crawler) p pte_indet c;
  match r with
  | Some rc => Done (cr_out c, rc)
  | None =>
      '(out, _) ← lift (bitarray_serialize (cr_bits c) (cr_out c));
      _ ← lift (pc_cleanup_pt pt_crawler p);
      Done (out, EXIT_SUCCESS)
  end.
End table.

(** ** [main]

    [disk] and [serializef] are what [fopen] returned, [st_size] what [fstat]
    found, if it succeeded. The result has the output file, if it could be
    opened. The filter's struct has 16 bytes. The only table format is the MBR. *)
Definition gray_crawler_main (fuel : nat) (argc : Z) (disk serializef : option FILE) (st_size : option Z) :
    run (option FILE * Z) :=
  if argc <? 3 then Done (serializef, EXIT_FAILURE) else
  match disk, serializef with
  | None, _ | _, None => Done (serializef, EXIT_FAILURE)
  | Some disk, Some out =>
      '(disk, p, rc) ← lift (pc_probe mbr_crawler disk);
      if negb (rc =? 0) then Done (Some out, EXIT_FAILURE) else
      match st_size with
      | None => Done (Some out, EXIT_FAILURE)
      | Some size =>
          if bool_decide (malloc 16 = None) then Done (Some out, EXIT_FAILURE) else
          bits ← lift (bitarray_init (u64 (Z.quot size 4096)));
          '(out, rc) ← crawl_disk mbr_crawler (crawlers fuel) 5 p
            {| cr_disk := disk; cr_out := out; cr_bits := bits;
               cr_statics := {| st_ext4 := 0; st_ntfs := 0 |} |};
          Done (Some out, rc)
      end
  end.
End crawler.
