(* ===== verification/CrawlerProps.v ===== *)
(** * Properties of the crawler's main function

    A disk without partitions is documented; one with a partition is not: the
    walk over an ext4 volume leaves a block, and the entry of any other
    partition is freed twice. *)
From S2P Require Import Prelude Words Memory Struct Stdio Bitarray Bson BsonEncode BsonFields PartTable Mbr Filter Ext4 Ext4Files Ext4Walk Ntfs NtfsFiles Crawler.

#[local] Open Scope string_scope.
#[local] Open Scope list_scope.
#[local] Open Scope Z_scope.

Section crawler.
Context `{MallocTotal} `{Iconv}.
Context (k fuel : nat).

(** A superblock that was accepted is a block of its own. *)
Lemma probe_block disk f disk' f' :
  ext4_probe disk f = Some (disk', f', 0) →
  ∃ m, fs_info f' = PLive m ∧ zlen m = SUPERBLOCK_SIZE.
Proof.
  unfold ext4_probe. cbn [fs_info set_fs_info].
  destruct (cmalloc_live SUPERBLOCK_SIZE) as (b & -> & Hb); [by vm_compute|].
  cbn [is_null deref mbind option_bind]. case_test; [done|].
  destruct (fseeko _ _) as [d1 r1]. destruct (negb (r1 =? 0)); [done|].
  destruct (fread d1 _) as [d2 d]. 
  destruct (mem_write b 0 d) as [m|] eqn:E; [|done]. cbn [mbind option_bind].
  apply mem_write_length in E. repeat case_match; try done. intros ?. simplify_eq.
  exists m. split; [done|]. by rewrite E.
Qed.

(** The walk from the mount point has no outcome. *)
Lemma ext4_never_succeeds i disk f out m r :
  fs_info f = PLive m → zlen m < 2 ^ 62 →
  ext4_serialize k fuel i disk f out = Some (Returned r) → r.2 ≠ 0.
Proof.
  intros Ef Hm. unfold ext4_serialize. rewrite Ef. cbn [deref mbind option_bind].
  set (mount := ext4_last_mount_point m).
  destruct (ext4_serialize_fs _ _ _ _ _ _) as [[[bits out1] r1]|]; [|done]. cbn [mbind option_bind].
  destruct (negb (r1 =? 0)) eqn:?; [intros ?; by simplify_eq|].
  destruct (ext4_cache_bgds _ _ _ _) as [[[disk1 bc] r2]|]; [|done]. cbn [mbind option_bind].
  destruct (negb (r2 =? 0)) eqn:?; [intros ?; by simplify_eq|].
  destruct (ext4_cache_inodes _ _ _ _ _) as [[[disk2 ic] r3]|]; [|done]. cbn [mbind option_bind].
  destruct (negb (r3 =? 0)) eqn:?; [intros ?; by simplify_eq|].
  destruct (ext4_serialize_bgds _ _ _ _ _ _ _ _ _) as [[[[[i' disk3] bits3] out3] r4]|]; [|done].
  cbn [mbind option_bind].
  destruct (negb (r4 =? 0)) eqn:?; [intros ?; by simplify_eq|].
  assert (ext4_serialize_fs_tree k fuel (fs_pt_off f) m mount ic bc
    {| wk_disk := disk3; wk_bits := bits3; wk_out := out3 |} = None) as ->; [|done].
  destruct (cstrlen mount) as [n|] eqn:En.
  - pose proof (cstrlen_bounds _ _ En) as Hn. unfold mount, ext4_last_mount_point in Hn.
    rewrite length_drop in Hn. destruct (malloc_total (n + 1)) as [b Eb]; [lia|].
    destruct (ext4_mount_overflow k fuel (fs_pt_off f) m mount ic bc
      {| wk_disk := disk3; wk_bits := bits3; wk_out := out3 |} n En) as [Hw _]; [lia|].
    destruct (Hw b Eb) as [E _]. exact E.
  - unfold ext4_serialize_fs_tree, serialize_from. by rewrite En.
Qed.

(** No way out but a failure. *)
Definition abandons (r : run (crawl * option Z)) : Prop :=
  ∀ c o, r = Done (c, o) → o = Some EXIT_FAILURE.

Lemma abandon_abandons pc fc e f c : abandons (abandon pc fc e f c).
Proof.
  intros c' o. unfold abandon. destruct (pc_cleanup_pte pc e); [|done].
  destruct (fc_cleanup fc f); [|done]. cbn. intros ?. by simplify_eq.
Qed.

Lemma cleanup_pte_once e m :
  pte_info e = PLive m →
  mbr_cleanup_pte e = Some {| pt_num := pt_num e; pt_off := pt_off e; pte_info := PDangling |}.
Proof. intros E. unfold mbr_cleanup_pte. by rewrite E. Qed.

Lemma try_crawlers_abandons e m f c :
  pte_info e = PLive m → abandons (try_crawlers mbr_crawler (crawlers k fuel) e f c).
Proof.
  intros Ee. unfold crawlers. cbn [try_crawlers fc_probe ext4_crawler].
  destruct (ext4_probe (cr_disk c) f) as [[[disk f1] rc]|] eqn:Ep; [|done].
  cbn [lift mbind run_bind]. destruct (Z.eqb_spec rc 0) as [->|Hrc].
  - destruct (probe_block _ _ _ _ Ep) as (b & Eb & Hb).
    destruct (set_last_mounted f1) as [f2|] eqn:El; [|done].
    unfold set_last_mounted in El. rewrite Eb in El.
    destruct (offset_of _ _) as [[o n]|]; [|done]. cbn [mbind option_bind deref] in El.
    destruct (mem_write b _ _) as [b1|] eqn:E1; [|done]. cbn [mbind option_bind] in El.
    destruct (mem_write b1 _ _) as [b2|] eqn:E2; [|done]. cbn [mbind option_bind] in El.
    simplify_eq. apply mem_write_length in E1, E2. cbn [lift mbind run_bind].
    destruct (pc_serialize_pte _ e _) as [[out rc]|]; [|done]. cbn [lift mbind run_bind].
    destruct (negb (rc =? 0)); [by apply abandon_abandons|].
    cbn [fc_serialize ext4_crawler].
    destruct (ext4_serialize _ _ _ _ _ _) as [[[[[[i disk2] f3] out2] rc2]|]|] eqn:Es;
      [|done..]. cbn [lift mbind run_bind].
    apply (ext4_never_succeeds _ _ _ _ b2) in Es; [|done|].
    + cbn [snd] in Es. rewrite (proj2 (Z.eqb_neq _ _) Es). cbn [negb]. by apply abandon_abandons.
    + unfold SUPERBLOCK_SIZE in Hb. rewrite E2, E1, Hb. by vm_compute.
  - cbn [pc_cleanup_pte mbr_crawler]. rewrite (cleanup_pte_once e m Ee).
    cbn [lift mbind run_bind]. destruct (fc_cleanup _ f1) as [f2|]; [|done].
    cbn [lift mbind run_bind fc_probe ntfs_crawler].
    destruct (ntfs_probe _ _) as [[[disk2 f3] rc2]|]; [|done]. cbn [lift mbind run_bind].
    destruct (rc2 =? 0); [|done]. by destruct (set_last_mounted f3).
Qed.

(** The partitions from the [i]-th on. *)
Lemma crawl_partitions_empty m c : ∀ j i e,
  length m = 512%nat → (i + j = 4)%nat → (∀ i, (i < 4)%nat → pt_off (entry_pte m i) = 0) →
  crawl_partitions mbr_crawler (crawlers k fuel) (S j) (Z.of_nat i) {| pt_info := PLive m |} e c
  = Done (c, None).
Proof.
  intros j. induction j as [|j IH]; intros i e Hm Hi Hz;
    cbn [crawl_partitions pc_get_next_partition mbr_crawler].
  - replace (Z.of_nat i) with 4 by lia. by erewrite next_partition_none.
  - rewrite next_partition_entry by (done || lia). cbn [lift mbind option_bind run_bind].
    unfold crawl_partition. rewrite Hz by lia. cbn [Z.ltb Z.compare mbind run_bind].
    replace (Z.of_nat i + 1) with (Z.of_nat (S i)) by lia. apply IH; [done|lia|done].
Qed.

Lemma crawl_partitions_abandon m : ∀ j i c e,
  length m = 512%nat → (i + j = 4)%nat → (∃ n, (i ≤ n < 4)%nat ∧ 0 < pt_off (entry_pte m n)) →
  abandons (crawl_partitions mbr_crawler (crawlers k fuel) (S j) (Z.of_nat i)
    {| pt_info := PLive m |} e c).
Proof.
  intros j. induction j as [|j IH]; intros i c e Hm Hi (n & Hn & Hp); [lia|].
  cbn [crawl_partitions pc_get_next_partition mbr_crawler].
  rewrite next_partition_entry by (done || lia). cbn [lift mbind option_bind run_bind].
  unfold crawl_partition. destruct (Z.ltb_spec 0 (pt_off (entry_pte m i))) as [Hlt|Hge].
  - match goal with |- context [try_crawlers ?pc ?fcs ?e ?f ?c] =>
      pose proof (try_crawlers_abandons e _ f c eq_refl) as Ha;
      destruct (try_crawlers pc fcs e f c) as [[c1 r]| |] end; [|done..].
    specialize (Ha _ _ eq_refl). subst r. cbn [mbind run_bind]. intros c' o ?. by simplify_eq.
  - cbn [mbind run_bind]. replace (Z.of_nat i + 1) with (Z.of_nat (S i)) by lia.
    apply IH; [done|lia|]. exists n. split; [|done].
    destruct (decide (n = i)) as [->|]; lia.
Qed.
End crawler.

(** ** Properties *)

(** C10: the crawl of a disk with a boot sector and an image of at least 64
    blocks of 4096 bytes. When the table's entries all have offset 0, the
    output is the document of the boot sector and that of a filter in which
    only block 0 is set, and the result is [EXIT_SUCCESS]. As soon as an entry
    has another offset, [main] never returns [EXIT_SUCCESS]: the walk over an
    ext4 volume writes behind the copy of its mount point, and for any other
    volume the entry is freed once per file system tried. An NTFS volume would
    have its mount point written behind its boot file. *)
Theorem crawler_main_spec `{MallocTotal} `{Iconv} k fuel disk out size m rest :
  f_data disk = m ++ rest → f_pos disk = 0 → length m = 512%nat → drop 510 m = [0x55; 0xaa] →
  at_end out → 2 ^ 18 ≤ size < 2 ^ 44 →
  let offset i := pt_off (entry_pte m i) in
  let result := gray_crawler_main k fuel 3 (Some disk) (Some out) (Some size) in
  ((∀ i, (i < 4)%nat → offset i = 0) →
   ∃ bits0 bits, bitarray_init (size `div` 4096) = Some bits0 ∧
     bitarray_set_bit bits0 0 = Some bits ∧
     result = Done (Some (append out
       (enc_doc (mbr_doc (partition_type (pt_entry m 0) =? 0xee)) ++
        enc_doc (filter_doc (u8 indeterminate) bits))), EXIT_SUCCESS)) ∧
  ((∃ i, (i < 4)%nat ∧ offset i ≠ 0) → ∀ f, result ≠ Done (f, EXIT_SUCCESS)) ∧
  (∀ f b, fs_info f = PLive b → zlen b = BOOT_SIZE → set_last_mounted f = None).
Proof.
  intros Ed Ep Hm Hsig Hout Hsize offset result. subst result.
  assert (64 ≤ size `div` 4096 < 2 ^ 32) as Hdiv
    by (split; [apply Z.div_le_lower_bound; lia|apply Z.div_lt_upper_bound; lia]).
  destruct (bitarray_init_replicate (size `div` 4096)) as (kk & Hkk & Hb & Ebits); [lia|].
  set (bits0 := {| ba_array := _; ba_len := _ |}) in *.
  assert (bitarray_wf bits0) as Hwf by (apply replicate_wf; [done|lia]).
  assert (filter_ok kk bits0) as [Hlen Hk6 Harr].
  { assert (6 ≤ kk < 32) as Hk.
    { split; [|apply (Z.pow_lt_mono_r_iff 2); lia].
      enough (6 < kk + 1) by lia. apply (Z.pow_lt_mono_r_iff 2); lia. }
    pose proof (pow2_div8 kk ltac:(lia)) as [E1 E2].
    split; [done|done|]. cbn [ba_array bits0]. rewrite length_replicate. lia. }
  destruct (mbr_probe_spec disk [] (m ++ rest) Ed Ep) as [_ Hprobe].
  destruct (Hprobe m rest eq_refl Hm) as (disk' & _ & _ & Eprobe). clear Hprobe.
  rewrite bool_decide_true in Eprobe by done.
  destruct (mbr_serialize_pt_spec m bits0 out Hm Hwf Hout) as (bits & Ept & Eset & Hwf' & _).
  assert (filter_ok kk bits) as Hf.
  { unfold bitarray_set_bit, bitarray_update in Eset. destruct (0 <? ba_len bits0); [|by simplify_eq].
    destruct (mem_byte _ _); [|done]. cbn [mbind option_bind] in Eset.
    destruct (mem_write _ _ _) as [a|] eqn:Ew; [|done]. apply mem_write_length in Ew.
    cbn [mbind option_bind] in Eset. simplify_eq. split; [done|done|].
    cbn [ba_array] in *. by rewrite Ew. }
  assert (∃ b, malloc 16 = Some b) as [b16 E16] by (apply malloc_total; lia).
  unfold gray_crawler_main. cbn [Z.ltb Z.compare Pos.compare Pos.compare_cont].
  cbn [pc_probe mbr_crawler]. rewrite Eprobe. cbn [lift mbind run_bind Z.eqb negb].
  rewrite bool_decide_false by (by rewrite E16).
  rewrite Z.quot_div_nonneg, (uwrap_small 64), Ebits by lia. cbn [lift mbind run_bind].
  unfold crawl_disk. cbn [cr_bits cr_out cr_disk cr_statics pc_serialize_pt mbr_crawler pc_init].
  rewrite Ept. cbn [lift mbind run_bind Z.eqb negb EXIT_SUCCESS].
  split; [|split].
  - intros Hz. exists bits0, bits. split; [done|]. split; [done|].
    rewrite (crawl_partitions_empty k fuel m _ 4 0) by (done || lia). cbn [mbind run_bind cr_bits cr_out].
    rewrite (bitarray_serialize_ok kk) by (done || by apply append_at_end).
    cbn [lift mbind run_bind pc_cleanup_pt mbr_crawler mbr_cleanup_pt pt_info is_null cfree option_bind].
    by rewrite append_app.
  - intros (n & Hn & Ho) f.
    assert (0 < pt_off (entry_pte m n)) as Hpos.
    { unfold offset in Ho. enough (0 ≤ pt_off (entry_pte m n)) by lia.
      cbn [pt_off entry_pte]. unfold lba_bytes. apply Z.mod_pos_bound. lia. }
    match goal with |- context [crawl_partitions ?pc ?fcs 5 ?st ?p ?e ?c] =>
      pose proof (crawl_partitions_abandon k fuel m 4 0 c e Hm eq_refl
        (ex_intro _ n (conj (conj (Nat.le_0_l n) Hn) Hpos))) as Ha;
      change (Z.of_nat 0) with 0 in Ha;
      destruct (crawl_partitions pc fcs 5 st p e c) as [[c1 r]| |] end; [|done..].
    specialize (Ha _ _ eq_refl). subst r. cbn [mbind run_bind]. intros ?. by simplify_eq.
  - intros f b Ef Hbl. unfold set_last_mounted. rewrite Ef.
    change (offset_of ext4_superblock "s_last_mounted") with (Some (136%nat, 64%nat)).
    cbn [mbind option_bind deref]. unfold mem_write. rewrite bool_decide_false; [done|].
    unfold BOOT_SIZE in Hbl. rewrite Hbl. cbn [length]. lia.
Qed.

Definition blank_mbr : list Z := replicate 510 0 ++ [0x55; 0xaa].

Lemma crawler_main_spec_witness :
  (∃ f, gray_crawler_main 5 5 3 (Some (file_of blank_mbr)) (Some (file_of [])) (Some 262144)
        = Done (Some f, EXIT_SUCCESS)) ∧
  (∀ f, gray_crawler_main 5 5 3 (Some (file_of witness_mbr)) (Some (file_of [])) (Some 262144)
        ≠ Done (f, EXIT_SUCCESS)).
Proof.
  destruct (crawler_main_spec 5 5 (file_of blank_mbr) (file_of []) 262144 blank_mbr [])
    as [Hz _]; [by rewrite app_nil_r|done|by vm_compute|by vm_compute|done|lia|].
  destruct (crawler_main_spec 5 5 (file_of witness_mbr) (file_of []) 262144 witness_mbr [])
    as (_ & Hp & _); [by rewrite app_nil_r|done|by vm_compute|by vm_compute|done|lia|].
  split.
  - destruct Hz as (bits0 & bits & _ & _ & E); [|by eauto].
    intros i Hi. do 4 (destruct i as [|i]; [by vm_compute|]). lia.
  - apply Hp. exists 0%nat. split; [lia|]. by vm_compute.
Defined.
