(* ===== verification/Inspect.v ===== *)
(** * src/gray-inferencer/deep_inspection.c: what a write to a sector means

    [qemu_deep_inspect] looks up every block of a write in the store and hands
    it to the handler its pointer names; a block nobody knows is queued. A
    handler that finds new blocks inspects the writes queued for them
    ([__reinspect_write]), so the functions call each other: the handlers take
    the inspection as an argument, and [fuel] bounds the depth of the calls and
    the turns of each loop. A list that the store did not return is an
    indeterminate pointer, which has no result. *)
From S2P Require Import Prelude Words Memory Struct Stdio Bson Scan RedisEnv Redis InspectLoad InspectEmit Ext4 Ext4Blocks.

#[local] Open Scope string_scope.
#[local] Open Scope list_scope.
#[local] Open Scope Z_scope.

(** ** [enum SECTOR_TYPE] *)

Definition SECTOR_UNKNOWN : Z := -1.
Definition SECTOR_MBR : Z := 0.
Definition SECTOR_EXT2_SUPERBLOCK : Z := 2.
Definition SECTOR_EXT2_BLOCK_GROUP_DESCRIPTOR : Z := 3.
Definition SECTOR_EXT2_BLOCK_GROUP_BLOCKMAP : Z := 4.
Definition SECTOR_EXT2_BLOCK_GROUP_INODEMAP : Z := 5.
Definition SECTOR_EXT2_INODE : Z := 6.
Definition SECTOR_EXT2_DATA : Z := 7.
Definition SECTOR_EXT4_EXTENT : Z := 8.

(** [strncmp(s, prefix, strlen(prefix)) == 0] *)
Definition has_prefix (s : list Z) (prefix : string) : bool :=
  streq (take (length (str_bytes prefix)) s) (str_bytes prefix).

Definition __sector_type (str : list Z) : Z :=
  if has_prefix str "start" || has_prefix str "dirdata" then SECTOR_EXT2_DATA
  else if has_prefix str "fs" then SECTOR_EXT2_SUPERBLOCK
  else if has_prefix str "mbr" then SECTOR_MBR
  else if has_prefix str "lbgds" then SECTOR_EXT2_BLOCK_GROUP_DESCRIPTOR
  else if has_prefix str "lfiles" then SECTOR_EXT2_INODE
  else if has_prefix str "bgd" then
    Z.lor SECTOR_EXT2_BLOCK_GROUP_BLOCKMAP SECTOR_EXT2_BLOCK_GROUP_INODEMAP
  else if has_prefix str "lextents" then SECTOR_EXT4_EXTENT
  else SECTOR_UNKNOWN.

(** ** The state of the inspection

    The store, the crawler's stream of documents ([metadata]; the pointer to it
    may be null, which the functions are told by a flag) and the statics of the
    loader. *)
Section inspect.
Context `{Malloc} `{Hiredis} `{Host}.

Record inspector := {
  in_store : kv_store;
  in_metadata : FILE;
  in_load : load_state;
}.

Definition set_store (s : kv_store) (w : inspector) : inspector :=
  {| in_store := s; in_metadata := in_metadata w; in_load := in_load w |}.

(** A handler that needs nothing but the store. *)
Definition on_store (f : kv_store → option (kv_store * Z)) (w : inspector) :
    option (inspector * Z) :=
  '(s, rc) ← f (in_store w); Some (set_store s w, rc).

(** An operation on the store whose result is not looked at. *)
Definition ignored (f : kv_store → option (kv_store * Z)) (w : inspector) :
    option inspector :=
  '(s, _) ← f (in_store w); Some (set_store s w).

(** ** Handlers that do not inspect further *)

Definition __diff_dir2 (pointer : list Z) : option Z :=
  match tokens pointer !! 1%nat with
  | None => Some EXIT_FAILURE
  | Some t => _ ← scan_u64 t; Some EXIT_SUCCESS
  end.

Definition __diff_mbr (s : kv_store) : option (kv_store * Z) := Some (s, EXIT_SUCCESS).
Definition __diff_bitmap (s : kv_store) : option (kv_store * Z) := Some (s, EXIT_SUCCESS).

Definition sb_len : Z := Z.of_nat (sizeof ext4_superblock).
Definition bgd_len : Z := Z.of_nat (sizeof ext4_block_group_descriptor).

Definition new_block_groups (new : list Z) : option Z :=
  let bpg := fget ext4_superblock "s_blocks_per_group" new in
  n ← cdiv (u64 (ext4_s_blocks_count new + u32 (bpg - 1))) bpg; Some (s32 n).

Definition new_file_count (new : list Z) : Z :=
  s32 (u32 (fget ext4_superblock "s_inodes_count" new -
            fget ext4_superblock "s_free_inodes_count" new -
            fget ext4_superblock "s_first_ino" new + 2)).

Definition __diff_superblock (write : list Z) (s : kv_store) (vmname : list Z)
    (write_counter : Z) (pointer : list Z) : option (kv_store * Z) :=
  fs ← pointer_arg pointer 0;
  '(s, block_size) ← GET_FIELD s REDIS_SUPERBLOCK_SECTOR_GET fs "block_size" 8 indeterminate;
  '(s, num_files) ← GET_FIELD s REDIS_SUPERBLOCK_SECTOR_GET fs "num_files" 4 indeterminate;
  let num_files := s32 num_files in
  '(s, num_block_groups) ←
    GET_FIELD s REDIS_SUPERBLOCK_SECTOR_GET fs "num_block_groups" 4 indeterminate;
  let num_block_groups := s32 num_block_groups in
  '(s, superblock_offset) ←
    GET_FIELD s REDIS_SUPERBLOCK_SECTOR_GET fs "superblock_offset" 8 0;
  channel ← construct_channel_name vmname [];
  new ← mem_read write superblock_offset sb_len;
  new_block_size ← ext4_block_size new;
  new_num_block_groups ← new_block_groups new;
  let new_num_files := new_file_count new in
  let compare s := DIRECT_FIELD_COMPARE s channel write_counter in
  s ← compare s "superblock.block_size" "metadata" BSON_INT64 8%nat block_size new_block_size;
  s ← compare s "superblock.num_block_groups" "metadata" BSON_INT32 4%nat num_block_groups
        new_num_block_groups;
  s ← compare s "superblock.num_files" "metadata" BSON_INT32 4%nat num_files new_num_files;
  let set s := SET_FIELD s REDIS_SUPERBLOCK_SECTOR_INSERT fs in
  s ← set s "block_size" 8%nat block_size new_block_size;
  s ← set s "num_block_groups" 4%nat num_block_groups new_num_block_groups;
  s ← set s "num_files" 4%nat num_files new_num_files;
  Some (s, EXIT_SUCCESS).

(** ** Fields of 64 bits kept in a hash: read all, compare all, store all *)

Record field := { fd_name : string; fd_update : string; fd_type : Z; fd_bytes : nat }.

(** [old] is what the variables hold, [len] the variable the macros store the
    sizes in. *)
Fixpoint get_fields (s : kv_store) (fmt : string) (id : Z) (fs : list field) (old : list Z)
    (len : Z) : option (kv_store * list Z * Z) :=
  match fs, old with
  | f :: fs, o :: old =>
      '(s, v, len) ← GET_FIELD_len s fmt id (fd_name f) (fd_bytes f) o;
      '(s, vs, len) ← get_fields s fmt id fs old len;
      Some (s, v :: vs, len)
  | _, _ => Some (s, [], len)
  end.

Fixpoint compare_fields (s : kv_store) (channel : option (list Z)) (write_counter : Z)
    (fs : list field) (old new : list Z) : option kv_store :=
  match fs, old, new with
  | f :: fs, o :: old, n :: new =>
      s ← DIRECT_FIELD_COMPARE s channel write_counter (fd_update f) "metadata" (fd_type f)
            (fd_bytes f) o n;
      compare_fields s channel write_counter fs old new
  | _, _, _ => Some s
  end.

Fixpoint set_fields (s : kv_store) (fmt : string) (id : Z) (fs : list field)
    (old new : list Z) (len : Z) : option (kv_store * Z) :=
  match fs, old, new with
  | f :: fs, o :: old, n :: new =>
      '(s, len) ← SET_FIELD_len s fmt id (fd_name f) (fd_bytes f) o n;
      set_fields s fmt id fs old new len
  | _, _, _ => Some (s, len)
  end.

(** ** Block group descriptors *)

Definition bgd_fields : list field :=
  [{| fd_name := "block_bitmap_sector_start"; fd_update := "bgd.block_bitmap_sector_start";
      fd_type := BSON_INT64; fd_bytes := 8 |};
   {| fd_name := "inode_bitmap_sector_start"; fd_update := "bgd.inode_bitmap_sector_start";
      fd_type := BSON_INT64; fd_bytes := 8 |};
   {| fd_name := "inode_table_sector_start"; fd_update := "bgd.inode_table_sector_start";
      fd_type := BSON_INT64; fd_bytes := 8 |}].

Definition new_bgd_values (new : list Z) (bs offset : Z) : list Z :=
  [u64 (u64 (ext4_bgd_block_bitmap new * bs) + offset) `div` SECTOR_SIZE;
   u64 (u64 (ext4_bgd_inode_bitmap new * bs) + offset) `div` SECTOR_SIZE;
   u64 (u64 (ext4_bgd_inode_table new * bs) + offset) `div` SECTOR_SIZE].

(** [len] is the length of the list and the variable the macros store the sizes
    in. It and the other variables of the function, [bgd] and the fields in
    [old], keep what they hold from turn to turn; its value behind the loop is
    the result. There is no turn behind the one that leaves the list, so one
    more than it has elements are enough. *)
Fixpoint diff_bgds_loop (fuel : nat) (i len bgd : Z) (old : list Z) (bgds : list (list Z))
    (write : list Z) (channel : option (list Z)) (write_counter bs offset : Z)
    (s : kv_store) : option (kv_store * Z) :=
  match fuel with
  | O => None
  | S fuel =>
      if i <? len then
        e ← bgds !! Z.to_nat i;
        p ← cstr_at e 0;
        bgd ← pointer_arg p bgd;
        '(s, old, len) ← get_fields s REDIS_BGD_SECTOR_GET bgd bgd_fields old len;
        new ← mem_read write (i * bgd_len) bgd_len;
        let values := new_bgd_values new bs offset in
        s ← compare_fields s channel write_counter bgd_fields old values;
        '(s, len) ← set_fields s REDIS_BGD_SECTOR_INSERT bgd bgd_fields old values len;
        diff_bgds_loop fuel (i + 1) len bgd old bgds write channel write_counter bs offset s
      else Some (s, len)
  end.

Definition __diff_bgds (write : list Z) (s : kv_store) (vmname : list Z)
    (write_counter : Z) (pointer : list Z) (sb : super_info) (offset : Z) :
    option (kv_store * Z) :=
  lbgds ← pointer_arg pointer 0;
  '(s, bgds, rc) ← redis_list_get s REDIS_BGDS_LGET lbgds None;
  if negb (rc =? EXIT_SUCCESS) then Some (s, EXIT_FAILURE) else
  bgds ← bgds;
  channel ← construct_channel_name vmname [];
  '(s, len) ← diff_bgds_loop (S (length bgds)) 0 (zlen bgds) 0
                (replicate 3 indeterminate) bgds write channel write_counter (block_size sb)
                offset s;
  _ ← redis_free_list (Some (PLive <$> bgds)) len;
  Some (s, EXIT_SUCCESS).

(** ** Where an inode is on the disk (not called by the handlers) *)

Definition inode_table_sector (s : kv_store) (group : Z) : option (kv_store * Z) :=
  GET_FIELD s REDIS_BGD_SECTOR_GET group "inode_table_sector_start" 8 indeterminate.

Definition __inode_sector (s : kv_store) (sb : super_info) (inode : Z) :
    option (kv_store * Z) :=
  group ← cdiv (u64 (inode - 1)) (inodes_per_group sb);
  index ← cmod (u64 (inode - 1)) (inodes_per_group sb);
  let inode_offset := u64 (index * inode_size sb) in
  '(s, table) ← inode_table_sector s group;
  Some (s, u64 (u64 (table * SECTOR_SIZE) + inode_offset) `div` SECTOR_SIZE).

Definition __inode_offset (s : kv_store) (sb : super_info) (inode : Z) :
    option (kv_store * Z) :=
  group ← cdiv (u64 (inode - 1)) (inodes_per_group sb);
  index ← cmod (u64 (inode - 1)) (inodes_per_group sb);
  let inode_offset := u64 (index * inode_size sb) in
  '(s, table) ← inode_table_sector s group;
  Some (s, u64 (inode_offset + u64 (table * SECTOR_SIZE)) `mod` SECTOR_SIZE).

(** ** Handlers that inspect the writes queued for new blocks

    The parameters all of them pass on unchanged; [deep write metadata] is
    [qemu_deep_inspect] on [write]. *)
Context (sb : super_info) (write_counter : Z) (vmname : list Z) (partition_offset : Z).
Context (deep : qemu_bdrv_write → bool → inspector → option (inspector * Z)).

(** The buffer has [block_size] bytes, of which the store sets the first. *)
Definition __reinspect_write (sector : Z) (w : inspector) : option (inspector * Z) :=
  if block_size sb =? 0 then None else
  let buf := replicate (Z.to_nat (block_size sb)) (u8 indeterminate) in
  '(s, d, rc) ← redis_dequeue (in_store w) sector (block_size sb);
  let w := set_store s w in
  if negb (rc =? EXIT_SUCCESS) then Some (w, EXIT_FAILURE) else
  if zlen d =? 0 then Some (w, EXIT_FAILURE) else
  buf ← mem_write buf 0 d;
  deep {| w_sector_num := s64 sector; w_nb_sectors := s32 (block_size sb `div` SECTOR_SIZE);
          w_data := buf |} false w.

(** [block * block_size + partition_offset], in sectors. *)
Definition block_sector (block : Z) : Z :=
  u64 (u64 (block * block_size sb) + partition_offset) `div` SECTOR_SIZE.

(** [f], then the inspection of what is queued for [sector], whose result is not
    looked at. *)
Definition and_reinspect (sector : Z) (w : inspector) : option inspector :=
  '(w, _) ← __reinspect_write sector w; Some w.

Definition set_file_of_extent (sector file : Z) (s : kv_store) : option (kv_store * Z) :=
  redis_hash_field_set s REDIS_EXTENT_SECTOR_INSERT sector (str_bytes "file") (le_enc 8 file).

Definition __ext4_new_extent_leaf_block (file block : Z) (w : inspector) :
    option (inspector * Z) :=
  let sector := block_sector block in
  w ← ignored (set_file_of_extent sector file) w;
  '(w, rc) ← on_store (λ s, redis_reverse_pointer_set s REDIS_EXTENTS_INSERT file sector) w;
  if negb (rc =? EXIT_SUCCESS) then Some (w, EXIT_FAILURE) else
  '(w, rc) ← on_store (λ s, redis_reverse_pointer_set s REDIS_EXTENTS_SECTOR_INSERT sector file) w;
  if negb (rc =? EXIT_SUCCESS) then Some (w, EXIT_FAILURE) else
  w ← and_reinspect sector w;
  Some (w, EXIT_SUCCESS).

(** [n] turns of the loop of [__ext4_new_extent]. *)
Fixpoint new_extent_loop (n : nat) (file sector counter : Z) (w : inspector) :
    option inspector :=
  match n with
  | O => Some w
  | S n =>
      w ← ignored (λ s, redis_reverse_pointer_set s REDIS_FILE_SECTORS_INSERT file (s64 sector)) w;
      w ← ignored (λ s, redis_reverse_file_data_pointer_set s sector counter
                         (u64 (counter + block_size sb)) file) w;
      w ← and_reinspect sector w;
      new_extent_loop n file (u64 (sector + block_size sb `div` SECTOR_SIZE))
        (u64 (counter + block_size sb)) w
  end.

Definition __ext4_new_extent (file : Z) (extent_new : list Z) (w : inspector) :
    option (inspector * Z) :=
  let sector := block_sector (ext4_extent_start extent_new) in
  w ← new_extent_loop (Z.to_nat (eef "ee_len" extent_new)) file sector
        (u64 (eef "ee_block" extent_new * block_size sb)) w;
  Some (w, EXIT_SUCCESS).

(** [sector:<n>], [extent:<n>]: the numbers of a list. *)
Fixpoint parse_list (l : list (list Z)) : option (list Z) :=
  match l with
  | [] => Some []
  | e :: l =>
      p ← cstr_at e 0; z ← pointer_arg p indeterminate; zs ← parse_list l; Some (z :: zs)
  end.

(** The search for the leaf block among the known ones: LINSERT before position
    [i] for every larger one, until it is found. *)
Fixpoint insert_loop (file extent_sector i : Z) (extents : list Z) (s : kv_store) :
    option kv_store :=
  match extents with
  | [] => Some s
  | e :: extents =>
      if extent_sector =? e then Some s else
      '(s, _) ← (if extent_sector <? e
                 then redis_list_set s REDIS_EXTENTS_LINSERT file i extent_sector
                 else Some (s, EXIT_SUCCESS));
      insert_loop file extent_sector (i + 1) extents s
  end.

(** An index entry of the node [newb]. *)
Definition diff_index (file : Z) (extents : list Z) (idx_new : list Z) (w : inspector) :
    option inspector :=
  let leaf := ext4_extent_index_leaf idx_new in
  if leaf =? 0 then Some w else
  let extent_sector := block_sector leaf in
  w ← (if zlen extents =? 0 then
         w ← ignored (set_file_of_extent extent_sector file) w;
         w ← ignored (λ s, redis_reverse_pointer_set s REDIS_EXTENTS_INSERT file extent_sector) w;
         w ← ignored (λ s, redis_reverse_pointer_set s REDIS_EXTENTS_SECTOR_INSERT extent_sector
                             extent_sector) w;
         and_reinspect extent_sector w
       else Some w);
  s ← insert_loop file extent_sector 0 extents (in_store w);
  Some (set_store s w).

(** The pointer of a block of the file, and what is queued for its sector. *)
Definition set_data_pointer (file n extent_sector : Z) (w : inspector) : option inspector :=
  let start := u64 (n * block_size sb) in
  w ← ignored (λ s, redis_reverse_file_data_pointer_set s extent_sector start
                      (u64 (start + block_size sb)) file) w;
  and_reinspect extent_sector w.

(** Block [i] of an extent, and the [k - 1] blocks behind it; [known] is whether
    the extent starts inside the list of sectors. *)
Fixpoint diff_blocks (k : nat) (i : Z) (known : bool) (file old_file_len : Z)
    (extent_new : list Z) (w : inspector) : option inspector :=
  match k with
  | O => Some w
  | S k =>
      let extent_sector := block_sector (u64 (ext4_extent_start extent_new + i)) in
      let n := u64 (i + eef "ee_block" extent_new) in
      w ← ignored (λ s,
            if known && (n <? old_file_len)
            then redis_list_set s REDIS_FILE_SECTORS_LSET file n (s64 extent_sector)
            else redis_reverse_pointer_set s REDIS_FILE_SECTORS_INSERT file (s64 extent_sector)) w;
      w ← set_data_pointer file n extent_sector w;
      diff_blocks k (i + 1) known file old_file_len extent_new w
  end.

(** The file hole: -1 for every missing block. *)
Fixpoint push_holes (k : nat) (file : Z) (s : kv_store) : option kv_store :=
  match k with
  | O => Some s
  | S k =>
      '(s, _) ← redis_reverse_pointer_set s REDIS_FILE_SECTORS_INSERT file (-1);
      push_holes k file s
  end.

(** A leaf entry of the node. [old_file_len] is the length of the list before
    the node's first entry. *)
Definition diff_leaf (file old_file_len : Z) (extent_new : list Z) (w : inspector) :
    option inspector :=
  let ee_block := eef "ee_block" extent_new in
  let blocks known := diff_blocks (Z.to_nat (eef "ee_len" extent_new)) 0 known file old_file_len
                        extent_new in
  if ee_block <? old_file_len then blocks true w
  else
    s ← push_holes (Z.to_nat (ee_block - old_file_len)) file (in_store w);
    blocks false (set_store s w).

(** The entries from [new_counter] on. *)
Fixpoint diff_entries (new_entries : nat) (new_counter depth : Z) (file old_file_len : Z)
    (extents : list Z) (newb : list Z) (w : inspector) : option inspector :=
  match new_entries with
  | O => Some w
  | S new_entries =>
      e ← mem_read newb (EXTENT_SIZE + EXTENT_SIZE * new_counter) EXTENT_SIZE;
      w ← (if negb (depth =? 0) then diff_index file extents e w
           else diff_leaf file old_file_len e w);
      diff_entries new_entries (new_counter + 1) depth file old_file_len extents newb w
  end.

(** A node without the magic number counts as empty. [newb] is the memory from
    the pointer on. *)
Definition __diff_ext4_extents (file : Z) (newb : list Z) (w : inspector) :
    option (inspector * Z) :=
  magic ← mem_le 2 newb 0;
  hdr_new ← (if negb (magic =? 0xF30A) then Some (replicate 12 0)
             else mem_read newb 0 EXTENT_SIZE);
  '(s, old_file_len, rc) ← redis_list_len (in_store w) REDIS_FILE_SECTORS_LLEN file;
  let w := set_store s w in
  if negb (rc =? EXIT_SUCCESS) then Some (w, EXIT_FAILURE) else
  '(s, l, rc) ← redis_list_get s REDIS_EXTENTS_LGET file None;
  let w := set_store s w in
  if negb (rc =? EXIT_SUCCESS) then Some (w, EXIT_FAILURE) else
  l ← l;
  extents ← parse_list l;
  w ← diff_entries (Z.to_nat (ehf "eh_entries" hdr_new)) 0 (ehf "eh_depth" hdr_new) file
        old_file_len extents newb w;
  _ ← redis_free_list (Some (PLive <$> l)) (zlen l);
  let '(s, _) := redis_flush_pipeline (in_store w) in
  Some (set_store s w, EXIT_SUCCESS).

(** ** Inodes *)

Definition inode_fields64 : list field :=
  [{| fd_name := "is_dir"; fd_update := "file.is_dir"; fd_type := BSON_BOOLEAN; fd_bytes := 1 |};
   {| fd_name := "size"; fd_update := "file.size"; fd_type := BSON_INT64; fd_bytes := 8 |};
   {| fd_name := "mode"; fd_update := "file.mode"; fd_type := BSON_INT64; fd_bytes := 8 |};
   {| fd_name := "link_count"; fd_update := "file.link_count"; fd_type := BSON_INT64;
      fd_bytes := 8 |};
   {| fd_name := "uid"; fd_update := "file.uid"; fd_type := BSON_INT64; fd_bytes := 8 |};
   {| fd_name := "gid"; fd_update := "file.gid"; fd_type := BSON_INT64; fd_bytes := 8 |};
   {| fd_name := "atime"; fd_update := "file.atime"; fd_type := BSON_INT64; fd_bytes := 8 |};
   {| fd_name := "mtime"; fd_update := "file.mtime"; fd_type := BSON_INT64; fd_bytes := 8 |};
   {| fd_name := "ctime"; fd_update := "file.ctime"; fd_type := BSON_INT64; fd_bytes := 8 |}].

Definition has_bits (z bits : Z) : bool := Z.land z bits =? bits.

Definition new_inode_values (new : list Z) : list Z :=
  let f name := fget ext4_inode name new in
  [if has_bits (f "i_mode") 0x4000 then 1 else 0; ext4_file_size new; f "i_mode";
   f "i_links_count"; f "i_uid"; f "i_gid"; f "i_atime"; f "i_mtime"; f "i_ctime"].

(** Regular files and directories, but not sockets, devices or links. *)
Definition has_extents (mode : Z) : bool :=
  (has_bits mode 0x8000 || has_bits mode 0x4000) &&
  negb (has_bits mode 0x6000 || has_bits mode 0xa000).

Definition i_block_offset : Z := 40.

(** The variables that keep what they hold from file to file. *)
Record inode_vars := { iv_file : Z; iv_offset : Z; iv_old : list Z; iv_last_sector : Z }.

(** The turn of the loop for the file [iv_file]; [EXIT_FAILURE] returns from the
    function. *)
Definition diff_inode (write : list Z) (x : inode_vars) (w : inspector) :
    option (inspector * inode_vars * Z) :=
  let file := iv_file x in
  '(s, d, rc) ← redis_hash_field_get (in_store w) REDIS_FILE_SECTOR_GET file (str_bytes "path")
                  4096;
  if negb (rc =? EXIT_SUCCESS) then Some (set_store s w, x, EXIT_FAILURE) else
  path ← path_string d;
  '(s, offset) ← GET_FIELD s REDIS_FILE_SECTOR_GET file "inode_offset" 8 (iv_offset x);
  channel ← construct_channel_name vmname path;
  '(s, old, _) ← get_fields s REDIS_FILE_SECTOR_GET file inode_fields64 (iv_old x) indeterminate;
  new ← mem_read write offset INODE_SIZE;
  let values := new_inode_values new in
  s ← compare_fields s channel write_counter inode_fields64 old values;
  '(s, _) ← set_fields s REDIS_FILE_SECTOR_INSERT file inode_fields64 old values indeterminate;
  let w := set_store s w in
  w ← (if has_extents (fget ext4_inode "i_mode" new) then
         '(w, _) ← __diff_ext4_extents file (drop (Z.to_nat (offset + i_block_offset)) write) w;
         Some w
       else Some w);
  if nth 1 old 0 <? ext4_file_size new then
    '(s, last_sector, rc) ← redis_last_file_sector (in_store w) file (iv_last_sector x);
    let w := set_store s w in
    let x := {| iv_file := file; iv_offset := offset; iv_old := old;
                iv_last_sector := last_sector |} in
    if negb (rc =? EXIT_SUCCESS) then Some (w, x, EXIT_FAILURE) else
    w ← and_reinspect last_sector w;
    Some (w, x, EXIT_SUCCESS)
  else
    Some (w, {| iv_file := file; iv_offset := offset; iv_old := old;
                iv_last_sector := iv_last_sector x |}, EXIT_SUCCESS).

(** The files whose inodes are in the sector. *)
Fixpoint diff_inodes_loop (l : list (list Z)) (x : inode_vars) (write : list Z) (w : inspector) :
    option (inspector * Z) :=
  match l with
  | [] => Some (w, EXIT_SUCCESS)
  | e :: l =>
      p ← cstr_at e 0;
      file ← pointer_arg p (iv_file x);
      '(w, x, rc) ← diff_inode write
        {| iv_file := file; iv_offset := iv_offset x; iv_old := iv_old x;
           iv_last_sector := iv_last_sector x |} w;
      if negb (rc =? EXIT_SUCCESS) then Some (w, rc)
      else diff_inodes_loop l x write w
  end.

Definition __diff_inodes (write : list Z) (pointer : list Z) (w : inspector) :
    option (inspector * Z) :=
  lfiles ← pointer_arg pointer 0;
  '(s, l, rc) ← redis_list_get (in_store w) REDIS_FILES_LGET lfiles None;
  let w := set_store s w in
  if negb (rc =? EXIT_SUCCESS) then Some (w, EXIT_FAILURE) else
  l ← l;
  '(w, rc) ← diff_inodes_loop l
    {| iv_file := 0; iv_offset := indeterminate; iv_old := replicate 9 indeterminate;
       iv_last_sector := indeterminate |} write w;
  if negb (rc =? EXIT_SUCCESS) then Some (w, rc) else
  _ ← redis_free_list (Some (PLive <$> l)) (zlen l);
  Some (w, EXIT_SUCCESS).

(** [file] is indeterminate when the store does not know the extent. *)
Definition __diff_extent_tree (write : list Z) (pointer : list Z) (w : inspector) :
    option (inspector * Z) :=
  id ← pointer_arg pointer indeterminate;
  '(s, file) ← GET_FIELD (in_store w) REDIS_EXTENT_SECTOR_GET id "file" 8 indeterminate;
  '(w, _) ← __diff_ext4_extents file write (set_store s w);
  Some (w, EXIT_SUCCESS).

(** ** Dispatch *)

(** [doc_fuel] is the loader's fuel. A null [metadata] is not looked at. *)
Definition load_and (doc_fuel : nat) (metadata : bool)
    (load : FILE → kv_store → load_state → option (FILE * kv_store * load_state * Z))
    (write : qemu_bdrv_write) (w : inspector) : option (inspector * Z) :=
  if negb metadata then None else
  '(f, s, σ, _) ← load (in_metadata w) (in_store w) (in_load w);
  deep write metadata {| in_store := s; in_metadata := f; in_load := σ |}.

(** [data] is the memory from the block on, [len] what of it is looked at. *)
Definition __qemu_dispatch_write (doc_fuel : nat) (data : list Z) (pointer : list Z)
    (len sector : Z) (metadata : bool) (write : qemu_bdrv_write) (w : inspector) :
    option (inspector * Z) :=
  let done r := '(w, _) ← r; Some (w, EXIT_SUCCESS) in
  if has_prefix pointer "start" then
    done (on_store (λ s, __emit_file_bytes data s vmname write_counter pointer len sector) w)
  else if has_prefix pointer "fs" then
    done (on_store (λ s, __diff_superblock data s vmname write_counter pointer) w)
  else if has_prefix pointer "mbr" then done (on_store __diff_mbr w)
  else if has_prefix pointer "lbgds" then
    done (on_store (λ s, __diff_bgds data s vmname write_counter pointer sb partition_offset) w)
  else if has_prefix pointer "lfiles" then done (__diff_inodes data pointer w)
  else if has_prefix pointer "bgd" then done (on_store __diff_bitmap w)
  else if has_prefix pointer "extent" then done (__diff_extent_tree data pointer w)
  else if has_prefix pointer "dirdata" then
    done (_ ← __diff_dir2 pointer; Some (w, EXIT_SUCCESS))
  else if has_prefix pointer "loadlist" then
    done (load_and doc_fuel metadata (__load_list doc_fuel pointer) write w)
  else if has_prefix pointer "load" then
    done (load_and doc_fuel metadata (__load doc_fuel pointer) write w)
  else Some (w, EXIT_SUCCESS).

(** ** The loop over the blocks of a write *)

(** What of a block of [bs] bytes the write covers. *)
Definition block_bytes (bs : Z) (write : qemu_bdrv_write) (i : Z) : Z :=
  let left := u64 (u64 (w_nb_sectors write - i) * SECTOR_SIZE) in
  if left <? bs then left else bs.

(** [&(write->data[i*SECTOR_SIZE])] *)
Definition block_data (write : qemu_bdrv_write) (i : Z) : option (list Z) :=
  if i * SECTOR_SIZE <=? zlen (w_data write)
  then Some (drop (Z.to_nat (i * SECTOR_SIZE)) (w_data write)) else None.

Definition enqueue_block (bs : Z) (write : qemu_bdrv_write) (i : Z) (s : kv_store) :
    option (kv_store * Z) :=
  data ← block_data write i;
  d ← mem_read data 0 (block_bytes bs write i);
  redis_enqueue_pipelined s (u64 (w_sector_num write + i)) d.

(** The block [i] sectors into the write. *)
Definition inspect_block (doc_fuel : nat) (write : qemu_bdrv_write) (metadata : bool)
    (i : Z) (w : inspector) : option inspector :=
  '(s, result, rc) ← redis_sector_lookup (in_store w) (u64 (w_sector_num write + i)) 1024;
  let w := set_store s w in
  if negb (rc =? EXIT_SUCCESS) then ignored (enqueue_block (block_size sb) write i) w else
  if negb (zlen result =? 0) then
    if 1024 <=? zlen result then None else
    pointer ← cstr_at (result ++ [0]) 0;
    data ← block_data write i;
    '(w, _) ← __qemu_dispatch_write doc_fuel data pointer (block_bytes (block_size sb) write i)
                (u64 (w_sector_num write)) metadata write w;
    Some w
  else ignored (enqueue_block (block_size sb) write i) w.

Fixpoint inspect_loop (fuel doc_fuel : nat) (write : qemu_bdrv_write) (metadata : bool)
    (i : Z) (w : inspector) : option inspector :=
  match fuel with
  | O => None
  | S fuel =>
      if i <? u64 (w_nb_sectors write) then
        w ← inspect_block doc_fuel write metadata i w;
        inspect_loop fuel doc_fuel write metadata (u64 (i + block_size sb `div` SECTOR_SIZE)) w
      else Some w
  end.
End inspect.

Fixpoint qemu_deep_inspect `{Malloc} `{Hiredis} `{Host} (fuel doc_fuel : nat)
    (sb : super_info) (write_counter : Z) (vmname : list Z) (partition_offset : Z)
    (write : qemu_bdrv_write) (metadata : bool) (w : inspector) : option (inspector * Z) :=
  match fuel with
  | O => None
  | S fuel =>
      w ← inspect_loop sb write_counter vmname partition_offset
            (qemu_deep_inspect fuel doc_fuel sb write_counter vmname partition_offset)
            doc_fuel doc_fuel write metadata 0 w;
      let '(s, _) := redis_flush_pipeline (in_store w) in
      Some (set_store s w, EXIT_SUCCESS)
  end.
