(* ===== verification/InspectPrint.v ===== *)
(** * Printing in src/gray-inferencer/deep_inspection.c

    The texts about writes, the structures of the store's index and the types
    of sectors. [%p] prints a pointer; its text is an argument. *)
From S2P Require Import Prelude Words Memory Text RedisEnv Redis Inspect.

(** ** Definitions *)

Definition print_line (label : string) (value : list Z) : output :=
  fprintf_yellow Stdout (str_bytes label ++ value ++ [NL]).

(** ["%0.ld"]: with a precision of 0 the value 0 has no digits. *)
Definition fmt_precision_0 (z : Z) : list Z := if z =? 0 then [] else fmt_d z.

Definition qemu_print_write (write : qemu_bdrv_write) : output * Z :=
  (fprintf_light_blue Stdout (str_bytes "brdv_write event" ++ [NL]) ++
   fprintf_yellow Stdout (9 :: str_bytes "sector_num: " ++
                          fmt_precision_0 (w_sector_num write) ++ [NL]) ++
   fprintf_yellow Stdout (9 :: str_bytes "nb_sectors: " ++ fmt_d (w_nb_sectors write) ++ [NL]), 0).

(** [struct ext4_file], [struct ext4_bgd], [struct ext4_fs] and [struct mbr],
    as far as they are printed. *)
Record ext4_file := { inode_sector : Z; inode_offset : Z; is_dir : bool }.

Record ext4_bgd := {
  bgd_sector : Z;
  block_bitmap_sector_start : Z; block_bitmap_sector_end : Z;
  inode_bitmap_sector_start : Z; inode_bitmap_sector_end : Z;
  inode_table_sector_start : Z; inode_table_sector_end : Z;
}.

Record ext4_fs := {
  fs_type : Z; mount_point : list Z; num_block_groups : Z; num_files : Z;
}.

Record mbr := { mbr_gpt : bool; mbr_sector : Z; active_partitions : Z }.

Definition title (s : string) : output := fprintf_light_cyan Stdout (str_bytes s ++ [NL]).

Definition print_ext4_file (file : ext4_file) (inode : list Z) : output :=
  title "-- ext4 File --" ++
  print_line "file->inode_sector == " (decimal (inode_sector file)) ++
  print_line "file->inode_offset == " (decimal (inode_offset file)) ++
  print_line "file->is_dir == " (str_bytes (if is_dir file then "true" else "false")) ++
  print_line "file->inode == " inode.

Definition print_ext4_bgd (bgd : ext4_bgd) (pointer : list Z) : output :=
  title "-- ext4 BGD --" ++
  print_line "bgd->bgd == " pointer ++
  print_line "bgd->sector == " (decimal (bgd_sector bgd)) ++
  print_line "bgd->block_bitmap_sector_start == " (decimal (block_bitmap_sector_start bgd)) ++
  print_line "bgd->block_bitmap_sector_end == " (decimal (block_bitmap_sector_end bgd)) ++
  print_line "bgd->inode_bitmap_sector_start == " (decimal (inode_bitmap_sector_start bgd)) ++
  print_line "bgd->inode_bitmap_sector_end == " (decimal (inode_bitmap_sector_end bgd)) ++
  print_line "bgd->inode_table_sector_start == " (decimal (inode_table_sector_start bgd)) ++
  print_line "bgd->inode_table_sector_end == " (decimal (inode_table_sector_end bgd)).

Definition print_ext4_fs (fs : ext4_fs) : output :=
  title "-- ext4 FS --" ++
  print_line "fs->fs_type " (decimal (fs_type fs)) ++
  print_line "fs->mount_point " (mount_point fs) ++
  print_line "fs->num_block_groups " (decimal (num_block_groups fs)) ++
  print_line "fs->num_files " (decimal (num_files fs)).

Definition print_mbr (m : mbr) : output :=
  title "-- MBR --" ++
  print_line "mbr->gpt == " (decimal (if mbr_gpt m then 1 else 0)) ++
  print_line "mbr->sector == " (decimal (mbr_sector m)) ++
  print_line "mbr->active_partitions == " (decimal (active_partitions m)).

Definition SECTOR_EXT2_PARTITION : Z := 1.

(** The labels of the [switch] and their texts. *)
Definition sector_texts : list (Z * string) :=
  [(SECTOR_MBR, "Write to MBR detected.");
   (SECTOR_EXT2_SUPERBLOCK, "Write to ext4 superblock detected.");
   (SECTOR_EXT2_BLOCK_GROUP_DESCRIPTOR, "Write to ext4 block group descriptor detected.");
   (SECTOR_EXT2_BLOCK_GROUP_BLOCKMAP, "Write to ext4 block group block map detected.");
   (SECTOR_EXT2_BLOCK_GROUP_INODEMAP, "Write to ext4 block group inode map detected.");
   (SECTOR_EXT2_INODE, "Write to ext4 inode detected.");
   (SECTOR_EXT2_DATA, "Write to ext4 data block detected.");
   (SECTOR_EXT2_PARTITION, "Write to ext4 partition detected.");
   (SECTOR_EXT4_EXTENT, "Write to ext4 extents detected.")].

Definition qemu_print_sector_type (type : Z) : output * Z :=
  match list_find (λ p, p.1 = type) sector_texts with
  | Some (_, (_, s)) => (fprintf_light_green Stdout (str_bytes s ++ [NL]), 0)
  | None =>
      if type =? SECTOR_UNKNOWN
      then (fprintf_light_red Stdout (str_bytes "Unknown sector type." ++ [NL]), -1)
      else ([], -1)
  end.

(** ** Properties *)

(** Every type of sector [__sector_type] finds is printed, with result -1 exactly
    for an unknown one. *)
Theorem sector_type_printed str :
  (qemu_print_sector_type (__sector_type str)).1 ≠ [] ∧
  ((qemu_print_sector_type (__sector_type str)).2 = -1 ↔ __sector_type str = SECTOR_UNKNOWN).
Proof.
  unfold __sector_type.
  repeat match goal with |- context [if ?b then _ else _] => destruct b end;
    (split; [vm_compute; discriminate|vm_compute; intuition congruence]).
Qed.

(** A write to sector 0 is printed without its number. *)
Lemma sector_0_not_printed data n :
  qemu_print_write {| w_sector_num := 0; w_nb_sectors := n; w_data := data |} =
  (fprintf_light_blue Stdout (str_bytes "brdv_write event" ++ [NL]) ++
   fprintf_yellow Stdout (9 :: str_bytes "sector_num: " ++ [NL]) ++
   fprintf_yellow Stdout (9 :: str_bytes "nb_sectors: " ++ fmt_d n ++ [NL]), 0).
Proof. reflexivity. Qed.
