(* ===== verification/InspectProps.v ===== *)
(** * Properties of the inspection: the blocks of a write *)
From S2P Require Import Prelude Words Memory Stdio Bson BsonEncode BsonDecode BsonFields Scan RedisEnv Redis RedisProps StoreView InspectLoad InspectLoadProps InspectIndex InspectEmit InspectEmitProps Ext4 Ext4Blocks Inspect.

#[local] Open Scope string_scope.
#[local] Open Scope list_scope.
#[local] Open Scope Z_scope.

(** A block that is queued: the command carries what of it the write covers. *)
Lemma enqueue_block_ok `{MallocTotal} `{Connected} bs write i s :
  0 ≤ i < w_nb_sectors write → w_nb_sectors write < 2 ^ 31 →
  w_nb_sectors write * SECTOR_SIZE ≤ zlen (w_data write) → 0 ≤ w_sector_num write < 2 ^ 62 →
  0 ≤ bs → ready s →
  ∃ s', enqueue_block bs write i s = Some (s', EXIT_SUCCESS) ∧
    issued s [cmd REDIS_ENQUEUE_WRITE
      [AInt (w_sector_num write + i); AInt REDIS_DEFAULT_TIMEOUT;
       ABin (take (Z.to_nat (Z.min ((w_nb_sectors write - i) * SECTOR_SIZE) bs))
               (drop (Z.to_nat (i * SECTOR_SIZE)) (w_data write)))]] s'.
Proof.
  intros Hi Hn Hd Hs Hb Hr. unfold enqueue_block, block_data, block_bytes, SECTOR_SIZE in *.
  rewrite (proj2 (Z.leb_le _ _)) by lia. cbn [mbind option_bind].
  rewrite (uwrap_small 64 (w_nb_sectors write - i)), (uwrap_small 64 (_ * 512)) by lia.
  assert ((if (w_nb_sectors write - i) * 512 <? bs then (w_nb_sectors write - i) * 512 else bs)
    = Z.min ((w_nb_sectors write - i) * 512) bs) as -> by (case_test; lia).
  rewrite mem_read_prefix by (rewrite length_drop; lia). cbn [mbind option_bind].
  rewrite (uwrap_small 64 (_ + i)) by lia.
  pipelined as s' Hi'. by exists s'.
Qed.

Section blocks.
Context `{MallocTotal} `{Connected} `{Host}.
Context (host : list Z) (Hh : gethostname HOST_NAME_MAX = Some host).
Context (sb : super_info) (write_counter : Z) (vmname : list Z) (partition_offset : Z).
Context (Hv : zlen vmname ≤ VM_NAME_MAX).
Context (deep : qemu_bdrv_write → bool → inspector → option (inspector * Z)).
Context (doc_fuel : nat) (write : qemu_bdrv_write) (metadata : bool).

(** The write has whole sectors, and the data of all of them. *)
Record write_ok : Prop := {
  wo_sectors : 0 ≤ w_nb_sectors write < 2 ^ 31;
  wo_data : zlen (w_data write) = w_nb_sectors write * SECTOR_SIZE;
  wo_num : 0 ≤ w_sector_num write < 2 ^ 62;
  wo_block : 0 ≤ block_size sb < 2 ^ 29;
}.

(** The bytes of the block [i] sectors into the write. *)
Definition block_at (i : Z) : list Z :=
  take (Z.to_nat (Z.min ((w_nb_sectors write - i) * SECTOR_SIZE) (block_size sb)))
    (drop (Z.to_nat (i * SECTOR_SIZE)) (w_data write)).

Definition lookup_cmd (i : Z) : command := cmd REDIS_SECTOR_GET [AInt (w_sector_num write + i)].

(** What becomes of the block: nobody knows its sector, and it is queued; or it
    is data of a file, and is published. *)
Inductive block_cmds (d : db) (i : Z) : list command → Prop :=
  | bc_unknown :
      reply_bytes 1024 (exec d (lookup_cmd i)).2 = [] →
      block_cmds d i [lookup_cmd i;
        cmd REDIS_ENQUEUE_WRITE [AInt (w_sector_num write + i); AInt REDIS_DEFAULT_TIMEOUT;
                                 ABin (block_at i)]]
  | bc_data start end_ file path fsize :
      (exec d (lookup_cmd i)).2 = RString (data_text start end_ file) →
      known_file (exec d (lookup_cmd i)).1 file path fsize →
      0 ≤ start ≤ fsize → 0 ≤ end_ < 2 ^ 64 → 0 ≤ file < 2 ^ 64 →
      block_cmds d i (lookup_cmd i ::
        data_cmds (channel_of host vmname path) write_counter start end_ file fsize
          (zlen (block_at i)) (w_sector_num write)
          (take (Z.to_nat (fsize - start)) (block_at i))).

(** The blocks from [i] on, [n] of them. *)
Inductive write_cmds : db → Z → nat → list command → Prop :=
  | wc_end d i : w_nb_sectors write ≤ i → write_cmds d i 0 []
  | wc_block d i cs n cs' :
      i < w_nb_sectors write → block_cmds d i cs →
      write_cmds (exec_all d cs) (i + block_size sb `div` SECTOR_SIZE) n cs' →
      write_cmds d i (S n) (cs ++ cs').

Lemma data_text_length start end_ file :
  0 < zlen (data_text start end_ file) ≤ 80.
Proof.
  assert (∀ z, (length (decimal z) ≤ 20)%nat) as Hd by apply decimal_digits_length.
  pose proof (Hd start). pose proof (Hd end_). pose proof (Hd file).
  unfold data_text. autorewrite with len dsize. simpl String.length. lia.
Qed.

Lemma data_text_chars start end_ file : Forall (λ c, c ≠ 0) (data_text start end_ file).
Proof.
  assert (∀ z, Forall (λ c, c ≠ 0) (decimal z)) as Hd.
  { intros z. apply (Forall_impl (P := λ d, 48 ≤ d < 58));
      [intros d Hd; lia|apply decimal_digits_range]. }
  assert (∀ s, bool_decide (Forall (λ c, c ≠ 0) (str_bytes s)) = true →
    Forall (λ c, c ≠ 0) (str_bytes s)) as Hk by (by intros s ?%bool_decide_eq_true).
  unfold data_text.
  apply Forall_app; split; [by apply Hk|]. constructor; [done|].
  apply Forall_app; split; [apply Hd|]. constructor; [done|].
  apply Forall_app; split; [by apply Hk|]. constructor; [done|].
  apply Forall_app; split; [apply Hd|]. constructor; [done|].
  apply Forall_app; split; [by apply Hk|]. constructor; [done|]. apply Hd.
Qed.

Context (Hw : write_ok).

Lemma block_bytes_eq i :
  0 ≤ i < w_nb_sectors write →
  block_bytes (block_size sb) write i = Z.min ((w_nb_sectors write - i) * SECTOR_SIZE) (block_size sb).
Proof.
  intros Hi. destruct Hw as [Hn _ _ Hb]. unfold block_bytes, SECTOR_SIZE in *.
  rewrite (uwrap_small 64 (w_nb_sectors write - i)), uwrap_small by lia. case_test; lia.
Qed.

Lemma block_data_eq i :
  0 ≤ i < w_nb_sectors write →
  block_data write i = Some (drop (Z.to_nat (i * SECTOR_SIZE)) (w_data write)).
Proof.
  intros Hi. destruct Hw as [Hn Hd _ _]. unfold block_data, SECTOR_SIZE in *.
  by rewrite (proj2 (Z.leb_le _ _)) by lia.
Qed.

Lemma block_at_length i :
  0 ≤ i < w_nb_sectors write →
  zlen (block_at i) = Z.min ((w_nb_sectors write - i) * SECTOR_SIZE) (block_size sb).
Proof.
  intros Hi. destruct Hw as [Hn Hd _ Hb]. unfold block_at, SECTOR_SIZE in *.
  rewrite length_take, length_drop. lia.
Qed.

Lemma inspect_block_ok i w cs :
  0 ≤ i < w_nb_sectors write → ready (in_store w) → block_cmds (applied (in_store w)) i cs →
  ∃ w', inspect_block sb write_counter vmname partition_offset deep doc_fuel write metadata i w
        = Some w' ∧ issued (in_store w) cs (in_store w').
Proof.
  intros Hi Hr Hc. unfold inspect_block. pose proof Hw as [Hn Hd Hs Hb].
  rewrite (uwrap_small 64 (w_sector_num write + i)) by lia.
  destruct (sector_lookup_issued (in_store w) (w_sector_num write + i) 1024 Hr) as (s1 & E1 & Hi1).
  fold (lookup_cmd i) in E1, Hi1. rewrite E1. cbn [mbind option_bind negb Z.eqb EXIT_SUCCESS].
  destruct Hc as [Hrep|start end_ file path fsize Hrep Hfile Hst He Hf].
  - rewrite Hrep. cbn [length Z.of_nat Z.eqb negb].
    destruct (enqueue_block_ok (block_size sb) write i s1) as (s2 & E2 & Hi2);
      [done|lia|lia|done|lia|eauto with store|].
    unfold ignored. cbn [in_store set_store]. rewrite E2. cbn [mbind option_bind].
    eexists. split; [done|]. simpl. by eapply issued_cons.
  - rewrite Hrep. pose proof (data_text_length start end_ file) as Hlen.
    rewrite reply_bytes_fits by lia. rewrite (proj2 (Z.eqb_neq _ _)) by lia. cbn [negb].
    rewrite (proj2 (Z.leb_gt _ _)) by lia.
    pose proof (cstr_at_app [] _ [] 0 eq_refl (data_text_chars start end_ file)) as Hc.
    rewrite app_nil_l in Hc. rewrite Hc. cbn [mbind option_bind]. rewrite block_data_eq by done.
    cbn [mbind option_bind]. rewrite block_bytes_eq, uwrap_small by (done || lia).
    unfold __qemu_dispatch_write.
    assert (has_prefix (data_text start end_ file) "start" = true) as ->.
    { unfold has_prefix, data_text. rewrite take_app_length. by apply bool_decide_eq_true. }
    unfold on_store. cbn [in_store set_store]. destruct Hi1 as [Hr1 Ea].
    rewrite <-block_at_length by done. cbn in Ea. rewrite <-Ea in Hfile.
    destruct (emit_file_bytes_ok (drop (Z.to_nat (i * SECTOR_SIZE)) (w_data write)) s1 host vmname
      write_counter start end_ file path fsize (zlen (block_at i)) (w_sector_num write))
      as (s2 & E2 & Hi2); [done..|lia| | |].
    { rewrite block_at_length, length_drop by done. unfold SECTOR_SIZE in *. lia. }
    { rewrite block_at_length by done. lia. }
    rewrite E2. cbn [mbind option_bind]. eexists. split; [done|]. simpl.
    eapply issued_cons; [by split|].
    assert (take (Z.to_nat (fsize - start)) (block_at i) =
      take (Z.to_nat (Z.min (zlen (block_at i)) (fsize - start)))
        (drop (Z.to_nat (i * SECTOR_SIZE)) (w_data write))) as ->; [|exact Hi2].
    rewrite block_at_length by done. unfold block_at. rewrite take_take. f_equal. lia.
Qed.

Lemma inspect_loop_ok n : ∀ i w cs fuel,
  (n < fuel)%nat → 0 ≤ i → i < 2 ^ 60 → ready (in_store w) →
  write_cmds (applied (in_store w)) i n cs →
  ∃ w', inspect_loop sb write_counter vmname partition_offset deep fuel doc_fuel write metadata
          i w = Some w' ∧ issued (in_store w) cs (in_store w').
Proof.
  pose proof Hw as [Hn _ _ Hb].
  assert (0 ≤ block_size sb `div` SECTOR_SIZE < 2 ^ 29) as Hstep.
  { unfold SECTOR_SIZE. split; [apply Z.div_pos; lia|]. apply Z.div_lt_upper_bound; lia. }
  induction n as [|n IH]; intros i w cs fuel Hfuel Hi Hi' Hr Hc; inversion Hc; subst;
    (destruct fuel as [|fuel]; [lia|]); cbn [inspect_loop]; rewrite (uwrap_small 64) by lia.
  - rewrite (proj2 (Z.ltb_ge _ _)) by lia. exists w. split; [done|]. by apply issued_refl.
  - rewrite (proj2 (Z.ltb_lt _ _)) by lia.
    edestruct (inspect_block_ok i w) as (w1 & E1 & Hi1); [lia|done|eassumption|].
    rewrite E1. cbn [mbind option_bind]. rewrite uwrap_small by lia.
    edestruct (IH (i + block_size sb `div` SECTOR_SIZE) w1) as (w2 & E2 & Hi2);
      [|lia|lia|eauto with store| |].
    + instantiate (1 := fuel). lia.
    + destruct Hi1 as [_ ->]. eassumption.
    + exists w2. split; [exact E2|]. by eapply issued_trans.
Qed.
End blocks.

Lemma deep_inspect_ok `{MallocTotal} `{Connected} `{Host} host fuel doc_fuel sb
    write_counter vmname partition_offset write metadata w n cs :
  gethostname HOST_NAME_MAX = Some host → zlen vmname ≤ VM_NAME_MAX → write_ok sb write →
  ready (in_store w) → (n < doc_fuel)%nat →
  write_cmds host sb write_counter vmname write (applied (in_store w)) 0 n cs →
  ∃ w', qemu_deep_inspect (S fuel) doc_fuel sb write_counter vmname partition_offset write
          metadata w = Some (w', EXIT_SUCCESS) ∧
    issued (in_store w) cs (in_store w').
Proof.
  intros Hh Hv Hw Hr Hn Hc. cbn [qemu_deep_inspect].
  edestruct (inspect_loop_ok host Hh sb write_counter vmname partition_offset Hv
    (qemu_deep_inspect fuel doc_fuel sb write_counter vmname partition_offset) doc_fuel write
    metadata Hw n 0 w cs doc_fuel Hn) as (w1 & E1 & Hi1); [lia|lia|done|done|].
  rewrite E1. cbn [mbind option_bind].
  destruct (flush_issued (in_store w1)) as (s2 & E2 & Hi2 & _); [eauto with store|].
  rewrite E2. eexists. split; [done|]. simpl. rewrite <-(app_nil_r cs).
  by eapply issued_trans.
Qed.

(** ** Properties *)

(** C4: a write is taken apart into the file system's blocks, in order, whatever
    was still in the store's pipeline; the writes to blocks no pointer names are
    queued under their sectors, and those to blocks of files are published on the
    file's channel with the bytes of the file they change, cut at the file's
    size. The last block of a file is kept, under the first sector of the write.
    The inspection ends; [doc_fuel] above the number of blocks is enough. *)
Theorem deep_inspect_refines `{MallocTotal} `{Connected} `{Host} host fuel doc_fuel sb
    write_counter vmname partition_offset write metadata w n cs :
  gethostname HOST_NAME_MAX = Some host → zlen vmname ≤ VM_NAME_MAX → write_ok sb write →
  ready (in_store w) → (n < doc_fuel)%nat →
  write_cmds host sb write_counter vmname write (applied (in_store w)) 0 n cs →
  ∃ w', qemu_deep_inspect (S fuel) doc_fuel sb write_counter vmname partition_offset write
          metadata w = Some (w', EXIT_SUCCESS) ∧
    issued (in_store w) cs (in_store w').
Proof. apply deep_inspect_ok. Qed.

(** Blocks of 1024 bytes; sector 2048 is the second block of a file of 1500
    bytes, sector 2050 is unknown. *)
Definition witness_reply (c : command) : redisReply :=
  if bool_decide (c = cmd REDIS_SECTOR_GET [AInt 2048]) then
    RString (data_text 1024 2048 7)
  else if bool_decide (c = file_field "path" 7) then
    RString (str_bytes "/a")
  else if bool_decide (c = file_field "size" 7) then
    RString (le_enc 8 1500)
  else RNil.

Definition witness_block_super : super_info :=
  {| superblock_sector := 2; superblock_offset := 1024; block_size := 1024;
     blocks_per_group := 8192; inodes_per_group := 16; inode_size := 128 |}.

Definition witness_write : qemu_bdrv_write :=
  {| w_sector_num := 2048; w_nb_sectors := 4; w_data := replicate 1024 1 ++ replicate 1024 2 |}.

#[local] Instance witness_server : RedisServer | 0 := log_server witness_reply.

Definition witness_inspector : inspector :=
  {| in_store := log_store witness_reply; in_metadata := file_of []; in_load := initial_load |}.

Definition witness_write_cmds : list command :=
  [cmd REDIS_SECTOR_GET [AInt 2048]; file_field "path" 7; file_field "size" 7;
   cmd REDIS_ENQUEUE_WRITE [AInt 2048; AInt REDIS_DEFAULT_TIMEOUT; ABin (replicate 476 1)];
   publish (str_bytes "localhost:vm:/a") (data_elems 5 1024 2048 (replicate 476 1));
   cmd REDIS_SECTOR_GET [AInt 2050];
   cmd REDIS_ENQUEUE_WRITE [AInt 2050; AInt REDIS_DEFAULT_TIMEOUT; ABin (replicate 1024 2)]].

Lemma witness_block_cmds :
  block_cmds (str_bytes "localhost") witness_block_super 5 (str_bytes "vm") witness_write [] 0
    (take 5 witness_write_cmds).
Proof.
  replace (take 5 witness_write_cmds) with (lookup_cmd witness_write 0 ::
    data_cmds (channel_of (str_bytes "localhost") (str_bytes "vm") (str_bytes "/a")) 5 1024
      2048 7 1500 (zlen (block_at witness_block_super witness_write 0))
      (w_sector_num witness_write)
      (take (Z.to_nat (1500 - 1024)) (block_at witness_block_super witness_write 0)))
    by (by vm_compute).
  apply bc_data; [by vm_compute| |by vm_compute..].
  split; [by vm_compute|split; [apply (bool_decide_unpack _)|]|..]; by vm_compute.
Qed.

Lemma deep_inspect_refines_witness :
  ∃ w', qemu_deep_inspect 1 3 witness_block_super 5 (str_bytes "vm") 0 witness_write false
          witness_inspector = Some (w', EXIT_SUCCESS) ∧
    applied (in_store w') = witness_write_cmds.
Proof.
  destruct (deep_inspect_refines (str_bytes "localhost") 0 3 witness_block_super 5 (str_bytes "vm")
    0 witness_write false witness_inspector 2 witness_write_cmds) as (w' & E & _ & Ha).
  - done.
  - by vm_compute.
  - split; by vm_compute.
  - apply log_store_ready.
  - lia.
  - apply (wc_block _ _ _ _ _ _ _ (take 5 witness_write_cmds) 1 (drop 5 witness_write_cmds));
      [by vm_compute| |].
    + apply witness_block_cmds.
    + apply (wc_block _ _ _ _ _ _ _ (drop 5 witness_write_cmds) 0 []); [by vm_compute| |].
      * apply bc_unknown. by vm_compute.
      * apply wc_end. by vm_compute.
  - exists w'. split; [exact E|exact Ha].
Defined.

(** With a block size below a sector, which is what [qemu_get_superinfo]
    leaves when the store has no file system of that number and the variables
    happen to be small, the loop over the blocks of a write does not advance:
    no amount of fuel gives a result. *)
Theorem deep_inspect_hang `{Malloc} `{Hiredis} `{Host} fuel doc_fuel sb write_counter vmname
    partition_offset write metadata w :
  0 ≤ block_size sb < SECTOR_SIZE → 0 < w_nb_sectors write < 2 ^ 31 →
  qemu_deep_inspect fuel doc_fuel sb write_counter vmname partition_offset write metadata w = None.
Proof.
  intros Hb Hn. destruct fuel as [|fuel]; [done|]. cbn [qemu_deep_inspect].
  generalize (qemu_deep_inspect fuel doc_fuel sb write_counter vmname partition_offset) as deep.
  intros deep.
  enough (∀ k w, inspect_loop sb write_counter vmname partition_offset deep k doc_fuel write
    metadata 0 w = None) as -> by done.
  intros k. induction k as [|k IH]; intros w'; [done|]. cbn [inspect_loop].
  rewrite (uwrap_small 64), (proj2 (Z.ltb_lt _ _)) by lia.
  destruct (inspect_block _ _ _ _ _ _ _ _ _ _) as [w1|]; [|done]. cbn [mbind option_bind].
  rewrite Z.div_small by lia. apply IH.
Qed.

Lemma deep_inspect_hang_witness :
  qemu_deep_inspect 100 100 initial_super 5 (str_bytes "vm") 0 witness_write false
    witness_inspector = None.
Proof. apply deep_inspect_hang; by vm_compute. Defined.

(** The type of a sector is one of the enumeration's values, 1 and 4 apart:
    the two bitmaps are one disjunction of values, that of the inode bitmap. A
    sector is of unknown type exactly when its pointer has none of the known
    prefixes, and then its writes are ignored, unless the pointer starts with
    "extent" or "load": the pointers to extent blocks the loader stores are of
    unknown type, and are dispatched all the same. *)
Theorem sector_type_spec `{Malloc} `{Hiredis} `{Host} sb write_counter vmname partition_offset deep
    doc_fuel data pointer len sector metadata write w :
  let dispatch p := __qemu_dispatch_write sb write_counter vmname partition_offset deep doc_fuel
                      data p len sector metadata write w in
  __sector_type pointer ∈ [SECTOR_UNKNOWN; SECTOR_MBR; SECTOR_EXT2_SUPERBLOCK;
    SECTOR_EXT2_BLOCK_GROUP_DESCRIPTOR; SECTOR_EXT2_BLOCK_GROUP_INODEMAP; SECTOR_EXT2_INODE;
    SECTOR_EXT2_DATA; SECTOR_EXT4_EXTENT] ∧
  (has_prefix pointer "extent" = false → has_prefix pointer "load" = false →
   has_prefix pointer "loadlist" = false →
   __sector_type pointer = SECTOR_UNKNOWN → dispatch pointer = Some (w, EXIT_SUCCESS)) ∧
  (∀ rest, __sector_type (str_bytes "extent" ++ rest) = SECTOR_UNKNOWN ∧
     dispatch (str_bytes "extent" ++ rest) =
       ('(w, _) ← __diff_extent_tree sb partition_offset deep data (str_bytes "extent" ++ rest) w;
        Some (w, EXIT_SUCCESS))) ∧
  (∀ rest, __sector_type (str_bytes "bgd" ++ rest) = SECTOR_EXT2_BLOCK_GROUP_INODEMAP).
Proof.
  intros dispatch. subst dispatch. unfold __sector_type, __qemu_dispatch_write.
  split_and!; [| |by intros rest; split|done].
  - repeat case_match; apply (bool_decide_unpack _); by vm_compute.
  - intros -> -> -> HT. revert HT.
    destruct (has_prefix pointer "start"), (has_prefix pointer "dirdata"),
      (has_prefix pointer "fs"), (has_prefix pointer "mbr"), (has_prefix pointer "lbgds"),
      (has_prefix pointer "lfiles"), (has_prefix pointer "bgd"),
      (has_prefix pointer "lextents"); by cbn.
Qed.

Lemma sector_type_spec_witness :
  __sector_type (str_bytes "extent:16") = -1 ∧
  __qemu_dispatch_write initial_super 5 (str_bytes "vm") 0 (λ _ _ w, Some (w, 0)) 0 []
    (str_bytes "file:16") 0 0 false witness_write witness_inspector
  = Some (witness_inspector, EXIT_SUCCESS).
Proof.
  destruct (sector_type_spec initial_super 5 (str_bytes "vm") 0 (λ _ _ w, Some (w, 0)) 0 []
    (str_bytes "file:16") 0 0 false witness_write witness_inspector) as (_ & E & X & _).
  split; [exact (proj1 (X (str_bytes ":16")))|]. apply E; by vm_compute.
Defined.
