(* ===== verification/LoadInspect.v ===== *)
(** * From the crawler's documents to published writes

    Loader and inspector composed, through the keys of the store: what
    [qemu_load_document] stores about a file is what [qemu_deep_inspect] finds
    when a block of the file is written. *)
From S2P Require Import Prelude Words Memory Struct Stdio Bitarray Bson BsonEncode BsonDecode BsonFields Scan RedisEnv Redis RedisProps StoreView KeyValue InspectLoad InspectLoadProps InspectIndex InspectEmit InspectEmitProps Ext4 Ext4Blocks Ext4Props Ext4Extents Ext4Files Ext4Walk CrawlLoad Inspect InspectProps.

#[local] Open Scope string_scope.
#[local] Open Scope list_scope.
#[local] Open Scope Z_scope.

(** ** Keys *)

Definition key_of (kind : string) (n : Z) : list Z := str_bytes kind ++ arg_text (AInt n).
Abbreviation file_key := (key_of "file:").
Abbreviation sector_key := (key_of "sector:").

Lemma arg_text_decimal n : 0 ≤ n → arg_text (AInt n) = decimal n.
Proof. intros Hn. simpl. by rewrite (proj2 (Z.ltb_ge _ _)). Qed.

Lemma decimal_inj a b : 0 ≤ a < 2 ^ 64 → 0 ≤ b < 2 ^ 64 → decimal a = decimal b → a = b.
Proof.
  intros Ha Hb E. rewrite <-(scan_decimal_digits 20 a), <-(scan_decimal_digits 20 b) by lia.
  unfold decimal in E. by rewrite E.
Qed.

Lemma key_of_ne kind a b :
  0 ≤ a < 2 ^ 64 → 0 ≤ b < 2 ^ 64 → a ≠ b → key_of kind a ≠ key_of kind b.
Proof.
  intros Ha Hb Hn E. apply app_inv_head in E. rewrite !arg_text_decimal in E by lia.
  by apply decimal_inj in E.
Qed.

(** ** The words of the loader's and the inspector's commands *)

Ltac words_open :=
  unfold command_words, key_of, hset, file_field; cbn [fmap list_fmap c_args c_fmt cmd];
  repeat match goal with
         | |- context [arg_text (AInt ?n)] => generalize (arg_text (AInt n)); intros ?
         end.

Ltac words_close :=
  cbv -[app e_key elem_block]; cbn [app]; rewrite ?app_nil_r; reflexivity.

Ltac words := words_open; words_close.

Lemma words_data_insert_args n start end_ id :
  command_words (cmd REDIS_DATA_INSERT [AInt n; AInt start; AInt end_; AInt id])
  = [str_bytes "SET"; sector_key n;
     str_bytes "start" ++ COLON :: arg_text (AInt start) ++ COLON :: str_bytes "end" ++ COLON ::
     arg_text (AInt end_) ++ COLON :: str_bytes "file" ++ COLON :: arg_text (AInt id)].
Proof. words. Qed.

Lemma words_data_insert n start end_ id :
  0 ≤ start → 0 ≤ end_ → 0 ≤ id →
  command_words (cmd REDIS_DATA_INSERT [AInt n; AInt start; AInt end_; AInt id])
  = [str_bytes "SET"; sector_key n; data_text start end_ id].
Proof.
  intros Hs He Hi.
  pose proof (words_data_insert_args n start end_ id) as E.
  rewrite (arg_text_decimal start Hs), (arg_text_decimal end_ He), (arg_text_decimal id Hi) in E.
  exact E.
Qed.

Lemma words_hset id e :
  command_words (hset REDIS_FILE_SECTOR_INSERT id e)
  = [str_bytes "HSET"; file_key id; e_key e; elem_block (e_val e)].
Proof. words. Qed.

Lemma words_file_field field id :
  command_words (file_field field id) = [str_bytes "HGET"; file_key id; str_bytes field].
Proof. words. Qed.

Lemma words_sector_get n :
  command_words (cmd REDIS_SECTOR_GET [AInt n]) = [str_bytes "GET"; sector_key n].
Proof. words. Qed.

(** The sector a pointer of the loader is for: the crawler's number goes through
    an [int32_t]. *)
Definition stored_sector (po bs : Z) (inode : list Z) (blk : Z) : Z :=
  u64 (s32 (file_sector po bs inode blk)).

Lemma stored_sector_range po bs inode blk : 0 ≤ stored_sector po bs inode blk < 2 ^ 64.
Proof. apply Z.mod_pos_bound. lia. Qed.

Section stored.
Context `{KeyValue}.

Ltac about_key :=
  unfold about; words_open; do 2 eexists;
  split; [words_close|left; apply (bool_decide_unpack _); vm_compute; exact I].

Lemma about_files a b : about (cmd REDIS_FILES_INSERT [AInt a; AInt b]) (key_of "files:" a).
Proof. about_key. Qed.

Lemma about_lfiles a b : about (cmd REDIS_FILES_SECTOR_INSERT [AInt a; AInt b]) (sector_key a).
Proof. about_key. Qed.

Lemma about_inode a b : about (cmd REDIS_INODE_INSERT [AInt a; AInt b]) (key_of "inode:" a).
Proof. about_key. Qed.

Lemma about_path p b : about (cmd REDIS_PATH_SET [ABin p; AInt b]) (str_bytes "path:" ++ p).
Proof. about_key. Qed.

Lemma about_sectors a b :
  about (cmd REDIS_FILE_SECTORS_INSERT [AInt a; AInt b]) (key_of "filesectors:" a).
Proof. about_key. Qed.

Lemma about_data n a b c :
  about (cmd REDIS_DATA_INSERT [AInt n; AInt a; AInt b; AInt c]) (sector_key n).
Proof. about_key. Qed.

(** ** The hash of a file *)

Definition file_hash (d : db) (id : Z) (h : gmap (list Z) (list Z)) : Prop :=
  hash_of (value_at d (file_key id)) = Some h.

Definition store_elem (h : gmap (list Z) (list Z)) (e : elem) : gmap (list Z) (list Z) :=
  <[e_key e := elem_block (e_val e)]> h.

Lemma file_hash_hset d id e h :
  file_hash d id h → file_hash (exec d (hset REDIS_FILE_SECTOR_INSERT id e)).1 id (store_elem h e).
Proof.
  intros Hh. unfold file_hash.
  by rewrite (exec_hset _ _ _ _ _ _ (words_hset id e) Hh).
Qed.

Lemma file_hash_other d id c k h :
  about c k → k ≠ file_key id → file_hash d id h → file_hash (exec d c).1 id h.
Proof. intros Hc Hk Hh. unfold file_hash. by rewrite (exec_frame _ _ _ _ Hc Hk). Qed.

Lemma file_hash_hsets id es : ∀ d h,
  file_hash d id h →
  file_hash (exec_all d (hset REDIS_FILE_SECTOR_INSERT id <$> es)) id (foldl store_elem h es).
Proof.
  induction es as [|e es IH]; intros d h Hh; [done|].
  cbn [fmap list_fmap foldl]. apply IH. by apply file_hash_hset.
Qed.

Ltac other_key :=
  let E := fresh in
  unfold key_of;
  repeat match goal with |- context [arg_text ?a] => generalize (arg_text a); intros ? end;
  intros E; cbv -[app] in E; cbn [app] in E; discriminate E.

(** What the header of a file's document leaves. *)
Lemma header_hash d id sector offset num prefix inode h :
  file_hash d id h →
  file_hash (exec_all d (header_cmds id sector offset num prefix inode)) id
    (foldl store_elem h ([e_int64 "inode_offset" offset; e_int32 "inode_num" num] ++
                         inode_elems prefix inode)).
Proof.
  intros Hh. unfold header_cmds. rewrite exec_all_app, foldl_app.
  change (inode_elems prefix inode) with (e_str "path" prefix :: drop 1 (inode_elems prefix inode)).
  cbn [foldl drop]. apply file_hash_hsets. unfold exec_all. cbn [foldl].
  eapply file_hash_other; [apply about_path|other_key|]. apply file_hash_hset.
  apply file_hash_hset. eapply file_hash_other; [apply about_inode|other_key|].
  apply file_hash_hset. eapply file_hash_other; [apply about_lfiles|other_key|].
  eapply file_hash_other; [apply about_files|other_key|]. exact Hh.
Qed.

(** The inspector finds path and size, whatever else is in the hash. *)
Lemma known_file_hash d id h path fsize :
  file_hash d id h → h !! str_bytes "path" = Some path →
  h !! str_bytes "size" = Some (le_enc 8 fsize) →
  Forall (λ c, c ≠ 0) path → 0 < zlen path < PATH_MAX → 0 ≤ fsize < 2 ^ 64 →
  known_file d id path fsize.
Proof.
  intros Hh Ep Es Hc Hl Hf. unfold file_hash in Hh.
  assert (value_at d (file_key id) = Some (KHash h)) as Hv.
  { destruct (value_at d (file_key id)) as [[]|]; simplify_eq/=; done. }
  destruct (exec_hget d _ _ _ (words_file_field "path" id)) as [Hsame Hp].
  rewrite Hv in Hsame.
  destruct (exec_hget (exec d (file_field "path" id)).1 _ _ _ (words_file_field "size" id))
    as [_ Hs].
  split; [by eapply Hp|done|by eapply Hs|done].
Qed.

Lemma inode_hash h prefix inode :
  foldl store_elem h (inode_elems prefix inode) !! str_bytes "path" = Some prefix ∧
  foldl store_elem h (inode_elems prefix inode) !! str_bytes "size"
    = Some (le_enc 8 (ext4_file_size inode)).
Proof.
  unfold inode_elems, store_elem. cbn [foldl e_str e_bool e_int64 e_key e_val elem_block].
  split; repeat first [apply lookup_insert_eq | rewrite lookup_insert_ne by (by vm_compute)].
Qed.

(** ** The pointers of its blocks *)

Lemma blocks_cmds_app id po bs inode l1 l2 : ∀ j,
  blocks_cmds id po bs inode j (l1 ++ l2)
  = blocks_cmds id po bs inode j l1 ++ blocks_cmds id po bs inode (j + zlen l1) l2.
Proof.
  induction l1 as [|b l1 IH]; intros j; [by rewrite Z.add_0_r|].
  cbn [app blocks_cmds]. rewrite IH, <-app_assoc. do 3 f_equal. simpl. lia.
Qed.

Lemma blocks_other id po bs inode k' blks : ∀ j d,
  k' ≠ key_of "filesectors:" id → k' ∉ (sector_key ∘ stored_sector po bs inode <$> blks) →
  value_at (exec_all d (blocks_cmds id po bs inode j blks)) k' = value_at d k'.
Proof.
  intros j d Hk Hb. apply value_at_others. revert j.
  induction blks as [|b blks IH]; intros j; [constructor|].
  rewrite fmap_cons, not_elem_of_cons in Hb. destruct Hb as [Hb Hbs].
  cbn [blocks_cmds]. apply Forall_app. split; [|by apply IH].
  constructor; [|constructor; [|constructor]].
  - exists (key_of "filesectors:" id). split; [apply about_sectors|done].
  - exists (sector_key (stored_sector po bs inode b)). split; [apply about_data|done].
Qed.

Lemma sector_not_filesectors n id : sector_key n ≠ key_of "filesectors:" id.
Proof. other_key. Qed.

Lemma file_not_filesectors n id : file_key n ≠ key_of "filesectors:" id.
Proof. other_key. Qed.

Lemma file_not_sector n id : file_key n ≠ sector_key id.
Proof. other_key. Qed.

Lemma sector_keys_inj po bs inode a b :
  sector_key (stored_sector po bs inode a) = sector_key (stored_sector po bs inode b) →
  stored_sector po bs inode a = stored_sector po bs inode b.
Proof.
  intros E. destruct (decide (stored_sector po bs inode a = stored_sector po bs inode b)); [done|].
  exfalso. by apply (key_of_ne "sector:" (stored_sector po bs inode a) (stored_sector po bs inode b));
    [apply stored_sector_range..| |].
Qed.

(** The pointer from the [i]-th block's sector. *)
Lemma blocks_pointer id po bs inode blks i blk d :
  0 ≤ id → 0 ≤ bs → NoDup (stored_sector po bs inode <$> blks) → blks !! i = Some blk →
  value_at (exec_all d (blocks_cmds id po bs inode 0 blks)) (sector_key (stored_sector po bs inode blk))
  = Some (KString (data_text (Z.of_nat i * bs) ((Z.of_nat i + 1) * bs) id)).
Proof.
  intros Hid Hbs Hn Hb.
  rewrite <-(take_drop_middle _ _ _ Hb), blocks_cmds_app, exec_all_app.
  rewrite <-(take_drop_middle _ _ _ Hb) in Hn.
  rewrite fmap_app, fmap_cons, list.NoDup_app in Hn. destruct Hn as (_ & _ & Hn).
  apply list.NoDup_cons in Hn as [Hn _].
  assert (zlen (take i blks) = Z.of_nat i) as El.
  { rewrite length_take_le; [done|]. apply lookup_lt_Some in Hb. lia. }
  rewrite El, Z.add_0_l. cbn [blocks_cmds]. rewrite exec_all_app.
  rewrite blocks_other; [|apply sector_not_filesectors|].
  - unfold data_block_cmds, exec_all. cbn [foldl]. apply exec_set.
    apply words_data_insert; [nia|nia|done].
  - rewrite list_elem_of_fmap. intros (b & Eb & Hin). apply Hn.
    cbn in Eb. rewrite (sector_keys_inj _ _ _ _ _ Eb). by apply list_elem_of_fmap_2.
Qed.
End stored.

(** ** A write of a block *)

Section write.
Context `{MallocTotal} `{Connected} `{!KeyValue} `{Host}.
Context (host vmname : list Z).
Context (Hh : gethostname HOST_NAME_MAX = Some host) (Hv : zlen vmname ≤ VM_NAME_MAX).

(** A write of a whole block at a sector whose pointer names bytes of a file,
    with the path and size of the file in its hash. *)
Record known_block (d : db) (bs : Z) (write : qemu_bdrv_write) (id start fsize : Z)
    (path : list Z) : Prop := {
  kb_nb : w_nb_sectors write = bs `div` SECTOR_SIZE;
  kb_data : zlen (w_data write) = bs;
  kb_sector : 0 ≤ w_sector_num write < 2 ^ 62;
  kb_start : 0 ≤ start ≤ fsize ∧ start + bs < 2 ^ 64;
  kb_id : 0 ≤ id < 2 ^ 64;
  kb_pointer : value_at d (sector_key (w_sector_num write))
               = Some (KString (data_text start (start + bs) id));
  kb_hash : ∃ h, file_hash d id h ∧ h !! str_bytes "path" = Some path ∧
                 h !! str_bytes "size" = Some (le_enc 8 fsize);
  kb_path : Forall (λ c, c ≠ 0) path ∧ 0 < zlen path < PATH_MAX;
  kb_size : fsize < 2 ^ 64;
}.

(** The commands its inspection issues. *)
Definition block_published_cmds (bs counter : Z) (write : qemu_bdrv_write) (id start fsize : Z)
    (path : list Z) : list command :=
  cmd REDIS_SECTOR_GET [AInt (w_sector_num write)] ::
  data_cmds (channel_of host vmname path) counter start (start + bs) id fsize bs
    (w_sector_num write) (take (Z.to_nat (fsize - start)) (w_data write)).

Lemma known_block_cmds d sb counter write id start fsize path :
  0 < block_size sb ≤ 65536 → block_size sb `mod` SECTOR_SIZE = 0 →
  known_block d (block_size sb) write id start fsize path →
  write_ok sb write ∧
  write_cmds host sb counter vmname write d 0 1
    (block_published_cmds (block_size sb) counter write id start fsize path).
Proof.
  intros Hbs Hmod [Hnb Hdata Hn [Hst Hend] Hid Hp (h & Hf & Epath & Esize) [Hc Hl] Hsz].
  set (bs := block_size sb) in *.
  assert (bs `div` SECTOR_SIZE * SECTOR_SIZE = bs ∧ 0 < bs `div` SECTOR_SIZE) as [Hdiv Hpos].
  { pose proof (Z.div_mod bs SECTOR_SIZE ltac:(done)). unfold SECTOR_SIZE in *. lia. }
  assert (write_ok sb write) as Hw.
  { split; fold bs; [|lia|lia|lia]. unfold SECTOR_SIZE in *. lia. }
  split; [exact Hw|].
  assert (block_at sb write 0 = w_data write) as Eb.
  { unfold block_at. fold bs. rewrite Hnb, Z.sub_0_r, Hdiv, Z.min_id, <-Hdata, Nat2Z.id.
    by rewrite firstn_all. }
  pose proof (words_sector_get (w_sector_num write)) as Hget.
  destruct (exec_get d _ _ Hget) as [_ Hrep].
  assert (lookup_cmd write 0 = cmd REDIS_SECTOR_GET [AInt (w_sector_num write)]) as El
    by (unfold lookup_cmd; by rewrite Z.add_0_r).
  unfold block_published_cmds. rewrite <-(app_nil_r (_ :: _)).
  apply wc_block; [lia| |apply wc_end; fold bs; lia].
  rewrite <-El, <-Hdata, <-Eb.
  apply bc_data; [rewrite El; apply Hrep; by rewrite Eb, Hdata| |done|rewrite Eb, Hdata; lia|done].
  rewrite El. apply (known_file_hash _ _ h); [|done|done|done|done|lia].
  eapply file_hash_other; [|apply not_eq_sym, file_not_sector|exact Hf].
  eexists _, _. split; [exact Hget|]. left. apply (bool_decide_unpack _). vm_compute. exact I.
Qed.

Lemma block_published fuel doc_fuel sb counter partition_offset metadata w write id start fsize path :
  0 < block_size sb ≤ 65536 → block_size sb `mod` SECTOR_SIZE = 0 → (1 < doc_fuel)%nat →
  ready (in_store w) →
  known_block (applied (in_store w)) (block_size sb) write id start fsize path →
  ∃ w', qemu_deep_inspect (S fuel) doc_fuel sb counter vmname partition_offset write
          metadata w = Some (w', EXIT_SUCCESS) ∧
    issued (in_store w)
      (block_published_cmds (block_size sb) counter write id start fsize path) (in_store w').
Proof.
  intros Hbs Hmod Hfuel Hr Hk.
  destruct (known_block_cmds _ sb counter write id start fsize path Hbs Hmod Hk) as [Hw Hc].
  by apply (deep_inspect_ok host fuel doc_fuel sb counter vmname partition_offset write metadata w 1).
Qed.
End write.

(** What the loader leaves about the [i]-th mapped block, as long as the keys
    of the file and of the sector are left alone. *)
Lemma loaded_block_known `{MallocTotal} `{KeyValue} d0 d id sector offset num po bs prefix inode n i
    blk data :
  let blocks := mapped_blocks inode 0 n in
  let sec := file_sector po bs inode blk in
  let loaded := exec_all d0 (header_cmds id sector offset num prefix inode ++
                             blocks_cmds id po bs inode 0 blocks) in
  0 < bs ≤ 65536 → Z.of_nat n ≤ 2 ^ 32 → 0 ≤ id < 2 ^ 64 →
  is_Some (hash_of (value_at d0 (file_key id))) → NoDup (stored_sector po bs inode <$> blocks) →
  Forall (λ c, c ≠ 0) prefix → 0 < zlen prefix < PATH_MAX → ext4_file_size inode < 2 ^ 64 →
  blocks !! i = Some blk → 0 ≤ sec < 2 ^ 31 → Z.of_nat i * bs ≤ ext4_file_size inode →
  zlen data = bs →
  (∀ k, k ∈ [file_key id; sector_key sec] → value_at d k = value_at loaded k) →
  known_block d bs {| w_sector_num := sec; w_nb_sectors := bs `div` SECTOR_SIZE; w_data := data |}
    id (Z.of_nat i * bs) (ext4_file_size inode) prefix.
Proof.
  intros blocks sec loaded Hbs Hn Hid [h Hhash] Hnd Hc Hp Hsz Hb Hsec Hst Hd Hkeys.
  assert (stored_sector po bs inode blk = sec) as Esec
    by (unfold stored_sector; fold sec; rewrite swrap_small, uwrap_small; lia).
  assert (Z.of_nat i < 2 ^ 32) as Hi.
  { apply lookup_lt_Some in Hb. unfold blocks, mapped_blocks in Hb.
    pose proof (length_filter (λ k, mapped inode k = true) (seqZ 0 (Z.of_nat n))) as Hle.
    rewrite length_seqZ in Hle. lia. }
  split; cbn [w_sector_num w_nb_sectors w_data]; [done|done|lia|nia|done| | |done|done].
  - rewrite Hkeys by (apply list_elem_of_further, list_elem_of_here).
    unfold loaded. rewrite exec_all_app, <-Esec.
    rewrite (blocks_pointer id po bs inode blocks i blk); [|lia|lia|exact Hnd|exact Hb].
    do 3 f_equal. lia.
  - set (h0 := foldl store_elem h [e_int64 "inode_offset" offset; e_int32 "inode_num" num]).
    exists (foldl store_elem h0 (inode_elems prefix inode)). split; [|apply inode_hash].
    unfold file_hash. rewrite Hkeys by (apply list_elem_of_here).
    unfold loaded. rewrite exec_all_app.
    rewrite blocks_other; [|apply file_not_filesectors|].
    + unfold h0. rewrite <-foldl_app. by apply header_hash.
    + rewrite list_elem_of_fmap. intros (x & Ex & _). by apply file_not_sector in Ex.
Qed.

(** ** Properties *)

(** C5: what the crawler has found and the loader has stored is what a write is
    inspected by. Behind the document of a file, a write of the file's [i]-th
    mapped block is published, once, on the channel of the file's path, as the
    bytes from [i * bs] on, cut at the file's size; for this the inspector only
    needs the file's hash and the pointer of the sector as the loader left them,
    whatever has become of all other keys. The sectors of the file's blocks are
    different and fit the [int32_t] of the document. *)
Theorem loaded_block_published `{MallocTotal} `{Connected} `{!KeyValue} `{Host} host vmname fuel b
    m s fs bgds id sup sector offset num po prefix inode n :
  let bs := block_size sup in
  let fsize := ext4_file_size inode in
  let doc := doc_type "file" :: file_elems sector offset num po bs prefix inode n in
  let blocks := mapped_blocks inode 0 n in
  gethostname HOST_NAME_MAX = Some host → zlen vmname ≤ VM_NAME_MAX →
  0 < bs ≤ 65536 → bs `mod` SECTOR_SIZE = 0 → Z.of_nat n ≤ 2 ^ 32 → zlen (enc_doc doc) < 2 ^ 31 →
  (n < fuel)%nat → (15 < fuel)%nat → dec_rep m b [] (enc_elems doc ++ [0]) → ready s →
  0 ≤ id < 2 ^ 64 → is_Some (hash_of (value_at (applied s) (file_key id))) →
  NoDup (stored_sector po bs inode <$> blocks) →
  Forall (λ c, c ≠ 0) prefix → 0 < zlen prefix < PATH_MAX → fsize < 2 ^ 64 →
  ∃ b' s',
    qemu_load_document fuel s b true (set_counters fs bgds id sup)
      = Some (b', s', set_counters fs bgds (u64 (id + 1)) sup, EXIT_SUCCESS) ∧ ready s' ∧
    ∀ i blk data w depth doc_fuel counter po' metadata,
      blocks !! i = Some blk → 0 ≤ file_sector po bs inode blk < 2 ^ 31 →
      Z.of_nat i * bs ≤ fsize → zlen data = bs → (1 < doc_fuel)%nat → ready (in_store w) →
      (∀ k, k ∈ [file_key id; sector_key (file_sector po bs inode blk)] →
            value_at (applied (in_store w)) k = value_at (applied s') k) →
      let write := {| w_sector_num := file_sector po bs inode blk;
                      w_nb_sectors := bs `div` SECTOR_SIZE; w_data := data |} in
      ∃ w', qemu_deep_inspect (S depth) doc_fuel sup counter vmname po' write metadata w
            = Some (w', EXIT_SUCCESS) ∧
        issued (in_store w)
          (block_published_cmds host vmname bs counter write id (Z.of_nat i * bs) fsize prefix)
          (in_store w').
Proof.
  intros bs fsize doc blocks Hh Hv Hbs Hmod Hn Hl Hfuel Hfuel' Hr Hs Hid Hhash Hnd Hc Hp Hsz.
  destruct (crawled_file_load_ok fuel b m s fs bgds id sup sector offset num po prefix inode n)
    as (b' & s' & E & Hr' & Ha); [lia|done..|].
  exists b', s'. split; [exact E|]. split; [exact Hr'|].
  intros i blk data w depth doc_fuel counter po' metadata Hb Hsec Hst Hd Hdf Hrw Hkeys write.
  apply block_published; [done..|].
  eapply (loaded_block_known (applied s)); try done. intros k Hk. by rewrite Hkeys, Ha.
Qed.

(** An idle store connected to a server with strings and hashes. *)
Definition empty_store : @kv_store kv_server (@local_hiredis kv_server) :=
  @Build_kv_store kv_server (@local_hiredis kv_server) (∅, []) 0 0.

(** 1500 bytes in the blocks 2 and 3 of the device. *)
Definition two_block_inode : list Z :=
  [0x80; 0x81; 0; 0] ++ [0xdc; 5; 0; 0] ++ replicate 24 0 ++ [0; 0; 8; 0] ++ replicate 4 0 ++
  [0x0a; 0xf3; 1; 0; 4; 0; 0; 0; 0; 0; 0; 0] ++ [0; 0; 0; 0; 2; 0; 0; 0; 2; 0; 0; 0] ++
  replicate 92 0.

#[local] Instance witness_keys : RedisServer | 0 := kv_server.

(** A write to sector 6, the second block: its first 476 bytes are the file's. *)
Lemma loaded_block_published_witness :
  let doc := doc_type "file" :: file_elems 10 128 12 0 1024 (str_bytes "/a") two_block_inode 2 in
  let data := replicate 1024 1 in
  ∃ b' s' w',
    qemu_load_document 16 empty_store
      (witness_info (enc_elems doc ++ [0]) (zlen (enc_elems doc ++ [0]))) true
      (set_counters 0 0 7 witness_super)
    = Some (b', s', set_counters 0 0 8 witness_super, EXIT_SUCCESS) ∧
    qemu_deep_inspect 1 2 witness_super 5 (str_bytes "vm") 0
      {| w_sector_num := 6; w_nb_sectors := 2; w_data := data |} false
      {| in_store := s'; in_metadata := file_of []; in_load := initial_load |}
    = Some (w', EXIT_SUCCESS) ∧
    issued s'
      [cmd REDIS_SECTOR_GET [AInt 6]; file_field "path" 7; file_field "size" 7;
       cmd REDIS_ENQUEUE_WRITE [AInt 6; AInt REDIS_DEFAULT_TIMEOUT; ABin (replicate 476 1)];
       publish (str_bytes "localhost:vm:/a") (data_elems 5 1024 2048 (replicate 476 1))]
      (in_store w').
Proof.
  intros doc data.
  destruct (loaded_block_published (str_bytes "localhost") (str_bytes "vm") 16
    (witness_info (enc_elems doc ++ [0]) (zlen (enc_elems doc ++ [0]))) (enc_elems doc ++ [0])
    empty_store 0 0 7 witness_super 10 128 12 0 (str_bytes "/a") two_block_inode 2)
    as (b' & s' & E & Hr & Hw).
  - done.
  - by vm_compute.
  - split; by vm_compute.
  - by vm_compute.
  - lia.
  - by vm_compute.
  - lia.
  - lia.
  - split; [done|by exists []; rewrite app_nil_r|done|done|by vm_compute].
  - split; [done|by vm_compute].
  - lia.
  - by exists ∅.
  - apply (bool_decide_unpack _). by vm_compute.
  - apply (bool_decide_unpack _). by vm_compute.
  - split; by vm_compute.
  - by vm_compute.
  - assert (file_sector 0 (block_size witness_super) two_block_inode 1 = 6) as Es by (by vm_compute).
    specialize (Hw 1%nat 1 data {| in_store := s'; in_metadata := file_of []; in_load := initial_load |}
      0%nat 2%nat 5 0 false). cbv zeta in Hw. rewrite Es in Hw.
    destruct Hw as (w' & E' & Hi).
    + by vm_compute.
    + lia.
    + by vm_compute.
    + by vm_compute.
    + lia.
    + exact Hr.
    + intros k _. reflexivity.
    + exists b', s', w'. split; [exact E|]. split; [exact E'|].
      match type of Hi with issued _ ?l _ =>
        assert (l = [cmd REDIS_SECTOR_GET [AInt 6]; file_field "path" 7; file_field "size" 7;
          cmd REDIS_ENQUEUE_WRITE [AInt 6; AInt REDIS_DEFAULT_TIMEOUT; ABin (replicate 476 1)];
          publish (str_bytes "localhost:vm:/a") (data_elems 5 1024 2048 (replicate 476 1))]) as <-
          by (by vm_compute) end.
      exact Hi.
Defined.
