(* ===== verification/Inferencer.v ===== *)
(** * src/gray-inferencer/gray-inferencer.c: the writes of the queue are
      inspected, one after the other

    The file of documents is loaded into the store, then every write of the
    queue is handed to the inspection. On a live connection the loop does not
    end, so it is modelled by the number of its turns. *)
From S2P Require Import Prelude Words Memory Stdio RedisEnv Redis InspectLoad InspectEmit Inspect.

#[local] Open Scope Z_scope.

Section inferencer.
Context `{Malloc} `{Hiredis} `{Host}.

(** One turn of [read_loop]; [Some rc] leaves it. *)
Definition infer_turn (fuel doc_fuel : nat) (sb : super_info) (write_counter : Z)
    (vmname : list Z) (partition_offset : Z) (w : inspector) : option (inspector * option Z) :=
  '(s, write, rc) ← redis_async_write_dequeue (in_store w);
  let w := set_store s w in
  if negb (rc =? EXIT_SUCCESS) then Some (w, Some EXIT_SUCCESS) else
  '(w, _) ← qemu_deep_inspect fuel doc_fuel sb write_counter vmname partition_offset write true w;
  Some (w, None).

(** [None] as the result: still running. *)
Fixpoint infer_turns (turns fuel doc_fuel : nat) (sb : super_info) (write_counter : Z)
    (vmname : list Z) (partition_offset : Z) (w : inspector) : option (inspector * option Z) :=
  match turns with
  | O => Some (w, None)
  | S turns =>
      '(w, r) ← infer_turn fuel doc_fuel sb write_counter vmname partition_offset w;
      match r with
      | Some rc => Some (w, Some rc)
      | None => infer_turns turns fuel doc_fuel sb (u64 (write_counter + 1)) vmname
                  partition_offset w
      end
  end.

Definition inferencer_read_loop (turns fuel doc_fuel : nat) (vmname : list Z) (w : inspector) :
    option (inspector * option Z) :=
  '(s, sb, rc) ← qemu_get_superinfo (in_store w) 0;
  let w := set_store s w in
  if negb (rc =? EXIT_SUCCESS) then Some (w, Some EXIT_FAILURE) else
  '(s, partition_offset, rc) ← qemu_get_pt_offset (in_store w) 0;
  let w := set_store s w in
  if negb (rc =? EXIT_SUCCESS) then Some (w, Some EXIT_FAILURE) else
  infer_turns turns fuel doc_fuel sb 0 vmname partition_offset w.

(** [x] and [err] are what [redisConnectWithTimeout] returned. The stream of
    documents has been read to its end when the loop starts; the position does
    not matter, [__load] seeks. An [exit] behind the registration of
    [redis_shutdown] runs it. *)
Definition inferencer_main (turns fuel doc_fuel : nat) (argc : Z) (x : redisContext) (err : Z)
    (db vmname : list Z) (indexf : option FILE) : option (option inspector * option Z) :=
  if argc <? 4 then Some (None, Some EXIT_FAILURE) else
  match indexf with
  | None => Some (None, Some EXIT_FAILURE)
  | Some indexf =>
      match redis_init x err db with
      | None => Some (None, Some EXIT_FAILURE)
      | Some handle =>
          '(s, σ, rc) ← qemu_load_index fuel doc_fuel indexf handle initial_load;
          let w := {| in_store := s; in_metadata := indexf; in_load := σ |} in
          let exit_with (w : inspector) rc :=
            s ← redis_shutdown (in_store w) []; Some (Some (set_store s w), Some rc) in
          if negb (rc =? EXIT_SUCCESS) then exit_with w EXIT_FAILURE else
          let w := set_store (redis_flush_pipeline (in_store w)).1 w in
          '(w, ret) ← inferencer_read_loop turns fuel doc_fuel vmname w;
          match ret with
          | None => Some (Some w, None)
          | Some ret => exit_with (set_store (redis_flush_pipeline (in_store w)).1 w) ret
          end
      end
  end.
End inferencer.
