(* ===== verification/InferencerProps.v ===== *)
(** * The queuer and the inferencer together

    What the queuer reads from its stream and keeps is what the inferencer
    inspects, when the queuer's exit has executed it: the same writes, in the
    same order, each once. *)
From S2P Require Import Prelude Words Memory Struct Stdio Bitarray Bson RedisEnv Redis RedisProps StoreView Filter Queuer QueuerProps InspectLoad InspectLoadProps InspectIndex InspectEmit InspectEmitProps Ext4 Inspect InspectProps Inferencer.

#[local] Open Scope string_scope.
#[local] Open Scope list_scope.
#[local] Open Scope Z_scope.

(** ** The queue is a key of its own *)

(** The other commands the inspection of data issues. *)
Definition inspection_formats : list string :=
  [REDIS_SECTOR_GET; REDIS_ENQUEUE_WRITE; REDIS_DEL_WRITE; REDIS_FILE_SECTOR_GET;
   REDIS_PUBLISH; REDIS_SUPERBLOCK_SECTOR_GET].

(** They name other keys than [writequeue], and leave it alone. *)
Class QueueKey `{WriteQueue} :=
  exec_other d c : c_fmt c ∈ inspection_formats →
                   write_queue (exec d c).1 = write_queue d.

Definition leaves_queue (c : command) : Prop := c_fmt c ∈ inspection_formats.

Lemma leaves_format fmt args :
  bool_decide (fmt ∈ inspection_formats) = true → leaves_queue (cmd fmt args).
Proof. apply bool_decide_eq_true. Qed.

Ltac format_known := apply leaves_format; vm_compute; reflexivity.

Lemma exec_all_leaves_queue `{QueueKey} cs : ∀ d,
  Forall leaves_queue cs → write_queue (exec_all d cs) = write_queue d.
Proof.
  induction cs as [|c cs IH]; intros d Hcs; [done|]. apply Forall_cons_1 in Hcs as [Hc Hcs].
  unfold exec_all in *. cbn [foldl]. rewrite IH by done. by apply exec_other.
Qed.

Lemma issued_leaves_queue `{Malloc} `{Connected} `{!WriteQueue} `{!QueueKey} s cs s' :
  issued s cs s' → Forall leaves_queue cs → pending_writes s' = pending_writes s.
Proof.
  intros [_ Ha] Hcs. unfold pending_writes, applied in *. rewrite Ha.
  by apply exec_all_leaves_queue.
Qed.

Lemma data_cmds_leave_queue `{Malloc} channel write_counter start end_ file fsize write_len sector d :
  Forall leaves_queue (data_cmds channel write_counter start end_ file fsize write_len sector d).
Proof.
  unfold data_cmds. do 2 (constructor; [format_known|]).
  apply Forall_app. split; [case_test; [constructor; [format_known|]|]; constructor|].
  apply Forall_app. split; [case_test; [constructor; [format_known|]|]; constructor|].
  constructor; [format_known|constructor].
Qed.

Lemma write_cmds_leave_queue `{Malloc} `{Connected} host sb write_counter vmname write d i n cs :
  write_cmds host sb write_counter vmname write d i n cs → Forall leaves_queue cs.
Proof.
  induction 1 as [|d i cs n cs' Hi Hb _ IH]; [constructor|].
  apply Forall_app. split; [|done]. destruct Hb.
  - do 2 (constructor; [format_known|]). constructor.
  - constructor; [format_known|]. apply data_cmds_leave_queue.
Qed.

Section turns.
Context `{MallocTotal} `{Connected} `{!WriteQueue} `{Host}.

Definition pop_cmd : command := cmd REDIS_ASYNC_QUEUE_POP [].

(** ** What the inferencer does with the writes of the queue *)

(** From the data [d] on, with [c] writes already counted, inspecting [ws]
    issues [cs]; a write has no more than [bound] blocks. *)
Inductive inspected (host vmname : list Z) (sb : super_info) (bound : nat) :
    db → Z → list qemu_bdrv_write → list command → Prop :=
  | inspected_nil d c : inspected host vmname sb bound d c [] []
  | inspected_cons d c x xs n cs cs' :
      write_ok sb x → (n < bound)%nat →
      write_cmds host sb c vmname x (exec_all d [pop_cmd; pop_cmd]) 0 n cs →
      inspected host vmname sb bound (exec_all d (pop_cmd :: pop_cmd :: cs)) (u64 (c + 1)) xs cs' →
      inspected host vmname sb bound d c (x :: xs) (pop_cmd :: pop_cmd :: cs ++ cs').

Lemma dequeue_ready s x rest :
  ready s → guest_write x → pending_writes s = queue_pair x ++ rest →
  ∃ s', redis_async_write_dequeue s = Some (s', x, EXIT_SUCCESS) ∧
    issued s [pop_cmd; pop_cmd] s' ∧ pending_writes s' = rest.
Proof.
  intros [Hs Hp] [Hsec Hnb Hb Hd] Hq.
  destruct (write_dequeue_ok s (w_sector_num x) (w_data x) rest Hs Hsec ltac:(lia) Hq)
    as (s' & E & Hs' & Eq & Ed & Hr).
  exists s'. split.
  - rewrite E. do 3 f_equal. destruct x as [sec nb data]; cbn [w_sector_num w_nb_sectors w_data] in *.
    rewrite Hd, Z.div_mul by lia. done.
  - split; [|done]. split; [split; [done|]|].
    + destruct Hs' as [E' _]. rewrite E', Eq. by unfold REDIS_DEFAULT_PIPELINED.
    + unfold applied. by rewrite Eq, Ed, exec_all_app.
Qed.

Context `{!QueueKey}.
Context (host vmname : list Z) (Hh : gethostname HOST_NAME_MAX = Some host).
Context (Hv : zlen vmname ≤ VM_NAME_MAX).

Lemma infer_turns_ok fuel bound sb partition_offset ws : ∀ c w cs rest,
  ready (in_store w) → Forall guest_write ws →
  pending_writes (in_store w) = concat (queue_pair <$> ws) ++ rest →
  inspected host vmname sb bound (applied (in_store w)) c ws cs →
  ∃ w', infer_turns (length ws) (S fuel) bound sb c vmname partition_offset w = Some (w', None) ∧
    issued (in_store w) cs (in_store w') ∧ pending_writes (in_store w') = rest.
Proof.
  induction ws as [|x ws IH]; intros c w cs rest Hr Hws Hq Hi; inversion Hi; simplify_eq.
  { exists w. split; [done|]. split; [by apply issued_refl|done]. }
  apply Forall_cons_1 in Hws as [Hx Hws]. cbn [fmap list_fmap concat] in Hq.
  rewrite <-app_assoc in Hq.
  destruct (dequeue_ready _ x _ Hr Hx Hq) as (s1 & E1 & Hi1 & Hq1).
  cbn [length infer_turns]. unfold infer_turn at 1. rewrite (bind_Some_eq _ _ _ E1).
  cbn [Z.eqb EXIT_SUCCESS negb].
  destruct (deep_inspect_ok host fuel bound sb c vmname partition_offset x true
    (set_store s1 w) n cs0) as (w2 & E2 & Hi2); try done; cbn [in_store set_store] in *.
  { by eapply issued_ready. }
  { destruct Hi1 as [_ ->]. done. }
  rewrite E2. cbn [mbind option_bind].
  assert (issued (in_store w) (pop_cmd :: pop_cmd :: cs0) (in_store w2)) as Hi12
    by exact (issued_trans _ _ _ _ _ Hi1 Hi2).
  destruct (IH (u64 (c + 1)) w2 cs' rest) as (w3 & E3 & Hi3 & Hq3); [by eapply issued_ready|done| | |].
  - rewrite <-Hq1. apply (issued_leaves_queue _ _ _ Hi2).
    eapply write_cmds_leave_queue; eassumption.
  - destruct Hi12 as [_ ->]. eassumption.
  - exists w3. split; [exact E3|]. split; [|done].
    exact (issued_trans _ _ _ _ _ Hi12 Hi3).
Qed.

(** ** The loop *)

Definition pt_offset_cmd : command :=
  cmd REDIS_SUPERBLOCK_SECTOR_GET [AInt 0; AStr (str_bytes "first_sector_lba")].

(** What is asked before the first write. *)
Definition setup_cmds : list command := super_cmds 0 ++ [pt_offset_cmd].

Lemma setup_leaves_queue : Forall leaves_queue setup_cmds.
Proof. repeat constructor; format_known. Qed.

Lemma inferencer_read_loop_ok fuel bound ws w cs rest :
  ready (in_store w) → Forall guest_write ws →
  pending_writes (in_store w) = concat (queue_pair <$> ws) ++ rest →
  inspected host vmname (super_of (applied (in_store w)) 0) bound
    (exec_all (applied (in_store w)) setup_cmds) 0 ws cs →
  ∃ w', inferencer_read_loop (length ws) (S fuel) bound vmname w = Some (w', None) ∧
    issued (in_store w) (setup_cmds ++ cs) (in_store w') ∧ pending_writes (in_store w') = rest.
Proof.
  intros Hr Hws Hq Hi. unfold inferencer_read_loop.
  destruct (get_superinfo_ok (in_store w) 0 Hr) as (s1 & E1 & Hi1).
  rewrite (bind_Some_eq _ _ _ E1). cbn [Z.eqb EXIT_SUCCESS negb]. unfold qemu_get_pt_offset.
  cbn [in_store set_store].
  destruct (get_field_ok s1 REDIS_SUPERBLOCK_SECTOR_GET 0 "first_sector_lba" 4 0)
    as (s2 & E2 & Hi2); [eauto with store|].
  rewrite (bind_Some_eq _ _ _ E2). cbn [mbind option_bind Z.eqb EXIT_SUCCESS negb].
  assert (issued (in_store w) setup_cmds s2) as Hi12 by (by eapply issued_trans).
  match goal with |- context [infer_turns _ _ _ _ _ _ ?po ?w2] =>
    destruct (infer_turns_ok fuel bound (super_of (applied (in_store w)) 0) po ws 0 w2 cs rest)
      as (w3 & E3 & Hi3 & Hq3); cbn [in_store set_store] in * end.
  - by eapply issued_ready.
  - done.
  - rewrite <-Hq. apply (issued_leaves_queue _ _ _ Hi12), setup_leaves_queue.
  - destruct Hi12 as [_ ->]. exact Hi.
  - exists w3. split; [exact E3|]. split; [by eapply issued_trans|done].
Qed.
End turns.

(** ** A server for the witness: a queue, and a file system with blocks of 512 bytes *)

Definition fs_exec (d : list (list Z)) (c : command) : list (list Z) * redisReply :=
  if bool_decide (c = super_cmd 0 "block_size") then (d, RString (le_enc 8 512))
  else queue_exec d c.

#[local] Instance fs_server : RedisServer | 0 := {| db := list (list Z); exec := fs_exec |}.

#[local, refine] Instance fs_write_queue : WriteQueue | 0 :=
  {| write_queue := (λ d, d) : db → list (list Z) |}.
Proof.
  - done.
  - intros d x xs E. simpl in *. subst d. by do 3 eexists.
Defined.

#[local] Instance fs_queue_key : QueueKey | 0.
Proof.
  intros d c Hc. apply (bool_decide_pack _) in Hc. cbn [write_queue fs_write_queue exec fs_server]. unfold fs_exec.
  case_test; [done|]. unfold queue_exec.
  destruct (String.eqb_spec (c_fmt c) REDIS_ASYNC_QUEUE_PUSH) as [E|_].
  { by rewrite E in Hc. }
  destruct (String.eqb_spec (c_fmt c) REDIS_ASYNC_QUEUE_POP) as [E|_]; [|done].
  by rewrite E in Hc.
Qed.

Definition witness_sector_write : qemu_bdrv_write :=
  {| w_sector_num := 2048; w_nb_sectors := 1; w_data := replicate 512 7 |}.

Definition witness_stream : stream := [Some (take 20 (enc_write witness_sector_write));
                                       Some (drop 20 (enc_write witness_sector_write))].

Definition fs_store (d : list (list Z)) : kv_store :=
  {| kv_connection := (d, []) : redisContext; kv_cmds := 0; kv_bytes := 0 |}.

Lemma fs_store_ready d : ready (fs_store d).
Proof. split; [split; reflexivity|reflexivity]. Qed.

Definition fs_inspector (d : list (list Z)) : inspector :=
  {| in_store := fs_store d; in_metadata := file_of []; in_load := initial_load |}.

Lemma fs_inspected :
  let d := queue_pair witness_sector_write in
  ∃ cs, inspected (str_bytes "localhost") (str_bytes "vm") (super_of (d : db) 0) 2
    (exec_all (d : db) setup_cmds) 0 [witness_sector_write] cs.
Proof.
  intros d. eexists. eapply inspected_cons with (n := 1%nat).
  - split; by vm_compute.
  - lia.
  - eapply (wc_block _ _ _ _ _ _ _ _ 0); [by vm_compute|apply bc_unknown; by vm_compute|].
    apply wc_end. by vm_compute.
  - apply inspected_nil.
Qed.

(** ** Properties *)

(** C9: what the queuer takes off its stream the inferencer inspects. Whatever
    the schedule of the queuer's threads, if it ends in a calm exit, the writes
    it has kept ([kept_writes]: all but those a taken lock makes it drop) stand
    in the queue behind the writes [ws0] that were there before, and the
    inferencer inspects all of these, each once, in their order, as the write it
    was, with its number as the counter; the queue is empty in the end. The
    inferencer finds the data as the queuer has left it, and [cs] are the
    commands the inspections issue there by [inspected]: the specification of
    [qemu_deep_inspect] for blocks that are unknown or hold data of files. *)
Theorem queued_writes_inspected `{MallocTotal} `{Connected} `{!WriteQueue} `{!QueueKey}
    `{!Threads} `{Host} fuel argc x database indexf bits fd ws0 ws tail rc host vmname bound depth :
  4 ≤ argc → queued x = [] →
  queuer_filter fuel indexf = Some (Some bits) → bitarray_wf bits →
  Forall guest_write ws → carries fd (concat (enc_write <$> ws) ++ tail) → stream_end tail rc →
  (length ws < fuel)%nat →
  write_queue (exec (data_of x) (cmd "SELECT %s" [AStr database])).1 = queue_of ws0 →
  Forall guest_write ws0 →
  gethostname HOST_NAME_MAX = Some host → zlen vmname ≤ VM_NAME_MAX →
  let all := ws0 ++ kept_writes bits 0 ws in
  ∃ h fd' σ',
    redis_init x 0 database = Some h ∧
    queuer_read_loop fuel fd bits {| s_kv := h; s_taken := []; s_jobs := [] |}
      = Some (fd', σ', rc) ∧
    (calm_exit fuel σ' →
     ∃ s, queuer_main fuel argc x 0 database (Some indexf) (Some fd)
          = Some (Some s, EXIT_SUCCESS) ∧
       ∀ w cs,
         ready (in_store w) → applied (in_store w) = data_of (kv_connection s) →
         inspected host vmname (super_of (applied (in_store w)) 0) bound
           (exec_all (applied (in_store w)) setup_cmds) 0 all cs →
         ∃ w', inferencer_read_loop (length all) (S depth) bound vmname w = Some (w', None) ∧
           issued (in_store w) (setup_cmds ++ cs) (in_store w') ∧
           pending_writes (in_store w') = []).
Proof.
  intros Ha Hx Hbits Hwf Hws Hc He Hf Hq Hws0 Hh Hv all.
  destruct (queuer_main_ok fuel argc x database indexf bits fd ws tail rc)
    as (h & fd' & σ' & Eh & El & Hacc & Hp & Em); [done..|].
  exists h, fd', σ'. split; [done|]. split; [done|]. intros Hcalm.
  destruct (queuer_exit_ok fuel σ' Hacc Hcalm) as (s & Ex & Ed & _).
  exists s. rewrite Em, Ex. split; [done|]. intros w cs Hr Hd Hi.
  apply (inferencer_read_loop_ok host vmname Hh Hv); [done| | |done].
  - apply Forall_app. split; [done|by apply kept_writes_guest].
  - unfold pending_writes. fold (applied (in_store w)). rewrite Hd, Ed, app_nil_r.
    unfold pending_writes in Hp. fold (applied (s_kv σ')) in Hp.
    by rewrite Hp, Hq, <-queue_of_app.
Qed.

#[local, refine] Instance quiet_threads `{Malloc} `{Hiredis} : Threads | 0 :=
  {| others _ σ := σ; at_exit _ σ := σ; conn_locked _ := false; cmd_locked _ := false |}.
Proof. all: intros; apply relations.rtc_refl. Defined.

Lemma queued_writes_inspected_witness :
  ∃ s w', queuer_main 2 4 (kv_connection (fs_store [])) 0 [52] (Some witness_queuer_index)
            (Some witness_stream) = Some (Some s, EXIT_SUCCESS) ∧
    inferencer_read_loop 1 1 2 (str_bytes "vm") (fs_inspector (data_of (kv_connection s)))
      = Some (w', None).
Proof.
  destruct (queued_writes_inspected 2 4 (kv_connection (fs_store [])) [52] witness_queuer_index
    {| ba_array := [255]; ba_len := 8 |} witness_stream [] [witness_sector_write] [] EXIT_SUCCESS
    (str_bytes "localhost") (str_bytes "vm") 2 0) as (h & fd' & σ' & Eh & El & Hend).
  - lia.
  - done.
  - vm_compute. reflexivity.
  - split; [by exists 3|done|repeat constructor; discriminate].
  - repeat constructor; simpl; lia.
  - exists [take 20 (enc_write witness_sector_write); drop 20 (enc_write witness_sector_write)].
    split; [reflexivity|]. split; [|vm_compute; reflexivity].
    repeat constructor; vm_compute; discriminate.
  - by apply end_header.
  - simpl. lia.
  - vm_compute. reflexivity.
  - by apply list.Forall_nil.
  - vm_compute. reflexivity.
  - vm_compute. discriminate.
  - assert (match redis_init (kv_connection (fs_store [])) 0 [52] with
            | Some h =>
                match queuer_read_loop 2 witness_stream {| ba_array := [255]; ba_len := 8 |}
                        {| s_kv := h; s_taken := []; s_jobs := [] |} with
                | Some (_, σ, _) => s_taken σ = [] ∧ s_jobs σ = []
                | None => False
                end
            | None => False
            end) as M by (vm_compute; by split).
    rewrite Eh, El in M. destruct M as [Ht Hj].
    destruct Hend as (s & E & Hi).
    { split; [exact Ht|intros; apply relations.rtc_refl|]. exists 0%nat. split; [lia|exact Hj]. }
    destruct fs_inspected as [cs Hcs].
    assert (data_of (kv_connection s) = queue_pair witness_sector_write) as Es.
    { assert (match queuer_main 2 4 (kv_connection (fs_store [])) 0 [52]
                      (Some witness_queuer_index) (Some witness_stream) with
              | Some (Some s, _) => data_of (kv_connection s) = queue_pair witness_sector_write
              | _ => False
              end) as M by (vm_compute; reflexivity).
      rewrite E in M. exact M. }
    destruct (Hi (fs_inspector (data_of (kv_connection s))) cs) as (w' & Ew & _).
    + apply fs_store_ready.
    + reflexivity.
    + rewrite Es. exact Hcs.
    + exists s, w'. split; [exact E|exact Ew].
Defined.
