(* ===== verification/NbdInfer.v ===== *)
(** * NBD server and inferencer composed

    What a guest writes through the NBD server is what the inferencer inspects:
    the two programs meet in the list [writequeue] of the Redis server. *)
From S2P Require Import Prelude Words Memory Struct Stdio NbdEnv Nbd NbdSpec NbdProps RedisEnv Redis RedisProps StoreView KeyValue Filter Queuer QueuerProps InspectLoad InspectLoadProps InspectIndex InspectEmit InspectEmitProps Ext4 Inspect InspectProps Inferencer InferencerProps.

#[local] Open Scope string_scope.
#[local] Open Scope list_scope.
#[local] Open Scope Z_scope.

(** ** The writes among the requests *)

(** The write as the inferencer takes it off the queue. *)
Definition write_of (r : request) : list qemu_bdrv_write :=
  match r with
  | RWrite _ off d =>
      [{| w_sector_num := off `div` 512; w_nb_sectors := zlen d `div` 512; w_data := d |}]
  | _ => []
  end.

Definition writes_of (rs : list request) : list qemu_bdrv_write := concat (write_of <$> rs).

(** A client that addresses whole sectors, and writes less than 2 GiB at once. *)
Definition aligned (r : request) : Prop :=
  match r with
  | RWrite _ off d => off mod 512 = 0 ∧ zlen d mod 512 = 0 ∧ zlen d < 2 ^ 31
  | _ => True
  end.

(** The commands a queued write becomes. *)
Definition push_cmds (ws : list qemu_bdrv_write) : list command :=
  (λ x, cmd REDIS_ASYNC_QUEUE_PUSH [ABin x]) <$> concat (queue_pair <$> ws).

Lemma push_words x : command_words (cmd REDIS_ASYNC_QUEUE_PUSH [ABin x]) = lpush x.
Proof. cbv -[app]. cbn [app]. by rewrite app_nil_r. Qed.

Lemma request_words disk r disk' rep cmds :
  spec_request disk r = Some (disk', rep, cmds) → cmds = command_words <$> push_cmds (write_of r).
Proof.
  intros E. destruct r; cbn [spec_request] in E; try (bind_inv E); simplify_eq; try done.
  unfold push_cmds. cbn [write_of fmap list_fmap concat queue_pair app].
  by rewrite !push_words.
Qed.

(** What the server sends to Redis are the words of these commands. *)
Lemma requests_words rs : ∀ disk disk' rep cmds,
  spec_requests disk rs = Some (disk', rep, cmds) → cmds = command_words <$> push_cmds (writes_of rs).
Proof.
  induction rs as [|r rs IH]; intros disk disk' rep cmds E; cbn [spec_requests] in E; [by simplify_eq|].
  bind_inv E. destruct x as [[d0 rep0] cmds0]. bind_inv E. destruct x as [[d1 rep1] cmds1].
  simplify_eq. apply request_words in E0 as ->. apply IH in E1 as ->.
  unfold push_cmds, writes_of. cbn [fmap list_fmap concat].
  by rewrite fmap_app, concat_app, !fmap_app.
Qed.

Lemma writes_guest rs : Forall req_ok rs → Forall aligned rs → Forall guest_write (writes_of rs).
Proof.
  intros Hok Ha. unfold writes_of. induction rs as [|r rs IH]; [constructor|].
  apply Forall_cons_1 in Hok as [Hr Hok]. apply Forall_cons_1 in Ha as [Har Ha].
  cbn [fmap list_fmap concat]. apply Forall_app. split; [|by apply IH].
  destruct r as [|hd off d| |]; [constructor| |constructor..]. constructor; [|constructor].
  cbn in Hr, Har. destruct Hr as [[_ Ho] Hd], Har as (_ & Hm & Hl).
  pose proof (Z.div_mod (zlen d) 512 ltac:(lia)).
  split; cbn [w_sector_num w_nb_sectors w_data]; [|lia|lia|lia].
  split; [apply Z.le_trans with 0; [lia|apply Z.div_pos; lia]|].
  apply Z.div_lt_upper_bound; lia.
Qed.

(** Redis has them in the queue, in order. *)
Lemma pushed_queue `{WriteQueue} ws d :
  write_queue (exec_all d (push_cmds ws)) = write_queue d ++ concat (queue_pair <$> ws).
Proof.
  unfold push_cmds. generalize (concat (queue_pair <$> ws)) as xs. intros xs. revert d.
  induction xs as [|x xs IH]; intros d; [by rewrite app_nil_r|].
  unfold exec_all in *. cbn [fmap list_fmap foldl]. by rewrite IH, exec_push, <-app_assoc.
Qed.

(** ** Properties *)


(** A write of sector 2 and a read of it, cut in the payload. *)
Definition witness_sectors : list request :=
  [RWrite 1 1024 (replicate 512 7); RRead 2 1024 4].

Definition witness_disk : list Z := replicate 2048 0.
Definition written_disk : list Z := replicate 1024 0 ++ replicate 512 7 ++ replicate 512 0.
Definition witness_reply_bytes : list Z := reply 0 1 ++ reply 0 2 ++ replicate 4 7.

Definition nbd_written : qemu_bdrv_write :=
  {| w_sector_num := 2; w_nb_sectors := 1; w_data := replicate 512 7 |}.

#[local] Existing Instance fs_server | 0.
#[local] Existing Instance fs_write_queue | 0.
#[local] Existing Instance fs_queue_key | 0.

Lemma nbd_inspected :
  let d := queue_pair nbd_written in
  ∃ cs, inspected (str_bytes "localhost") (str_bytes "vm") (super_of (d : db) 0) 2
    (exec_all (d : db) setup_cmds) 0 [nbd_written] cs.
Proof.
  intros d. eexists. eapply inspected_cons with (n := 1%nat).
  - split; by vm_compute.
  - lia.
  - eapply (wc_block _ _ _ _ _ _ _ _ 0); [by vm_compute|apply bc_unknown; by vm_compute|].
    apply wc_end. by vm_compute.
  - apply inspected_nil.
Qed.

