(* ===== verification/GuestWrites.v ===== *)
(** * From the guest's writes to the published updates

    NBD server, queue and inferencer composed with what the loader has left in
    the store: every write of a block of a known file is published. *)
From S2P Require Import Prelude Words Memory Struct Stdio NbdEnv Nbd NbdSpec NbdProps Bson RedisEnv Redis RedisProps StoreView KeyValue Filter Queuer QueuerProps InspectLoad InspectLoadProps InspectIndex InspectEmit InspectEmitProps Ext4 Inspect InspectProps LoadInspect Inferencer InferencerProps NbdInfer.

#[local] Open Scope string_scope.
#[local] Open Scope list_scope.
#[local] Open Scope Z_scope.

(** ** Commands that leave files and sectors alone *)

(** Where in which file a block is. *)
Record place := { pl_file : Z; pl_start : Z; pl_size : Z; pl_path : list Z }.

Definition known_at `{KeyValue} (d : db) (bs : Z) (p : qemu_bdrv_write * place) : Prop :=
  known_block d bs p.1 (pl_file p.2) (pl_start p.2) (pl_size p.2) (pl_path p.2).

Section watch.
Context `{KeyValue}.

(** The keys the inspection of a file's block depends on. *)
Definition watched (k : list Z) : Prop := ∃ n, k = file_key n ∨ k = sector_key n.

(** A command about another key, a question, or a message. *)
Inductive harmless (c : command) : Prop :=
  | h_other k : about c k → (∀ k', watched k' → k ≠ k') → harmless c
  | h_get k : command_words c = [str_bytes "GET"; k] → harmless c
  | h_hget k f : command_words c = [str_bytes "HGET"; k; f] → harmless c
  | h_publish channel x : command_words c = [str_bytes "PUBLISH"; channel; x] → harmless c.

Lemma value_at_read d c verb k args k' :
  command_words c = verb :: k :: args → verb ∈ one_key →
  value_at (exec d c).1 k = value_at d k → value_at (exec d c).1 k' = value_at d k'.
Proof.
  intros E Hv Hk. destruct (decide (k = k')) as [<-|Hne]; [done|].
  apply (exec_frame d c k); [|done]. exists verb, args. by split; [|left].
Qed.

Lemma value_at_harmless d c k : harmless c → watched k → value_at (exec d c).1 k = value_at d k.
Proof.
  intros [k' Hc Hk|k' E|k' f E|channel x E] Hw.
  - apply (exec_frame d c k'); [done|by apply Hk].
  - eapply value_at_read; [exact E|apply (bool_decide_unpack _); by vm_compute|].
    by apply exec_get.
  - eapply value_at_read; [exact E|apply (bool_decide_unpack _); by vm_compute|].
    by eapply exec_hget.
  - by eapply exec_publish.
Qed.

Lemma value_at_all_harmless cs k : ∀ d,
  Forall harmless cs → watched k → value_at (exec_all d cs) k = value_at d k.
Proof.
  induction cs as [|c cs IH]; intros d Hcs Hk; [done|].
  apply Forall_cons_1 in Hcs as [Hc Hcs]. unfold exec_all in *. cbn [foldl].
  rewrite IH by done. by apply value_at_harmless.
Qed.

(** ** The commands of the write queue and of the inspection *)

Ltac other_key :=
  let n := fresh in intros ? (n & [-> | ->]); unfold key_of;
  repeat match goal with |- context [arg_text ?a] => generalize (arg_text a); intros ? end;
  let E := fresh in intros E; cbv -[app] in E; cbn [app] in E; discriminate E.

Ltac about_other k :=
  apply (h_other _ k); [|other_key];
  unfold about; words_open; do 2 eexists;
  split; [words_close|first [left; apply (bool_decide_unpack _); vm_compute; exact I
                               | right; first [by left | by right]]].

Lemma harmless_push x : harmless (cmd REDIS_ASYNC_QUEUE_PUSH [ABin x]).
Proof. about_other (str_bytes "writequeue"). Qed.

Lemma harmless_pop : harmless pop_cmd.
Proof. unfold pop_cmd. about_other (str_bytes "writequeue"). Qed.

Lemma harmless_enqueue n t x : harmless (cmd REDIS_ENQUEUE_WRITE [AInt n; AInt t; ABin x]).
Proof. about_other (key_of "qsector:" n). Qed.

Lemma harmless_delqueue n : harmless (cmd REDIS_DEL_WRITE [AInt n]).
Proof. about_other (key_of "qsector:" n). Qed.

Lemma harmless_publish `{Malloc} channel es : harmless (publish channel es).
Proof. unfold publish. generalize (enc_doc es). intros x. eapply h_publish. words. Qed.

Lemma harmless_sector_get n : harmless (cmd REDIS_SECTOR_GET [AInt n]).
Proof. eapply h_get. apply words_sector_get. Qed.

Lemma harmless_file_field field id : harmless (file_field field id).
Proof. eapply h_hget. apply words_file_field. Qed.

Lemma harmless_superblock n f : harmless (cmd REDIS_SUPERBLOCK_SECTOR_GET [AInt n; AStr f]).
Proof. eapply (h_hget _ (key_of "fs:" n) f). words. Qed.

Lemma harmless_setup : Forall harmless setup_cmds.
Proof. repeat constructor; apply harmless_superblock. Qed.

Lemma harmless_pushes ws : Forall harmless (push_cmds ws).
Proof.
  unfold push_cmds. induction (concat (queue_pair <$> ws)); constructor; [|done].
  apply harmless_push.
Qed.

Lemma harmless_block `{Malloc} host vmname bs counter write id start fsize path :
  Forall harmless (block_published_cmds host vmname bs counter write id start fsize path).
Proof.
  unfold block_published_cmds, data_cmds. constructor; [apply harmless_sector_get|].
  repeat apply Forall_app_2.
  - repeat constructor; apply harmless_file_field.
  - case_test; repeat constructor. apply harmless_enqueue.
  - case_test; repeat constructor. apply harmless_delqueue.
  - repeat constructor. apply harmless_publish.
Qed.

(** So the inspection of a block leaves the other blocks known. *)
Lemma known_block_harmless d cs bs write id start fsize path :
  Forall harmless cs → known_block d bs write id start fsize path →
  known_block (exec_all d cs) bs write id start fsize path.
Proof.
  intros Hcs [Hnb Hdata Hn Hst Hid Hp (h & Hf & He) Hpath Hsz]. split; try done.
  - rewrite value_at_all_harmless; [done|done|by eexists; right].
  - exists h. split; [|done]. unfold file_hash.
    rewrite value_at_all_harmless; [exact Hf|done|by eexists; left].
Qed.

Lemma known_all_harmless d cs bs l :
  Forall harmless cs → Forall (known_at d bs) l → Forall (known_at (exec_all d cs) bs) l.
Proof.
  intros Hcs Hl. eapply list.Forall_impl; [exact Hl|]. intros p. by apply known_block_harmless.
Qed.
End watch.

(** ** The writes of a guest *)

(** What the inferencer does with the writes, from the counter [c] on. *)
Fixpoint published_cmds `{Malloc} (host vmname : list Z) (bs c : Z)
    (l : list (qemu_bdrv_write * place)) : list command :=
  match l with
  | [] => []
  | (w, p) :: l =>
      pop_cmd :: pop_cmd ::
      block_published_cmds host vmname bs c w (pl_file p) (pl_start p) (pl_size p) (pl_path p) ++
      published_cmds host vmname bs (u64 (c + 1)) l
  end.

Lemma inspected_published `{MallocTotal} `{Connected} `{!KeyValue} host vmname sb bound l : ∀ d c,
  0 < block_size sb ≤ 65536 → block_size sb `mod` SECTOR_SIZE = 0 → (1 < bound)%nat →
  Forall (known_at d (block_size sb)) l →
  inspected host vmname sb bound d c l.*1 (published_cmds host vmname (block_size sb) c l).
Proof.
  induction l as [|[w p] l IH]; intros d c Hbs Hmod Hb Hk; [constructor|].
  cbn [fmap list_fmap fst published_cmds].
  pose proof (λ cs Hcs, known_all_harmless d cs _ _ Hcs Hk) as Hall.
  assert (Forall harmless [pop_cmd; pop_cmd]) as Hpop by (repeat constructor; apply harmless_pop).
  destruct (known_block_cmds host vmname (exec_all d [pop_cmd; pop_cmd]) sb c w (pl_file p)
    (pl_start p) (pl_size p) (pl_path p)) as [Hw Hc]; [done|done| |].
  { by apply Hall, Forall_cons_1 in Hpop as [? _]. }
  apply (inspected_cons _ _ _ _ d c w l.*1 1); [exact Hw|exact Hb|exact Hc|].
  apply IH; [done|done|done|].
  match goal with |- Forall (known_at (exec_all d ?cs) _) _ =>
    assert (Forall harmless cs) as Hcs end.
  { do 2 (constructor; [apply harmless_pop|]).
    apply harmless_block. }
  by apply Hall, Forall_cons_1 in Hcs as [_ ?].
Qed.

(** ** A server with strings, hashes and the write queue *)

Definition queue_formats : list string := [REDIS_ASYNC_QUEUE_PUSH; REDIS_ASYNC_QUEUE_POP].

Definition kvq_exec (d : gmap (list Z) redis_value * list (list Z)) (c : command) :
    (gmap (list Z) redis_value * list (list Z)) * redisReply :=
  if bool_decide (c_fmt c ∈ queue_formats) then
    let '(q, r) := queue_exec d.2 c in ((d.1, q), r)
  else let '(m, r) := kv_exec d.1 c in ((m, d.2), r).

Definition kvq_server : RedisServer :=
  {| db := gmap (list Z) redis_value * list (list Z); exec := kvq_exec |}.

(** The commands of the queue have verbs of their own. *)
Lemma queue_verb c verb args :
  command_words c = verb :: args → c_fmt c ∈ queue_formats →
  verb = str_bytes "LPUSH" ∨ verb = str_bytes "BRPOP".
Proof.
  destruct c as [fmt args']. cbn [c_fmt]. intros E Hf.
  apply elem_of_cons in Hf as [->|Hf]; [|apply list_elem_of_singleton in Hf as ->].
  - left. unfold command_words in E. cbn [c_args c_fmt] in E.
    destruct (arg_text <$> args'); cbv -[app] in E; by simplify_eq.
  - right. cbv in E. by simplify_eq.
Qed.

Lemma kvq_exec_kv d c verb args :
  command_words c = verb :: args →
  bool_decide (verb = str_bytes "LPUSH" ∨ verb = str_bytes "BRPOP") = false →
  (kvq_exec d c).1.1 = (kv_exec d.1 c).1 ∧ (kvq_exec d c).2 = (kv_exec d.1 c).2.
Proof.
  intros E Hv. apply bool_decide_eq_false in Hv. unfold kvq_exec.
  case_bool_decide as Hf; [by destruct Hv; eapply queue_verb|]. by destruct (kv_exec d.1 c).
Qed.

Lemma kvq_exec_queue d c :
  c_fmt c ∈ queue_formats →
  (kvq_exec d c).1 = (d.1, (queue_exec d.2 c).1) ∧ (kvq_exec d c).2 = (queue_exec d.2 c).2.
Proof.
  intros Hf. unfold kvq_exec. rewrite bool_decide_true by done. by destruct (queue_exec d.2 c).
Qed.

Ltac kvq_verb E d c :=
  let E1 := fresh in let E2 := fresh in
  destruct (kvq_exec_kv d c _ _ E ltac:(by vm_compute)) as [E1 E2]; rewrite ?E1, ?E2; clear E1 E2.

Section kvq_exec.
Implicit Types d : gmap (list Z) redis_value * list (list Z).

Lemma kvq_exec_set d c k v :
  command_words c = [str_bytes "SET"; k; v] → (kvq_exec d c).1.1 !! k = Some (KString v).
Proof. intros E. kvq_verb E d c. by apply kv_exec_set. Qed.

Lemma kvq_exec_hset d c k f v h :
  command_words c = [str_bytes "HSET"; k; f; v] → hash_of (d.1 !! k) = Some h →
  (kvq_exec d c).1.1 !! k = Some (KHash (<[f := v]> h)).
Proof. intros E Eh. kvq_verb E d c. by apply kv_exec_hset. Qed.

Lemma kvq_exec_get d c k :
  command_words c = [str_bytes "GET"; k] →
  (kvq_exec d c).1.1 !! k = d.1 !! k ∧
  ∀ s, d.1 !! k = Some (KString s) → (kvq_exec d c).2 = RString s.
Proof. intros E. kvq_verb E d c. by apply kv_exec_get. Qed.

Lemma kvq_exec_hget d c k f :
  command_words c = [str_bytes "HGET"; k; f] →
  (kvq_exec d c).1.1 !! k = d.1 !! k ∧
  ∀ h s, d.1 !! k = Some (KHash h) → h !! f = Some s → (kvq_exec d c).2 = RString s.
Proof. intros E. kvq_verb E d c. by eapply kv_exec_hget. Qed.

Lemma kvq_exec_frame d c k k' : about c k → k ≠ k' → (kvq_exec d c).1.1 !! k' = d.1 !! k'.
Proof.
  intros Hc Hk. destruct (decide (c_fmt c ∈ queue_formats)) as [Hf|Hf].
  - by rewrite (proj1 (kvq_exec_queue d c Hf)).
  - unfold kvq_exec. rewrite bool_decide_false by done.
    pose proof (kv_exec_frame d.1 c k k' Hc Hk) as E. by destruct (kv_exec d.1 c).
Qed.

Lemma kvq_exec_publish d c channel x k :
  command_words c = [str_bytes "PUBLISH"; channel; x] → (kvq_exec d c).1.1 !! k = d.1 !! k.
Proof. intros E. kvq_verb E d c. by eapply kv_exec_publish. Qed.
End kvq_exec.

#[local] Instance kvq_keys : KeyValue (H := kvq_server) | 0 := {|
  value_at := (λ d k, d.1 !! k) : @db kvq_server → list Z → option redis_value;
  exec_set := kvq_exec_set;
  exec_hset := kvq_exec_hset;
  exec_get := kvq_exec_get;
  exec_hget := kvq_exec_hget;
  exec_frame := kvq_exec_frame;
  exec_publish := kvq_exec_publish;
|}.

#[local] Existing Instance kvq_server | 0.

#[local, refine] Instance kvq_write_queue : WriteQueue | 0 :=
  {| write_queue := (λ d, d.2) : db → list (list Z) |}.
Proof.
  - done.
  - intros [m q] x xs E. simpl in *. subst q. by do 3 eexists.
Defined.

#[local] Instance kvq_queue_key : QueueKey | 0.
Proof.
  intros d c Hc. cbn [write_queue kvq_write_queue exec kvq_server]. unfold kvq_exec.
  case_bool_decide as Hf; [|by destruct (kv_exec d.1 c)].
  exfalso. revert Hf. apply (bool_decide_pack _) in Hc. intros Hf.
  apply elem_of_cons in Hf as [E|Hf]; [|apply list_elem_of_singleton in Hf as E];
    by rewrite E in Hc.
Qed.

(** ** Properties *)

(** C7: a guest's writes into known files are published, and nothing else is.
    When the requests of a client, however their stream is cut, carry writes of
    whole blocks each of which the store knows as a block of a file ([known_at]:
    the sector's pointer, and the path and size in the file's hash, as the
    loader leaves them), the server serves them and sends the commands
    [push_cmds], and the inferencer takes these writes off and issues exactly
    [published_cmds]: for each write, in the guest's order and with its number,
    the lookup of the sector, the path and size of the file, the update of the
    write store, and one message on the file's channel with the bytes that lie
    inside the file. No inspection disturbs what the next one depends on. *)
Theorem guest_writes_published `{MallocTotal} `{EvBuffer} `{Posix} `{RedisUp} `{Connected}
    `{!WriteQueue} `{!QueueKey} `{!KeyValue} `{Host} (h : nbd_handle) `{!RegularFile (nh_fd h)}
    segments rs p c out disk log disk' rep cmds fuel host vmname bound depth bs l :
  0 < nh_fd h → nh_redis h = true → serving h c [] out disk log →
  mjoin segments = mjoin (enc_request <$> rs) ++ p → Forall req_ok rs → Forall aligned rs →
  stalled p → spec_requests disk rs = Some (disk', rep, cmds) → (length rs < fuel)%nat →
  gethostname HOST_NAME_MAX = Some host → zlen vmname ≤ VM_NAME_MAX →
  0 < bs ≤ 65536 → bs `mod` SECTOR_SIZE = 0 → (1 < bound)%nat → l.*1 = writes_of rs →
  ∃ c', serve h fuel c segments = Some c' ∧
    serving h c' p (out ++ rep) disk' (log ++ (command_words <$> push_cmds (writes_of rs))) ∧
    ∀ d w,
      write_queue d = [] → Forall (known_at d bs) l → ready (in_store w) →
      applied (in_store w) = exec_all d (push_cmds (writes_of rs)) →
      block_size (super_of (applied (in_store w)) 0) = bs →
      ∃ w', inferencer_read_loop (length l) (S depth) bound vmname w = Some (w', None) ∧
        issued (in_store w) (setup_cmds ++ published_cmds host vmname bs 0 l) (in_store w') ∧
        pending_writes (in_store w') = [].
Proof.
  intros Hfd Hredis Hs E Hok Ha Hp Hspec Hf Hh Hv Hbs Hmod Hb Hl.
  destruct (stream_ok h segments rs p c out disk log disk' rep cmds fuel) as (c' & Ec & Hs'); [done..|].
  exists c'. split; [exact Ec|].
  split; [by pose proof (requests_words rs disk disk' rep cmds Hspec) as ->|].
  intros d w Hd Hk Hr Happ Hsb.
  rewrite <-(length_fmap fst l), Hl.
  apply (inferencer_read_loop_ok host vmname Hh Hv); [done|by apply writes_guest| |].
  - unfold pending_writes. fold (applied (in_store w)).
    by rewrite Happ, pushed_queue, Hd, app_nil_r.
  - rewrite <-Hl, <-Hsb. apply inspected_published; rewrite ?Hsb; [done..|].
    rewrite Happ, <-exec_all_app. apply known_all_harmless; [|done].
    apply Forall_app. split; [apply harmless_pushes|apply harmless_setup].
Qed.

(** The file 7, "/a" of 300 bytes, in the block at sector 2. *)
Definition known_db : @db kvq_server :=
  (<[str_bytes "fs:0" := KHash {[str_bytes "block_size" := le_enc 8 512]}]>
   (<[sector_key 2 := KString (data_text 0 512 7)]>
    (<[file_key 7 := KHash (<[str_bytes "path" := str_bytes "/a"]>
                            {[str_bytes "size" := le_enc 8 300]})]> ∅)), []).

Definition witness_place : place :=
  {| pl_file := 7; pl_start := 0; pl_size := 300; pl_path := str_bytes "/a" |}.

Lemma witness_known : known_at known_db 512 (nbd_written, witness_place).
Proof.
  split.
  - reflexivity.
  - reflexivity.
  - split; by vm_compute.
  - split; [split|]; by vm_compute.
  - split; by vm_compute.
  - by vm_compute.
  - exists (<[str_bytes "path" := str_bytes "/a"]> {[str_bytes "size" := le_enc 8 300]}).
    split; [|split; by vm_compute].
    unfold file_hash. change (value_at known_db ?k) with (known_db.1 !! k).
    unfold known_db. cbn [fst pl_file snd witness_place].
    rewrite !lookup_insert_ne by (by vm_compute). by rewrite lookup_insert_eq.
  - split; [apply (bool_decide_unpack _)|split]; by vm_compute.
  - by vm_compute.
Qed.

Definition kvq_inspector (d : @db kvq_server) : @inspector kvq_server local_hiredis :=
  {| in_store := {| kv_connection := (d, []) : redisContext; kv_cmds := 0; kv_bytes := 0 |};
     in_metadata := file_of []; in_load := initial_load |}.

Lemma guest_writes_published_witness :
  let w := enc_request (RWrite 1 1024 (replicate 512 7)) in
  let i := kvq_inspector (exec_all known_db (push_cmds [nbd_written])) in
  ∃ c' w',
    serve witness_handle 3 (witness_conn NBD_DATA_PUSHING [] witness_disk)
      [take 30 w; drop 30 w ++ enc_request (RRead 2 1024 4)] = Some c' ∧
    inferencer_read_loop 1 1 2 (str_bytes "vm") i = Some (w', None) ∧
    issued (in_store i)
      (setup_cmds ++
       [pop_cmd; pop_cmd; cmd REDIS_SECTOR_GET [AInt 2]; file_field "path" 7; file_field "size" 7;
        cmd REDIS_ENQUEUE_WRITE [AInt 2; AInt REDIS_DEFAULT_TIMEOUT; ABin (replicate 300 7)];
        publish (str_bytes "localhost:vm:/a") (data_elems 0 0 512 (replicate 300 7))])
      (in_store w').
Proof.
  intros w i.
  destruct (guest_writes_published witness_handle
    [take 30 w; drop 30 w ++ enc_request (RRead 2 1024 4)] witness_sectors []
    (witness_conn NBD_DATA_PUSHING [] witness_disk) [] witness_disk [] written_disk
    witness_reply_bytes [lpush (le_enc 8 2); lpush (replicate 512 7)] 3
    (str_bytes "localhost") (str_bytes "vm") 2 0 512 [(nbd_written, witness_place)])
    as (c' & Ec & _ & Hw).
  - done.
  - done.
  - split; try done. by exists (new_client NBD_DATA_PUSHING).
  - by vm_compute.
  - repeat constructor; by vm_compute.
  - repeat constructor; by vm_compute.
  - by left.
  - vm_compute. reflexivity.
  - simpl. lia.
  - done.
  - by vm_compute.
  - lia.
  - done.
  - lia.
  - by vm_compute.
  - destruct (Hw known_db i) as (w' & Ew & Hi & _).
    + done.
    + constructor; [apply witness_known|constructor].
    + split; [split|]; reflexivity.
    + by vm_compute.
    + by vm_compute.
    + exists c', w'. split; [exact Ec|]. split; [exact Ew|].
      match type of Hi with issued _ ?l _ => match goal with |- issued _ ?l' _ =>
        assert (l = l') as <- by (by vm_compute) end end.
      exact Hi.
Defined.
