(* ===== verification/InspectDiff.v ===== *)
(** * Properties of the handlers: metadata that changed

    Superblocks and block group descriptors, and the blocks of a new extent: which
    commands and updates a changed block is turned into. *)
From S2P Require Import Prelude Words Memory Struct Stdio Bson BsonEncode BsonDecode BsonFields Scan RedisEnv Redis RedisProps StoreView InspectLoad InspectLoadProps InspectIndex InspectEmit InspectEmitProps Ext4 Ext4Blocks Ext4Props Ext4Extents Inspect InspectProps.

#[local] Open Scope string_scope.
#[local] Open Scope list_scope.
#[local] Open Scope Z_scope.

(** ** Superblocks *)

(** The value [GET_FIELD] leaves in a variable of [n] bytes, with the server's
    data at [d]. *)
Definition field_value `{RedisServer} (d : db) (c : command) (n : nat) (old : Z) : Z :=
  overlay n old (reply_bytes (Z.of_nat n) (exec d c).2).

Definition superblock_gets (fs : Z) : list command :=
  super_cmd fs <$> ["block_size"; "num_files"; "num_block_groups"; "superblock_offset"].

(** The [k]-th of them. *)
Definition superblock_value `{RedisServer} (d : db) (fs : Z) (k : nat) (n : nat) (old : Z) : Z :=
  match superblock_gets fs !! k with
  | Some c => field_value (exec_all d (take k (superblock_gets fs))) c n old
  | None => 0
  end.

Definition superblock_cmds (channel : list Z) (write_counter fs : Z)
    (block_size num_files num_block_groups new_block_size new_num_files
     new_num_block_groups : Z) : list command :=
  let compare := compare_cmds channel write_counter in
  let set := set_field_cmds REDIS_SUPERBLOCK_SECTOR_INSERT fs in
  superblock_gets fs ++
  compare "superblock.block_size" BSON_INT64 8%nat block_size new_block_size ++
  compare "superblock.num_block_groups" BSON_INT32 4%nat num_block_groups new_num_block_groups ++
  compare "superblock.num_files" BSON_INT32 4%nat num_files new_num_files ++
  set "block_size" 8%nat block_size new_block_size ++
  set "num_block_groups" 4%nat num_block_groups new_num_block_groups ++
  set "num_files" 4%nat num_files new_num_files.

Section superblock.
Context `{MallocTotal} `{Connected} `{Host}.

Lemma get_field_value s0 s cs fmt id field n old :
  issued s0 cs s →
  let c := cmd fmt [AInt id; AStr (str_bytes field)] in
  ∃ s', GET_FIELD s fmt id field n old
        = Some (s', field_value (exec_all (applied s0) cs) c n old) ∧ issued s0 (cs ++ [c]) s'.
Proof.
  intros Hi c.
  destruct (get_field_ok s fmt id field n old) as (s' & E & Hi'); [eauto with store|].
  exists s'. split; [|by eapply issued_trans]. rewrite E. unfold field_value. fold c.
  by destruct Hi as [_ ->].
Qed.

Lemma diff_superblock_ok write s host vmname write_counter pointer fs new new_block_size
    new_num_block_groups :
  ready s → gethostname HOST_NAME_MAX = Some host → zlen vmname ≤ VM_NAME_MAX →
  pointer_arg pointer 0 = Some fs →
  let value := superblock_value (applied s) fs in
  mem_read write (value 3%nat 8%nat 0) sb_len = Some new →
  ext4_block_size new = Some new_block_size →
  new_block_groups new = Some new_num_block_groups →
  ∃ s', __diff_superblock write s vmname write_counter pointer = Some (s', EXIT_SUCCESS) ∧
    issued s (superblock_cmds (channel_of host vmname []) write_counter fs
      (value 0%nat 8%nat indeterminate) (s32 (value 1%nat 4%nat indeterminate))
      (s32 (value 2%nat 4%nat indeterminate))
      new_block_size (new_file_count new) new_num_block_groups) s'.
Proof.
  intros Hs Hh Hv Hp value Hnew Hbs Hbg. unfold __diff_superblock. rewrite Hp.
  cbn [mbind option_bind].
  destruct (get_field_value s s [] REDIS_SUPERBLOCK_SECTOR_GET fs "block_size" 8 indeterminate)
    as (s1 & -> & Hi1); [by apply issued_refl|]. cbn [mbind option_bind].
  destruct (get_field_value s s1 _ REDIS_SUPERBLOCK_SECTOR_GET fs "num_files" 4 indeterminate Hi1)
    as (s2 & -> & Hi2). cbn [mbind option_bind].
  destruct (get_field_value s s2 _ REDIS_SUPERBLOCK_SECTOR_GET fs "num_block_groups" 4
    indeterminate Hi2) as (s3 & -> & Hi3). cbn [mbind option_bind].
  destruct (get_field_value s s3 _ REDIS_SUPERBLOCK_SECTOR_GET fs "superblock_offset" 8 0 Hi3)
    as (s4 & -> & Hi4). cbn [mbind option_bind].
  rewrite (construct_channel_name_ok host) by (done || simpl; lia). cbn [mbind option_bind].
  match goal with |- context [mem_read write ?x sb_len] =>
    change (mem_read write x sb_len = Some new) in Hnew end.
  rewrite Hnew. cbn [mbind option_bind]. clear Hnew.
  rewrite Hbs. cbn [mbind option_bind]. rewrite Hbg. cbn [mbind option_bind].
  set (o1 := value 0%nat 8%nat indeterminate). set (o2 := value 1%nat 4%nat indeterminate).
  set (o3 := value 2%nat 4%nat indeterminate).
  set (ch := channel_of host vmname []).
  match goal with |- context [DIRECT_FIELD_COMPARE s4 _ _ _ _ _ _ ?x _] =>
    change x with o1 end.
  destruct (compare_ok s4 ch write_counter "superblock.block_size" BSON_INT64 8 o1 new_block_size)
    as (s5 & -> & Hi5); [eauto with store|by left|done|done|]. cbn [mbind option_bind].
  match goal with |- context [DIRECT_FIELD_COMPARE s5 _ _ _ _ _ _ ?x _] =>
    change x with (s32 o3) end.
  destruct (compare_ok s5 ch write_counter "superblock.num_block_groups" BSON_INT32 4 (s32 o3)
    new_num_block_groups) as (s6 & -> & Hi6); [eauto with store|right; by left|done|done|].
  cbn [mbind option_bind].
  match goal with |- context [DIRECT_FIELD_COMPARE s6 _ _ _ _ _ _ ?x _] =>
    change x with (s32 o2) end.
  destruct (compare_ok s6 ch write_counter "superblock.num_files" BSON_INT32 4 (s32 o2)
    (new_file_count new)) as (s7 & -> & Hi7); [eauto with store|right; by left|done|done|].
  cbn [mbind option_bind].
  match goal with |- context [SET_FIELD s7 _ _ _ _ ?x _] => change x with o1 end.
  destruct (set_ok s7 REDIS_SUPERBLOCK_SECTOR_INSERT fs "block_size" 8 o1 new_block_size)
    as (s8 & -> & Hi8); [eauto with store|]. cbn [mbind option_bind].
  match goal with |- context [SET_FIELD s8 _ _ _ _ ?x _] => change x with (s32 o3) end.
  destruct (set_ok s8 REDIS_SUPERBLOCK_SECTOR_INSERT fs "num_block_groups" 4 (s32 o3)
    new_num_block_groups) as (s9 & -> & Hi9); [eauto with store|]. cbn [mbind option_bind].
  match goal with |- context [SET_FIELD s9 _ _ _ _ ?x _] => change x with (s32 o2) end.
  destruct (set_ok s9 REDIS_SUPERBLOCK_SECTOR_INSERT fs "num_files" 4 (s32 o2)
    (new_file_count new)) as (s10 & -> & Hi10); [eauto with store|]. cbn [mbind option_bind].
  exists s10. split; [done|]. unfold superblock_cmds.
  eapply issued_trans; [exact Hi4|]. issued.
Qed.
End superblock.

(** ** Fields of a hash: read, compared, stored *)

Section fields.
Context `{MallocTotal} `{Connected} `{Host}.

Definition field_gets (fmt : string) (id : Z) (fs : list field) : list command :=
  (λ f, cmd fmt [AInt id; AStr (str_bytes (fd_name f))]) <$> fs.

(** The values read, with the server's data at [d]. *)
Fixpoint field_values (d : db) (fmt : string) (id : Z) (fs : list field) (old : list Z) : list Z :=
  match fs, old with
  | f :: fs, o :: old =>
      let c := cmd fmt [AInt id; AStr (str_bytes (fd_name f))] in
      field_value d c (fd_bytes f) o :: field_values (exec d c).1 fmt id fs old
  | _, _ => []
  end.

Fixpoint field_compares (channel : list Z) (write_counter : Z) (fs : list field)
    (old new : list Z) : list command :=
  match fs, old, new with
  | f :: fs, o :: old, n :: new =>
      compare_cmds channel write_counter (fd_update f) (fd_type f) (fd_bytes f) o n ++
      field_compares channel write_counter fs old new
  | _, _, _ => []
  end.

Fixpoint field_sets (fmt : string) (id : Z) (fs : list field) (old new : list Z) : list command :=
  match fs, old, new with
  | f :: fs, o :: old, n :: new =>
      set_field_cmds fmt id (fd_name f) (fd_bytes f) o n ++ field_sets fmt id fs old new
  | _, _, _ => []
  end.

Lemma length_field_values d fmt id fs : ∀ old,
  length old = length fs → length (field_values d fmt id fs old) = length fs.
Proof.
  revert d. induction fs as [|f fs IH]; intros d [|o old] Hl; try done.
  cbn [field_values length]. f_equal. apply IH. by injection Hl.
Qed.

Lemma get_fields_ok fmt id fs : ∀ s old len,
  ready s → length old = length fs →
  ∃ s' len', get_fields s fmt id fs old len
             = Some (s', field_values (applied s) fmt id fs old, len') ∧
    issued s (field_gets fmt id fs) s'.
Proof.
  induction fs as [|f fs IH]; intros s [|o old] len Hr Hl; try done.
  { exists s, len. split; [done|by apply issued_refl]. }
  cbn [get_fields field_values field_gets fmap list_fmap].
  destruct (get_field_len_ok s fmt id (fd_name f) (fd_bytes f) o Hr) as (s1 & E1 & Hi1).
  rewrite E1. cbn [mbind option_bind].
  destruct (IH s1 old (zlen (reply_bytes (Z.of_nat (fd_bytes f))
    (exec (applied s) (cmd fmt [AInt id; AStr (str_bytes (fd_name f))])).2)))
    as (s2 & len2 & E2 & Hi2); [by eapply issued_ready|by injection Hl|].
  rewrite E2. cbn [mbind option_bind]. exists s2, len2. destruct Hi1 as [Hr1 Ha1].
  split; [by rewrite Ha1|]. by eapply issued_cons.
Qed.

(** Updates can be published of all of them. *)
Definition fields_ok (fs : list field) : Prop :=
  Forall (λ f, field_ok (fd_type f) (fd_bytes f) ∧ fd_bytes f ≠ 1%nat ∧
               zlen (str_bytes (fd_update f)) < 1000) fs.

Lemma compare_fields_ok channel write_counter fs : ∀ s old new,
  fields_ok fs → ready s →
  ∃ s', compare_fields s (Some channel) write_counter fs old new = Some s' ∧
    issued s (field_compares channel write_counter fs old new) s'.
Proof.
  induction fs as [|f fs IH]; intros s old new Hfs Hr.
  { exists s. split; [done|by apply issued_refl]. }
  apply Forall_cons_1 in Hfs as [(Hok & Hb & Hl) Hfs].
  destruct old as [|o old], new as [|n new]; cbn [compare_fields field_compares];
    try (exists s; split; [done|by apply issued_refl]).
  destruct (compare_ok s channel write_counter (fd_update f) (fd_type f) (fd_bytes f) o n)
    as (s1 & E1 & Hi1); [done..|].
  rewrite E1. cbn [mbind option_bind].
  destruct (IH s1 old new Hfs) as (s2 & E2 & Hi2); [by eapply issued_ready|].
  exists s2. split; [done|by eapply issued_trans].
Qed.

(** The variable of the macros holds the size of the last field then. *)
Definition last_size (fs : list field) (len : Z) : Z :=
  foldl (λ _ f, Z.of_nat (fd_bytes f)) len fs.

Lemma set_fields_ok fmt id fs : ∀ s old new len,
  ready s → length old = length fs → length new = length fs →
  ∃ s', set_fields s fmt id fs old new len = Some (s', last_size fs len) ∧
    issued s (field_sets fmt id fs old new) s'.
Proof.
  induction fs as [|f fs IH]; intros s [|o old] [|n new] len Hr Ho Hn; try done.
  { exists s. split; [done|by apply issued_refl]. }
  cbn [set_fields field_sets].
  destruct (set_len_ok s fmt id (fd_name f) (fd_bytes f) o n Hr) as (s1 & E1 & Hi1).
  rewrite E1. cbn [mbind option_bind].
  destruct (IH s1 old new (Z.of_nat (fd_bytes f))) as (s2 & E2 & Hi2);
    [by eapply issued_ready|by injection Ho|by injection Hn|].
  exists s2. split; [done|by eapply issued_trans].
Qed.
End fields.

(** ** Block group descriptors *)

Section bgds.
Context `{MallocTotal} `{Connected} `{Host}.
Context (write : list Z) (host vmname : list Z) (write_counter bs offset : Z).
Let channel := channel_of host vmname [].

(** What the [i]-th descriptor of the block and its predecessors in [ids] are
    turned into: [old] is what the variables hold, [d] the server's data. *)
Definition bgd_new (i : nat) : list Z :=
  new_bgd_values (take (Z.to_nat bgd_len) (drop (Z.to_nat (Z.of_nat i * bgd_len)) write)) bs offset.

Fixpoint bgds_cmds (d : db) (old : list Z) (i : nat) (ids : list Z) : list command :=
  match ids with
  | [] => []
  | id :: ids =>
      let old := field_values d REDIS_BGD_SECTOR_GET id bgd_fields old in
      let cs := field_gets REDIS_BGD_SECTOR_GET id bgd_fields ++
                field_compares channel write_counter bgd_fields old (bgd_new i) ++
                field_sets REDIS_BGD_SECTOR_INSERT id bgd_fields old (bgd_new i) in
      cs ++ bgds_cmds (exec_all d cs) old (S i) ids
  end.

Abbreviation loop fuel i len bgd old bgds s :=
  (diff_bgds_loop fuel i len bgd old bgds write (Some channel) write_counter bs offset s).

Lemma bgd_fields_ok : fields_ok bgd_fields.
Proof. repeat constructor; done. Qed.

(** One turn, with any bound that lets it be taken: behind it the bound is 8. *)
Lemma bgd_turn_ok fuel i len bgd old bgds s id :
  ready s → length old = 3%nat → 0 ≤ id < 2 ^ 64 → Z.of_nat i < len →
  bgds !! i = Some (pointer_text "bgd" id ++ [0]) → (Z.of_nat i + 1) * bgd_len ≤ zlen write →
  let old' := field_values (applied s) REDIS_BGD_SECTOR_GET id bgd_fields old in
  ∃ s', loop (S fuel) (Z.of_nat i) len bgd old bgds s
        = loop fuel (Z.of_nat (S i)) 8 id old' bgds s' ∧
    length old' = 3%nat ∧
    issued s (field_gets REDIS_BGD_SECTOR_GET id bgd_fields ++
              field_compares channel write_counter bgd_fields old' (bgd_new i) ++
              field_sets REDIS_BGD_SECTOR_INSERT id bgd_fields old' (bgd_new i)) s'.
Proof.
  intros Hr Ho Hid Hi Hb Hw old'. cbn [diff_bgds_loop].
  rewrite (proj2 (Z.ltb_lt _ _)), Nat2Z.id, Hb by done. cbn [mbind option_bind].
  destruct (pointer_text_read "bgd" id [] bgd) as [Ec Ep];
    [split; [done|by repeat constructor]|by repeat constructor|done|].
  rewrite Ec. cbn [mbind option_bind]. rewrite Ep. cbn [mbind option_bind].
  destruct (get_fields_ok REDIS_BGD_SECTOR_GET id bgd_fields s old len Hr Ho)
    as (s1 & len1 & E1 & Hi1).
  rewrite E1. cbn [mbind option_bind]. fold old'.
  assert (mem_read write (Z.of_nat i * bgd_len) bgd_len
    = Some (take (Z.to_nat bgd_len) (drop (Z.to_nat (Z.of_nat i * bgd_len)) write))) as ->.
  { unfold mem_read. rewrite bool_decide_true; [done|]. unfold bgd_len in *. simpl in *. lia. }
  cbn [mbind option_bind]. fold (bgd_new i).
  assert (length old' = 3%nat) as Ho' by (by apply length_field_values).
  destruct (compare_fields_ok channel write_counter bgd_fields s1 old' (bgd_new i) bgd_fields_ok)
    as (s2 & E2 & Hi2); [by eapply issued_ready|].
  rewrite E2. cbn [mbind option_bind].
  destruct (set_fields_ok REDIS_BGD_SECTOR_INSERT id bgd_fields s2 old' (bgd_new i) len1)
    as (s3 & E3 & Hi3); [by eapply issued_ready|done|done|].
  rewrite E3. cbn [mbind option_bind]. exists s3.
  replace (Z.of_nat i + 1) with (Z.of_nat (S i)) by lia.
  split; [done|]. split; [done|]. eapply issued_trans; [done|]. by eapply issued_trans.
Qed.

(** The turns for [ids], which stand in the list from index [i] on. *)
Lemma bgd_turns_ok ids : ∀ fuel i len bgd old bgds s,
  ready s → length old = 3%nat → Forall (λ id, 0 ≤ id < 2 ^ 64) ids →
  (∀ j id, ids !! j = Some id → bgds !! (i + j)%nat = Some (pointer_text "bgd" id ++ [0])) →
  (ids ≠ [] → Z.of_nat i < len) → (i + length ids ≤ 8)%nat → 8 * bgd_len ≤ zlen write →
  ∃ s' bgd' old', loop (length ids + fuel) (Z.of_nat i) len bgd old bgds s
    = loop fuel (Z.of_nat (i + length ids)) (match ids with [] => len | _ => 8 end) bgd' old' bgds s' ∧
    length old' = 3%nat ∧ issued s (bgds_cmds (applied s) old i ids) s'.
Proof.
  induction ids as [|id ids IH]; intros fuel i len bgd old bgds s Hr Ho Hids Hb Hi Hl Hw.
  { exists s, bgd, old. rewrite Nat.add_0_r. split; [done|]. split; [done|by apply issued_refl]. }
  apply Forall_cons_1 in Hids as [Hid Hids]. cbn [length] in *.
  destruct (bgd_turn_ok (length ids + fuel) i len bgd old bgds s id) as (s1 & E1 & Ho1 & Hi1);
    [done|done|done|by apply Hi| |unfold bgd_len in *; simpl in *; lia|].
  { rewrite <-(Nat.add_0_r i). by apply Hb. }
  cbn [Nat.add]. rewrite E1.
  destruct (IH fuel (S i) 8 id _ bgds s1 (issued_ready _ _ _ Hi1) Ho1 Hids)
    as (s2 & bgd2 & old2 & E2 & Ho2 & Hi2); 
    [|destruct ids; [done|simpl in *; lia]|lia|done|].
  { intros j id' Hj. rewrite Nat.add_succ_comm. by apply Hb. }
  exists s2, bgd2, old2. split; [|split; [done|]].
  - rewrite E2. rewrite Nat.add_succ_comm. by destruct ids.
  - cbn [bgds_cmds]. destruct Hi1 as [Hr1 Ha1]. rewrite <-Ha1. by eapply issued_trans.
Qed.
End bgds.

(** ** The inspection of queued writes from within the pipeline *)

Section queued.
Context `{MallocTotal} `{Connected} `{Host}.
Context (sb : super_info) (partition_offset : Z).
Context (deep : qemu_bdrv_write → bool → inspector → option (inspector * Z)).

(** The pointer commands of a block of a new extent, and those by which the
    write queued for its sector is taken out. *)
Definition new_block_cmds (file n sector : Z) : list command :=
  [cmd REDIS_FILE_SECTORS_INSERT [AInt file; AInt (s64 sector)];
   cmd REDIS_DATA_INSERT [AInt sector; AInt (u64 (n * block_size sb));
                          AInt (u64 (u64 (n * block_size sb) + block_size sb)); AInt file]].

Definition dequeue_cmds (sector : Z) : list command :=
  [cmd REDIS_DEQUEUE_WRITE [AInt sector]; cmd REDIS_DEL_WRITE [AInt sector]].

(** [redis_dequeue] with the pipeline [c1; c2; ...] in front of it. *)
Lemma dequeue_behind s sector cap c1 c2 cs :
  ready s → queued (kv_connection s) = c1 :: c2 :: cs →
  ∃ s', redis_dequeue s sector cap
      = Some (s', reply_bytes cap (exec (data_of (kv_connection s)) c1).2, EXIT_SUCCESS) ∧
    ready s' ∧ queued (kv_connection s') = cs ++ dequeue_cmds sector ∧
    data_of (kv_connection s') = exec_all (data_of (kv_connection s)) [c1; c2].
Proof.
  intros [[Hc Hb] Hp] Eq. unfold redis_dequeue.
  destruct (do_command_ok s (cmd REDIS_DEQUEUE_WRITE [AInt sector]) c1
    (c2 :: cs ++ [cmd REDIS_DEQUEUE_WRITE [AInt sector]])) as (x1 & E1 & Eq1 & Ed1).
  { by rewrite Eq. }
  rewrite E1. cbn [mbind option_bind].
  destruct (do_command_ok (set_connection x1 s) (cmd REDIS_DEL_WRITE [AInt sector]) c2
    ((cs ++ [cmd REDIS_DEQUEUE_WRITE [AInt sector]]) ++ [cmd REDIS_DEL_WRITE [AInt sector]]))
    as (x2 & E2 & Eq2 & Ed2).
  { simpl. by rewrite Eq1. }
  rewrite E2. eexists. split; [done|]. simpl. rewrite Eq2, Ed2. simpl. rewrite Ed1.
  split; [|by rewrite <-app_assoc]. split; [split|]; simpl; [|done|done].
  rewrite Eq2, Hc, Eq. len.
Qed.

(** An empty reply: the write counts as not queued. *)
Lemma reinspect_empty w s' sector :
  0 < block_size sb →
  redis_dequeue (in_store w) sector (block_size sb) = Some (s', [], EXIT_SUCCESS) →
  __reinspect_write sb deep sector w = Some (set_store s' w, EXIT_FAILURE).
Proof.
  intros Hb E. unfold __reinspect_write. rewrite (proj2 (Z.eqb_neq _ _)) by lia.
  by rewrite E.
Qed.

(** The bytes of a reply in the buffer. *)
Definition reinspected (sector : Z) (d : list Z) : qemu_bdrv_write :=
  {| w_sector_num := s64 sector; w_nb_sectors := s32 (block_size sb `div` SECTOR_SIZE);
     w_data := d ++ replicate (Z.to_nat (block_size sb) - length d) (u8 indeterminate) |}.

Lemma reinspect_reply w s' sector d :
  0 < zlen d ≤ block_size sb →
  redis_dequeue (in_store w) sector (block_size sb) = Some (s', d, EXIT_SUCCESS) →
  __reinspect_write sb deep sector w = deep (reinspected sector d) false (set_store s' w).
Proof.
  intros Hd E. unfold __reinspect_write. rewrite (proj2 (Z.eqb_neq _ _)) by lia.
  rewrite E. cbn [mbind option_bind negb Z.eqb EXIT_SUCCESS].
  rewrite (proj2 (Z.eqb_neq _ _)) by lia. unfold mem_write.
  rewrite bool_decide_true by (rewrite length_replicate; lia). cbn [mbind option_bind take Z.to_nat app Nat.add].
  by rewrite drop_replicate.
Qed.

(** A pipelined operation that does not fill the pipeline. *)
Lemma append_queued s c :
  ready s → kv_cmds s + 1 < REDIS_DEFAULT_PIPELINED →
  ∃ s', append_pipelined s c = Some (s', EXIT_SUCCESS) ∧ ready s' ∧
    queued (kv_connection s') = queued (kv_connection s) ++ [c] ∧
    data_of (kv_connection s') = data_of (kv_connection s) ∧ kv_cmds s' = kv_cmds s + 1.
Proof.
  intros [[Hc Hb] Hp] Hl. unfold append_pipelined, REDIS_DEFAULT_PIPELINED in *. simpl.
  destruct (append_spec (kv_connection s) c) as [Ed Eq].
  rewrite uwrap_small, (proj2 (Z.leb_gt _ _)) by lia. eexists. split; [done|]. simpl.
  split; [|done]. split; [split|]; simpl; unfold REDIS_DEFAULT_PIPELINED; [|lia..].
  rewrite Eq, length_app. simpl. lia.
Qed.

Lemma new_block_queued w file n sector :
  ready (in_store w) → kv_cmds (in_store w) + 2 < REDIS_DEFAULT_PIPELINED →
  ∃ w1, ignored (λ s, redis_reverse_pointer_set s REDIS_FILE_SECTORS_INSERT file (s64 sector)) w
      = Some w1 ∧
    ∃ w2, ignored (λ s, redis_reverse_file_data_pointer_set s sector (u64 (n * block_size sb))
        (u64 (u64 (n * block_size sb) + block_size sb)) file) w1 = Some w2 ∧
    ready (in_store w2) ∧
    queued (kv_connection (in_store w2)) =
      queued (kv_connection (in_store w)) ++ new_block_cmds file n sector ∧
    data_of (kv_connection (in_store w2)) = data_of (kv_connection (in_store w)) ∧
    kv_cmds (in_store w2) = kv_cmds (in_store w) + 2.
Proof.
  intros Hr Hl. unfold ignored. store_ops.
  destruct (append_queued (in_store w) (cmd REDIS_FILE_SECTORS_INSERT [AInt file; AInt (s64 sector)])
    Hr) as (s1 & -> & Hr1 & Eq1 & Ed1 & Ec1); [lia|].
  cbn [mbind option_bind]. eexists. split; [done|]. cbn [in_store set_store].
  match goal with |- context [append_pipelined s1 ?c] =>
    destruct (append_queued s1 c Hr1) as (s2 & -> & Hr2 & Eq2 & Ed2 & Ec2) end; [lia|].
  cbn [mbind option_bind]. eexists. split; [done|]. simpl. split; [done|].
  split; [by rewrite Eq2, Eq1, <-app_assoc|]. split; [by rewrite Ed2, Ed1|lia].
Qed.

Lemma diff_blocks_two file ext w d :
  0 < block_size sb → ready (in_store w) → queued (kv_connection (in_store w)) = [] →
  let n := u64 (eef "ee_block" ext) in
  let sector1 := block_sector sb partition_offset (u64 (ext4_extent_start ext)) in
  let sector2 := block_sector sb partition_offset (u64 (ext4_extent_start ext + 1)) in
  let d0 := data_of (kv_connection (in_store w)) in
  let d2 := exec_all d0 (new_block_cmds file n sector1) in
  (∀ x, (exec d0 (cmd REDIS_FILE_SECTORS_INSERT [AInt file; AInt (s64 sector1)])).2 ≠ RString x) →
  (exec d2 (cmd REDIS_DEQUEUE_WRITE [AInt sector1])).2 = RString d →
  0 < zlen d ≤ block_size sb →
  ∃ w2, diff_blocks sb partition_offset deep 2 0 false file 0 ext w
    = ('(w3, _) ← deep (reinspected sector2 d) false w2; Some w3) ∧ ready (in_store w2).
Proof.
  intros Hb Hr Eq n sector1 sector2 d0 d2 Hq Hd Hl. cbn [diff_blocks]. cbn [andb].
  replace (ext4_extent_start ext + 0) with (ext4_extent_start ext) by lia.
  replace (0 + eef "ee_block" ext) with (eef "ee_block" ext) by lia. fold n sector1.
  assert (kv_cmds (in_store w) = 0) as Ec.
  { destruct Hr as [[Hc _] _]. by rewrite Hc, Eq. }
  destruct (new_block_queued w file n sector1 Hr) as
    (w1 & -> & w1' & E1 & Hr1 & Eq1 & Ed1 & Ec1); [by rewrite Ec|].
  cbn [mbind option_bind]. unfold set_data_pointer. rewrite E1. cbn [mbind option_bind].
  unfold and_reinspect. rewrite Eq in Eq1. simpl app in Eq1.
  destruct (dequeue_behind (in_store w1') sector1 (block_size sb) _ _ [] Hr1 Eq1)
    as (s2 & E2 & Hr2 & Eq2 & Ed2).
  assert (reply_bytes (block_size sb) (exec (data_of (kv_connection (in_store w1')))
    (cmd REDIS_FILE_SECTORS_INSERT [AInt file; AInt (s64 sector1)])).2 = []) as Hempty.
  { rewrite Ed1. fold d0. destruct (exec d0 _).2 as [x| | | | |]; try done. by destruct (Hq x). }
  rewrite Hempty in E2. rewrite (reinspect_empty w1' s2 sector1 Hb E2).
  cbn [mbind option_bind].
  replace (0 + 1 + eef "ee_block" ext) with (1 + eef "ee_block" ext) by lia.
  change (0 + 1) with 1. fold sector2. set (n2 := u64 (1 + eef "ee_block" ext)).
  assert (kv_cmds s2 = 2) as Ec2.
  { destruct Hr2 as [[Hc _] _]. by rewrite Hc, Eq2. }
  destruct (new_block_queued (set_store s2 w1') file n2 sector2) as
    (w3 & -> & w3' & E3 & Hr3 & Eq3 & Ed3 & Ec3); [done|simpl; by rewrite Ec2|].
  cbn [mbind option_bind]. rewrite E3. cbn [mbind option_bind].
  simpl in Eq3. rewrite Eq2 in Eq3. simpl app in Eq3.
  destruct (dequeue_behind (in_store w3') sector2 (block_size sb) _ _ _ Hr3 Eq3)
    as (s4 & E4 & Hr4 & _ & _).
  simpl in Ed3. rewrite Ed3, Ed2, Ed1 in E4. fold d0 d2 in E4.
  change (exec_all d0 [_; _]) with d2 in E4. rewrite Hd, reply_bytes_fits in E4 by lia.
  rewrite (reinspect_reply w3' s4 sector2 d Hl E4).
  exists (set_store s4 w3'). split; [|done]. by destruct (deep _ _ _) as [[? ?]|].
Qed.
End queued.

(** ** Properties *)

(** C22: a write to a superblock publishes an update for each of block size,
    number of block groups and number of files that differs from what the store
    had, with the old and the new value, on the virtual machine's channel, then
    stores the new values, and nothing for those that do not differ. *)
Theorem diff_superblock_spec `{MallocTotal} `{Connected} `{Host} write s host vmname write_counter
    pointer fs new new_block_size new_num_block_groups :
  ready s → gethostname HOST_NAME_MAX = Some host → zlen vmname ≤ VM_NAME_MAX →
  pointer_arg pointer 0 = Some fs →
  let value := superblock_value (applied s) fs in
  mem_read write (value 3%nat 8%nat 0) sb_len = Some new →
  ext4_block_size new = Some new_block_size →
  new_block_groups new = Some new_num_block_groups →
  ∃ s', __diff_superblock write s vmname write_counter pointer = Some (s', EXIT_SUCCESS) ∧
    issued s (superblock_cmds (channel_of host vmname []) write_counter fs
      (value 0%nat 8%nat indeterminate) (s32 (value 1%nat 4%nat indeterminate))
      (s32 (value 2%nat 4%nat indeterminate))
      new_block_size (new_file_count new) new_num_block_groups) s'.
Proof. apply diff_superblock_ok. Qed.

(** A superblock of 1024-byte blocks, 16 of them in groups of 16, that the store
    knows at offset 0 with its block size and nothing else. *)
Definition diff_sb : list Z :=
  fset ext4_superblock "s_blocks_count_lo" 16
    (fset ext4_superblock "s_blocks_per_group" 16 (replicate (sizeof ext4_superblock) 0)).

Definition diff_reply (c : command) : redisReply :=
  if bool_decide (c = super_cmd 1 "block_size") then RString (le_enc 8 1024) else RNil.

#[local] Instance diff_server : RedisServer | 0 := log_server diff_reply.

Lemma diff_superblock_spec_witness :
  ∃ s', __diff_superblock diff_sb (log_store diff_reply) (str_bytes "vm") 5 (str_bytes "fs:1")
          = Some (s', EXIT_SUCCESS) ∧
    applied s' = superblock_gets 1 ++
      [publish (str_bytes "localhost:vm:")
         (update_elems "superblock.num_block_groups" BSON_INT32 4 0 1 5);
       publish (str_bytes "localhost:vm:")
         (update_elems "superblock.num_files" BSON_INT32 4 0 2 5);
       cmd REDIS_SUPERBLOCK_SECTOR_INSERT [AInt 1; AStr (str_bytes "num_block_groups");
                                           ABin (le_enc 4 1)];
       cmd REDIS_SUPERBLOCK_SECTOR_INSERT [AInt 1; AStr (str_bytes "num_files");
                                           ABin (le_enc 4 2)]].
Proof.
  destruct (diff_superblock_spec diff_sb (log_store diff_reply) (str_bytes "localhost")
    (str_bytes "vm") 5 (str_bytes "fs:1") 1 diff_sb 1024 1) as (s' & E & _ & Ha).
  - apply log_store_ready.
  - done.
  - by vm_compute.
  - by vm_compute.
  - by vm_compute.
  - by vm_compute.
  - by vm_compute.
  - exists s'. split; [exact E|]. rewrite Ha. by vm_compute.
Defined.

(** C35: the loop over the block group descriptors of a block uses [len] for the
    length of the list and for the sizes of fields, so behind the first turn its
    bound is 8 whatever the length. An empty list makes no turn; a list of fewer
    than eight elements is read past its end; of a longer one the first eight
    descriptors are compared and stored, with the updates and in the order of
    [bgds_cmds], and the others are not looked at. *)
Theorem diff_bgds_bound `{MallocTotal} `{Connected} `{Host} write s host vmname write_counter
    pointer lbgds sb offset n ids :
  ready s → gethostname HOST_NAME_MAX = Some host → zlen vmname ≤ VM_NAME_MAX →
  pointer_arg pointer 0 = Some lbgds → 8 * bgd_len ≤ zlen write →
  Forall (λ id, 0 ≤ id < 2 ^ 64) ids → zlen ids < 2 ^ 32 →
  let lget := cmd REDIS_BGDS_LGET [AInt lbgds] in
  (exec (applied s) lget).2 = RArray n (RString <$> (pointer_text "bgd" <$> ids)) →
  let diff := __diff_bgds write s vmname write_counter pointer sb offset in
  (ids = [] → ∃ s', diff = Some (s', EXIT_SUCCESS) ∧ issued s [lget] s') ∧
  (0 < zlen ids < 8 → diff = None) ∧
  (8 ≤ zlen ids → ∃ s', diff = Some (s', EXIT_SUCCESS) ∧
     issued s (lget :: bgds_cmds write host vmname write_counter (block_size sb) offset
                 (exec (applied s) lget).1 (replicate 3 indeterminate) 0 (take 8 ids)) s').
Proof.
  intros Hs Hh Hv Hp Hw Hids Hl lget Hrep diff. unfold diff, __diff_bgds. rewrite Hp.
  cbn [mbind option_bind].
  pose proof (pointer_texts_short "bgd" ids eq_refl) as Hkeys.
  destruct (list_get_issued s REDIS_BGDS_LGET lbgds None n _ Hs Hkeys) as (s1 & E1 & Hi1 & _);
    [by rewrite length_fmap|exact Hrep|].
  rewrite E1. cbn [mbind option_bind negb Z.eqb EXIT_SUCCESS].
  rewrite (construct_channel_name_ok host) by (done || simpl; lia). cbn [mbind option_bind].
  set (bgds := (λ s, s ++ [0]) <$> (pointer_text "bgd" <$> ids)).
  assert (∀ j id, take 8 ids !! j = Some id → bgds !! (0 + j)%nat = Some (pointer_text "bgd" id ++ [0])) as Hb.
  { intros j id Hj. apply lookup_take_Some in Hj as [Hj _]. unfold bgds.
    cbn [Nat.add]. by rewrite !list_lookup_fmap, Hj. }
  assert (length bgds = length ids) as El by (unfold bgds; by rewrite !length_fmap).
  destruct (bgd_turns_ok write host vmname write_counter (block_size sb) offset (take 8 ids)
    (S (length bgds) - length (take 8 ids)) 0 (zlen bgds) 0 (replicate 3 indeterminate) bgds s1)
    as (s2 & bgd & old & E2 & Ho & Hi2);
    [by eapply issued_ready|done|by apply Forall_take|exact Hb| | |done|].
  { intros Hne. destruct ids; [done|]. rewrite El. simpl. lia. }
  { rewrite length_take. lia. }
  rewrite length_take in E2. replace (8 `min` length ids + (S (length bgds) - 8 `min` length ids))%nat
    with (S (length bgds)) in E2 by lia.
  change (Z.of_nat 0) with 0 in E2. rewrite E2. split; [|split].
  - intros ->. cbn in E2 |- *. exists s1. split; [done|exact Hi1].
  - intros [Hpos Hlt]. rewrite Nat.min_r by lia. rewrite El.
    replace (S (length ids) - length ids)%nat with 1%nat by lia. cbn [Nat.add diff_bgds_loop].
    destruct ids as [|id ids]; [simpl in Hpos; lia|]. cbn [take].
    rewrite (proj2 (Z.ltb_lt _ 8)), Nat2Z.id by lia.
    by rewrite (lookup_ge_None_2 bgds) by (rewrite El; simpl; lia).
  - intros Hge. rewrite Nat.min_l by lia.
    destruct (S (length bgds) - 8)%nat as [|fuel] eqn:Ef; [lia|]. cbn [diff_bgds_loop].
    destruct ids as [|id ids]; [simpl in Hge; lia|]. cbn [take].
    change (Z.of_nat (0 + 8) <? 8) with false. cbn [mbind option_bind].
    unfold redis_free_list. rewrite free_elements_ok by (rewrite El; change (Z.to_nat 8) with 8%nat; lia).
    cbn [mbind option_bind]. exists s2. split; [done|].
    destruct Hi1 as [Hr1 Ha1]. rewrite Ha1 in Hi2. eapply issued_cons; [by split|exact Hi2].
Qed.

(** A list of one descriptor, and one of nine, on a block of ones. *)
Definition bgds_reply (c : command) : redisReply :=
  if bool_decide (c = cmd REDIS_BGDS_LGET [AInt 4]) then RArray 0 [RString (str_bytes "bgd:0")]
  else if bool_decide (c = cmd REDIS_BGDS_LGET [AInt 5]) then
    RArray 0 (RString <$> (pointer_text "bgd" <$> seqZ 0 9))
  else RNil.

#[local] Instance bgds_server : RedisServer | 0 := log_server bgds_reply.

Lemma diff_bgds_bound_witness :
  let diff p := __diff_bgds (replicate 1024 1) (log_store bgds_reply) (str_bytes "vm") 5 p
                  witness_block_super 0 in
  diff (str_bytes "lbgds:4") = None ∧
  ∃ s', diff (str_bytes "lbgds:5") = Some (s', EXIT_SUCCESS) ∧ length (applied s') = 73%nat.
Proof.
  intros diff. split.
  - destruct (diff_bgds_bound (replicate 1024 1) (log_store bgds_reply) (str_bytes "localhost")
      (str_bytes "vm") 5 (str_bytes "lbgds:4") 4 witness_block_super 0 0 [0]) as (_ & E & _).
    + apply log_store_ready.
    + done.
    + by vm_compute.
    + by vm_compute.
    + by vm_compute.
    + apply list.Forall_singleton. lia.
    + by vm_compute.
    + by vm_compute.
    + apply E. simpl. lia.
  - destruct (diff_bgds_bound (replicate 1024 1) (log_store bgds_reply) (str_bytes "localhost")
      (str_bytes "vm") 5 (str_bytes "lbgds:5") 5 witness_block_super 0 0 (seqZ 0 9))
      as (_ & _ & E).
    + apply log_store_ready.
    + done.
    + by vm_compute.
    + by vm_compute.
    + by vm_compute.
    + apply (bool_decide_unpack _). by vm_compute.
    + by vm_compute.
    + by vm_compute.
    + destruct E as (s' & E & _ & Ha); [by vm_compute|].
      exists s'. split; [exact E|]. rewrite Ha. by vm_compute.
Defined.

(** C34: a write that is taken out of the queue while the commands of the new
    block are still in the pipeline gets an older reply: of a new extent of two
    blocks, what is queued for the sector of the first block is inspected as a
    write to the sector of the second. *)
Theorem new_blocks_misattributed `{MallocTotal} `{Connected} `{Host} sb partition_offset deep
    file ext w d :
  0 < block_size sb → ready (in_store w) → queued (kv_connection (in_store w)) = [] →
  let n := u64 (eef "ee_block" ext) in
  let sector1 := block_sector sb partition_offset (u64 (ext4_extent_start ext)) in
  let sector2 := block_sector sb partition_offset (u64 (ext4_extent_start ext + 1)) in
  let d0 := data_of (kv_connection (in_store w)) in
  let d2 := exec_all d0 (new_block_cmds sb file n sector1) in
  (∀ x, (exec d0 (cmd REDIS_FILE_SECTORS_INSERT [AInt file; AInt (s64 sector1)])).2 ≠ RString x) →
  (exec d2 (cmd REDIS_DEQUEUE_WRITE [AInt sector1])).2 = RString d →
  0 < zlen d ≤ block_size sb →
  ∃ w2, diff_blocks sb partition_offset deep 2 0 false file 0 ext w
    = ('(w3, _) ← deep (reinspected sb sector2 d) false w2; Some w3) ∧ ready (in_store w2).
Proof. apply diff_blocks_two. Qed.

(** Two blocks from block 5 on (sectors 10 and 12); a write of sevens is queued
    for sector 10. *)
Definition queued_reply (c : command) : redisReply :=
  if bool_decide (c = cmd REDIS_DEQUEUE_WRITE [AInt 10]) then RString (replicate 1024 7)
  else RInteger 1.

Definition two_blocks : list Z := [0; 0; 0; 0; 2; 0; 0; 0; 5; 0; 0; 0].

#[local] Instance queued_server : RedisServer | 0 := log_server queued_reply.

Definition queued_inspector : inspector :=
  {| in_store := log_store queued_reply; in_metadata := file_of []; in_load := initial_load |}.

(** An inspection that insists on the write it is told of. *)
Definition only (expected write : qemu_bdrv_write) (metadata : bool) (w : inspector) :
    option (inspector * Z) :=
  if (w_sector_num write =? w_sector_num expected) && bool_decide (w_data write = w_data expected)
  then Some (w, EXIT_SUCCESS) else None.

Lemma new_blocks_misattributed_witness :
  let sevens sector := {| w_sector_num := sector; w_nb_sectors := 2; w_data := replicate 1024 7 |} in
  is_Some (diff_blocks witness_block_super 0 (only (sevens 12)) 2 0 false 7 0 two_blocks
    queued_inspector).
Proof.
  destruct (new_blocks_misattributed witness_block_super 0
    (only {| w_sector_num := 12; w_nb_sectors := 2; w_data := replicate 1024 7 |}) 7 two_blocks
    queued_inspector (replicate 1024 7)) as (w2 & E & _).
  - by vm_compute.
  - apply log_store_ready.
  - done.
  - by vm_compute.
  - by vm_compute.
  - by vm_compute.
  - intros sevens. subst sevens. cbv beta. rewrite E. by eexists.
Defined.
