(* ===== verification/DiffExtents.v ===== *)
(** * Properties of the handlers: the extents of a file

    What [__diff_ext4_extents] issues for a node of an extent tree, and what that
    leaves on the file's list of sectors, as long as no write is queued for the
    blocks the node names. *)
From S2P Require Import Prelude Words Memory Struct Stdio Scan RedisEnv Redis RedisProps StoreView InspectLoad InspectLoadProps InspectIndex InspectEmit InspectEmitProps Ext4 Ext4Blocks Ext4Props Ext4Extents Inspect InspectProps InspectDiff.

#[local] Open Scope string_scope.
#[local] Open Scope list_scope.
#[local] Open Scope Z_scope.

(** ** The commands for the entries of a node

    [known_len] is the length of the file's list of sectors, [extents] the blocks
    of its tree that the store knows. *)
Definition block_entry_cmds (bs po file known_len : Z) (known : bool) (ext : list Z) (i : Z) :
    list command :=
  let sector := u64 (u64 (u64 (ext4_extent_start ext + i) * bs) + po) `div` SECTOR_SIZE in
  let n := u64 (i + eef "ee_block" ext) in
  [if known && (n <? known_len)
   then cmd REDIS_FILE_SECTORS_LSET [AInt file; AInt n; AInt (s64 sector)]
   else cmd REDIS_FILE_SECTORS_INSERT [AInt file; AInt (s64 sector)];
   cmd REDIS_DATA_INSERT [AInt sector; AInt (u64 (n * bs)); AInt (u64 (u64 (n * bs) + bs));
                          AInt file]] ++
  dequeue_cmds sector.

Fixpoint blocks_entry_cmds (bs po file known_len : Z) (known : bool) (ext : list Z) (k : nat)
    (i : Z) : list command :=
  match k with
  | O => []
  | S k => block_entry_cmds bs po file known_len known ext i ++
           blocks_entry_cmds bs po file known_len known ext k (i + 1)
  end.

Definition hole_cmd (file : Z) : command := cmd REDIS_FILE_SECTORS_INSERT [AInt file; AInt (-1)].

Definition leaf_cmds (bs po file known_len : Z) (ext : list Z) : list command :=
  let blocks known := blocks_entry_cmds bs po file known_len known ext
                        (Z.to_nat (eef "ee_len" ext)) 0 in
  if eef "ee_block" ext <? known_len then blocks true
  else replicate (Z.to_nat (eef "ee_block" ext - known_len)) (hole_cmd file) ++ blocks false.

Fixpoint insert_cmds (file sector i : Z) (extents : list Z) : list command :=
  match extents with
  | [] => []
  | e :: extents =>
      if sector =? e then []
      else (if sector <? e
            then [cmd REDIS_EXTENTS_LINSERT [AInt file; AInt i; AInt sector]] else []) ++
           insert_cmds file sector (i + 1) extents
  end.

(** An index entry: a block that is new to a file without known ones, and its
    place among these. *)
Definition index_cmds (bs po file : Z) (extents : list Z) (idx : list Z) : list command :=
  let leaf := ext4_extent_index_leaf idx in
  let sector := u64 (u64 (leaf * bs) + po) `div` SECTOR_SIZE in
  if leaf =? 0 then [] else
  (if zlen extents =? 0 then
     [cmd REDIS_EXTENT_SECTOR_INSERT [AInt sector; AStr (str_bytes "file"); ABin (le_enc 8 file)];
      cmd REDIS_EXTENTS_INSERT [AInt file; AInt sector];
      cmd REDIS_EXTENTS_SECTOR_INSERT [AInt sector; AInt sector]] ++ dequeue_cmds sector
   else []) ++ insert_cmds file sector 0 extents.

Definition entry_cmds (bs po file known_len : Z) (extents : list Z) (depth : Z) (e : list Z) :
    list command :=
  if depth =? 0 then leaf_cmds bs po file known_len e else index_cmds bs po file extents e.

Definition node_cmds (bs po file known_len : Z) (extents : list Z) (node : list Z) :
    list command :=
  concat (entry_cmds bs po file known_len extents (node_depth node) <$> entries_of node).

(** ** No write is queued *)

(** None of the commands is answered by a string: the others are answered by
    numbers and statuses, and [GET qsector] is when no write is queued. *)
Definition no_strings `{RedisServer} (d : db) (cs : list command) : Prop :=
  ∀ cs1 c cs2 x, cs = cs1 ++ c :: cs2 → (exec (exec_all d cs1) c).2 ≠ RString x.

Section no_strings.
Context `{RedisServer}.

Lemma no_strings_app d cs1 cs2 : no_strings d (cs1 ++ cs2) → no_strings (exec_all d cs1) cs2.
Proof.
  intros Hn l1 c l2 x ->. rewrite <-exec_all_app. apply (Hn (cs1 ++ l1) c l2). by rewrite app_assoc.
Qed.

Lemma no_strings_head d c cs x : no_strings d (c :: cs) → (exec d c).2 ≠ RString x.
Proof. intros Hn. by apply (Hn [] c cs). Qed.

Lemma no_strings_tail d c cs : no_strings d (c :: cs) → no_strings (exec d c).1 cs.
Proof. apply (no_strings_app d [c]). Qed.
End no_strings.

Section node.
Context `{MallocTotal} `{Connected} `{Host}.
Context (sb : super_info) (po : Z) (Hbs : 0 < block_size sb).
Context (deep : qemu_bdrv_write → bool → inspector → option (inspector * Z)).
Let bs := block_size sb.

(** Nothing in the pipeline is answered by a string, nor will anything of [cs]. *)
Definition quiet (s : kv_store) (cs : list command) : Prop :=
  ready s ∧ no_strings (data_of (kv_connection s)) (queued (kv_connection s) ++ cs).

(** From [s] the commands [cs] have been issued; [cs'] is still to come. *)
Definition quietly (s : kv_store) (cs cs' : list command) (s' : kv_store) : Prop :=
  issued s cs s' ∧ quiet s' cs'.

Lemma quietly_trans s1 cs1 cs s2 cs2 cs3 s3 :
  quietly s1 cs1 cs s2 → quietly s2 cs2 cs3 s3 → quietly s1 (cs1 ++ cs2) cs3 s3.
Proof. intros [Hi1 _] [Hi2 Hq]. split; [by eapply issued_trans|done]. Qed.

Lemma quietly_cons s1 c cs s2 cs2 cs3 s3 :
  quietly s1 [c] cs s2 → quietly s2 cs2 cs3 s3 → quietly s1 (c :: cs2) cs3 s3.
Proof. apply quietly_trans. Qed.

Lemma quietly_refl s cs : quiet s cs → quietly s [] cs s.
Proof. intros Hq. split; [by apply issued_refl; apply Hq|done]. Qed.

Lemma quiet_append s c cs :
  quiet s (c :: cs) →
  ∃ s', append_pipelined s c = Some (s', EXIT_SUCCESS) ∧ quietly s [c] cs s'.
Proof.
  intros [Hr Hn]. destruct (append_data s c Hr) as (s' & E & Hi & Hdq).
  exists s'. split; [done|]. split; [done|]. split; [by apply Hi|].
  destruct Hdq as [[-> ->]|[-> ->]].
  - by rewrite <-app_assoc.
  - apply (no_strings_app _ (queued (kv_connection s) ++ [c])). by rewrite <-app_assoc.
Qed.

Lemma quiet_command s c cs :
  quiet s (c :: cs) →
  ∃ s' r, do_command s c = (s', Some r) ∧ quietly s [c] cs s' ∧ ∀ x, r ≠ RString x.
Proof.
  intros [Hr Hn]. destruct (command_issued s c Hr) as (s' & r & E & Hi & _).
  rewrite (cons_middle c) in Hn. rewrite app_assoc in Hn.
  destruct (queued (kv_connection s) ++ [c]) as [|c0 cs0] eqn:Eq; [by destruct (queued _)|].
  destruct (do_command_ok s c c0 cs0 Eq) as (x & E' & Eqx & Edx).
  rewrite E' in E. injection E as <- <-. do 2 eexists. split; [exact E'|].
  split; [|intros y; by eapply no_strings_head].
  split; [exact Hi|]. split; [by apply Hi|]. simpl. rewrite Eqx, Edx.
  by eapply no_strings_tail.
Qed.

Lemma quiet_reinspect w sector cs :
  quiet (in_store w) (dequeue_cmds sector ++ cs) →
  ∃ w', and_reinspect sb deep sector w = Some w' ∧
    quietly (in_store w) (dequeue_cmds sector) cs (in_store w').
Proof.
  intros Hq. unfold and_reinspect, dequeue_cmds in *. cbn [app] in Hq.
  destruct (quiet_command _ _ _ Hq) as (s1 & r1 & E1 & Hi1 & Hr1).
  destruct (quiet_command s1 _ _ (proj2 Hi1)) as (s2 & r2 & E2 & Hi2 & _).
  rewrite (reinspect_empty sb deep w s2 sector Hbs).
  - cbn [mbind option_bind]. eexists. split; [done|]. by eapply quietly_cons.
  - unfold redis_dequeue. rewrite E1. cbn [mbind option_bind]. rewrite E2.
    do 3 f_equal. destruct r1 as [x| | | | |]; try done. by destruct (Hr1 x).
Qed.

(** A pipelined operation of the handlers. *)
Lemma quiet_ignored w c cs f :
  quiet (in_store w) (c :: cs) → (∀ s, f s = append_pipelined s c) →
  ∃ w', ignored f w = Some w' ∧ quietly (in_store w) [c] cs (in_store w').
Proof.
  intros Hq Hf. unfold ignored. rewrite Hf.
  destruct (quiet_append _ _ _ Hq) as (s' & E & Hi). rewrite E. by eexists.
Qed.

(** The next of them, by [Hq]: the state behind it is [w'], and [Hi] says what
    was issued. *)
Tactic Notation "quiet_step" constr(Hq) "as" ident(w') ident(Hi) :=
  match goal with
  | |- context [ignored ?f ?w] =>
      let E := fresh "E" in
      destruct (quiet_ignored w _ _ f Hq) as (w' & E & Hi);
      [intros; try case_match; store_ops; reflexivity
      |rewrite E; cbn [mbind option_bind]; clear E]
  end.

Lemma diff_blocks_ok k : ∀ i known file known_len ext w cs,
  quiet (in_store w) (blocks_entry_cmds bs po file known_len known ext k i ++ cs) →
  ∃ w', diff_blocks sb po deep k i known file known_len ext w = Some w' ∧
    quietly (in_store w) (blocks_entry_cmds bs po file known_len known ext k i) cs (in_store w').
Proof.
  induction k as [|k IH]; intros i known file known_len ext w cs Hq.
  { exists w. split; [done|by apply quietly_refl]. }
  cbn [diff_blocks blocks_entry_cmds] in *. rewrite <-app_assoc in Hq.
  unfold block_entry_cmds in *. rewrite <-app_assoc in Hq. cbn [app] in Hq.
  fold bs in Hq |- *. unfold block_sector. fold bs.
  set (sector := u64 _ `div` SECTOR_SIZE) in *. set (n := u64 (i + _)) in *.
  quiet_step Hq as w1 Hi1. unfold set_data_pointer. fold bs. quiet_step (proj2 Hi1) as w2 Hi2.
  destruct (quiet_reinspect w2 sector _ (proj2 Hi2)) as (w3 & E3 & Hi3).
  rewrite E3. cbn [mbind option_bind].
  destruct (IH (i + 1) known file known_len ext w3 cs (proj2 Hi3)) as (w4 & E4 & Hi4).
  exists w4. split; [done|].
  eapply quietly_cons; [exact Hi1|]. eapply quietly_cons; [exact Hi2|].
  by eapply quietly_trans.
Qed.

Lemma push_holes_ok k : ∀ file s cs,
  quiet s (replicate k (hole_cmd file) ++ cs) →
  ∃ s', push_holes k file s = Some s' ∧ quietly s (replicate k (hole_cmd file)) cs s'.
Proof.
  induction k as [|k IH]; intros file s cs Hq; [exists s; split; [done|by apply quietly_refl]|].
  cbn [push_holes replicate app] in *. store_ops.
  destruct (quiet_append _ _ _ Hq) as (s1 & E1 & Hi1). unfold hole_cmd in E1. rewrite E1.
  cbn [mbind option_bind]. destruct (IH file s1 cs (proj2 Hi1)) as (s2 & E2 & Hi2).
  exists s2. split; [done|]. by eapply quietly_cons.
Qed.

Lemma diff_leaf_ok file known_len ext w cs :
  quiet (in_store w) (leaf_cmds bs po file known_len ext ++ cs) →
  ∃ w', diff_leaf sb po deep file known_len ext w = Some w' ∧
    quietly (in_store w) (leaf_cmds bs po file known_len ext) cs (in_store w').
Proof.
  intros Hq. unfold diff_leaf, leaf_cmds in *. destruct (eef "ee_block" ext <? known_len).
  { by apply diff_blocks_ok. }
  rewrite <-app_assoc in Hq. destruct (push_holes_ok _ _ _ _ Hq) as (s1 & E1 & Hi1).
  rewrite E1. cbn [mbind option_bind].
  destruct (diff_blocks_ok _ _ _ _ _ _ (set_store s1 w) _ (proj2 Hi1)) as (w2 & E2 & Hi2).
  exists w2. split; [done|]. by eapply quietly_trans.
Qed.

Lemma insert_loop_ok file sector extents : ∀ i s cs,
  quiet s (insert_cmds file sector i extents ++ cs) →
  ∃ s', insert_loop file sector i extents s = Some s' ∧
        quietly s (insert_cmds file sector i extents) cs s'.
Proof.
  induction extents as [|e extents IH]; intros i s cs Hq;
    [exists s; split; [done|by apply quietly_refl]|].
  cbn [insert_loop insert_cmds] in *.
  destruct (sector =? e); [exists s; split; [done|by apply quietly_refl]|].
  destruct (sector <? e); cbn [app mbind option_bind] in *; [|by apply IH].
  store_ops. destruct (quiet_append _ _ _ Hq) as (s1 & E1 & Hi1). rewrite E1.
  cbn [mbind option_bind]. destruct (IH (i + 1) s1 cs (proj2 Hi1)) as (s2 & E2 & Hi2).
  exists s2. split; [done|]. by eapply quietly_cons.
Qed.

Lemma diff_index_ok file extents idx w cs :
  quiet (in_store w) (index_cmds bs po file extents idx ++ cs) →
  ∃ w', diff_index sb po deep file extents idx w = Some w' ∧
    quietly (in_store w) (index_cmds bs po file extents idx) cs (in_store w').
Proof.
  intros Hq. unfold diff_index, index_cmds, block_sector in *. fold bs in Hq |- *.
  destruct (ext4_extent_index_leaf idx =? 0);
    [exists w; split; [done|by apply quietly_refl]|].
  set (sector := u64 _ `div` SECTOR_SIZE) in *.
  rewrite <-app_assoc in Hq. destruct (zlen extents =? 0).
  - cbn [app] in Hq. quiet_step Hq as w1 Hi1. quiet_step (proj2 Hi1) as w2 Hi2.
    quiet_step (proj2 Hi2) as w3 Hi3.
    destruct (quiet_reinspect w3 sector _ (proj2 Hi3)) as (w4 & E4 & Hi4).
    rewrite E4. cbn [mbind option_bind].
    destruct (insert_loop_ok _ _ _ _ _ _ (proj2 Hi4)) as (s5 & E5 & Hi5).
    rewrite E5. exists (set_store s5 w4). split; [done|].
    rewrite <-app_assoc. eapply quietly_cons; [exact Hi1|]. eapply quietly_cons; [exact Hi2|].
    eapply quietly_cons; [exact Hi3|]. by eapply quietly_trans.
  - cbn [app mbind option_bind] in *. destruct (insert_loop_ok _ _ _ _ _ _ Hq) as (s5 & E5 & Hi5).
    rewrite E5. by exists (set_store s5 w).
Qed.

Lemma diff_entries_ok node junk file known_len extents k : ∀ i w cs,
  node_ok node → Z.of_nat (i + k) ≤ node_entries node →
  let new := concat (entry_cmds bs po file known_len extents (node_depth node) <$>
                     (entry_at node <$> seq i k)) in
  quiet (in_store w) (new ++ cs) →
  ∃ w', diff_entries sb po deep k (Z.of_nat i) (node_depth node) file known_len extents
          (node ++ junk) w = Some w' ∧ quietly (in_store w) new cs (in_store w').
Proof.
  induction k as [|k IH]; intros i w cs Hok Hk new Hq.
  { exists w. split; [done|by apply quietly_refl]. }
  subst new. cbn [diff_entries seq fmap list_fmap concat] in *. rewrite <-app_assoc in Hq.
  pose proof (entry_read node junk i Hok ltac:(lia)) as Ee. unfold extent_entry in Ee.
  rewrite Ee. cbn [mbind option_bind].
  assert (∃ w1, (if negb (node_depth node =? 0)
                 then diff_index sb po deep file extents (entry_at node i) w
                 else diff_leaf sb po deep file known_len (entry_at node i) w) = Some w1 ∧
    quietly (in_store w)
      (entry_cmds bs po file known_len extents (node_depth node) (entry_at node i))
      (concat (entry_cmds bs po file known_len extents (node_depth node) <$>
                (entry_at node <$> seq (S i) k)) ++ cs) (in_store w1)) as (w1 & E1 & Hi1).
  { unfold entry_cmds at 1 in Hq. unfold entry_cmds at 1.
    destruct (node_depth node =? 0); [by apply diff_leaf_ok|by apply diff_index_ok]. }
  rewrite E1. cbn [mbind option_bind]. replace (Z.of_nat i + 1) with (Z.of_nat (S i)) by lia.
  destruct (IH (S i) w1 cs Hok ltac:(lia) (proj2 Hi1)) as (w2 & E2 & Hi2).
  exists w2. split; [done|]. by eapply quietly_trans.
Qed.
End node.

(** ** The call *)

Section call.
Context `{MallocTotal} `{Connected} `{Host}.
Context (sb : super_info) (po : Z) (Hbs : 0 < block_size sb).
Context (deep : qemu_bdrv_write → bool → inspector → option (inspector * Z)).

Lemma parse_list_ok kind ids :
  is_token (str_bytes kind) → Forall (λ c, c ≠ 0) (str_bytes kind) →
  Forall (λ id, 0 ≤ id < 2 ^ 64) ids →
  parse_list ((λ s, s ++ [0]) <$> (pointer_text kind <$> ids)) = Some ids.
Proof.
  intros Ht Hz. induction 1 as [|id ids Hid _ IH]; [done|].
  rewrite !fmap_cons. cbn [parse_list].
  destruct (pointer_text_read kind id [] indeterminate Ht Hz Hid) as [-> E].
  cbn [mbind option_bind]. rewrite E. cbn [mbind option_bind]. by rewrite IH.
Qed.

(** A node in front of [junk]; the file has [known_len] sectors on its list, and
    [ids] are the blocks of its tree that are known. *)
Lemma diff_extents_ok node junk file known_len ids n w :
  ready (in_store w) → node_ok node → ehf "eh_magic" (take 12 node) = 0xF30A →
  0 ≤ known_len < 2 ^ 63 → Forall (λ id, 0 ≤ id < 2 ^ 64) ids → zlen ids < 2 ^ 32 →
  let d := applied (in_store w) in
  let llen := cmd REDIS_FILE_SECTORS_LLEN [AInt file] in
  let lget := cmd REDIS_EXTENTS_LGET [AInt file] in
  let cs := node_cmds (block_size sb) po file known_len ids node in
  (exec d llen).2 = RInteger known_len →
  (exec (exec d llen).1 lget).2 = RArray n (RString <$> (pointer_text "extent" <$> ids)) →
  no_strings (exec_all d [llen; lget]) cs →
  ∃ w', __diff_ext4_extents sb po deep file (node ++ junk) w = Some (w', EXIT_SUCCESS) ∧
    issued (in_store w) ([llen; lget] ++ cs) (in_store w').
Proof.
  intros Hr Hok Hmagic Hlen Hids Hn d llen lget cs Hllen Hlget Hq. unfold __diff_ext4_extents.
  pose proof (node_entries_nonneg node Hok) as Hne.
  assert (mem_le 2 (node ++ junk) 0 = Some 0xF30A) as ->.
  { rewrite <-Hmagic. pose proof (no_room _ Hok). unfold mem_le.
    rewrite mem_read_prefix by len. cbn [mbind option_bind]. f_equal.
    change (Z.to_nat 2) with 2%nat. rewrite take_app_le by lia.
    unfold fget, fbytes. cbn [offset_of String.eqb Ascii.eqb Bool.eqb]. simpl.
    rewrite drop_0, take_take. done. }
  cbn [mbind option_bind Z.eqb Pos.eqb negb]. rewrite hdr_read by done. cbn [mbind option_bind].
  destruct (list_len_issued (in_store w) REDIS_FILE_SECTORS_LLEN file Hr) as (s1 & E1 & Hi1).
  fold llen d in E1, Hi1. rewrite E1, Hllen. cbn [mbind option_bind negb Z.eqb EXIT_SUCCESS].
  rewrite uwrap_small by lia. destruct Hi1 as [Hr1 Ea1]. simpl in Ea1. fold d in Ea1.
  destruct (list_get_issued s1 REDIS_EXTENTS_LGET file None n (pointer_text "extent" <$> ids) Hr1)
    as (s2 & E2 & Hi2 & Eq2); [by apply pointer_texts_short|len|by rewrite Ea1|].
  cbn [in_store set_store]. rewrite E2. cbn [mbind option_bind negb Z.eqb EXIT_SUCCESS].
  rewrite parse_list_ok; [|by apply (bool_decide_unpack _); vm_compute|by repeat constructor|done].
  cbn [mbind option_bind]. fold (node_entries node) (node_depth node).
  assert (applied s2 = exec_all d [llen; lget]) as Ea2 by (by rewrite (proj2 Hi2), Ea1).
  destruct (diff_entries_ok sb po Hbs deep node junk file known_len ids
    (Z.to_nat (node_entries node)) 0 (set_store s2 (set_store s1 w)) [] Hok ltac:(lia))
    as (w3 & E3 & Hi3 & _).
  { split; [by apply Hi2|]. cbn [in_store set_store]. rewrite Eq2, app_nil_r.
    unfold applied in Ea2. rewrite Eq2 in Ea2. cbn in Ea2. rewrite Ea2. exact Hq. }
  change (Z.of_nat 0) with 0 in E3. rewrite E3. cbn [mbind option_bind].
  rewrite free_copies. cbn [mbind option_bind].
  destruct (flush_issued (in_store w3)) as (s4 & E4 & Hi4 & _); [eauto with store|].
  rewrite E4. eexists. split; [done|]. cbn [app in_store set_store].
  eapply issued_cons; [by split|]. eapply issued_cons; [exact Hi2|].
  rewrite <-(app_nil_r cs). eapply issued_trans; [exact Hi3|exact Hi4].
Qed.
End call.

(** ** What the commands leave on the file's list of sectors *)

Definition list_effect (file : Z) (l : list Z) (c : command) : list Z :=
  if String.eqb (c_fmt c) REDIS_FILE_SECTORS_INSERT then
    match c_args c with [AInt f; AInt n] => if f =? file then l ++ [n] else l | _ => l end
  else if String.eqb (c_fmt c) REDIS_FILE_SECTORS_LSET then
    match c_args c with
    | [AInt f; AInt i; AInt n] => if f =? file then <[Z.to_nat i := n]> l else l
    | _ => l
    end
  else l.

Definition sectors_after (file : Z) (l : list Z) (cs : list command) : list Z :=
  foldl (list_effect file) l cs.

Definition extent_sector (bs po : Z) (ext : list Z) (i : nat) : Z :=
  s64 (u64 (u64 (u64 (ext4_extent_start ext + Z.of_nat i) * bs) + po) `div` SECTOR_SIZE).

Definition extent_sectors (bs po : Z) (ext : list Z) : list Z :=
  extent_sector bs po ext <$> seq 0 (Z.to_nat (eef "ee_len" ext)).

(** Where the sectors of an extent go, in a list [l] that had [known_len] sectors
    when the node was come to. An extent that starts among these replaces them
    from its block on, and what is left of it is appended; another one is
    appended behind as many holes as its block is behind [known_len]. *)
Definition place_extent (bs po known_len : Z) (l : list Z) (ext : list Z) : list Z :=
  let sectors := extent_sectors bs po ext in
  let b := eef "ee_block" ext in
  if b <? known_len then
    let over := take (Z.to_nat (known_len - b)) sectors in
    take (Z.to_nat b) l ++ over ++ drop (Z.to_nat b + length over) l ++
    drop (Z.to_nat (known_len - b)) sectors
  else l ++ replicate (Z.to_nat (b - known_len)) (-1) ++ sectors.

Lemma sectors_after_app file l cs1 cs2 :
  sectors_after file l (cs1 ++ cs2) = sectors_after file (sectors_after file l cs1) cs2.
Proof. apply foldl_app. Qed.

Lemma sectors_after_cons file l c cs :
  sectors_after file l (c :: cs) = sectors_after file (list_effect file l c) cs.
Proof. done. Qed.

Lemma effect_push file l n :
  list_effect file l (cmd REDIS_FILE_SECTORS_INSERT [AInt file; AInt n]) = l ++ [n].
Proof. unfold list_effect. cbn [c_fmt c_args cmd]. by rewrite Z.eqb_refl. Qed.

Lemma effect_set file l i n :
  list_effect file l (cmd REDIS_FILE_SECTORS_LSET [AInt file; AInt i; AInt n]) =
  <[Z.to_nat i := n]> l.
Proof. unfold list_effect. cbn [c_fmt c_args cmd]. by rewrite Z.eqb_refl. Qed.

Definition keeps_list (c : command) : Prop :=
  c_fmt c ≠ REDIS_FILE_SECTORS_INSERT ∧ c_fmt c ≠ REDIS_FILE_SECTORS_LSET.

#[export] Instance keeps_list_dec c : Decision (keeps_list c).
Proof. unfold keeps_list. apply _. Defined.

Lemma dequeue_keeps_list sector : Forall keeps_list (dequeue_cmds sector).
Proof. apply (bool_decide_unpack _). by vm_compute. Qed.

Lemma sectors_kept file l cs : Forall keeps_list cs → sectors_after file l cs = l.
Proof.
  induction 1 as [|c cs [E1 E2] _ IH]; [done|]. cbn [sectors_after foldl].
  unfold list_effect at 2. rewrite (proj2 (String.eqb_neq _ _) E1), (proj2 (String.eqb_neq _ _) E2).
  exact IH.
Qed.

Lemma sectors_after_holes file n l :
  sectors_after file l (replicate n (hole_cmd file)) = l ++ replicate n (-1).
Proof.
  revert l. induction n as [|n IH]; intros l; [by rewrite app_nil_r|].
  cbn [replicate]. unfold sectors_after in *. cbn [foldl]. rewrite IH.
  unfold hole_cmd. rewrite effect_push. by rewrite <-app_assoc.
Qed.

Section placed.
Context (bs po file known_len : Z) (ext : list Z) (Hext : bytes_ok ext).
Let b := eef "ee_block" ext.

Lemma sectors_after_block known i l :
  Z.of_nat i < 2 ^ 16 →
  sectors_after file l (block_entry_cmds bs po file known_len known ext (Z.of_nat i)) =
  if known && (Z.of_nat i + b <? known_len)
  then <[(Z.to_nat b + i)%nat := extent_sector bs po ext i]> l
  else l ++ [extent_sector bs po ext i].
Proof.
  intros Hi. pose proof (fget_range ext4_extent "ee_block" ext 0 4 Hext eq_refl) as Hb. fold b in Hb.
  unfold block_entry_cmds, extent_sector. cbv zeta. fold b.
  rewrite (uwrap_small 64 (Z.of_nat i + b)) by lia.
  rewrite sectors_after_app, (sectors_kept _ _ (dequeue_cmds _)) by apply dequeue_keeps_list.
  rewrite sectors_after_cons, (sectors_kept _ _ [_])
    by (apply (bool_decide_unpack _); by vm_compute).
  destruct (known && _); [|apply effect_push].
  rewrite effect_set. by replace (Z.to_nat (Z.of_nat i + b)) with (Z.to_nat b + i)%nat by lia.
Qed.

(** The blocks that are not among the known ones. *)
Lemma sectors_after_new known k : ∀ i l,
  Z.of_nat (i + k) < 2 ^ 16 → known = false ∨ known_len ≤ b + Z.of_nat i →
  sectors_after file l (blocks_entry_cmds bs po file known_len known ext k (Z.of_nat i)) =
  l ++ (extent_sector bs po ext <$> seq i k).
Proof.
  induction k as [|k IH]; intros i l Hi Hn; [by rewrite app_nil_r|].
  cbn [blocks_entry_cmds seq fmap list_fmap].
  rewrite sectors_after_app, sectors_after_block by lia.
  replace (known && (Z.of_nat i + b <? known_len)) with false
    by (destruct Hn as [->|?]; [done|]; rewrite (proj2 (Z.ltb_ge _ _)) by lia; by destruct known).
  replace (Z.of_nat i + 1) with (Z.of_nat (S i)) by lia.
  rewrite IH by first [lia|destruct Hn; [by left|right; lia]]. by rewrite <-app_assoc.
Qed.

(** The blocks that are. *)
Lemma sectors_after_known k : ∀ i l,
  Z.of_nat (i + k) < 2 ^ 16 → 0 ≤ b → b + Z.of_nat (i + k) ≤ known_len → known_len ≤ zlen l →
  sectors_after file l (blocks_entry_cmds bs po file known_len true ext k (Z.of_nat i)) =
  take (Z.to_nat b + i) l ++ (extent_sector bs po ext <$> seq i k) ++
  drop (Z.to_nat b + i + k) l.
Proof.
  induction k as [|k IH]; intros i l Hi Hb Hk Hl.
  { rewrite Nat.add_0_r. symmetry. apply take_drop. }
  cbn [blocks_entry_cmds seq fmap list_fmap].
  rewrite sectors_after_app, sectors_after_block by lia.
  rewrite (proj2 (Z.ltb_lt _ _)) by lia. cbn [andb].
  replace (Z.of_nat i + 1) with (Z.of_nat (S i)) by lia.
  rewrite IH by (rewrite ?length_insert; lia).
  rewrite insert_take_drop, cons_middle, (app_assoc (take _ l) [_]) by lia.
  rewrite take_app_length', drop_app_ge, drop_drop by len.
  rewrite <-!app_assoc. cbn [app]. do 4 f_equal. len.
Qed.

Lemma blocks_entry_cmds_app known j k : ∀ i,
  blocks_entry_cmds bs po file known_len known ext (j + k) i =
  blocks_entry_cmds bs po file known_len known ext j i ++
  blocks_entry_cmds bs po file known_len known ext k (i + Z.of_nat j).
Proof.
  induction j as [|j IH]; intros i; [simpl; by rewrite Z.add_0_r|].
  cbn [Nat.add blocks_entry_cmds]. rewrite IH, <-app_assoc. do 3 f_equal. lia.
Qed.
End placed.

Section entries.
Context (bs po file known_len : Z).

Lemma place_extent_length l ext :
  bytes_ok ext → known_len ≤ zlen l → known_len ≤ zlen (place_extent bs po known_len l ext).
Proof.
  intros Hext Hl. pose proof (fget_nonneg ext4_extent "ee_block" ext Hext).
  unfold place_extent. case_test; [|len]. set (sectors := extent_sectors _ _ _). clearbody sectors.
  rewrite !length_app, !length_drop, !length_take. lia.
Qed.

Lemma sectors_after_leaf l ext :
  bytes_ok ext → known_len ≤ zlen l →
  sectors_after file l (leaf_cmds bs po file known_len ext) = place_extent bs po known_len l ext.
Proof.
  intros Hext Hl.
  pose proof (fget_nonneg ext4_extent "ee_block" ext Hext) as Hb.
  pose proof (fget_range ext4_extent "ee_len" ext 4 2 Hext eq_refl) as Hn.
  change (2 ^ (8 * Z.of_nat 2)) with (2 ^ 16) in Hn.
  unfold leaf_cmds, place_extent, extent_sectors.
  set (b := eef "ee_block" ext) in *. set (n := Z.to_nat (eef "ee_len" ext)) in *.
  assert (Z.of_nat n < 2 ^ 16) as Hn' by lia. case_test.
  - set (j := Z.to_nat (known_len - b)). assert (Z.of_nat j = known_len - b) as Hj' by lia.
    replace n with (j `min` n + (n - j))%nat at 1 by lia.
    rewrite blocks_entry_cmds_app, sectors_after_app, Z.add_0_l.
    rewrite (sectors_after_known bs po file known_len ext Hext (j `min` n) 0) by (fold b; lia).
    rewrite <-fmap_take, <-fmap_drop, take_seq, drop_seq, length_fmap, length_seq. fold b.
    destruct (decide (j ≤ n)%nat) as [Hj|Hj].
    + rewrite Nat.min_l, sectors_after_new by first [done|fold b; lia|right; fold b; lia].
      by rewrite !Nat.add_0_r, <-!app_assoc.
    + replace (n - j)%nat with 0%nat by lia. cbn [blocks_entry_cmds seq fmap list_fmap].
      by rewrite app_nil_r, !Nat.add_0_r.
  - rewrite sectors_after_app, sectors_after_holes.
    rewrite (sectors_after_new bs po file known_len ext Hext false n 0) by (lia || by left).
    by rewrite <-app_assoc.
Qed.

Lemma insert_keeps_list sector extents : ∀ i,
  Forall keeps_list (insert_cmds file sector i extents).
Proof.
  induction extents as [|e extents IH]; intros i; [by constructor|]. cbn [insert_cmds].
  destruct (sector =? e); [by constructor|]. apply Forall_app. split; [|apply IH].
  destruct (sector <? e); [|by constructor].
  apply (bool_decide_unpack _). by vm_compute.
Qed.

Lemma index_keeps_list extents idx : Forall keeps_list (index_cmds bs po file extents idx).
Proof.
  unfold index_cmds. case_match; [by constructor|]. apply Forall_app.
  split; [|apply insert_keeps_list]. case_match; [|by constructor].
  apply (bool_decide_unpack _). by vm_compute.
Qed.

Lemma sectors_after_entries extents depth es : ∀ l,
  Forall bytes_ok es → known_len ≤ zlen l →
  sectors_after file l (concat (entry_cmds bs po file known_len extents depth <$> es)) =
  if depth =? 0 then foldl (place_extent bs po known_len) l es else l.
Proof.
  induction es as [|e es IH]; intros l Hes Hl; [by case_match|].
  apply Forall_cons_1 in Hes as [He Hes]. cbn [fmap list_fmap concat foldl].
  assert (sectors_after file l (entry_cmds bs po file known_len extents depth e) =
          if depth =? 0 then place_extent bs po known_len l e else l) as E.
  { unfold entry_cmds. destruct (depth =? 0); [by apply sectors_after_leaf|].
    apply sectors_kept, index_keeps_list. }
  rewrite sectors_after_app, E. destruct (depth =? 0); apply IH; try done.
  by apply place_extent_length.
Qed.
End entries.

Lemma entries_bytes node : node_ok node → Forall bytes_ok (entries_of node).
Proof.
  intros Hok. apply Forall_fmap, Forall_true. intros i. by apply entry_at_bytes.
Qed.

(** C21: the extents of a node reach the file's list of sectors one after the
    other: an extent that starts among the blocks the list has replaces their
    sectors, and the rest of it is appended; one that starts behind them is
    appended, with a hole for every block in between. The length of the list is
    taken once, before the first extent: the holes in front of a second new
    extent are counted from there too, so its blocks come behind those of the
    first and not at their place. An index node leaves the list as it is. Every
    command is issued in this order, as long as none of them is answered by a
    string, which is what the server answers where a write is queued for a block
    of the node. *)
Theorem diff_extents_list `{MallocTotal} `{Connected} `{Host} sb po deep file node junk ids n l w :
  0 < block_size sb → ready (in_store w) → node_ok node → ehf "eh_magic" (take 12 node) = 0xF30A →
  zlen l < 2 ^ 63 → Forall (λ id, 0 ≤ id < 2 ^ 64) ids → zlen ids < 2 ^ 32 →
  let d := applied (in_store w) in
  let llen := cmd REDIS_FILE_SECTORS_LLEN [AInt file] in
  let lget := cmd REDIS_EXTENTS_LGET [AInt file] in
  let cs := node_cmds (block_size sb) po file (zlen l) ids node in
  (exec d llen).2 = RInteger (zlen l) →
  (exec (exec d llen).1 lget).2 = RArray n (RString <$> (pointer_text "extent" <$> ids)) →
  no_strings (exec_all d [llen; lget]) cs →
  (∃ w', __diff_ext4_extents sb po deep file (node ++ junk) w = Some (w', EXIT_SUCCESS) ∧
    issued (in_store w) ([llen; lget] ++ cs) (in_store w')) ∧
  sectors_after file l cs =
    if node_depth node =? 0
    then foldl (place_extent (block_size sb) po (zlen l)) l (entries_of node) else l.
Proof.
  intros Hb Hr Hok Hmagic Hl Hids Hn d llen lget cs Hllen Hlget Hq. split.
  - eapply diff_extents_ok; (done || lia).
  - by apply sectors_after_entries; [apply entries_bytes|].
Qed.

(** A file of three sectors. Blocks 1, 2 and 3 are now the device's blocks 20, 21
    and 22, and block 5 is its block 30: behind the end of the list, but behind
    two holes instead of one. *)
Definition grown_node : list Z :=
  [0x0a; 0xf3; 2; 0; 4; 0; 0; 0; 0; 0; 0; 0] ++ [1; 0; 0; 0; 3; 0; 0; 0; 20; 0; 0; 0] ++
  [5; 0; 0; 0; 1; 0; 0; 0; 30; 0; 0; 0].

Definition grown_reply (c : command) : redisReply :=
  if bool_decide (c = cmd REDIS_FILE_SECTORS_LLEN [AInt 7]) then RInteger 3
  else if bool_decide (c = cmd REDIS_EXTENTS_LGET [AInt 7])
  then RArray 1 [RString (pointer_text "extent" 14)]
  else RNil.

#[local] Instance grown_server : RedisServer | 0 := log_server grown_reply.

Definition grown_inspector : inspector :=
  {| in_store := log_store grown_reply; in_metadata := file_of []; in_load := initial_load |}.

Lemma log_exec_all reply cs : ∀ d, exec_all (H := log_server reply) d cs = d ++ cs.
Proof.
  induction cs as [|c cs IH]; intros d; [by rewrite app_nil_r|].
  cbn [exec_all foldl]. etransitivity; [apply (IH (d ++ [c]))|]. by rewrite <-app_assoc.
Qed.

Lemma log_no_strings reply d cs :
  Forall (λ c, match reply c with RString _ => False | _ => True end) cs →
  no_strings (H := log_server reply) d cs.
Proof.
  intros Hcs cs1 c cs2 x -> E. apply Forall_app in Hcs as [_ Hc].
  apply Forall_cons_1 in Hc as [Hc _]. cbn in E. by rewrite E in Hc.
Qed.

Lemma diff_extents_list_witness :
  ∃ w', __diff_ext4_extents witness_block_super 0 (λ _ _ w, Some (w, EXIT_SUCCESS)) 7
          (grown_node ++ replicate 24 0) grown_inspector = Some (w', EXIT_SUCCESS) ∧
    sectors_after 7 [10; 12; 14] (drop 2 (applied (in_store w'))) =
      [10; 40; 42; 44; -1; -1; 60].
Proof.
  destruct (diff_extents_list witness_block_super 0 (λ _ _ w, Some (w, EXIT_SUCCESS)) 7 grown_node
    (replicate 24 0) [14] 1 [10; 12; 14] grown_inspector) as [(w' & E & [_ Ha]) Hs].
  - by vm_compute.
  - apply log_store_ready.
  - closed_node.
  - by vm_compute.
  - by vm_compute.
  - by repeat constructor.
  - by vm_compute.
  - by vm_compute.
  - by vm_compute.
  - apply log_no_strings. vm_compute. by repeat constructor.
  - exists w'. split; [exact E|]. rewrite Ha.
    assert (applied (in_store grown_inspector) = []) as -> by (by vm_compute).
    rewrite (log_exec_all grown_reply). change (drop 2 _) with
      (node_cmds 1024 0 7 3 [14] grown_node).
    change (node_cmds (block_size witness_block_super) 0 7 (zlen [10; 12; 14]) [14] grown_node)
      with (node_cmds 1024 0 7 3 [14] grown_node) in Hs. rewrite Hs. by vm_compute.
Defined.
