(* ===== verification/InspectNtfs.v ===== *)
(** * src/gray-inferencer/deep_inspection.c: writes to NTFS volumes

    The counterparts of the functions of Inspect for a volume of the crawler's
    [ntfs.c]: records whose data runs are read again replace the sectors of
    their file. The blocks are clusters. [k] bounds the rounds of the loops over
    attributes, runs and sectors; a failed [assert] ends the process. *)
From S2P Require Import Prelude Words Memory Struct Stdio Bson BsonEncode Scan RedisEnv Redis InspectLoad InspectEmit Ntfs Inspect.

#[local] Open Scope string_scope.
#[local] Open Scope list_scope.
#[local] Open Scope Z_scope.

(** What is in a buffer that held [old] when [d] has been copied into it. *)
Definition overwrite (old d : list Z) : list Z := d ++ drop (length d) old.

Section inspect_ntfs.
Context `{Malloc} `{Hiredis} `{Host}.
Variable k : nat.

(** [bootf] is what the caller's buffer holds. *)
Definition qemu_get_bootf (s : kv_store) (bootf : list Z) (id : Z) :
    option (kv_store * list Z * Z) :=
  '(s, d, rc) ← redis_hash_field_get s REDIS_SUPERBLOCK_SECTOR_GET id (str_bytes "superblock")
                  BOOT_SIZE;
  if negb (rc =? EXIT_SUCCESS) then Some (s, bootf, EXIT_FAILURE) else
  Some (s, overwrite bootf d, EXIT_SUCCESS).

(** The boot file and the offset are read and left alone. *)
Definition __diff_superblock_ntfs (s : kv_store) (pointer : list Z) : option (kv_store * Z) :=
  fs ← pointer_arg pointer 0;
  '(s, _, rc) ← redis_hash_field_get s REDIS_SUPERBLOCK_SECTOR_GET fs (str_bytes "superblock")
                  BOOT_SIZE;
  if negb (rc =? EXIT_SUCCESS) then Some (s, EXIT_FAILURE) else
  '(s, _, rc) ← redis_hash_field_get s REDIS_SUPERBLOCK_SECTOR_GET fs
                  (str_bytes "superblock_offset") 8;
  if negb (rc =? EXIT_SUCCESS) then Some (s, EXIT_FAILURE) else
  Some (s, EXIT_SUCCESS).

Section volume.
Context (bootf : list Z) (partition_offset : Z).

(** ** The sectors of a file *)

(** A sector for every eight of the [n] of a run, from sector [i] on. *)
Fixpoint insert_sectors (fuel : nat) (file n run_lcn_bytes i : Z) (s : kv_store) :
    option kv_store :=
  match fuel with
  | O => None
  | S fuel =>
      if i <? n then
        '(s, _) ← redis_reverse_pointer_set s REDIS_FILE_SECTORS_INSERT file
                    (s64 (u64 (u64 (Z.quot run_lcn_bytes 512) + i)));
        insert_sectors fuel file n run_lcn_bytes (u64 (i + 8)) s
      else Some s
  end.

(** The runs from [data_offset] on; [real_size] wraps below a run that is longer. *)
Fixpoint insert_runs (fuel : nat) (file : Z) (data : list Z) (data_offset prev_lcn real_size : Z)
    (s : kv_store) : run kv_store :=
  match fuel with
  | O => Undefined
  | S fuel =>
      '(data_offset, run_length, run_lcn, more) ← lift (ntfs_parse_data_run data data_offset 0 0);
      if (more =? 0) || (real_size =? 0) then Done s else
      let run_length_bytes :=
        u64 (u64 (run_length * bootf_ "bytes_per_sector" bootf) *
             bootf_ "sectors_per_cluster" bootf) in
      let lcn := prev_lcn + run_lcn in
      if bool_decide (¬ - 2 ^ 63 ≤ lcn < 2 ^ 63) then Undefined else
      let run_lcn_bytes := s64 (ntfs_lcn_to_offset bootf partition_offset (u64 lcn)) in
      if negb (0 <=? lcn) || negb (lcn <? 26214400) || negb (0 <? run_length_bytes)
      then Ended Abort else
      s ← lift (insert_sectors k file (run_length_bytes `div` SECTOR_SIZE) run_lcn_bytes 0 s);
      insert_runs fuel file data data_offset lcn (u64 (real_size - run_length_bytes)) s
  end.

(** [data] is the memory from the record on. *)
Definition __diff_data_ntfs (s : kv_store) (data : list Z) (file : Z) : run (kv_store * Z) :=
  '(data_offset, attr) ← lift (ntfs_get_attribute k data 0 NTFS_DATA);
  match attr with
  | None => Done (s, EXIT_FAILURE)
  | Some sah =>
      let type := sahf "attribute_type" sah in
      let flag bit := negb (Z.land (sahf "flags" sah) bit =? 0) in
      if negb (type =? NTFS_DATA) && negb (type =? NTFS_INDEX_ALLOCATION)
      then Done (s, EXIT_FAILURE) else
      if flag 0x0001 then Done (s, EXIT_FAILURE) else
      if flag 0x4000 then Done (s, EXIT_FAILURE) else
      if flag 0x8000 then Done (s, EXIT_FAILURE) else
      '(s, _) ← lift (redis_delete_key s REDIS_FILE_SECTORS_DELETE file);
      if negb (sahf "non_resident_flag" sah =? 0) then
        '(data_offset, nrh) ← lift (ntfs_read_non_resident_attribute_header data data_offset);
        let nrhf f := fget ntfs_non_resident_header f nrh in
        let data_offset := u64 (data_offset + (nrhf "data_run_offset" - SAH_SIZE - NRH_SIZE)) in
        s ← insert_runs k file data data_offset 0 (nrhf "real_size") s;
        Done (s, EXIT_SUCCESS)
      else
        '(s, _) ← lift (redis_reverse_pointer_set s REDIS_FILE_SECTORS_INSERT file (-1));
        Done (s, EXIT_SUCCESS)
  end.

(** ** Records *)

(** The variables that keep what they hold from file to file. *)
Record record_vars := { rv_file : Z; rv_is_dir : Z; rv_offset : Z }.

(** The turn of the loop for the file [rv_file]. [path] is an array of 4096 pointers, of
    which the one at the length of the path is set to null. *)
Definition diff_record (write : list Z) (x : record_vars) (s : kv_store) :
    run (kv_store * record_vars * Z) :=
  let file := rv_file x in
  let get s field cap := lift (redis_hash_field_get s REDIS_FILE_SECTOR_GET file
                                 (str_bytes field) cap) in
  '(s, path, rc) ← get s "path" 4096;
  if negb (rc =? EXIT_SUCCESS) then Done (s, x, EXIT_FAILURE) else
  if 4096 <=? zlen path then Undefined else
  '(s, d, rc) ← get s "is_dir" 1;
  if negb (rc =? EXIT_SUCCESS) then Done (s, x, EXIT_FAILURE) else
  let is_dir := overlay 1 (rv_is_dir x) d in
  '(s, d, rc) ← get s "inode_offset" 8;
  if negb (rc =? EXIT_SUCCESS) then Done (s, x, EXIT_FAILURE) else
  let offset := overlay 8 (rv_offset x) d in
  let x := {| rv_file := file; rv_is_dir := is_dir; rv_offset := offset |} in
  if zlen write <? offset then Undefined else
  let new := drop (Z.to_nat offset) write in
  '(s, _) ← (if is_dir =? 0 then __diff_data_ntfs s new file else Done (s, EXIT_SUCCESS));
  size ← lift (ntfs_file_record_size bootf);
  d ← lift (mem_read new 0 (u64 size));
  '(s, rc) ← lift (redis_hash_field_set s REDIS_FILE_SECTOR_INSERT file (str_bytes "inode") d);
  if negb (rc =? EXIT_SUCCESS) then Done (s, x, EXIT_FAILURE) else Done (s, x, EXIT_SUCCESS).

Fixpoint diff_records (l : list (list Z)) (x : record_vars) (write : list Z) (s : kv_store) :
    run (kv_store * Z) :=
  match l with
  | [] => Done (s, EXIT_SUCCESS)
  | e :: l =>
      p ← lift (cstr_at e 0);
      file ← lift (pointer_arg p (rv_file x));
      '(s, x, rc) ← diff_record write
        {| rv_file := file; rv_is_dir := rv_is_dir x; rv_offset := rv_offset x |} s;
      if negb (rc =? EXIT_SUCCESS) then Done (s, rc) else diff_records l x write s
  end.

Definition __diff_inodes_ntfs (write : list Z) (s : kv_store) (pointer : list Z) :
    run (kv_store * Z) :=
  lfiles ← lift (pointer_arg pointer 0);
  '(s, l, rc) ← lift (redis_list_get s REDIS_FILES_LGET lfiles None);
  if negb (rc =? EXIT_SUCCESS) then Done (s, EXIT_FAILURE) else
  l ← lift l;
  '(s, rc) ← diff_records l
    {| rv_file := 0; rv_is_dir := indeterminate; rv_offset := indeterminate |} write s;
  if negb (rc =? EXIT_SUCCESS) then Done (s, rc) else
  _ ← lift (redis_free_list (Some (PLive <$> l)) (zlen l));
  Done (s, EXIT_SUCCESS).

(** ** Dispatch, and the loop over the clusters of a write *)

Context (write_counter : Z) (vmname : list Z).

Definition __qemu_dispatch_write_ntfs (data : list Z) (s : kv_store) (pointer : list Z)
    (len sector : Z) : run (kv_store * Z) :=
  let done r := '(s, _) ← r; Done (s, EXIT_SUCCESS) in
  if has_prefix pointer "start" then
    done (lift (__emit_file_bytes data s vmname write_counter pointer len sector))
  else if has_prefix pointer "fs" then done (lift (__diff_superblock_ntfs s pointer))
  else if has_prefix pointer "lfiles" then done (__diff_inodes_ntfs data s pointer)
  else Done (s, EXIT_SUCCESS).

(** The result is [Some EXIT_FAILURE] when the function returns. *)
Definition inspect_cluster (write : qemu_bdrv_write) (i : Z) (s : kv_store) :
    run (kv_store * option Z) :=
  let bs := ntfs_cluster_size bootf in
  let enqueue s r := '(s, _) ← lift (enqueue_block bs write i s); Done (s, r) in
  '(s, result, rc) ← lift (redis_sector_lookup s (u64 (w_sector_num write + i)) 1024);
  if negb (rc =? EXIT_SUCCESS) then enqueue s None else
  if negb (zlen result =? 0) then
    if 1024 <=? zlen result then Undefined else
    pointer ← lift (cstr_at (result ++ [0]) 0);
    data ← lift (block_data write i);
    '(s, _) ← __qemu_dispatch_write_ntfs data s pointer (block_bytes bs write i)
                (u64 (w_sector_num write));
    Done (s, None)
  else enqueue s (Some EXIT_FAILURE).

Fixpoint inspect_clusters (fuel : nat) (write : qemu_bdrv_write) (i : Z) (s : kv_store) :
    run (kv_store * Z) :=
  match fuel with
  | O => Undefined
  | S fuel =>
      if i <? u64 (w_nb_sectors write) then
        '(s, r) ← inspect_cluster write i s;
        match r with
        | Some rc => Done (s, rc)
        | None =>
            inspect_clusters fuel write (u64 (i + ntfs_cluster_size bootf `div` SECTOR_SIZE)) s
        end
      else Done (s, EXIT_SUCCESS)
  end.

Definition qemu_deep_inspect_ntfs (write : qemu_bdrv_write) (s : kv_store) : run (kv_store * Z) :=
  inspect_clusters k write 0 s.

(** Only the first sector is looked up: every turn of the loop returns. *)
Definition qemu_infer_ntfs_sector_type (write : qemu_bdrv_write) (s : kv_store) :
    option (kv_store * Z) :=
  if 0 <? u64 (w_nb_sectors write) then
    '(s, result, rc) ← redis_sector_lookup s (u64 (w_sector_num write)) 1024;
    if negb (rc =? EXIT_SUCCESS) then Some (s, SECTOR_UNKNOWN) else
    if negb (zlen result =? 0) then
      if 1024 <=? zlen result then None else
      pointer ← cstr_at (result ++ [0]) 0;
      Some (s, __sector_type pointer)
    else Some (s, SECTOR_UNKNOWN)
  else Some (s, SECTOR_UNKNOWN).
End volume.
End inspect_ntfs.
