(* ===== verification/InspectNtfsProps.v ===== *)
(** * Properties of the inspection of NTFS volumes

    A record that is written again gives its file the sectors of the runs in the
    bytes that are written: the ends of its sectors are not put back first, as
    the crawler does, so the lists agree when the data attribute ends in front of
    the first of these. A write whose first cluster is unknown is dropped behind
    that cluster. *)
From S2P Require Import Prelude Words Memory Struct Stdio Bson BsonEncode BsonDecode BsonFields Scan RedisEnv Redis RedisProps StoreView InspectLoad InspectEmit Ntfs NtfsFiles NtfsProps NtfsData Inspect InspectProps InspectNtfs.

#[local] Open Scope string_scope.
#[local] Open Scope list_scope.
#[local] Open Scope Z_scope.

(** ** The sectors of runs *)

Section sectors.
Context (bootf : list Z) (po : Z).
Let cs := ntfs_cluster_size bootf.

(** A sector per 4096 bytes of the run. *)
Definition run_sector_list (r : data_run) (lcn : Z) : list Z :=
  (λ j, cluster_at bootf po lcn `div` 512 + 8 * Z.of_nat j) <$> seq 0 (run_blocks bootf r).

Fixpoint runs_sector_list (rs : list data_run) (prev : Z) : list Z :=
  match rs with
  | [] => []
  | r :: rs => let lcn := prev + dr_lcn r in run_sector_list r lcn ++ runs_sector_list rs lcn
  end.

(** No run is empty, and only the last one reaches the end of the [L] bytes. *)
Fixpoint runs_cover (rs : list data_run) (L : Z) : Prop :=
  match rs with
  | [] => True
  | r :: rs => 0 < dr_length r * cs ∧ 0 < L ∧ runs_cover rs (L - dr_length r * cs)
  end.

(** The array of the numbers [zs], from index [i] on. *)
Definition array_from (i : Z) (zs : list Z) : list elem :=
  imap (λ j z, {| e_key := decimal (i + Z.of_nat j); e_val := VInt32 (le_enc 4 z) |}) zs.

Lemma array_from_app i zs zs' :
  array_from i (zs ++ zs') = array_from i zs ++ array_from (i + zlen zs) zs'.
Proof.
  unfold array_from. rewrite imap_app. f_equal. apply imap_ext. intros j z _. simpl.
  f_equal. f_equal. lia.
Qed.

Lemma run_elems_array r lcn i :
  run_elems bootf po r lcn i = array_from i (run_sector_list r lcn).
Proof.
  unfold run_elems, run_sector_list, array_from. rewrite imap_fmap. unfold run_elem.
  rewrite <-(imap_const _ (seq 0 (run_blocks bootf r))) at 1. apply imap_ext.
  intros j x Hj. apply lookup_seq in Hj as [-> _]. by rewrite Nat.add_0_l.
Qed.

Lemma run_sector_list_length r lcn : zlen (run_sector_list r lcn) = Z.of_nat (run_blocks bootf r).
Proof. unfold run_sector_list. by rewrite length_fmap, length_seq. Qed.

Lemma runs_elems_array rs : ∀ prev i L,
  runs_cover rs L →
  runs_elems bootf po rs prev i L = array_from i (runs_sector_list rs prev).
Proof.
  induction rs as [|r rs IH]; intros prev i L Hc; [done|]. destruct Hc as (Hr & HL & Hc).
  cbn [runs_elems runs_sector_list]. fold cs. rewrite (proj2 (Z.eqb_neq _ _)) by lia.
  rewrite array_from_app, run_elems_array, run_sector_list_length. f_equal.
  destruct (decide (dr_length r * cs ≤ L)) as [Hle|Hgt].
  - rewrite Z.min_r by lia. by apply IH.
  - destruct rs as [|r' rs]; [done|]. destruct Hc as (_ & Hc & _). lia.
Qed.
End sectors.

(** ** The loops *)

Definition push_sector (file z : Z) : command :=
  cmd REDIS_FILE_SECTORS_INSERT [AInt file; AInt z].

Section loops.
Context `{MallocTotal} `{Connected} (bootf : list Z) (po : Z) (D : list Z) (k : nat).
Context (Hv : volume_ok bootf po D) (file : Z).
Let cs := ntfs_cluster_size bootf.

Lemma insert_sectors_ok fuel : ∀ m j at_ s,
  0 ≤ at_ < 2 ^ 62 → (m < fuel)%nat → Z.of_nat (j + m) < 2 ^ 51 → ready s →
  ∃ s', insert_sectors fuel file (8 * Z.of_nat (j + m)) at_ (8 * Z.of_nat j) s = Some s' ∧
    issued s (push_sector file <$> ((λ j, at_ `div` 512 + 8 * Z.of_nat j) <$> seq j m)) s'.
Proof.
  induction fuel as [|fuel IH]; intros m j at_ s Hat Hf Hl Hr; [lia|]. cbn [insert_sectors].
  destruct m as [|m].
  { rewrite Nat.add_0_r, Z.ltb_irrefl. exists s. split; [done|]. by apply issued_refl. }
  rewrite (proj2 (Z.ltb_lt _ _)) by lia.
  assert (0 ≤ at_ `div` 512 < 2 ^ 53) as Hd
    by (split; [apply Z.div_pos; lia|apply Z.div_lt_upper_bound; lia]).
  rewrite Z.quot_div_nonneg by lia.
  rewrite (uwrap_small 64 (at_ `div` 512)), (uwrap_small 64 (at_ `div` 512 + _)), swrap_small by lia.
  pipelined as s1 Hi1. rewrite (uwrap_small 64 (_ + 8)) by lia.
  replace (8 * Z.of_nat j + 8) with (8 * Z.of_nat (S j)) by lia.
  replace (j + S m)%nat with (S j + m)%nat by lia.
  destruct (IH m (S j) at_ s1) as (s2 & E2 & Hi2); [done|lia|lia|eauto with store|].
  exists s2. split; [exact E2|]. cbn [seq fmap list_fmap]. by eapply issued_cons.
Qed.

(** The runs, up to the mark behind them. *)
Lemma insert_runs_ok rs : ∀ fuel prev L pre post s,
  runs_wf bootf po D k rs prev → runs_cover bootf rs L → L < 2 ^ 62 → (length rs < fuel)%nat →
  zlen (pre ++ enc_runs rs) + 1 < 2 ^ 64 → ready s →
  ∃ s', insert_runs k bootf po fuel file (pre ++ enc_runs rs ++ 0 :: post) (zlen pre) prev (u64 L) s
        = Done s' ∧
    issued s (push_sector file <$> runs_sector_list bootf po rs prev) s'.
Proof.
  induction rs as [|r rs IH]; intros fuel prev L pre post s Hw Hc HL Hf Hl Hr;
    (destruct fuel as [|fuel]; [lia|]); cbn [insert_runs].
  { cbn [enc_runs fmap list_fmap concat app] in *. rewrite app_nil_r in Hl.
    unfold ntfs_parse_data_run. rewrite mem_byte_app by done.
    cbn [mbind option_bind Z.eqb negb lift run_bind orb]. exists s. split; [done|].
    by apply issued_refl. }
  rewrite enc_runs_cons. pose proof Hl as Hl2. unfold enc_runs in Hl2.
  cbn [fmap list_fmap concat] in Hl2. fold (enc_runs rs) in Hl2.
  rewrite app_assoc, length_app in Hl2.
  destruct (runs_wf_inv bootf po D k Hv r rs prev Hw) as (HR & Hat & Hdev & Hk & Hmod & Hw').
  pose proof Hw as (Hrun & Hread & Hlcn & Hd & _). destruct Hc as (Hpos & HL0 & Hc).
  rewrite parse_run_ok, Hread by (done || lia). cbn [mbind option_bind lift run_bind].
  rewrite (uwrap_small 64 L), (proj2 (Z.eqb_neq L 0)) by lia. cbn [Z.eqb orb].
  destruct (run_bytes bootf po D Hv r _ Hrun Hlcn Hd) as (-> & -> & _ & _).
  rewrite bool_decide_false by lia. fold cs in HR, Hdev, Hk, Hmod, Hpos, Hc |- *.
  rewrite (proj2 (Z.leb_le 0 _)), (proj2 (Z.ltb_lt (prev + _) _)), (proj2 (Z.ltb_lt 0 _)) by lia.
  cbn [negb orb]. set (R := dr_length r * cs) in *.
  assert (Z.of_nat (run_blocks bootf r) = R `div` 4096) as Eb.
  { unfold run_blocks. fold cs R. rewrite Z2Nat.id; [done|]. apply Z.div_pos; lia. }
  pose proof (Z.div_mod R 4096 ltac:(lia)) as ER. rewrite Hmod in ER.
  assert (R `div` SECTOR_SIZE = 8 * Z.of_nat (0 + run_blocks bootf r)) as ->.
  { unfold SECTOR_SIZE. symmetry. apply (Z.div_unique _ _ _ 0); lia. }
  destruct (insert_sectors_ok k (run_blocks bootf r) 0 (cluster_at bootf po (prev + dr_lcn r)) s)
    as (s1 & E1 & Hi1); [lia|lia|lia|done|].
  change (8 * Z.of_nat 0) with 0 in E1. rewrite E1. cbn [lift mbind run_bind].
  rewrite (app_assoc pre).
  destruct (IH fuel (prev + dr_lcn r) (L - R) (pre ++ enc_run r) post s1) as (s2 & E2 & Hi2);
    [done|done|lia|simpl in Hf; lia|rewrite length_app; lia|eauto with store|].
  rewrite E2. exists s2. split; [done|]. cbn [runs_sector_list]. rewrite fmap_app.
  by eapply issued_trans.
Qed.
End loops.

(** Where the runs of the attribute at [offset] end. *)
Definition runs_end (record : list Z) (offset : Z) (rs : list data_run) : Z :=
  offset - SAH_SIZE +
  fget ntfs_non_resident_header "data_run_offset"
    (take (Z.to_nat NRH_SIZE) (drop (Z.to_nat offset) record)) + zlen (enc_runs rs) + 1.

(** What is known of the data attribute of a record, with the end of what is read
    of it and the sectors its file gets: runs on the device; or data in the
    record, which is not read and whose sector is -1. *)
Inductive data_sectors (bootf : list Z) (po : Z) (D : list Z) (k : nat) (record : list Z)
    (offset : Z) (sah : list Z) : Z → list Z → Prop :=
  | ds_runs rs L :
      sahf "non_resident_flag" sah ≠ 0 → plain_flags sah → runs_at record offset rs L →
      runs_wf bootf po D k rs 0 → runs_cover bootf rs L → (length rs < k)%nat →
      data_sectors bootf po D k record offset sah (runs_end record offset rs)
        (runs_sector_list bootf po rs 0)
  | ds_resident :
      sahf "non_resident_flag" sah = 0 → plain_flags sah → 0 ≤ sahf "length_of_attribute" sah →
      SAH_SIZE ≤ sahf "offset_of_attribute" sah → 0 ≤ offset →
      offset + sahf "offset_of_attribute" sah - SAH_SIZE + sahf "length_of_attribute" sah
        ≤ zlen record < 2 ^ 62 →
      data_sectors bootf po D k record offset sah offset [-1].

(** ** Records that agree up to the end of the attribute *)

Lemma fixup_loop_keeps fuel : ∀ data len seq c sc data' rc n,
  fixup_loop fuel data len seq c sc = Some (data', rc) → Z.of_nat n ≤ c →
  take n data' = take n data ∧ length data' = length data.
Proof.
  induction fuel as [|fuel IH]; intros data len seq c sc data' rc n E Hc; [done|].
  cbn [fixup_loop] in E. case_match; [|by simplify_eq]. case_match; [|by simplify_eq].
  apply bind_Some in E as (x & _ & E). case_match; [by simplify_eq|].
  apply bind_Some in E as (d & _ & E). apply bind_Some in E as (data1 & Ew & E).
  apply (IH _ _ _ _ _ _ _ n) in E as [-> ->]; [|lia].
  split; [|by apply mem_write_length in Ew].
  unfold mem_write in Ew. case_bool_decide; [|done]. simplify_eq.
  rewrite take_app_le by len. rewrite take_take. f_equal. lia.
Qed.

(** The fixups put nothing back in front of byte 510. *)
Lemma fixup_record_keeps `{MallocTotal} bootf record data rec :
  fixup_record bootf record = Some (data, rec) →
  take 510 data = take 510 record ∧ length data = length record.
Proof.
  unfold fixup_record. intros E.
  apply bind_Some in E as ([? ?] & _ & E). apply bind_Some in E as ([? ?] & _ & E).
  apply bind_Some in E as (? & _ & E). apply bind_Some in E as ([? ?] & Ef & E). simplify_eq.
  by apply (fixup_loop_keeps _ _ _ _ _ _ _ _ 510) in Ef.
Qed.

Section agree.
Context (m m' : list Z) (n : nat) (Hm : take n m' = take n m).

Lemma mem_read_agree off l d :
  off + l ≤ Z.of_nat n → mem_read m off l = Some d → mem_read m' off l = Some d.
Proof.
  intros Hn. unfold mem_read. case_bool_decide as Hb; [|done]. intros [= <-].
  assert (length (take n m') = length (take n m)) as El by (by rewrite Hm).
  rewrite !length_take in El. rewrite bool_decide_true by lia. f_equal.
  assert (∀ x : list Z, take (Z.to_nat off + Z.to_nat l) x
                        = take (Z.to_nat off + Z.to_nat l) (take n x)) as Et.
  { intros x. rewrite take_take. f_equal. lia. }
  by rewrite !take_drop_commute, (Et m), (Et m'), Hm.
Qed.

Context (Hb : bytes_ok m) (Hl : zlen m < 2 ^ 62).

(** The attribute found is not in front of where the search starts. *)
Lemma attribute_loop_later fuel : ∀ offset type o r,
  0 ≤ offset → attribute_loop fuel m offset type = Some (o, Some r) → offset + SAH_SIZE ≤ o.
Proof.
  induction fuel as [|fuel IH]; intros offset type o r Ho E; [done|]. cbn [attribute_loop] in E.
  apply bind_Some in E as ([o1 sah] & E1 & E).
  apply bind_Some in E1 as (h & Eh & E1). injection E1 as <- <-.
  pose proof (mem_read_range m offset SAH_SIZE h Eh) as Hr. unfold SAH_SIZE in *.
  rewrite uwrap_small in E by lia. case_match.
  { apply bind_Some in E as (x & _ & E). simplify_eq. lia. }
  apply bind_Some in E as (e & _ & E). case_match; [done|].
  pose proof (mem_read_bytes m offset 24 h Hb Eh) as Hh.
  pose proof (fget_range ntfs_standard_attribute_header "length" h 4 4 Hh eq_refl) as Hlen.
  rewrite uwrap_small in E by lia. apply IH in E; lia.
Qed.

Lemma attribute_loop_range fuel : ∀ offset o r,
  attribute_loop fuel m offset NTFS_DATA = Some (o, Some r) → o ≤ zlen m.
Proof.
  induction fuel as [|fuel IH]; intros offset o r E; [done|]. cbn [attribute_loop] in E.
  apply bind_Some in E as ([o1 sah] & E1 & E).
  apply bind_Some in E1 as (h & Eh & E1). injection E1 as <- <-.
  apply mem_read_range in Eh. unfold SAH_SIZE in *. rewrite uwrap_small in E by lia. case_match.
  { apply bind_Some in E as (x & _ & E). simplify_eq. lia. }
  apply bind_Some in E as (e & _ & E). case_match; [done|]. by eapply IH.
Qed.

Lemma attribute_loop_agree fuel : ∀ offset o sah,
  0 ≤ offset → attribute_loop fuel m offset NTFS_DATA = Some (o, Some sah) → o ≤ Z.of_nat n →
  attribute_loop fuel m' offset NTFS_DATA = Some (o, Some sah).
Proof.
  induction fuel as [|fuel IH]; intros offset o sah Ho E Hn; [done|].
  pose proof (attribute_loop_later (S fuel) offset _ o sah Ho E) as Hlater.
  cbn [attribute_loop] in *.
  apply bind_Some in E as ([o1 h] & E1 & E). unfold ntfs_read_attribute_header in *.
  apply bind_Some in E1 as (h' & Eh & E1). injection E1 as <- <-.
  rewrite (mem_read_agree offset SAH_SIZE h') by first [exact Eh|lia]. cbn [mbind option_bind].
  case_match; [exact E|].
  apply bind_Some in E as (e & Ee & E). case_match; [done|].
  pose proof (mem_read_range m offset SAH_SIZE h' Eh) as Hr. unfold SAH_SIZE in *.
  pose proof (mem_read_bytes m offset 24 h' Hb Eh) as Hh.
  pose proof (fget_range ntfs_standard_attribute_header "length" h' 4 4 Hh eq_refl) as Hlen.
  rewrite (uwrap_small 64 (offset + 24)) in * by lia. rewrite uwrap_small in * by lia.
  assert (offset + 24 + (sahf "length" h' - 24) + SAH_SIZE ≤ o) as Hlater'
    by (eapply attribute_loop_later; [|exact E]; lia).
  unfold SAH_SIZE in *.
  apply bind_Some in Ee as (x & Ex & Ee). unfold mem_le.
  erewrite mem_read_agree by first [exact Ex|lia]. cbn [mbind option_bind]. simplify_eq.
  rewrite (proj2 (Z.eqb_neq _ _)) by (by apply Z.eqb_neq). by apply IH; [lia| |].
Qed.

Lemma get_attribute_agree k o sah :
  ntfs_get_attribute k m 0 NTFS_DATA = Some (o, Some sah) → RECORD_SIZE ≤ Z.of_nat n →
  o ≤ Z.of_nat n → ntfs_get_attribute k m' 0 NTFS_DATA = Some (o, Some sah).
Proof.
  unfold ntfs_get_attribute, ntfs_read_file_record_header. intros E Hn Ho.
  apply bind_Some in E as ([o1 rec] & E1 & E). apply bind_Some in E1 as (h & Eh & E1).
  injection E1 as <- <-. rewrite (mem_read_agree 0 RECORD_SIZE h) by first [exact Eh|lia].
  cbn [mbind option_bind]. case_match; [done|]. apply attribute_loop_agree; [|done|done].
  apply fget_nonneg. by eapply mem_read_bytes.
Qed.
End agree.

Lemma runs_at_end record offset rs L :
  runs_at record offset rs L →
  0 ≤ offset ∧ offset + NRH_SIZE ≤ runs_end record offset rs ≤ zlen record ∧ zlen record < 2 ^ 62.
Proof.
  intros [pre nrh gap post -> -> Hn Hl Ho _ _]. unfold runs_end.
  rewrite Nat2Z.id, drop_app_length, take_app_length' by (unfold NRH_SIZE in *; lia).
  rewrite Ho. unfold SAH_SIZE, NRH_SIZE in *. revert Hl. rewrite !length_app. simpl. lia.
Qed.

(** The runs of a record that is the same up to their end. *)
Lemma runs_at_agree record record' offset rs L :
  runs_at record offset rs L → zlen record' < 2 ^ 62 →
  take (Z.to_nat (runs_end record offset rs)) record'
    = take (Z.to_nat (runs_end record offset rs)) record →
  runs_at record' offset rs L.
Proof.
  intros Hr Hl Et. pose proof (runs_at_end _ _ _ _ Hr) as He.
  destruct Hr as [pre nrh gap post E -> Hn _ Ho HL HL0].
  apply (runs_at_intro _ _ _ _ pre nrh gap
    (drop (Z.to_nat (runs_end record (zlen pre) rs)) record')); try done.
  assert (Z.to_nat (runs_end record (zlen pre) rs)
          = length (pre ++ nrh ++ gap ++ enc_runs rs ++ [0])) as Ee.
  { unfold runs_end. rewrite E, Nat2Z.id, drop_app_length, take_app_length' by
      (unfold NRH_SIZE in *; lia).
    rewrite Ho. unfold SAH_SIZE, NRH_SIZE in *. rewrite !length_app. simpl. lia. }
  rewrite <-(take_drop (Z.to_nat (runs_end record (zlen pre) rs)) record') at 1.
  rewrite Et, Ee, E.
  replace (pre ++ nrh ++ gap ++ enc_runs rs ++ 0 :: post)
    with ((pre ++ nrh ++ gap ++ enc_runs rs ++ [0]) ++ post) by (by rewrite <-!app_assoc).
  rewrite take_app_length. by rewrite <-!app_assoc.
Qed.

(** The header of the attribute found is in the record. *)
Lemma get_attribute_range k record o sah :
  bytes_ok record → zlen record < 2 ^ 62 →
  ntfs_get_attribute k record 0 NTFS_DATA = Some (o, Some sah) →
  RECORD_SIZE ≤ zlen record ∧ o ≤ zlen record.
Proof.
  unfold ntfs_get_attribute, ntfs_read_file_record_header. intros Hb Hl E.
  apply bind_Some in E as ([o1 rec] & E1 & E). apply bind_Some in E1 as (h & Eh & E1).
  injection E1 as <- <-. apply mem_read_range in Eh. split; [lia|].
  case_match; [done|]. by eapply attribute_loop_range.
Qed.

(** What the inferencer issues. *)
Lemma diff_record_ok `{MallocTotal} `{Connected} bootf po D k file record junk offset sah end_ zs s :
  volume_ok bootf po D → bytes_ok record → zlen (record ++ junk) < 2 ^ 62 →
  ntfs_get_attribute k record 0 NTFS_DATA = Some (offset, Some sah) →
  sahf "attribute_type" sah = NTFS_DATA → data_sectors bootf po D k record offset sah end_ zs →
  ready s →
  ∃ s', __diff_data_ntfs k bootf po s (record ++ junk) file = Done (s', EXIT_SUCCESS) ∧
     issued s (cmd REDIS_FILE_SECTORS_DELETE [AInt file] :: (push_sector file <$> zs)) s'.
Proof.
  intros Hv Hb Hl Hattr Ht Hz Hr. unfold __diff_data_ntfs.
  assert (zlen record < 2 ^ 62) as Hl' by (revert Hl; rewrite length_app; lia).
  assert (RECORD_SIZE ≤ zlen record ∧ offset ≤ zlen record) as [Hrec Hoff]
    by by eapply get_attribute_range.
  rewrite (get_attribute_agree record (record ++ junk) (length record)
    ltac:(by rewrite take_app_length, firstn_all) Hb Hl' k offset sah Hattr) by done.
  cbn [lift mbind run_bind]. rewrite Ht. cbn [Z.eqb NTFS_DATA negb andb].
  destruct Hz as [rs L Hn Hp Hra Hw Hc Hk|Hn Hp Hz1 Hz2 Hz3 Hz4]; pose proof Hp as (F1 & F2 & F3);
    rewrite F1, F2, F3; cbn [Z.eqb negb]; pipelined as s1 Hi1; cbn [lift mbind run_bind].
  - pose proof (runs_at_end _ _ _ _ Hra).
    apply (runs_at_agree _ (record ++ junk)) in Hra; [|done|by rewrite take_app_le by lia].
    rewrite (proj2 (Z.eqb_neq _ _) Hn). cbn [negb].
    destruct Hra as [pre nrh gap post -> -> Hnl Hs Ho HL HL0].
    rewrite read_nrh by done. cbn [lift mbind run_bind]. rewrite Ho, HL.
    rewrite !length_app in Hs. cbn [length] in Hs. unfold SAH_SIZE, NRH_SIZE in *.
    rewrite length_app, (uwrap_small 64) by lia.
    replace (Z.of_nat (length pre + length nrh) + (24 + 40 + zlen gap - 24 - 40))
      with (zlen (pre ++ nrh ++ gap)) by len.
    replace (pre ++ nrh ++ gap ++ enc_runs rs ++ 0 :: post)
      with ((pre ++ nrh ++ gap) ++ enc_runs rs ++ 0 :: post) by (by rewrite <-!app_assoc).
    destruct (insert_runs_ok bootf po D k Hv file rs k 0 L (pre ++ nrh ++ gap) post s1)
      as (s2 & E2 & Hi2); [done|done|lia|done|rewrite !length_app; lia|eauto with store|].
    rewrite (uwrap_small 64 L) in E2 by lia. rewrite E2. cbn [mbind run_bind].
    exists s2. split; [done|]. by eapply issued_cons.
  - rewrite Hn. cbn [Z.eqb negb]. pipelined as s2 Hi2. cbn [lift mbind run_bind].
    exists s2. split; [done|]. by eapply issued_cons.
Qed.

(** What the crawler lists for a record of the same length that is the same up to
    the end of the attribute. *)
Lemma crawled_sectors bootf po D k record data offset sah end_ zs :
  data_sectors bootf po D k record offset sah end_ zs → end_ ≤ 510 →
  take 510 data = take 510 record → length data = length record →
  ∃ L, file_data bootf po D k data offset sah L [e_arr "sectors" (enc_doc (array_from 0 zs))].
Proof.
  intros Hz He Et El. destruct Hz as [rs L Hn Hp Hra Hw Hc Hk|Hn Hp Hz1 Hz2 Hz3 Hz4].
  - exists L. rewrite <-(runs_elems_array bootf po rs 0 0 L) by done. apply fd_runs; try done.
    pose proof (runs_at_end _ _ _ _ Hra). apply (runs_at_agree record); [done|lia|].
    assert (∀ x : list Z, take (Z.to_nat (runs_end record offset rs)) x
                          = take (Z.to_nat (runs_end record offset rs)) (take 510 x)) as Ex.
    { intros x. rewrite take_take. f_equal. lia. }
    by rewrite (Ex data), (Ex record), Et.
  - eexists. apply (fd_resident bootf po D k data offset sah); by rewrite ?El.
Qed.

(** ** Properties *)

(** C17: when the record of a file is written, its list of sectors is deleted
    and filled with a sector for every 4096 bytes of the runs in the bytes that
    are written, or -1 for data in the record itself. The inferencer does not put
    back the ends of the record's sectors from its update sequence, as the
    crawler does before it reads the record: where the data attribute ends in
    front of byte 510, the first that is put back, the list is that of the array
    "sectors" in the document the crawler would write for the record. *)
Theorem diff_data_ntfs_refines `{MallocTotal} `{Connected} bootf po D k file record junk offset sah
    end_ zs s :
  volume_ok bootf po D → bytes_ok record → zlen (record ++ junk) < 2 ^ 62 →
  ntfs_get_attribute k record 0 NTFS_DATA = Some (offset, Some sah) →
  sahf "attribute_type" sah = NTFS_DATA → data_sectors bootf po D k record offset sah end_ zs →
  ready s →
  (∃ s', __diff_data_ntfs k bootf po s (record ++ junk) file = Done (s', EXIT_SUCCESS) ∧
     issued s (cmd REDIS_FILE_SECTORS_DELETE [AInt file] :: (push_sector file <$> zs)) s') ∧
  (∀ data rec, end_ ≤ 510 → fixup_record bootf record = Some (data, rec) →
     ntfs_get_attribute k data 0 NTFS_DATA = Some (offset, Some sah) ∧
     ∃ L, file_data bootf po D k data offset sah L
            [e_arr "sectors" (enc_doc (array_from 0 zs))]).
Proof.
  intros Hv Hb Hl Hattr Ht Hz Hr.
  assert (zlen record < 2 ^ 62) as Hl' by (revert Hl; rewrite length_app; lia).
  split; [by eapply diff_record_ok|]. intros data rec Hend Hfix.
  apply fixup_record_keeps in Hfix as [Et El].
  split; [|by eapply crawled_sectors].
  apply (get_attribute_agree record data 510); try done.
  destruct Hz as [rs L _ _ Hra _ _ _|]; [|lia]. apply runs_at_end in Hra. unfold NRH_SIZE in *. lia.
Qed.

(** The record of [ntfs_file_document_witness], in front of another one. *)
Lemma diff_data_ntfs_refines_witness :
  ∃ s' data, __diff_data_ntfs 4 witness_volume 0 (log_store (λ _, RNil))
          (witness_file_record ++ replicate 1024 1) 9 = Done (s', EXIT_SUCCESS) ∧
    applied s' = [cmd REDIS_FILE_SECTORS_DELETE [AInt 9]; push_sector 9 32; push_sector 9 16] ∧
    data = witness_plain ++ replicate (512 - length witness_plain) 9 ++ replicate 512 9 ∧
    ∃ L, file_data witness_volume 0 witness_disk 4 data 168 witness_sah L
           [e_arr "sectors" (enc_doc (array_from 0 [32; 16]))].
Proof.
  set (data := witness_plain ++ replicate (512 - length witness_plain) 9 ++ replicate 512 9).
  set (end_ := runs_end witness_file_record 168 witness_runs).
  destruct (diff_data_ntfs_refines witness_volume 0 witness_disk 4 9 witness_file_record
    (replicate 1024 1) 168 witness_sah end_ [32; 16] (log_store (λ _, RNil)))
    as [(s' & E & _ & Ha) Hc].
  - apply witness_volume_ok.
  - apply (bool_decide_unpack _). by vm_compute.
  - by vm_compute.
  - by vm_compute.
  - by vm_compute.
  - replace [32; 16] with (runs_sector_list witness_volume 0 witness_runs 0) by (by vm_compute).
    apply (ds_runs _ _ _ _ _ _ _ _ 5000).
    + by vm_compute.
    + by vm_compute.
    + apply (runs_at_intro _ _ _ _ (take 168 witness_file_record) witness_nrh []
        (drop (168 + 40 + length (enc_runs witness_runs) + 1) witness_file_record)); by vm_compute.
    + cbn [runs_wf witness_runs]. split_and!; try (by vm_compute);
        split; vm_compute; intuition (lia || congruence).
    + split_and!; by vm_compute.
    + simpl. lia.
  - apply log_store_ready.
  - destruct (Hc data (take 50 data)) as [_ HL]; [by vm_compute|by vm_compute|].
    exists s', data. split; [exact E|]. split; [exact Ha|]. by split.
Defined.

(** The same data attribute at the end of the first sector of a record, which
    ends in 7, the number of the update sequence: the first run is read as
    cluster 7, and the second is not read. *)
Definition crossing_plain : list Z :=
  struct_enc ntfs_file_record [0x454c4946; 48; 3; 0; 0; 1; 54; 0; 0; 0; 0; 0; 0; 0; 7] ++
  [4; 17; 9; 9] ++ struct_enc ntfs_standard_attribute_header [0x10; 390; 0; 0; 0; 0; 0; 0; 0; 0; 0] ++
  replicate 366 0 ++ witness_data ++ end_marker ++ replicate 505 9.
Definition crossing_record : list Z :=
  protect 7 (take 512 crossing_plain) ++ protect 7 (drop 512 crossing_plain).

Definition sectors_of_record (record : list Z) : option (list command) :=
  match __diff_data_ntfs 4 witness_volume 0 (log_store (λ _, RNil)) record 9 with
  | Done (s', _) => Some (applied s')
  | _ => None
  end.

Lemma record_not_fixed_up :
  fixup_record witness_volume crossing_record = Some (crossing_plain, take 50 crossing_plain) ∧
  sectors_of_record crossing_plain =
    Some [cmd REDIS_FILE_SECTORS_DELETE [AInt 9]; push_sector 9 32; push_sector 9 16] ∧
  sectors_of_record crossing_record =
    Some [cmd REDIS_FILE_SECTORS_DELETE [AInt 9]; push_sector 9 56].
Proof. by vm_compute. Qed.

(** When nobody knows the first sector of a write to an NTFS volume, the
    first cluster is queued and the inspection returns [EXIT_FAILURE]: what lies
    behind it is neither queued nor inspected, for any length of the write
    ([deep_inspect_refines]: on ext4 every unknown block is queued). *)
Theorem deep_inspect_ntfs_drops `{MallocTotal} `{Connected} `{Host} k bootf po write_counter vmname
    write s :
  let lookup := cmd REDIS_SECTOR_GET [AInt (w_sector_num write)] in
  let cluster := take (Z.to_nat (Z.min (zlen (w_data write)) (ntfs_cluster_size bootf)))
                   (w_data write) in
  0 < w_nb_sectors write < 2 ^ 31 → zlen (w_data write) = w_nb_sectors write * SECTOR_SIZE →
  0 ≤ w_sector_num write < 2 ^ 62 → 0 ≤ ntfs_cluster_size bootf → ready s →
  reply_bytes 1024 (exec (applied s) lookup).2 = [] →
  ∃ s', qemu_deep_inspect_ntfs (S k) bootf po write_counter vmname write s
        = Done (s', EXIT_FAILURE) ∧
    issued s [lookup; cmd REDIS_ENQUEUE_WRITE
      [AInt (w_sector_num write); AInt REDIS_DEFAULT_TIMEOUT; ABin cluster]] s'.
Proof.
  intros lookup cluster Hn Hd Hs Hb Hr Hrep. unfold qemu_deep_inspect_ntfs. cbn [inspect_clusters].
  rewrite (uwrap_small 64 (w_nb_sectors write)), (proj2 (Z.ltb_lt _ _)) by lia.
  unfold inspect_cluster. rewrite Z.add_0_r, (uwrap_small 64 (w_sector_num write)) by lia.
  destruct (sector_lookup_issued s (w_sector_num write) 1024 Hr) as (s1 & E1 & Hi1).
  fold lookup in E1, Hi1. rewrite E1, Hrep.
  cbn [lift mbind run_bind negb Z.eqb EXIT_SUCCESS length Z.of_nat].
  destruct (enqueue_block_ok (ntfs_cluster_size bootf) write 0 s1) as (s2 & E2 & Hi2);
    [lia|lia|lia|done|done|eauto with store|].
  rewrite E2. cbn [lift mbind run_bind]. exists s2. split; [done|].
  rewrite Z.add_0_r, Z.sub_0_r, <-Hd in Hi2. by eapply issued_cons.
Qed.

Lemma deep_inspect_ntfs_drops_witness :
  ∃ s', qemu_deep_inspect_ntfs 1 witness_volume 0 5 (str_bytes "vm")
          {| w_sector_num := 64; w_nb_sectors := 16;
             w_data := replicate 4096 1 ++ replicate 4096 2 |} (log_store (λ _, RNil))
        = Done (s', EXIT_FAILURE) ∧
    applied s' = [cmd REDIS_SECTOR_GET [AInt 64];
                  cmd REDIS_ENQUEUE_WRITE [AInt 64; AInt 30; ABin (replicate 4096 1)]].
Proof.
  destruct (deep_inspect_ntfs_drops 0 witness_volume 0 5 (str_bytes "vm")
    {| w_sector_num := 64; w_nb_sectors := 16; w_data := replicate 4096 1 ++ replicate 4096 2 |}
    (log_store (λ _, RNil))) as (s' & E & _ & Ha).
  - by vm_compute.
  - by vm_compute.
  - by vm_compute.
  - by vm_compute.
  - apply log_store_ready.
  - done.
  - exists s'. split; [exact E|]. rewrite Ha. by vm_compute.
Defined.
