(* ===== verification/GrayFs.v ===== *)
(** * src/gray-fs/gray-fs.c: the files of the guest as a FUSE file system

    The handlers of [gammarayfs_oper]. The program's global variables that do
    not change while it serves are arguments, the store and the kernel's files
    are threaded through. A path is the characters of the string; the result of
    a handler is 0, a count or a negated error number. *)
From S2P Require Import Prelude Words Memory Scan NbdEnv RedisEnv Redis InspectLoad.

#[local] Open Scope string_scope.
#[local] Open Scope list_scope.
#[local] Open Scope Z_scope.

Definition REDIS_FILE_SECTORS_LGET := "LRANGE filesectors:%lu 0 -1".
Definition REDIS_FILE_SECTORS_LGET_VAR := "LRANGE filesectors:%lu %lu %lu".
Definition REDIS_DIR_FILES_LGET := "LRANGE dirlist:%lu 0 -1".

(** The C library's error numbers and flags. *)
Definition ENOENT : Z := 2.
Definition EINVAL : Z := 22.
Definition EROFS : Z := 30.
Definition O_RDONLY : Z := 0.

(** The members of [struct stat] that are set; all others are 0. *)
Record stat := {
  st_size : Z; st_mode : Z; st_nlink : Z; st_uid : Z; st_gid : Z;
  st_blksize : Z; st_blocks : Z; st_atime : Z; st_mtime : Z; st_ctime : Z;
}.

Section grayfs.
Context `{Malloc} `{Hiredis}.

(** ** Look-up *)

Definition gammarayfs_pathlookup (path : list Z) (s : kv_store) : option (kv_store * Z) :=
  '(s, inode, rc) ← redis_path_get s (take 4096 path) (u64 (- ENOENT));
  if negb (rc =? EXIT_SUCCESS) then Some (s, - ENOENT) else Some (s, s64 inode).

(** [redis_hash_field_get(handle, REDIS_FILE_SECTOR_GET, inode_num, name,
    (uint8_t* ) &field, &len2)]: both variables are the caller's, so that a reply
    leaves the size of the next in [len2]. *)
Definition stat_field (inode_num : Z) (name : string) (field len2 : Z) (s : kv_store) :
    option (kv_store * Z * Z * Z) :=
  '(s, d, rc) ← redis_hash_field_get s REDIS_FILE_SECTOR_GET (u64 inode_num)
                  (str_bytes name) len2;
  Some (s, overlay 8 field d, zlen d, rc).

(** The fields one after the other, until one fails. *)
Fixpoint stat_fields (inode_num : Z) (names : list string) (field len2 : Z) (s : kv_store) :
    option (kv_store * option (list Z)) :=
  match names with
  | [] => Some (s, Some [])
  | name :: names =>
      '(s, field, len2, rc) ← stat_field inode_num name field len2 s;
      if negb (rc =? EXIT_SUCCESS) then Some (s, None) else
      '(s, vs) ← stat_fields inode_num names field len2 s;
      Some (s, option_map (cons field) vs)
  end.

Definition stat_names : list string :=
  ["size"; "mode"; "link_count"; "uid"; "gid"; "atime"; "mtime"; "ctime"].

(** The assignments to [stbuf], in the order of [stat_names]. *)
Definition set_stat (block_size : Z) (vs : list Z) : option stat :=
  match vs with
  | [size; mode; link_count; uid; gid; atime; mtime; ctime] =>
      let st_size := s64 size in
      Some {| st_size := st_size; st_mode := u32 mode; st_nlink := u64 link_count;
              st_uid := u32 uid; st_gid := u32 gid; st_blksize := s64 block_size;
              st_blocks := if negb (Z.rem st_size 512 =? 0) then Z.quot st_size 512 + 1
                           else Z.quot st_size 512;
              st_atime := s64 atime; st_mtime := s64 mtime; st_ctime := s64 ctime |}
  | _ => None
  end.

(** [inr] is an error; what it leaves in [stbuf] is not looked at. *)
Definition gammarayfs_getattr (block_size : Z) (path : list Z) (s : kv_store) :
    option (kv_store * (stat + Z)) :=
  '(s, inode_num) ← gammarayfs_pathlookup path s;
  if inode_num <? 0 then Some (s, inr (- ENOENT)) else
  '(s, vs) ← stat_fields inode_num stat_names (u64 indeterminate) 8 s;
  match vs with
  | Some vs => st ← set_stat block_size vs; Some (s, inl st)
  | None => Some (s, inr (- ENOENT))
  end.

(** [buf] has [bufsize] bytes. *)
Definition gammarayfs_readlink (path : list Z) (bufsize : Z) (s : kv_store) :
    option (kv_store * list Z * Z) :=
  '(s, inode_num) ← gammarayfs_pathlookup path s;
  let buf := replicate (Z.to_nat bufsize) 0 in
  if inode_num <? 0 then Some (s, buf, - ENOENT) else
  '(s, d, rc) ← redis_hash_field_get s REDIS_FILE_SECTOR_GET (u64 inode_num)
                  (str_bytes "link_name") bufsize;
  buf ← mem_write buf 0 d;
  if negb (rc =? EXIT_SUCCESS) then Some (s, buf, - ENOENT) else Some (s, buf, 0).

(** ** Directories: the names are those handed to [filler] *)

(** [&(dlist[j][8])] as a C string *)
Definition dentry_name (dentry : list Z) : option (list Z) := cstr_at dentry 8.

(** The loop over the sectors of the directory, with the names handed out so
    far. [freed]: [dlist] is the list of the sector before, which is gone; a
    reply that is no array leaves it, and it is used again. *)
Fixpoint readdir_loop (slist : list (list Z)) (sector : Z) (freed : bool)
    (names : list (list Z)) (s : kv_store) : option (kv_store * list (list Z) * Z) :=
  match slist with
  | [] => Some (s, names, 0)
  | e :: slist =>
      p ← cstr_at e 0; sector ← pointer_arg p sector;
      '(s, dlist, rc) ← redis_list_get s REDIS_DIR_FILES_LGET sector None;
      if negb (rc =? EXIT_SUCCESS) then Some (s, names, - ENOENT) else
      match dlist with
      | Some l =>
          ns ← mapM dentry_name l;
          _ ← redis_free_list (Some (PLive <$> l)) (zlen l);
          readdir_loop slist sector true (names ++ ns) s
      | None => if freed then None else readdir_loop slist sector false names s
      end
  end.

Definition gammarayfs_readdir (path : list Z) (s : kv_store) :
    option (kv_store * list (list Z) * Z) :=
  '(s, inode_num) ← gammarayfs_pathlookup path s;
  if inode_num <? 0 then Some (s, [], - ENOENT) else
  '(s, slist, rc) ← redis_list_get s REDIS_FILE_SECTORS_LGET (u64 inode_num) None;
  if negb (rc =? EXIT_SUCCESS) then Some (s, [], - ENOENT) else
  match slist with
  | Some l =>
      '(s, names, rc) ← readdir_loop l 0 false [] s;
      if negb (rc =? 0) then Some (s, names, rc) else
      _ ← redis_free_list (Some (PLive <$> l)) (zlen l); Some (s, names, 0)
  | None => Some (s, [], 0)
  end.

Definition gammarayfs_open (path : list Z) (flags : Z) (s : kv_store) : option (kv_store * Z) :=
  '(s, inode_num) ← gammarayfs_pathlookup path s;
  if inode_num <? 0 then Some (s, - ENOENT) else
  if negb (Z.land flags 3 =? O_RDONLY) then Some (s, - EROFS) else
  Some (s, 0).

(** ** Reading *)

Section disk.
Context `{Posix} (fd_disk block_size : Z).

(** [while (readb < toread)]: every [read] goes to the same place of the buffer.
    [fuel] bounds the calls; at the end of the disk they go on forever. The
    last component is [None] on an error. *)
Fixpoint read_block (fuel : nat) (buf : list Z) (position toread readb : Z) (fs : files) :
    option (files * list Z * option Z) :=
  match fuel with
  | O => None
  | S fuel =>
      if readb <? toread then
        let '(fs, r) := sys_read fs fd_disk (u64 (toread - readb)) in
        match r with
        | inr _ => Some (fs, buf, None)
        | inl d => buf ← mem_write buf position d;
                   read_block fuel buf position toread (readb + zlen d) fs
        end
      else Some (fs, buf, Some readb)
  end.

(** The loop over the blocks; the result is [position] or an error. *)
Fixpoint read_blocks (fuel : nat) (l : list (list Z)) (sector size offset position : Z)
    (buf : list Z) (fs : files) : option (files * list Z * Z) :=
  match l with
  | [] => Some (fs, buf, position)
  | e :: l =>
      p ← cstr_at e 0; v ← pointer_arg p (u64 sector);
      let sector := s64 v in
      let toread := s64 (if 0 <? offset then block_size - offset else block_size) in
      let toread := if u64 (size - position) <? u64 toread then s64 (size - position)
                    else toread in
      if toread <=? 0 then Some (fs, buf, position) else
      if sector <? 0 then
        buf ← mem_write buf position (replicate (Z.to_nat toread) 0);
        read_blocks fuel l sector size 0 (u64 (position + toread)) buf fs
      else
        let '(fs, _) := lseek64 fs fd_disk (s64 (sector * 512 + offset)) in
        '(fs, buf, r) ← read_block fuel buf position toread 0 fs;
        match r with
        | None => Some (fs, buf, - EINVAL)
        | Some readb => read_blocks fuel l sector size 0 (u64 (position + readb)) buf fs
        end
  end.

(** [buf] is the caller's, of [size] bytes. [list] is not initialised: where the
    reply is no array, it is not a list. *)
Definition gammarayfs_read (fuel : nat) (path buf : list Z) (size offset : Z) (s : kv_store)
    (fs : files) : option (kv_store * files * list Z * Z) :=
  '(s, inode_num) ← gammarayfs_pathlookup path s;
  let start := u64 (Z.quot offset 4096) in
  '(s, st) ← gammarayfs_getattr block_size path s;
  match st with
  | inr _ => Some (s, fs, buf, - ENOENT)
  | inl st =>
      if st_size st <? offset then Some (s, fs, buf, - EINVAL) else
      let size := if u64 (st_size st) <? u64 (offset + size) then u64 (st_size st - offset)
                  else size in
      let end_ := u64 (start + u64 (size + 4095) `div` 4096) in
      if block_size =? 0 then None else
      let offset := s64 (u64 offset `mod` block_size) in
      '(s, l, rc) ← redis_list_get_var s REDIS_FILE_SECTORS_LGET_VAR (u64 inode_num)
                      start end_ None;
      if negb (rc =? EXIT_SUCCESS) then Some (s, fs, buf, - ENOENT) else
      l ← l;
      '(fs, buf, r) ← read_blocks fuel l 0 size offset 0 buf fs;
      if r =? - EINVAL then Some (s, fs, buf, r) else
      _ ← redis_free_list (Some (PLive <$> l)) (zlen l); Some (s, fs, buf, r)
  end.
End disk.

(** ** Start *)

(** What is left for [fuse_main]: the store, [block_size] and
    [partition_offset]. [inl] is an exit, behind [redis_shutdown]. A store that
    cannot be had is not noticed: the null handle is used. *)
Definition grayfs_main (x : redisContext) (err : Z) :
    option ((kv_store * Z) + kv_store * Z * Z) :=
  handle ← redis_init x err (str_bytes "4");
  let exit_with s rc := s ← redis_shutdown s []; Some (inl (s, rc)) in
  '(s, d, rc) ← redis_hash_field_get handle REDIS_SUPERBLOCK_SECTOR_GET 0
                  (str_bytes "block_size") 8;
  if negb (rc =? EXIT_SUCCESS) then exit_with s (- ENOENT) else
  if negb (zlen d =? 8) then exit_with s EXIT_FAILURE else
  '(s, partition_offset, rc) ← qemu_get_pt_offset s 0;
  if negb (rc =? EXIT_SUCCESS) then exit_with s EXIT_FAILURE else
  Some (inr (s, le_dec d, partition_offset)).
End grayfs.
