(* ===== verification/GrayFsProps.v ===== *)
(** * Properties of the FUSE file system *)
From S2P Require Import Prelude Words Memory Scan NbdEnv RedisEnv Redis RedisProps StoreView InspectLoad InspectLoadProps InspectIndex InspectEmitProps GrayFs.

#[local] Open Scope string_scope.
#[local] Open Scope list_scope.
#[local] Open Scope Z_scope.

Section fs.
Context `{Malloc} `{Connected}.

(** ** Look-up *)

Definition path_cmd (path : list Z) : command := cmd REDIS_PATH_GET [ABin (take 4096 path)].

(** The server has the path under this number; or it has no such path. *)
Definition path_known (d : db) (path : list Z) (inode : Z) : Prop :=
  (exec d (path_cmd path)).2 = RString (decimal inode) ∧ 0 ≤ inode < 2 ^ 63.

Definition path_unknown (d : db) (path : list Z) : Prop :=
  (exec d (path_cmd path)).2 = RNil.

Lemma pathlookup_known s path inode :
  ready s → path_known (applied s) path inode →
  ∃ s', gammarayfs_pathlookup path s = Some (s', inode) ∧ issued s [path_cmd path] s'.
Proof.
  intros Hr [Hrep Hi]. unfold gammarayfs_pathlookup, redis_path_get.
  destruct (flushed_issued s (path_cmd path) Hr) as (s' & E & Hi' & _).
  unfold path_cmd in *. rewrite E, Hrep. cbn [mbind option_bind].
  assert (0 < zlen (decimal inode)) as Hl.
  { destruct (decimal_token inode) as [Hn _]. destruct (decimal inode); [done|simpl; lia]. }
  rewrite (proj2 (Z.ltb_lt _ _) Hl), scan_decimal by lia.
  cbn [mbind option_bind negb Z.eqb EXIT_SUCCESS]. exists s'. by rewrite swrap_small by lia.
Qed.

Lemma pathlookup_unknown s path :
  ready s → path_unknown (applied s) path →
  ∃ s', gammarayfs_pathlookup path s = Some (s', - ENOENT) ∧ issued s [path_cmd path] s'.
Proof.
  intros Hr Hrep. unfold gammarayfs_pathlookup, redis_path_get.
  destruct (flushed_issued s (path_cmd path) Hr) as (s' & E & Hi' & _).
  unfold path_unknown, path_cmd in *. rewrite E, Hrep. cbn [mbind option_bind]. by exists s'.
Qed.

(** ** Attributes *)

(** What the variable holds after each field, when a reply that does not fit
    leaves it, and the size of a reply bounds the next. *)
Fixpoint stat_values (d : db) (inode : Z) (names : list string) (field len2 : Z) : list Z :=
  match names with
  | [] => []
  | name :: names =>
      let b := reply_bytes len2 (exec d (file_field name inode)).2 in
      overlay 8 field b
      :: stat_values (exec d (file_field name inode)).1 inode names (overlay 8 field b) (zlen b)
  end.

Definition field_cmds (inode : Z) (names : list string) : list command :=
  (λ name, file_field name inode) <$> names.

Lemma stat_fields_ok inode names : 0 ≤ inode < 2 ^ 63 → ∀ field len2 s,
  ready s →
  ∃ s', stat_fields inode names field len2 s
        = Some (s', Some (stat_values (applied s) inode names field len2)) ∧
    issued s (field_cmds inode names) s'.
Proof.
  intros Hi. induction names as [|name names IH]; intros field len2 s Hr.
  { exists s. split; [done|by apply issued_refl]. }
  cbn [stat_fields]. unfold stat_field. rewrite uwrap_small by lia.
  destruct (hash_get_issued s REDIS_FILE_SECTOR_GET inode (str_bytes name) len2 Hr)
    as (s1 & E1 & Hi1). fold (file_field name inode) in *.
  rewrite E1. cbn [mbind option_bind Z.eqb EXIT_SUCCESS negb].
  set (b := reply_bytes _ _) in *.
  destruct (IH (overlay 8 field b) (zlen b) s1 (issued_ready _ _ _ Hi1)) as (s2 & E2 & Hi2).
  rewrite E2. cbn [mbind option_bind option_map]. exists s2. split.
  - destruct Hi1 as [_ Ha]. cbn [stat_values]. fold b. by rewrite Ha.
  - by eapply issued_cons.
Qed.

(** Every field has 8 bytes. *)
Fixpoint attributes (d : db) (inode : Z) (names : list string) (vs : list Z) : Prop :=
  match names, vs with
  | [], [] => True
  | name :: names, v :: vs =>
      (exec d (file_field name inode)).2 = RString (le_enc 8 v) ∧ 0 ≤ v < 2 ^ 64 ∧
      attributes (exec d (file_field name inode)).1 inode names vs
  | _, _ => False
  end.

Lemma last_cons_default (v : Z) vs : ∀ d, last (v :: vs) d = last vs v.
Proof.
  revert v. induction vs as [|v' vs IH]; intros v d; [done|].
  change (last (v' :: vs) d = last (v' :: vs) v). by rewrite !IH.
Qed.

Lemma stat_values_known inode names : ∀ d vs field more,
  attributes d inode names vs →
  stat_values d inode (names ++ more) field 8
  = vs ++ stat_values (exec_all d (field_cmds inode names)) inode more (last vs field) 8.
Proof.
  induction names as [|name names IH]; intros d vs field more Ha; destruct vs as [|v vs]; try done.
  destruct Ha as (Er & Hv & Ha). cbn [app stat_values].
  rewrite Er, reply_bytes_fits by (rewrite length_le_enc; lia).
  rewrite overlay_full by done. rewrite length_le_enc. change (Z.of_nat 8) with 8.
  rewrite (IH _ vs v more Ha). f_equal. f_equal. unfold exec_all. cbn [field_cmds fmap list_fmap foldl].
  f_equal. by rewrite last_cons_default.
Qed.

Lemma attributes_last inode names : ∀ d vs v,
  attributes d inode names (vs ++ [v]) → 0 ≤ v < 2 ^ 64.
Proof.
  induction names as [|name names IH]; intros d vs v Ha.
  { by destruct vs. }
  destruct vs as [|v' vs]; destruct Ha as (_ & Hv & Ha); [done|by eapply IH].
Qed.

(** Once a reply was empty no later one fits. *)
Lemma stat_values_stale inode names : ∀ d field,
  0 ≤ field < 2 ^ 64 → stat_values d inode names field 0 = replicate (length names) field.
Proof.
  induction names as [|name names IH]; intros d field Hf; [done|].
  cbn [stat_values length replicate].
  assert (∀ r, reply_bytes 0 r = []) as Hb.
  { intros []; simpl; try done. destruct (Z.ltb_spec 0 (zlen s)), (Z.leb_spec (zlen s) 0);
      done || lia. }
  rewrite Hb. unfold overlay. rewrite drop_0. cbn [app length].
  rewrite le_dec_enc_small by (simpl; lia).
  by rewrite (IH _ field Hf).
Qed.

Lemma getattr_ok block_size s path inode :
  ready s → path_known (applied s) path inode →
  let d := exec_all (applied s) [path_cmd path] in
  ∃ s' st, gammarayfs_getattr block_size path s = Some (s', inl st) ∧
    set_stat block_size (stat_values d inode stat_names (u64 indeterminate) 8) = Some st ∧
    issued s (path_cmd path :: field_cmds inode stat_names) s'.
Proof.
  intros Hr Hk d. pose proof Hk as [_ Hi]. unfold gammarayfs_getattr.
  destruct (pathlookup_known s path inode Hr Hk) as (s1 & E1 & Hi1).
  rewrite E1. cbn [mbind option_bind]. case_test.
  destruct (stat_fields_ok inode stat_names Hi (u64 indeterminate) 8 s1 (issued_ready _ _ _ Hi1))
    as (s2 & E2 & Hi2).
  rewrite E2. cbn [mbind option_bind]. destruct Hi1 as [Hr1 Ha1]. rewrite Ha1. fold d.
  eexists s2, _. split; [done|]. split; [done|].
  by eapply issued_cons; [split|].
Qed.
End fs.

Section listing.
Context `{MallocTotal} `{Connected}.

(** ** Directories *)

Definition sectors_cmd (inode : Z) : command := cmd REDIS_FILE_SECTORS_LGET [AInt inode].
Definition dir_cmd (sector : Z) : command := cmd REDIS_DIR_FILES_LGET [AInt sector].

Definition sector_text : Z → list Z := pointer_text "sector".

(** A directory entry: eight bytes, and the name. *)
Definition dentry (e name : list Z) : Prop :=
  ∃ h, e = h ++ name ∧ length h = 8%nat ∧ Forall (λ c, c ≠ 0) name ∧ zlen e < 2 ^ 31.

(** The entries of the sectors, in order, have these names. *)
Fixpoint dir_listing (d : db) (sectors : list Z) (names : list (list Z)) : Prop :=
  match sectors with
  | [] => names = []
  | sector :: sectors =>
      ∃ n es ns names', names = ns ++ names' ∧
        (exec d (dir_cmd sector)).2 = RArray n (RString <$> es) ∧ zlen es < 2 ^ 32 ∧
        Forall2 dentry es ns ∧ 0 ≤ sector < 2 ^ 64 ∧
        dir_listing (exec d (dir_cmd sector)).1 sectors names'
  end.

Lemma dentry_names_ok es ns :
  Forall2 dentry es ns → mapM dentry_name ((λ e, e ++ [0]) <$> es) = Some ns.
Proof.
  induction 1 as [|e n es ns (h & -> & Hh & Hn & _) _ IH]; [done|].
  rewrite fmap_cons. cbn [mapM]. rewrite <-app_assoc.
  assert (dentry_name (h ++ n ++ [0]) = Some n) as -> by (apply cstr_at_app; [lia|done]).
  cbn [mbind option_bind]. rewrite IH. done.
Qed.

Lemma sector_text_pointer sector old :
  0 ≤ sector < 2 ^ 64 →
  ∃ p, cstr_at (sector_text sector ++ [0]) 0 = Some p ∧ pointer_arg p old = Some sector.
Proof.
  intros Hs. exists (sector_text sector). apply pointer_text_read; [|by repeat constructor|done].
  split; [done|by repeat constructor].
Qed.

Lemma sector_texts_short sectors :
  Forall (λ e, zlen e < 2 ^ 31) (sector_text <$> sectors).
Proof. by apply pointer_texts_short. Qed.

Lemma readdir_loop_ok sectors : ∀ s names ns freed old,
  ready s → dir_listing (applied s) sectors ns →
  ∃ s', readdir_loop ((λ e, e ++ [0]) <$> (sector_text <$> sectors)) old freed names s
        = Some (s', names ++ ns, 0) ∧
    issued s (dir_cmd <$> sectors) s'.
Proof.
  induction sectors as [|sector sectors IH]; intros s names ns freed old Hr Hd.
  { simpl in Hd. subst. rewrite app_nil_r. exists s. split; [done|by apply issued_refl]. }
  destruct Hd as (n & es & ns1 & ns2 & -> & Erep & Hl & Hes & Hsec & Hd).
  rewrite !fmap_cons. cbn [readdir_loop].
  destruct (sector_text_pointer sector old Hsec) as (p & -> & Ep). cbn [mbind option_bind].
  rewrite Ep. cbn [mbind option_bind].
  assert (Forall (λ e, zlen e < 2 ^ 31) es) as He.
  { clear -Hes. induction Hes as [|e n es ns (h & _ & _ & _ & He) _ IH]; by constructor. }
  destruct (list_get_issued s REDIS_DIR_FILES_LGET sector None n es Hr He Hl Erep)
    as (s1 & E1 & Hi1 & _). fold (dir_cmd sector) in *.
  rewrite E1. cbn [mbind option_bind negb Z.eqb EXIT_SUCCESS].
  rewrite (dentry_names_ok _ _ Hes). cbn [mbind option_bind].
  rewrite free_copies. cbn [mbind option_bind].
  destruct Hi1 as [Hr1 Ha1]. unfold exec_all in Ha1. cbn [foldl] in Ha1.
  destruct (IH s1 (names ++ ns1) ns2 true sector Hr1) as (s2 & E2 & Hi2); [by rewrite Ha1|].
  exists s2. rewrite E2, <-app_assoc. split; [done|].
  by eapply (issued_cons _ (dir_cmd sector)); [split|].
Qed.
End listing.

(** [st_blocks]: the sectors, counting a last incomplete one. *)
Lemma round_up_blocks size :
  0 ≤ size →
  (if negb (Z.rem size 512 =? 0) then Z.quot size 512 + 1 else Z.quot size 512)
  = (size + 511) `div` 512.
Proof.
  intros Hs. rewrite Z.rem_mod_nonneg, Z.quot_div_nonneg by lia.
  pose proof (Z.div_mod size 512 ltac:(lia)) as E. pose proof (Z.mod_pos_bound size 512 ltac:(lia)).
  case_test; cbn [negb]; apply Z.div_unique_pos with
    (if size `mod` 512 =? 0 then 511 else size `mod` 512 - 1); case_test; lia.
Qed.

(** ** Properties *)

(** C36: [getattr] on a path the store does not have is ENOENT. On one whose
    file has every field, as the crawlers write them, it gives exactly these, and
    the sectors the size needs.
    A field that is missing, though, is no error: it and all the fields behind
    it get the value of the field before, since the size of the empty reply is
    the room for the next ones. *)
Theorem gammarayfs_getattr_spec `{Malloc} `{Connected} block_size s path :
  ready s →
  (path_unknown (applied s) path →
   ∃ s', gammarayfs_getattr block_size path s = Some (s', inr (- ENOENT)) ∧
     issued s [path_cmd path] s') ∧
  (∀ inode, path_known (applied s) path inode →
   let d := exec_all (applied s) [path_cmd path] in
   ∃ s' st, gammarayfs_getattr block_size path s = Some (s', inl st) ∧
     issued s (path_cmd path :: field_cmds inode stat_names) s' ∧
     (∀ size mode link_count uid gid atime mtime ctime,
        attributes d inode stat_names [size; mode; link_count; uid; gid; atime; mtime; ctime] →
        size < 2 ^ 63 →
        st = {| st_size := size; st_mode := u32 mode; st_nlink := link_count;
                st_uid := u32 uid; st_gid := u32 gid; st_blksize := s64 block_size;
                st_blocks := (size + 511) `div` 512;
                st_atime := s64 atime; st_mtime := s64 mtime; st_ctime := s64 ctime |}) ∧
     (∀ n1 name n2 v vs, stat_names = n1 ++ name :: n2 → attributes d inode n1 (vs ++ [v]) →
        (exec (exec_all d (field_cmds inode n1)) (file_field name inode)).2 = RNil →
        set_stat block_size (vs ++ replicate (S (S (length n2))) v) = Some st)).
Proof.
  intros Hr. split.
  - intros Hu. destruct (pathlookup_unknown s path Hr Hu) as (s1 & E1 & Hi1).
    unfold gammarayfs_getattr. rewrite E1. by exists s1.
  - intros inode Hk d.
    destruct (getattr_ok block_size s path inode Hr Hk) as (s' & st & E & Est & Hi). fold d in Est.
    exists s', st. split; [exact E|]. split; [exact Hi|]. split.
    + intros size mode link_count uid gid atime mtime ctime Ha Hs.
      pose proof (stat_values_known inode stat_names d _ (u64 indeterminate) [] Ha) as Hv.
      rewrite !app_nil_r in Hv. rewrite Hv in Est.
      destruct Ha as (_ & Hsz & _ & _ & _ & Hl & _). injection Est as <-.
      by rewrite (swrap_small 64 size), (uwrap_small 64 link_count), round_up_blocks by lia.
    + intros n1 name n2 v vs En Ha Hnil. rewrite <-Est. f_equal. rewrite En.
      rewrite (stat_values_known inode n1 d _ _ _ Ha), last_last, <-app_assoc. f_equal.
      cbn [stat_values]. rewrite Hnil. cbn [reply_bytes length].
      assert (0 ≤ v < 2 ^ 64) as Hv by (by eapply attributes_last).
      assert (overlay 8 v [] = v) as Ev.
      { unfold overlay. rewrite drop_0. cbn [app]. by apply le_dec_enc_small. }
      by rewrite Ev, stat_values_stale.
Qed.

(** C37: [readdir] hands out the names of the directory's entries, sector after
    sector and entry after entry: what an entry has behind its first eight
    bytes. *)
Theorem gammarayfs_readdir_spec `{MallocTotal} `{Connected} s path inode n sectors names :
  ready s → path_known (applied s) path inode →
  let d := exec_all (applied s) [path_cmd path] in
  (exec d (sectors_cmd inode)).2 = RArray n (RString <$> (sector_text <$> sectors)) →
  zlen sectors < 2 ^ 32 → dir_listing (exec d (sectors_cmd inode)).1 sectors names →
  ∃ s', gammarayfs_readdir path s = Some (s', names, 0) ∧
    issued s (path_cmd path :: sectors_cmd inode :: (dir_cmd <$> sectors)) s'.
Proof.
  intros Hr Hk d Hrep Hl Hd. pose proof Hk as [_ Hi]. unfold gammarayfs_readdir.
  destruct (pathlookup_known s path inode Hr Hk) as (s1 & E1 & Hi1).
  rewrite E1. cbn [mbind option_bind]. case_test. rewrite uwrap_small by lia.
  pose proof Hi1 as [Hr1 Ha1].
  destruct (list_get_issued s1 REDIS_FILE_SECTORS_LGET inode None n (sector_text <$> sectors))
    as (s2 & E2 & Hi2 & _); [done|apply sector_texts_short|by rewrite length_fmap| |].
  { rewrite Ha1. exact Hrep. }
  rewrite E2. cbn [mbind option_bind negb Z.eqb EXIT_SUCCESS].
  destruct (readdir_loop_ok sectors s2 [] names false 0 (issued_ready _ _ _ Hi2))
    as (s3 & E3 & Hi3).
  { destruct Hi2 as [_ Ha2]. rewrite Ha2, Ha1. exact Hd. }
  rewrite E3. cbn [mbind option_bind negb Z.eqb app]. rewrite free_copies.
  exists s3. split; [done|]. eapply issued_cons; [exact Hi1|]. by eapply issued_cons.
Qed.

(** C38: [read] behind the end of the file is EINVAL. Anywhere else, if the
    file has a block there, it has no result: [redis_list_get_var] copies the
    names of the blocks into blocks of a single byte. *)
Theorem gammarayfs_read_spec `{MallocTotal} `{Connected} `{Posix} fd_disk block_size fuel s path
    inode buf size offset fs vs st :
  ready s → path_known (applied s) path inode → 0 < block_size < 2 ^ 63 →
  let d1 := exec_all (applied s) [path_cmd path] in
  let d2 := exec_all d1 [path_cmd path] in
  path_known d1 path inode → attributes d2 inode stat_names vs →
  set_stat block_size vs = Some st →
  let start := u64 (Z.quot offset 4096) in
  let size' := if u64 (st_size st) <? u64 (offset + size) then u64 (st_size st - offset)
               else size in
  (st_size st < offset →
   ∃ s', gammarayfs_read fd_disk block_size fuel path buf size offset s fs
         = Some (s', fs, buf, - EINVAL)) ∧
  (offset ≤ st_size st → ∀ x xs, x ≠ [] → zlen (x :: xs) < 2 ^ 32 →
   (exec (exec_all d2 (field_cmds inode stat_names))
      (cmd REDIS_FILE_SECTORS_LGET_VAR
         [AInt inode; AInt start; AInt (u64 (start + u64 (size' + 4095) `div` 4096))])).2
   = RArray 0 (RString <$> x :: xs) →
   gammarayfs_read fd_disk block_size fuel path buf size offset s fs = None).
Proof.
  intros Hr Hk Hb d1 d2 Hk1 Ha Hst start size'. pose proof Hk as [_ Hi].
  unfold gammarayfs_read.
  destruct (pathlookup_known s path inode Hr Hk) as (s1 & E1 & [Hr1 Ha1]).
  rewrite E1. cbn [mbind option_bind]. fold start.
  destruct (getattr_ok block_size s1 path inode Hr1) as (s2 & st' & E2 & Est & [Hr2 Ha2]);
    [by rewrite Ha1|].
  rewrite E2. cbn [mbind option_bind].
  assert (st' = st) as ->.
  { rewrite Ha1 in Est. fold d1 d2 in Est.
    pose proof (stat_values_known inode stat_names d2 vs (u64 indeterminate) [] Ha) as Hv.
    rewrite !app_nil_r in Hv. rewrite Hv, Hst in Est. by injection Est. }
  split.
  - intros Ho. case_test. by exists s2.
  - intros Ho x xs Hx Hl Hrep. case_test. fold size'. case_test.
    rewrite (uwrap_small 64 inode) by lia.
    rewrite (list_var_overflow s2 _ _ _ _ _ x xs (rd_synced _ Hr2) Hl); [done| |done].
    fold (applied s2). rewrite Ha2, Ha1. exact Hrep.
Qed.

(** ** Witnesses *)

(** A server with a file [/a], number 5, of 1500 bytes, a link that is not
    known, and a directory [/d], number 6, of one sector with one entry. *)
Definition fuse_reply (c : command) : redisReply :=
  if bool_decide (c = path_cmd (str_bytes "/a")) then RString (decimal 5)
  else if bool_decide (c = path_cmd (str_bytes "/d")) then RString (decimal 6)
  else if bool_decide (c = file_field "size" 5) then RString (le_enc 8 1500)
  else if bool_decide (c = file_field "mode" 5) then RString (le_enc 8 33188)
  else if bool_decide (c = sectors_cmd 6) then RArray 0 [RString (sector_text 80)]
  else if bool_decide (c = dir_cmd 80) then
    RArray 0 [RString ([12; 0; 0; 0; 12; 0; 1; 1] ++ str_bytes "f")]
  else if bool_decide (c_fmt c = REDIS_FILE_SECTORS_LGET_VAR) then
    RArray 0 [RString (sector_text 64)]
  else if bool_decide (c_fmt c = REDIS_FILE_SECTOR_GET) then
    match c_args c with [AInt 7; _] => RString (le_enc 8 1) | _ => RNil end
  else if bool_decide (c = path_cmd (str_bytes "/b")) then RString (decimal 7)
  else RNil.

#[local] Instance fuse_server : RedisServer | 0 := log_server fuse_reply.

Definition fuse_store : kv_store := log_store fuse_reply.

(** [/a] has no link count: the count, the owner and the times are the mode. *)
Lemma gammarayfs_getattr_spec_witness :
  ∃ s' st, gammarayfs_getattr 4096 (str_bytes "/a") fuse_store = Some (s', inl st) ∧
    st_size st = 1500 ∧ st_blocks st = 3 ∧ st_nlink st = 33188 ∧ st_mtime st = 33188.
Proof.
  destruct (gammarayfs_getattr_spec 4096 fuse_store (str_bytes "/a")) as [_ Hk].
  { apply log_store_ready. }
  destruct (Hk 5) as (s' & st & E & _ & _ & Hstale); [split; [by vm_compute|lia]|].
  exists s', st. split; [exact E|].
  assert (set_stat 4096 ([1500] ++ replicate 7 33188) = Some st) as Hst.
  { apply (Hstale ["size"; "mode"] "link_count" (drop 3 stat_names) 33188 [1500]);
      [by vm_compute| |by vm_compute].
    split; [by vm_compute|]. split; [lia|]. split; [by vm_compute|]. split; [lia|done]. }
  injection Hst as <-. repeat split; vm_compute; reflexivity.
Defined.

Lemma gammarayfs_readdir_spec_witness :
  ∃ s', gammarayfs_readdir (str_bytes "/d") fuse_store = Some (s', [str_bytes "f"], 0).
Proof.
  destruct (gammarayfs_readdir_spec fuse_store (str_bytes "/d") 6 0 [80] [str_bytes "f"])
    as (s' & E & _).
  - apply log_store_ready.
  - split; [by vm_compute|lia].
  - by vm_compute.
  - by vm_compute.
  - exists 0, [[12; 0; 0; 0; 12; 0; 1; 1] ++ str_bytes "f"], [str_bytes "f"], [].
    split; [done|]. split; [by vm_compute|]. split; [done|]. split; [|split; [lia|done]].
    constructor; [|constructor]. exists [12; 0; 0; 0; 12; 0; 1; 1].
    split; [done|]. split; [done|]. split; [|by vm_compute].
    apply (bool_decide_unpack _). by vm_compute.
  - exists s'. exact E.
Defined.

(** [/b] has one byte, and one block. *)
Lemma gammarayfs_read_spec_witness :
  (∃ s', gammarayfs_read 3 4096 9 (str_bytes "/b") [0] 1 2 fuse_store (([], 0) : files)
         = Some (s', ([], 0), [0], - EINVAL)) ∧
  gammarayfs_read 3 4096 9 (str_bytes "/b") [0] 1 0 fuse_store (([], 0) : files) = None.
Proof.
  assert (attributes (exec_all (exec_all (applied fuse_store) [path_cmd (str_bytes "/b")])
    [path_cmd (str_bytes "/b")]) 7 stat_names (replicate 8 1)) as Ha.
  { cbn [attributes stat_names replicate].
    repeat (split; [by vm_compute|]; split; [lia|]). done. }
  split.
  - refine (proj1 (gammarayfs_read_spec 3 4096 9 fuse_store (str_bytes "/b") 7 [0] 1 2
      (([], 0) : files) (replicate 8 1) _ _ _ _ _ Ha eq_refl) _).
    + apply log_store_ready.
    + split; [by vm_compute|lia].
    + lia.
    + split; [by vm_compute|lia].
    + by vm_compute.
  - refine (proj2 (gammarayfs_read_spec 3 4096 9 fuse_store (str_bytes "/b") 7 [0] 1 0
      (([], 0) : files) (replicate 8 1) _ _ _ _ _ Ha eq_refl) _ (sector_text 64) [] _ _ _).
    + apply log_store_ready.
    + split; [by vm_compute|lia].
    + lia.
    + split; [by vm_compute|lia].
    + by vm_compute.
    + done.
    + by vm_compute.
    + by vm_compute.
Defined.
